(** * Browser AI agent: command pipeline components

    A shallow embedding of the pipeline components of the browser agent
    (fast-path matcher, model gateway and its rate limiter, intent
    resolver, action generator, safety gate, executor) together with the
    properties stated about them.

    Strings are sequences of UTF-16 code units, as in the source
    language; regular expressions are interpreted by a backtracking
    matcher that follows the priorities of the ECMAScript matcher. *)

From Stdlib Require Import ZArith NArith QArith List Bool Lia String Ascii.
From Stdlib Require Import DecimalString.
From Stdlib Require DecimalZ DecimalPos DecimalN.
Import ListNotations.
Close Scope Q_scope.

Set Implicit Arguments.

(* ================================================================== *)
(** ** Strings of code units *)
(* ================================================================== *)

Module JS.

(** A code unit (0 .. 65535). *)
Definition char := N.
Definition jsstring := list char.

(** The code units of an ASCII literal. *)
Definition str (s : string) : jsstring :=
  map N_of_ascii (list_ascii_of_string s).

Definition dquote : char := 34%N.
Definition squote : char := 39%N.
Definition backtick : char := 96%N.
Definition newline : char := 10%N.

Fixpoint eqb (a b : jsstring) : bool :=
  match a, b with
  | [], [] => true
  | x :: a', y :: b' => N.eqb x y && eqb a' b'
  | _, _ => false
  end.

Definition between (lo hi c : char) : bool := (N.leb lo c && N.leb c hi)%bool.

(** WhiteSpace and LineTerminator code units: what [\s] matches and
    what [String.prototype.trim] strips. *)
Definition is_space (c : char) : bool :=
  (between 9 13 c || N.eqb c 32 || N.eqb c 160 || N.eqb c 5760
   || between 8192 8202 c || N.eqb c 8232 || N.eqb c 8233
   || N.eqb c 8239 || N.eqb c 8287 || N.eqb c 12288 || N.eqb c 65279)%N%bool.

Definition is_line_terminator (c : char) : bool :=
  (N.eqb c 10 || N.eqb c 13 || N.eqb c 8232 || N.eqb c 8233)%N%bool.

Definition is_digit (c : char) : bool := between 48%N 57%N c.
Definition is_upper (c : char) : bool := between 65%N 90%N c.
Definition is_lower (c : char) : bool := between 97%N 122%N c.

(** [\w]: ASCII letters, digits and underscore. *)
Definition is_word (c : char) : bool :=
  (is_upper c || is_lower c || is_digit c || N.eqb c 95%N)%bool.

(** The other case of an ASCII letter; any other code unit is kept. *)
Definition swapcase (c : char) : char :=
  if is_upper c then (c + 32)%N
  else if is_lower c then (c - 32)%N
  else c.

Fixpoint trimStart (s : jsstring) : jsstring :=
  match s with
  | c :: s' => if is_space c then trimStart s' else s
  | [] => []
  end.

Definition trimEnd (s : jsstring) : jsstring := rev (trimStart (rev s)).

(** [String.prototype.trim]. *)
Definition trim (s : jsstring) : jsstring := trimEnd (trimStart s).

(** [s.slice(0, n)]. *)
Definition slice0 (n : nat) (s : jsstring) : jsstring := firstn n s.

Fixpoint prefixb (p s : jsstring) : bool :=
  match p, s with
  | [], _ => true
  | x :: p', y :: s' => N.eqb x y && prefixb p' s'
  | _ :: _, [] => false
  end.

(** [s.startsWith(p)]. *)
Definition startsWith (s p : jsstring) : bool := prefixb p s.

(** [xs.join(sep)]. *)
Fixpoint join (sep : jsstring) (xs : list jsstring) : jsstring :=
  match xs with
  | [] => []
  | [x] => x
  | x :: rest => x ++ sep ++ join sep rest
  end.

(** Decimal rendering of an integer-valued number. *)
Definition of_Z (z : Z) : jsstring :=
  str (NilZero.string_of_int (Z.to_int z)).

End JS.

Import JS.

(* ================================================================== *)
(** ** Regular expressions *)
(* ================================================================== *)

Module Regex.

Inductive class_item : Type :=
| CChar (c : char)            (* a single code unit *)
| CRange (lo hi : char)       (* lo-hi *)
| CSpace                      (* \s *)
| CNotSpace                   (* \S *)
| CWord                       (* \w *)
| CDigit.                     (* \d *)

Inductive regex : Type :=
| REmpty
| RChar (c : char)                        (* a literal code unit *)
| RAny                                    (* . *)
| RSet (neg : bool) (items : list class_item)   (* [...] and [^...] *)
| RBol                                    (* ^ *)
| REol                                    (* $ *)
| RWordB                                  (* \b *)
| RSeq (r1 r2 : regex)
| RAlt (r1 r2 : regex)
| RStar (greedy : bool) (r : regex)       (* r* and r*? *)
| ROpt (r : regex)                        (* r? *)
| RGroup (i : nat) (r : regex).           (* the i-th capturing group *)

(** [r+] *)
Definition RPlus (r : regex) : regex := RSeq r (RStar true r).

Fixpoint seqs (rs : list regex) : regex :=
  match rs with
  | [] => REmpty
  | [r] => r
  | r :: rest => RSeq r (seqs rest)
  end.

Fixpoint alts (rs : list regex) : regex :=
  match rs with
  | [] => REmpty
  | [r] => r
  | r :: rest => RAlt r (alts rest)
  end.

(** A literal word. *)
Definition lit (s : string) : regex := seqs (map RChar (str s)).

(** A pattern with the flags the source uses. *)
Record pattern : Type := mkPattern {
  re_body : regex;
  re_ignoreCase : bool;
  re_global : bool
}.

Record mstate : Type := mkState {
  ms_prev : option char;               (* the code unit before the cursor *)
  ms_rest : jsstring;                  (* the input from the cursor on *)
  ms_pos : nat;                        (* the cursor *)
  ms_caps : list (nat * jsstring)      (* captures, latest first *)
}.

Definition advance (c : char) (rest : jsstring) (s : mstate) : mstate :=
  mkState (Some c) rest (S (ms_pos s)) (ms_caps s).

Definition orElse {A} (a b : option A) : option A :=
  match a with
  | Some x => Some x
  | None => b
  end.

Section Matcher.

Variable ignoreCase : bool.

Definition item_has (it : class_item) (c : char) : bool :=
  match it with
  | CChar x => N.eqb x c
  | CRange lo hi => between lo hi c
  | CSpace => is_space c
  | CNotSpace => negb (is_space c)
  | CWord => is_word c
  | CDigit => is_digit c
  end.

(** Membership up to canonicalisation: with [ignoreCase] a code unit
    matches when it or its other-case form is in the set.  Code units
    from 128 on never canonicalise to an ASCII one, and the sets of the
    source hold ASCII code units and caseless white space only. *)
Definition item_matches (it : class_item) (c : char) : bool :=
  (item_has it c || (ignoreCase && item_has it (swapcase c)))%bool.

Definition char_matches (x c : char) : bool := item_matches (CChar x) c.

Definition set_matches (neg : bool) (items : list class_item) (c : char) : bool :=
  xorb neg (existsb (fun it => item_matches it c) items).

Definition word_at (o : option char) : bool :=
  match o with
  | Some c => is_word c
  | None => false
  end.

Definition step1 (p : char -> bool) (k : mstate -> option mstate)
           (s : mstate) : option mstate :=
  match ms_rest s with
  | [] => None
  | c :: rest => if p c then k (advance c rest s) else None
  end.

(** The matcher, in continuation-passing style: [m r k s] matches [r]
    at [s] and hands the state after it to [k]; alternatives are tried
    in priority order.  An iteration of a star that consumes nothing is
    rejected, so at most [length (ms_rest s)] iterations happen. *)
Fixpoint m (r : regex) (k : mstate -> option mstate) (s : mstate)
  {struct r} : option mstate :=
  match r with
  | REmpty => k s
  | RChar x => step1 (char_matches x) k s
  | RAny => step1 (fun c => negb (is_line_terminator c)) k s
  | RSet neg items => step1 (set_matches neg items) k s
  | RBol => if Nat.eqb (ms_pos s) 0 then k s else None
  | REol => match ms_rest s with [] => k s | _ :: _ => None end
  | RWordB =>
      if xorb (word_at (ms_prev s)) (word_at (hd_error (ms_rest s)))
      then k s else None
  | RSeq r1 r2 => m r1 (m r2 k) s
  | RAlt r1 r2 => orElse (m r1 k s) (m r2 k s)
  | RStar greedy r1 =>
      (fix loop (fuel : nat) (s0 : mstate) {struct fuel} : option mstate :=
         let again :=
           match fuel with
           | O => None
           | S fuel' =>
               m r1 (fun s1 => if Nat.ltb (ms_pos s0) (ms_pos s1)
                               then loop fuel' s1 else None) s0
           end in
         if greedy then orElse again (k s0) else orElse (k s0) again)
        (List.length (ms_rest s)) s
  | ROpt r1 =>
      orElse (m r1 (fun s1 => if Nat.ltb (ms_pos s) (ms_pos s1)
                              then k s1 else None) s)
             (k s)
  | RGroup i r1 =>
      m r1 (fun s1 =>
              k (mkState (ms_prev s1) (ms_rest s1) (ms_pos s1)
                   ((i, firstn (ms_pos s1 - ms_pos s) (ms_rest s))
                      :: ms_caps s1))) s
  end.

End Matcher.

(** A successful match: where it starts, the matched text, the captures. *)
Record match_result : Type := mkMatch {
  m_index : nat;
  m_text : jsstring;
  m_caps : list (nat * jsstring)
}.

(** The i-th capture, or [None] where the source sees [undefined]. *)
Fixpoint group (i : nat) (caps : list (nat * jsstring)) : option jsstring :=
  match caps with
  | [] => None
  | (j, v) :: rest => if Nat.eqb i j then Some v else group i rest
  end.

(** Leftmost match: the start positions are tried from the left. *)
Fixpoint search (ic : bool) (r : regex) (prev : option char)
         (rest : jsstring) (pos : nat) {struct rest} : option match_result :=
  match m ic r (fun s => Some s) (mkState prev rest pos []) with
  | Some s1 => Some (mkMatch pos (firstn (ms_pos s1 - pos) rest) (ms_caps s1))
  | None =>
      match rest with
      | [] => None
      | c :: rest' => search ic r (Some c) rest' (S pos)
      end
  end.

(** [p.exec(s)] with [p.lastIndex = 0]. *)
Definition exec (p : pattern) (s : jsstring) : option match_result :=
  search (re_ignoreCase p) (re_body p) None s 0.

(** [p.test(s)] with [p.lastIndex = 0]. *)
Definition test (p : pattern) (s : jsstring) : bool :=
  match exec p s with
  | Some _ => true
  | None => false
  end.

(** [s.match(p)?.[0]]: for a global pattern [match] starts from index 0
    whatever [lastIndex] was and its first entry is the leftmost match; for
    a pattern that is not global it is the whole match of [exec]. *)
Definition match0 (s : jsstring) (p : pattern) : option jsstring :=
  option_map m_text (exec p s).

(** Patterns that cannot match the empty string. *)
Fixpoint consuming (r : regex) : bool :=
  match r with
  | RChar _ | RAny | RSet _ _ => true
  | RSeq r1 r2 => consuming r1 || consuming r2
  | RAlt r1 r2 => consuming r1 && consuming r2
  | RGroup _ r1 => consuming r1
  | _ => false
  end.

(** The state [s'] is reached from [s] by reading [pre]. *)
Definition reads (s s' : mstate) (pre : jsstring) : Prop :=
  ms_rest s = pre ++ ms_rest s' /\ ms_pos s' = ms_pos s + List.length pre.

End Regex.

Import Regex.

Local Open Scope string_scope.
Local Open Scope list_scope.

(* ================================================================== *)
(** ** Values of the host language *)
(* ================================================================== *)

Module Values.

(** A number: a finite value, NaN or an infinity. *)
Inductive jsnum : Type :=
| NumQ (q : Q)
| NumNaN
| NumInf (negative : bool).

Definition num_of_Z (z : Z) : jsnum := NumQ (inject_Z z).

(** A value as [JSON.parse] and property reads produce it. *)
#[local] Unset Elimination Schemes.
Inductive jsval : Type :=
| VUndefined
| VNull
| VBool (b : bool)
| VNum (n : jsnum)
| VStr (s : jsstring)
| VArr (items : list jsval)
| VObj (fields : list (jsstring * jsval)).
#[local] Set Elimination Schemes.

Definition num_truthy (n : jsnum) : bool :=
  match n with
  | NumQ q => negb (Z.eqb (Qnum q) 0)
  | NumNaN => false
  | NumInf _ => true
  end.

(** ToBoolean. *)
Definition truthy (v : jsval) : bool :=
  match v with
  | VUndefined | VNull => false
  | VBool b => b
  | VNum n => num_truthy n
  | VStr [] => false
  | VStr (_ :: _) => true
  | VArr _ | VObj _ => true
  end.

(** [a || b] *)
Definition or_else (a b : jsval) : jsval := if truthy a then a else b.

Fixpoint lookup (k : jsstring) (fields : list (jsstring * jsval)) : jsval :=
  match fields with
  | [] => VUndefined
  | (k', v) :: rest => if JS.eqb k k' then v else lookup k rest
  end.

(** What the engine raises by itself. *)
Inductive fault : Type :=
| ReadOfNullish (property : jsstring)     (* x.p with x null or undefined *)
| NotAFunction (method : jsstring)        (* x.f(...) with x.f not callable *)
| NotIterable.                            (* for (... of x) *)

(** A thrown value: an [Error] with its message, or something else. *)
Inductive thrown : Type :=
| ErrorObject (message : jsstring)
| OtherThrown.

(** The builtins of the host the source relies on.  Messages of the
    errors the engine raises are its own. *)
Class Host : Type := {
  toLowerCase : jsstring -> jsstring;
  JSON_parse : jsstring -> jsval + thrown;
  JSON_stringify : jsval -> jsstring;
  Number_toString : jsnum -> jsstring;
  fault_message : fault -> jsstring
}.

Definition TypeError `{Host} (f : fault) : thrown :=
  ErrorObject (fault_message f).

(** [v.k]: reading a property of [null] or [undefined] raises.  The
    property names the source reads are defined on objects only, so any
    other value yields [undefined]. *)
Definition prop `{Host} (k : string) (v : jsval) : jsval + thrown :=
  match v with
  | VUndefined | VNull => inr (TypeError (ReadOfNullish (str k)))
  | VObj fields => inl (lookup (str k) fields)
  | _ => inl VUndefined
  end.

(** [v[0]] *)
Definition index0 `{Host} (v : jsval) : jsval + thrown :=
  match v with
  | VUndefined | VNull => inr (TypeError (ReadOfNullish (str "0")))
  | VArr (x :: _) => inl x
  | VStr (c :: _) => inl (VStr [c])
  | VObj fields => inl (lookup (str "0") fields)
  | _ => inl VUndefined
  end.

(** ToString, as a template literal applies it. *)
Fixpoint toString `{Host} (v : jsval) : jsstring :=
  match v with
  | VUndefined => str "undefined"
  | VNull => str "null"
  | VBool true => str "true"
  | VBool false => str "false"
  | VNum n => Number_toString n
  | VStr s => s
  | VArr items =>
      join (str ",")
           (map (fun x => match x with
                          | VUndefined | VNull => []
                          | _ => toString x
                          end) items)
  | VObj _ => str "[object Object]"
  end.

(** [error instanceof Error ? error.message : fallback] *)
Definition message_or (e : thrown) (fallback : jsstring) : jsstring :=
  match e with
  | ErrorObject msg => msg
  | OtherThrown => fallback
  end.

(** A number whose value is an integer, as the engine holds it: NaN, a
    double with its sign ([-0] is [IntOf true 0]) or an infinity. *)
Inductive jsint : Type :=
| IntNaN
| IntOf (negative : bool) (magnitude : N)
| IntInf (negative : bool).

(** [-x] *)
Definition negated (x : jsint) : jsint :=
  match x with
  | IntNaN => IntNaN
  | IntOf negative magnitude => IntOf (negb negative) magnitude
  | IntInf negative => IntInf (negb negative)
  end.

(** The double nearest to an integer that is not negative: 53 bits are
    kept, the rest is rounded to nearest, a tie to the even neighbour;
    [None] is Infinity, from [2^1024] on. *)
Definition nearest_double (m : N) : option N :=
  if (N.size m <=? 53)%N then Some m
  else
    let e := (N.size m - 53)%N in
    let q := N.shiftr m e in
    let r := N.land m (N.ones e) in
    let half := N.shiftl 1 (e - 1) in
    let q' := if ((half <? r) || ((r =? half) && N.odd q))%N%bool
              then (q + 1)%N else q in
    let d := N.shiftl q' e in
    if (N.size d <=? 1024)%N then Some d else None.

(** The Number value for [sign * m]. *)
Definition number_for (negative : bool) (m : N) : jsint :=
  match nearest_double m with
  | Some d => IntOf negative d
  | None => IntInf negative
  end.

(** The integer a run of decimal digits denotes; [None] when there is
    no digit. *)
Fixpoint digits (acc : option Z) (s : jsstring) : option Z :=
  match s with
  | c :: rest =>
      if is_digit c
      then digits (Some (10 * match acc with Some a => a | None => 0 end
                         + Z.of_N (c - 48))%Z) rest
      else acc
  | [] => acc
  end.

(** The number for the digits read, with the sign given. *)
Definition signed (negative : bool) (mathInt : option Z) : jsint :=
  match mathInt with
  | Some z => number_for negative (Z.to_N z)
  | None => IntNaN
  end.

(** [parseInt(s, 10)]: leading white space is skipped, then a sign, then
    the longest run of digits is read; without a digit the result is NaN,
    else the double nearest to the integer read (the engine of the
    browser rounds the exact integer, however many digits there are). *)
Definition parseInt10 (s : jsstring) : jsint :=
  match trimStart s with
  | 45%N :: rest => signed true (digits None rest)
  | 43%N :: rest => signed false (digits None rest)
  | rest => signed false (digits None rest)
  end.

End Values.

Import Values.

(* ================================================================== *)
(** ** Safety filter *)
(* ================================================================== *)

Module Safety.

(** [ActionPayload['type']] *)
Inductive ActionType : Type :=
| click | fill | scroll | navigate | extract | modify.

Record SafetyCheckResult : Type := mkSafety {
  safe : bool;
  blocked : option jsstring;
  blockedReason : option jsstring;
  requiresConfirmation : option bool;
  confirmationMessage : option jsstring;
  flaggedPatterns : option (list jsstring)
}.

Record blocked_rule : Type := mkBlocked {
  b_pattern : pattern;
  b_reason : jsstring
}.

Record flagged_rule : Type := mkFlagged {
  f_pattern : pattern;
  f_message : jsstring
}.

(** [/.../gi] *)
Definition gi (r : regex) : pattern := mkPattern r true true.

Definition spaces : regex := RStar true (RSet false [CSpace]).
Definition lparen : regex := RChar 40%N.
Definition rparen : regex := RChar 41%N.
Definition quote3 : regex :=
  RSet false [CChar squote; CChar dquote; CChar backtick].
Definition words : regex := RPlus (RSet false [CWord]).

(** Patterns that are always blocked. *)
Definition BLOCKED_PATTERNS : list blocked_rule :=
  [ (* network requests *)
    mkBlocked (gi (seqs [lit "fetch"; spaces; lparen]))
              (str "Network requests are not allowed");
    mkBlocked (gi (lit "XMLHttpRequest"))
              (str "Network requests are not allowed");
    mkBlocked (gi (seqs [lit ".ajax"; spaces; lparen]))
              (str "Network requests are not allowed");
    mkBlocked (gi (lit "axios."))
              (str "Network requests are not allowed");
    mkBlocked (gi (lit "navigator.sendBeacon"))
              (str "Network requests are not allowed");
    mkBlocked (gi (lit "WebSocket"))
              (str "WebSocket connections are not allowed");
    (* data exfiltration *)
    mkBlocked (gi (lit "document.cookie"))
              (str "Cookie access is not allowed");
    mkBlocked (gi (lit "localStorage"))
              (str "localStorage access is not allowed");
    mkBlocked (gi (lit "sessionStorage"))
              (str "sessionStorage access is not allowed");
    mkBlocked (gi (lit "indexedDB"))
              (str "IndexedDB access is not allowed");
    mkBlocked (gi (lit "caches."))
              (str "Cache API access is not allowed");
    (* code execution *)
    mkBlocked (gi (seqs [lit "eval"; spaces; lparen]))
              (str "eval() is not allowed");
    mkBlocked (gi (seqs [lit "Function"; spaces; lparen]))
              (str "Function constructor is not allowed");
    mkBlocked (gi (seqs [lit "setTimeout"; spaces; lparen; spaces; quote3]))
              (str "setTimeout with string argument is not allowed");
    mkBlocked (gi (seqs [lit "setInterval"; spaces; lparen; spaces; quote3]))
              (str "setInterval with string argument is not allowed");
    (* script injection *)
    mkBlocked (gi (lit "<script"))
              (str "Script injection is not allowed");
    mkBlocked (gi (lit "javascript:"))
              (str "javascript: URLs are not allowed");
    mkBlocked (gi (lit "data:text/html"))
              (str "data: HTML URLs are not allowed");
    (* extension APIs *)
    mkBlocked (gi (seqs [lit "chrome."; words]))
              (str "Chrome extension APIs are not allowed in injected code");
    mkBlocked (gi (seqs [lit "browser."; words]))
              (str "Browser APIs are not allowed in injected code") ].

Definition word_alt (ws : list regex) : regex :=
  seqs [RWordB; RGroup 1 (alts ws); RWordB].

(** Patterns that require user confirmation. *)
Definition FLAGGED_PATTERNS : list flagged_rule :=
  [ mkFlagged
      (gi (word_alt [lit "pay"; lit "purchase"; lit "buy"; lit "checkout";
                     lit "order"; lit "subscribe"; lit "billing"]))
      (str "This action involves a payment or purchase");
    mkFlagged
      (gi (word_alt [lit "delete"; lit "remove"; lit "cancel";
                     lit "unsubscribe";
                     seqs [lit "close"; spaces; lit "account"];
                     lit "deactivate"]))
      (str "This action may delete or remove data");
    mkFlagged
      (gi (word_alt [lit "password";
                     seqs [lit "credit"; spaces; lit "card"];
                     lit "ssn";
                     seqs [lit "social"; spaces; lit "security"]]))
      (str "This action involves sensitive data");
    mkFlagged
      (gi (seqs [lit ".submit"; spaces; lparen; spaces; rparen]))
      (str "This action will submit a form") ].

(** One evaluation of a rule's pattern against the payload. *)
Inductive probe : Type :=
| ProbeBlocked (i : nat)     (* the i-th blocking rule was tested *)
| ProbeFlagged (i : nat).    (* the i-th advisory rule was tested *)

(** [x || 'unknown'] on a possibly missing, possibly empty fragment. *)
Definition orUnknown (o : option jsstring) : jsstring :=
  match o with
  | Some (c :: t) => c :: t
  | _ => str "unknown"
  end.

Definition blockedResult (code : jsstring) (r : blocked_rule) : SafetyCheckResult :=
  mkSafety false
           (Some (orUnknown (match0 code (b_pattern r))))
           (Some (b_reason r))
           None None None.

(** The first loop: it returns at the first rule whose pattern matches.
    The list of probes records which rules were tested. *)
Fixpoint scanBlocked (rules : list blocked_rule) (i : nat) (code : jsstring)
  : list probe * option SafetyCheckResult :=
  match rules with
  | [] => ([], None)
  | r :: rest =>
      if test (b_pattern r) code
      then ([ProbeBlocked i], Some (blockedResult code r))
      else let (tr, res) := scanBlocked rest (S i) code in
           (ProbeBlocked i :: tr, res)
  end.

(** The second loop: every rule is tested, the messages accumulate. *)
Fixpoint scanFlagged (rules : list flagged_rule) (i : nat) (code : jsstring)
  : list probe * list jsstring :=
  match rules with
  | [] => ([], [])
  | r :: rest =>
      let (tr, msgs) := scanFlagged rest (S i) code in
      (ProbeFlagged i :: tr,
       if test (f_pattern r) code then f_message r :: msgs else msgs)
  end.

Definition confirmation (flagged : list jsstring) : jsstring :=
  str "This action has been flagged for review:" ++ [newline] ++ str "- "
    ++ join ([newline] ++ str "- ") flagged
    ++ [newline; newline] ++ str "Do you want to proceed?".

Definition checkSafety_run (code : jsstring) (actionType : ActionType)
  : list probe * SafetyCheckResult :=
  let (tr1, hit) := scanBlocked BLOCKED_PATTERNS 0 code in
  match hit with
  | Some res => (tr1, res)
  | None =>
      let (tr2, flagged) := scanFlagged FLAGGED_PATTERNS 0 code in
      (tr1 ++ tr2,
       match flagged with
       | _ :: _ =>
           mkSafety true None None (Some true)
                    (Some (confirmation flagged)) (Some flagged)
       | [] => mkSafety true None None None None None
       end)
  end.

(** Check if generated code is safe to execute. *)
Definition checkSafety (code : jsstring) (actionType : ActionType)
  : SafetyCheckResult :=
  snd (checkSafety_run code actionType).

(** The rule tests performed by a call, in order. *)
Definition checkSafety_probes (code : jsstring) (actionType : ActionType)
  : list probe :=
  fst (checkSafety_run code actionType).

(** Rule [i], which is [r], is the first blocking rule whose pattern
    matches [code]. *)
Definition first_blocked (rules : list blocked_rule) (code : jsstring)
           (i : nat) (r : blocked_rule) : Prop :=
  nth_error rules i = Some r /\
  test (b_pattern r) code = true /\
  forall j r', j < i -> nth_error rules j = Some r' ->
               test (b_pattern r') code = false.

(** The first rule of the blocking table. *)
Definition fetch_rule : blocked_rule :=
  mkBlocked (gi (seqs [lit "fetch"; spaces; lparen]))
            (str "Network requests are not allowed").

End Safety.

(* ================================================================== *)
(** ** Shared types *)
(* ================================================================== *)

Module Types.

Inductive FastPathAction : Type :=
| scroll | navigate | reload | clickByText | goBack | goForward.

Record FastPathResult : Type := mkFastPath {
  matched : bool;
  action : option FastPathAction;
  params : option (list (string * jsstring))
}.

(** The fields hold what the parsed response held, unvalidated. *)
Record IntentAnalysis : Type := mkIntent {
  clear : jsval;
  clarificationQuestion : jsval;
  clarificationOptions : jsval;
  parsedIntent : jsval
}.

Record GeneratedAction : Type := mkAction {
  code : jsval;
  selector : jsval;
  actionType : jsval;
  description : jsval;
  verification : jsval
}.

Record CodeGenResult : Type := mkCodeGen {
  cg_success : bool;
  cg_actions : list GeneratedAction;
  cg_explanation : jsval;
  cg_error : jsval                      (* [VUndefined] when absent *)
}.

(** [actualResult] is left out: no function modelled here sets it. *)
Record ExecutionResult : Type := mkExec {
  success : bool;
  message : option jsstring;
  error : option jsstring
}.

Inductive AIProvider : Type :=
| claude
| openai
| otherProvider (name : jsstring).   (* a stored value outside the union *)

Inductive Theme : Type := light | dark | system.

Record ExtensionSettings : Type := mkSettings {
  provider : AIProvider;
  apiKey : jsstring;
  intentModel : jsstring;
  codeGenModel : jsstring;
  maxRetries : Z;
  confirmDestructive : bool;
  audioFeedback : bool;
  theme : Theme
}.

Definition DEFAULT_SETTINGS : ExtensionSettings :=
  mkSettings claude [] (str "claude-3-5-haiku-20241022")
             (str "claude-sonnet-4-20250514") 3 true false system.

(** [SimplifiedElement] and [SimplifiedDOM] of the message types. *)
Record Attributes : Type := mkAttrs {
  at_id : option jsstring;
  at_className : option jsstring;
  at_href : option jsstring;
  at_type : option jsstring;
  at_placeholder : option jsstring;
  at_ariaLabel : option jsstring;
  at_name : option jsstring;
  at_value : option jsstring
}.

Record BoundingBox : Type := mkBox {
  bb_x : Z; bb_y : Z; bb_width : Z; bb_height : Z
}.

Record SimplifiedElement : Type := mkElement {
  el_id : jsstring;
  el_tagName : jsstring;
  el_role : option jsstring;
  el_text : jsstring;
  el_attributes : Attributes;
  el_isInteractive : bool;
  el_isVisible : bool;
  el_boundingBox : BoundingBox
}.

Record SimplifiedDOM : Type := mkDOM {
  dom_url : jsstring;
  dom_title : jsstring;
  dom_timestamp : Z;
  dom_elements : list SimplifiedElement;
  dom_pageText : jsstring
}.

Record ChatMessage : Type := mkChat {
  chat_role : jsstring;
  chat_content : jsstring
}.

(** The options of a model call. *)
Record AICallOptions : Type := mkOptions {
  o_provider : AIProvider;
  o_apiKey : jsstring;
  o_model : jsstring;
  o_systemPrompt : jsstring;
  o_userMessage : jsstring;
  o_maxTokens : option Q;
  o_temperature : option Q
}.

End Types.

Import Types.

(* ================================================================== *)
(** ** Effects: the browser, the network, promises *)
(* ================================================================== *)

Module Effects.

(** The settled state of a promise. *)
Inductive outcome (A : Type) : Type :=
| Resolved (a : A)
| Rejected (e : thrown).
Arguments Resolved {A} a.
Arguments Rejected {A} e.

(** A function injected into the page, with its arguments. *)
Inductive script : Type :=
| ClickFn (sel : jsval)
| FillFn (sel val : jsval)
| ScrollFn (dir : jsval)
| ExtractFn (sel : jsval)
| ModifyFn (config : jsval)
| RawCodeFn (code : jsval)
| FastScrollFn (dir : jsval) (amt : jsint)
| HistoryBackFn
| HistoryForwardFn
| ClickByTextFn (text : jsval).

(** What an injected function returned; a field it did not set is [None]. *)
Record InjectionResult : Type := mkInjection {
  r_success : option bool;
  r_found : option bool;
  r_error : option jsstring;
  r_text : option jsstring
}.

(** The browser as the service worker sees it.  [executeScript] yields
    one entry per frame; an entry is [None] when the frame has no result. *)
Record Chrome : Type := mkChrome {
  scripting_executeScript :
    Z -> script -> outcome (list (option InjectionResult));
  tabs_update : Z -> jsstring -> outcome unit;
  tabs_reload : Z -> outcome unit
}.

Record Request : Type := mkRequest {
  req_method : jsstring;
  req_headers : list (jsstring * jsstring);
  req_body : jsstring
}.

Record Response : Type := mkResponse {
  ok : bool;
  status : Z;
  text : outcome jsstring;       (* [response.text()] *)
  json : outcome jsval           (* [response.json()] *)
}.

(** The network: what [fetch(url, request)] settles to. *)
Definition Net : Type := jsstring -> Request -> outcome Response.

(** The calls that leave the service worker.  Console output is not
    among them: the source logs, and nothing depends on it. *)
Inductive event : Type :=
| EvExecuteScript (tabId : Z) (s : script)
| EvTabsUpdate (tabId : Z) (url : jsstring)
| EvTabsReload (tabId : Z)
| EvModelCall (options : AICallOptions)     (* the Model Gateway is entered *)
| EvFetch (url : jsstring) (request : Request).   (* a provider is invoked *)

(** An asynchronous computation: the external calls it made, in order,
    and how its promise settled. *)
Definition Async (A : Type) : Type := (list event * outcome A)%type.

Definition ret {A} (a : A) : Async A := ([], Resolved a).
Definition throw {A} (e : thrown) : Async A := ([], Rejected e).

Definition bind {A B} (c : Async A) (k : A -> Async B) : Async B :=
  match c with
  | (tr, Resolved a) => let (tr', o) := k a in (tr ++ tr', o)
  | (tr, Rejected e) => (tr, Rejected e)
  end.

(** [try { await c } catch (e) { h e }] *)
Definition try_catch {A} (c : Async A) (h : thrown -> Async A) : Async A :=
  match c with
  | (tr, Resolved a) => (tr, Resolved a)
  | (tr, Rejected e) => let (tr', o) := h e in (tr ++ tr', o)
  end.

(** An awaited external call. *)
Definition call {A} (e : event) (o : outcome A) : Async A := ([e], o).

(** A synchronous step that may raise. *)
Definition lift {A} (x : A + thrown) : Async A :=
  match x with
  | inl a => ret a
  | inr e => throw e
  end.

Definition trace {A} (c : Async A) : list event := fst c.
Definition settled {A} (c : Async A) : outcome A := snd c.

Definition is_model_call (e : event) : bool :=
  match e with
  | EvModelCall _ => true
  | _ => false
  end.

Definition is_fetch (e : event) : bool :=
  match e with
  | EvFetch _ _ => true
  | _ => false
  end.

(** How many times the Model Gateway was entered. *)
Definition model_calls {A} (c : Async A) : nat :=
  List.length (filter is_model_call (trace c)).

(** How many times a remote provider was invoked. *)
Definition provider_calls {A} (c : Async A) : nat :=
  List.length (filter is_fetch (trace c)).

(** A computation that makes no external call. *)
Definition silent {A} (c : Async A) : Prop := trace c = [].

(** An event that reaches a model: the gateway or a provider. *)
Definition reaches_model (e : event) : bool :=
  (is_model_call e || is_fetch e)%bool.

(** A computation whose external calls all go to the browser. *)
Definition browser_only {A} (c : Async A) : Prop :=
  Forall (fun e => reaches_model e = false) (trace c).

(** A call that reports success whenever the injection resolves and
    passes the rejection on otherwise. *)
Definition succeeds_or_rejects
           (injection : outcome (list (option InjectionResult)))
           (c : Async ExecutionResult) : Prop :=
  match injection with
  | Resolved _ => exists msg, settled c = Resolved (mkExec true (Some msg) None)
  | Rejected e => settled c = Rejected e
  end.

End Effects.

Import Effects.

Declare Scope async_scope.
Notation "x <- c ;; k" := (bind c (fun x => k))
  (at level 61, c at next level, right associativity) : async_scope.
Local Open Scope async_scope.

(* ================================================================== *)
(** ** The page: functions that run inside it *)
(* ================================================================== *)

Module Page.

(** What an injected function does to the page. *)
Inductive page_effect : Type :=
| ScrollBy (top : jsint)             (* window.scrollBy *)
| ScrollToTop                        (* window.scrollTo({top: 0}) *)
| ScrollToBottom                     (* window.scrollTo({top: scrollHeight}) *)
| ScrollIntoView (i : nat)           (* on the i-th candidate element *)
| SetOutline (i : nat)
| RestoreOutlineAfter (i : nat) (ms : Z)
| ClickAfter (i : nat) (ms : Z).

(** A clickable element as the click-by-text function reads it. *)
Record PageElement : Type := mkPageElement {
  pe_textContent : option jsstring;      (* [el.textContent] *)
  pe_ariaLabel : option jsstring;        (* [el.getAttribute('aria-label')] *)
  pe_value : option jsstring             (* [el.value] *)
}.

Definition or_empty (o : option jsstring) : jsstring :=
  match o with
  | Some s => s
  | None => []
  end.

Section InPage.

Context `{Host}.

(** The function the executor injects to scroll. *)
Definition scroll_in_page (dir : jsstring) : list page_effect :=
  let d := toLowerCase dir in
  if JS.eqb d (str "down") then [ScrollBy (IntOf false 400)]
  else if JS.eqb d (str "up") then [ScrollBy (IntOf true 400)]
  else if JS.eqb d (str "top") then [ScrollToTop]
  else if JS.eqb d (str "bottom") then [ScrollToBottom]
  else [].

(** The function the fast path injects to scroll; it returns
    [{ success: true }]. *)
Definition fast_scroll_in_page (dir : jsval) (amt : jsint)
  : list page_effect * InjectionResult :=
  (match dir with
   | VStr d =>
       if JS.eqb d (str "down") then [ScrollBy amt]
       else if JS.eqb d (str "up") then [ScrollBy (negated amt)]
       else if JS.eqb d (str "top") then [ScrollToTop]
       else if JS.eqb d (str "bottom") then [ScrollToBottom]
       else []
   | _ => []
   end,
   mkInjection (Some true) None None None).

Definition text_matches (el : PageElement) (searchText : jsstring) : bool :=
  let elText := trim (or_empty (pe_textContent el)) in
  let ariaLabel := or_empty (pe_ariaLabel el) in
  let value := or_empty (pe_value el) in
  (JS.eqb (toLowerCase elText) (toLowerCase searchText)
   || JS.eqb (toLowerCase ariaLabel) (toLowerCase searchText)
   || JS.eqb (toLowerCase value) (toLowerCase searchText))%bool.

Fixpoint find_by_text (els : list PageElement) (i : nat)
         (searchText : jsstring) : option nat :=
  match els with
  | [] => None
  | el :: rest =>
      if text_matches el searchText then Some i
      else find_by_text rest (S i) searchText
  end.

(** The function the fast path injects to click by text, run on the
    elements its selector finds. *)
Definition click_by_text_in_page (els : list PageElement)
           (searchText : jsstring) : list page_effect * InjectionResult :=
  match find_by_text els 0 searchText with
  | Some i =>
      ([ScrollIntoView i; SetOutline i; RestoreOutlineAfter i 500;
        ClickAfter i 300],
       mkInjection (Some true) (Some true) None None)
  | None =>
      ([],
       mkInjection (Some false) (Some false)
         (Some (str "No element found with text " ++ [dquote]
                ++ searchText ++ [dquote]))
         None)
  end.

(** A direction the scroll function does not know. *)
Definition unrecognized (dir : jsstring) : Prop :=
  JS.eqb (toLowerCase dir) (str "down") = false /\
  JS.eqb (toLowerCase dir) (str "up") = false /\
  JS.eqb (toLowerCase dir) (str "top") = false /\
  JS.eqb (toLowerCase dir) (str "bottom") = false.

End InPage.

(** The error text of the click-by-text function. *)
Definition notFoundInPage (t : jsstring) : jsstring :=
  str "No element found with text " ++ [dquote] ++ t ++ [dquote].

End Page.

Import Page.

(* ================================================================== *)
(** ** Fast path *)
(* ================================================================== *)

Module FastPath.

Record FastPathRule : Type := mkRule {
  rule_pattern : pattern;
  rule_action : FastPathAction;
  extractParams : option (list (nat * jsstring) -> list (string * jsstring))
}.

(** [/.../i] *)
Definition ci (r : regex) : pattern := mkPattern r true false.

Definition sp1 : regex := RPlus (RSet false [CSpace]).
Definition nonspace : class_item := CNotSpace.
Definition alnum : list class_item :=
  [CRange 97%N 122%N; CRange 65%N 90%N; CRange 48%N 57%N].
Definition quote2 : list class_item := [CChar dquote; CChar squote].
Definition verb : regex := alts [lit "navigate"; lit "go"; lit "open"].
Definition lead : regex := ROpt (seqs [RStar false RAny; sp1]).
Definition host_label : regex :=
  seqs [RSet false alnum; RStar true (RSet false (CChar 45%N :: alnum))].

Section Rules.

Context `{Host}.

(** [match[i]]; the groups read below always take part in a match. *)
Definition cap (i : nat) (caps : list (nat * jsstring)) : jsstring :=
  match group i caps with
  | Some v => v
  | None => []
  end.

(** [match[i] || d] *)
Definition cap_or (i : nat) (caps : list (nat * jsstring)) (d : jsstring)
  : jsstring :=
  match group i caps with
  | Some (c :: v) => c :: v
  | _ => d
  end.

(** Order matters: more specific patterns come first. *)
Definition FAST_PATH_RULES : list FastPathRule :=
  [ mkRule
      (ci (seqs [RBol; lit "scroll"; sp1;
                 RGroup 1 (alts [lit "down"; lit "up"]);
                 ROpt (seqs [sp1; RGroup 2 (RPlus (RSet false [CDigit]))]);
                 REol]))
      scroll
      (Some (fun caps => [("direction", toLowerCase (cap 1 caps));
                          ("amount", cap_or 2 caps (str "400"))]));
    mkRule
      (ci (seqs [RBol; lit "scroll"; sp1; lit "to"; sp1;
                 RGroup 1 (alts [lit "top"; lit "bottom"]); REol]))
      scroll
      (Some (fun caps => [("direction", toLowerCase (cap 1 caps))]));
    mkRule
      (ci (seqs [RBol; lit "page"; sp1;
                 RGroup 1 (alts [lit "down"; lit "up"]); REol]))
      scroll
      (Some (fun caps => [("direction", toLowerCase (cap 1 caps));
                          ("amount", str "800")]));
    mkRule (ci (seqs [RBol; lit "go"; sp1; lit "back"; REol]))
           goBack None;
    mkRule (ci (seqs [RBol; lit "go"; sp1; lit "forward"; REol]))
           goForward None;
    mkRule
      (ci (seqs [RBol; RGroup 1 (alts [lit "refresh"; lit "reload"]);
                 ROpt (RGroup 2 (seqs [sp1; lit "page"])); REol]))
      reload None;
    mkRule
      (ci (seqs [RBol; lead; verb;
                 ROpt (seqs [sp1; lit "to"]);
                 ROpt (seqs [lit "the"; sp1]);
                 ROpt (seqs [lit "website"; sp1]);
                 RGroup 1
                   (seqs [host_label;
                          RPlus (seqs [RChar 46%N; host_label]);
                          ROpt (seqs [RChar 47%N;
                                      RStar true (RSet false [nonspace])])]);
                 REol]))
      navigate
      (Some (fun caps => [("url", cap 1 caps)]));
    mkRule
      (ci (seqs [RBol; lead; verb;
                 ROpt (seqs [sp1; lit "to"]);
                 RGroup 1
                   (seqs [lit "http"; ROpt (RChar 115%N); lit "://";
                          RPlus (RSet false [nonspace])]);
                 REol]))
      navigate
      (Some (fun caps => [("url", cap 1 caps)]));
    mkRule
      (ci (seqs [RBol; lit "click"; sp1; RSet false quote2;
                 RGroup 1 (RPlus (RSet true quote2));
                 RSet false quote2; REol]))
      clickByText
      (Some (fun caps => [("text", cap 1 caps)]));
    mkRule
      (ci (seqs [RBol; lit "click"; sp1; lit "on"; sp1; RSet false quote2;
                 RGroup 1 (RPlus (RSet true quote2));
                 RSet false quote2; REol]))
      clickByText
      (Some (fun caps => [("text", cap 1 caps)])) ].

Fixpoint firstRule (rules : list FastPathRule) (trimmedCommand : jsstring)
  : FastPathResult :=
  match rules with
  | [] => mkFastPath false None None
  | rule :: rest =>
      match exec (rule_pattern rule) trimmedCommand with
      | Some mt =>
          mkFastPath true (Some (rule_action rule))
            (Some (match extractParams rule with
                   | Some f => f (m_caps mt)
                   | None => []
                   end))
      | None => firstRule rest trimmedCommand
      end
  end.

(** Check if a command matches a fast-path rule. *)
Definition checkFastPath (command : jsstring) : FastPathResult :=
  firstRule FAST_PATH_RULES (trim command).

Fixpoint param (k : string) (ps : list (string * jsstring)) : option jsstring :=
  match ps with
  | [] => None
  | (k', v) :: rest => if String.eqb k k' then Some v else param k rest
  end.

(** A parameter as the value it is in the source: a string or [undefined]. *)
Definition param_val (k : string) (ps : list (string * jsstring)) : jsval :=
  match param k ps with
  | Some v => VStr v
  | None => VUndefined
  end.

(** [results[0]?.result] *)
Definition first_result (results : list (option InjectionResult))
  : option InjectionResult :=
  match results with
  | r :: _ => r
  | [] => None
  end.

(** [o || d] on an optional string. *)
Definition str_or (o : option jsstring) (d : jsstring) : jsstring :=
  match o with
  | Some (c :: s) => c :: s
  | _ => d
  end.

Variable chrome : Chrome.

Definition executeScript (tabId : Z) (s : script)
  : Async (list (option InjectionResult)) :=
  call (EvExecuteScript tabId s) (scripting_executeScript chrome tabId s).

Definition executeScroll (params : list (string * jsstring)) (tabId : Z)
  : Async ExecutionResult :=
  let direction := param_val "direction" params in
  let scrollAmount := parseInt10 (str_or (param "amount" params) (str "400")) in
  results <- executeScript tabId (FastScrollFn direction scrollAmount) ;;
  ret (mkExec true (Some (str "Scrolled " ++ toString direction)) None).

Definition executeGoBack (tabId : Z) : Async ExecutionResult :=
  _ <- executeScript tabId HistoryBackFn ;;
  ret (mkExec true (Some (str "Navigated back")) None).

Definition executeGoForward (tabId : Z) : Async ExecutionResult :=
  _ <- executeScript tabId HistoryForwardFn ;;
  ret (mkExec true (Some (str "Navigated forward")) None).

Definition executeReload (tabId : Z) : Async ExecutionResult :=
  _ <- call (EvTabsReload tabId) (tabs_reload chrome tabId) ;;
  ret (mkExec true (Some (str "Page reloaded")) None).

Definition executeNavigate (params : list (string * jsstring)) (tabId : Z)
  : Async ExecutionResult :=
  match param "url" params with
  | None => throw (TypeError (ReadOfNullish (str "startsWith")))
  | Some url0 =>
      let url :=
        if (negb (startsWith url0 (str "http://"))
            && negb (startsWith url0 (str "https://")))%bool
        then str "https://" ++ url0 else url0 in
      _ <- call (EvTabsUpdate tabId url) (tabs_update chrome tabId url) ;;
      ret (mkExec true (Some (str "Navigating to " ++ url)) None)
  end.

Definition executeClickByText (params : list (string * jsstring)) (tabId : Z)
  : Async ExecutionResult :=
  let text := param_val "text" params in
  results <- executeScript tabId (ClickByTextFn text) ;;
  let result := first_result results in
  match result with
  | Some {| r_found := Some true |} =>
      ret (mkExec true
             (Some (str "Clicked " ++ [dquote] ++ toString text ++ [dquote]))
             None)
  | _ =>
      ret (mkExec false None
             (Some (str_or (match result with
                            | Some r => r_error r
                            | None => None
                            end)
                           (str "Could not find element with text "
                            ++ [dquote] ++ toString text ++ [dquote]))))
  end.

(** Execute a fast-path action.  The primitives are called without
    [await] inside the [try] block, so a rejection of theirs is the
    rejection of this call: the [catch] block sees only what is thrown
    before a primitive returns its promise, which is nothing. *)
Definition executeFastPathAction (action : FastPathAction)
           (params : list (string * jsstring)) (tabId : Z)
  : Async ExecutionResult :=
  match action with
  | scroll => executeScroll params tabId
  | goBack => executeGoBack tabId
  | goForward => executeGoForward tabId
  | reload => executeReload tabId
  | navigate => executeNavigate params tabId
  | clickByText => executeClickByText params tabId
  end.

End Rules.

(** The error text of [executeClickByText] when the page gave none. *)
Definition couldNotFind (t : jsstring) : jsstring :=
  str "Could not find element with text " ++ [dquote] ++ t ++ [dquote].

(** The first frame says nothing of the element: it has no result, or a
    result that neither reports the element found nor carries an error
    text. *)
Definition says_nothing (result : option InjectionResult) : bool :=
  match result with
  | None => true
  | Some r =>
      match r_found r, r_error r with
      | Some true, _ => false
      | _, Some (_ :: _) => false
      | _, _ => true
      end
  end.

End FastPath.

(* ================================================================== *)
(** ** Executor *)
(* ================================================================== *)

Module Executor.

Section WithBrowser.

Context `{Host}.
Variable chrome : Chrome.

Definition executeScript (tabId : Z) (s : script)
  : Async (list (option InjectionResult)) :=
  call (EvExecuteScript tabId s) (scripting_executeScript chrome tabId s).

Definition first_result := @FastPath.first_result.
Definition str_or := FastPath.str_or.

(** [result?.success] as a condition. *)
Definition succeeded (result : option InjectionResult) : bool :=
  match result with
  | Some {| r_success := Some true |} => true
  | _ => false
  end.

(** [result?.error] *)
Definition error_of (result : option InjectionResult) : option jsstring :=
  match result with
  | Some r => r_error r
  | None => None
  end.

(** Execute click action. *)
Definition executeClick (selector : jsval) (tabId : Z) : Async ExecutionResult :=
  results <- executeScript tabId (ClickFn selector) ;;
  let result := first_result results in
  if succeeded result
  then ret (mkExec true (Some (str "Clicked " ++ toString selector)) None)
  else ret (mkExec false None
              (Some (str_or (error_of result) (str "Click failed")))).

(** Execute fill action. *)
Definition executeFill (selector value : jsval) (tabId : Z)
  : Async ExecutionResult :=
  results <- executeScript tabId (FillFn selector value) ;;
  let result := first_result results in
  if succeeded result
  then ret (mkExec true (Some (str "Filled " ++ toString selector)) None)
  else ret (mkExec false None
              (Some (str_or (error_of result) (str "Fill failed")))).

(** Execute scroll action. *)
Definition executeScroll (direction : jsval) (tabId : Z)
  : Async ExecutionResult :=
  _ <- executeScript tabId (ScrollFn direction) ;;
  ret (mkExec true (Some (str "Scrolled " ++ toString direction)) None).

(** Execute navigate action. *)
Definition executeNavigate (url : jsval) (tabId : Z) : Async ExecutionResult :=
  match url with
  | VStr u =>
      let trimmed := trim u in
      let targetUrl :=
        if (negb (startsWith trimmed (str "http://"))
            && negb (startsWith trimmed (str "https://")))%bool
        then str "https://" ++ trimmed else trimmed in
      _ <- call (EvTabsUpdate tabId targetUrl)
                (tabs_update chrome tabId targetUrl) ;;
      ret (mkExec true (Some (str "Navigating to " ++ targetUrl)) None)
  | VUndefined | VNull => throw (TypeError (ReadOfNullish (str "trim")))
  | _ => throw (TypeError (NotAFunction (str "trim")))
  end.

(** Execute extract action. *)
Definition executeExtract (selector : jsval) (tabId : Z)
  : Async ExecutionResult :=
  results <- executeScript tabId (ExtractFn selector) ;;
  let result := first_result results in
  ret (mkExec true
         (Some (str_or (match result with
                        | Some r => r_text r
                        | None => None
                        end) (str "No content extracted")))
         None).

(** Execute modify (style) action. *)
Definition executeModify (cssOrConfig : jsval) (tabId : Z)
  : Async ExecutionResult :=
  _ <- executeScript tabId (ModifyFn cssOrConfig) ;;
  ret (mkExec true (Some (str "Style applied")) None).

(** Fallback: execute raw code (last resort). *)
Definition executeRawCode (code : jsval) (tabId : Z) : Async ExecutionResult :=
  try_catch
    (results <- executeScript tabId (RawCodeFn code) ;;
     let result := first_result results in
     if succeeded result
     then ret (mkExec true (Some (str "Code executed")) None)
     else ret (mkExec false None
                 (Some (str_or (error_of result) (str "Execution failed")))))
    (fun _ => ret (mkExec false None (Some (str "Code execution blocked")))).

Definition is_kind (v : jsval) (k : string) : bool :=
  match v with
  | VStr s => JS.eqb s (str k)
  | _ => false
  end.

(** Execute generated action in the page.  As in the fast path, the
    primitives are returned without [await], so the [catch] block of the
    source does not see their rejections. *)
Definition executeAction (action : GeneratedAction) (tabId : Z)
  : Async ExecutionResult :=
  let kind := actionType action in
  let sel := or_else (selector action) (VStr []) in
  if is_kind kind "click" then executeClick sel tabId
  else if is_kind kind "fill" then executeFill sel (code action) tabId
  else if is_kind kind "scroll" then executeScroll (code action) tabId
  else if is_kind kind "navigate" then executeNavigate (code action) tabId
  else if is_kind kind "extract" then executeExtract sel tabId
  else if is_kind kind "modify" then executeModify (code action) tabId
  else executeRawCode (code action) tabId.

End WithBrowser.

End Executor.

(* ================================================================== *)
(** ** AI client: the Model Gateway and its rate limiter *)
(* ================================================================== *)

Module AIClient.

Section Gateway.

Context `{Host}.
Variable net : Net.

Definition default_maxTokens : Q := 1000 # 1.
Definition default_temperature : Q := 7 # 10.

Definition num (q : Q) : jsval := VNum (NumQ q).

Definition fetch (url : jsstring) (request : Request) : Async Response :=
  call (EvFetch url request) (net url request).

(** [await p] on a promise that is already part of a response. *)
Definition await {A} (o : outcome A) : Async A := ([], o).

Definition Error {A} (msg : jsstring) : Async A :=
  throw (ErrorObject msg).

(** Call Claude API. *)
Definition callClaude (apiKey model systemPrompt userMessage : jsstring)
           (maxTokens temperature : Q) : Async jsval :=
  response <-
    fetch (str "https://api.anthropic.com/v1/messages")
      (mkRequest (str "POST")
         [(str "Content-Type", str "application/json");
          (str "x-api-key", apiKey);
          (str "anthropic-version", str "2023-06-01");
          (str "anthropic-dangerous-direct-browser-access", str "true")]
         (JSON_stringify
            (VObj [(str "model", VStr model);
                   (str "max_tokens", num maxTokens);
                   (str "temperature", num temperature);
                   (str "system", VStr systemPrompt);
                   (str "messages",
                    VArr [VObj [(str "role", VStr (str "user"));
                                (str "content", VStr userMessage)]])]))) ;;
  if negb (ok response)
  then
    error <- await (text response) ;;
    Error (str "Claude API error: " ++ of_Z (status response)
           ++ str " - " ++ error)
  else
    data <- await (json response) ;;
    content <- lift (prop "content" data) ;;
    if negb (truthy content) then Error (str "Invalid response from Claude API")
    else
      first <- lift (index0 content) ;;
      if negb (truthy first) then Error (str "Invalid response from Claude API")
      else
        txt <- lift (prop "text" first) ;;
        if negb (truthy txt) then Error (str "Invalid response from Claude API")
        else ret txt.

(** Call OpenAI API. *)
Definition callOpenAI (apiKey model systemPrompt userMessage : jsstring)
           (maxTokens temperature : Q) : Async jsval :=
  response <-
    fetch (str "https://api.openai.com/v1/chat/completions")
      (mkRequest (str "POST")
         [(str "Content-Type", str "application/json");
          (str "Authorization", str "Bearer " ++ apiKey)]
         (JSON_stringify
            (VObj [(str "model", VStr model);
                   (str "max_tokens", num maxTokens);
                   (str "temperature", num temperature);
                   (str "messages",
                    VArr [VObj [(str "role", VStr (str "system"));
                                (str "content", VStr systemPrompt)];
                          VObj [(str "role", VStr (str "user"));
                                (str "content", VStr userMessage)]])]))) ;;
  if negb (ok response)
  then
    error <- await (text response) ;;
    Error (str "OpenAI API error: " ++ of_Z (status response)
           ++ str " - " ++ error)
  else
    data <- await (json response) ;;
    choices <- lift (prop "choices" data) ;;
    if negb (truthy choices) then Error (str "Invalid response from OpenAI API")
    else
      first <- lift (index0 choices) ;;
      if negb (truthy first) then Error (str "Invalid response from OpenAI API")
      else
        msg <- lift (prop "message" first) ;;
        if negb (truthy msg) then Error (str "Invalid response from OpenAI API")
        else lift (prop "content" msg).

Definition provider_name (p : AIProvider) : jsstring :=
  match p with
  | claude => str "claude"
  | openai => str "openai"
  | otherProvider name => name
  end.

Definition or_default (o : option Q) (d : Q) : Q :=
  match o with
  | Some q => q
  | None => d
  end.

(** Call the AI API (Claude or OpenAI). *)
Definition callAI (options : AICallOptions) : Async jsval :=
  _ <- (([EvModelCall options], Resolved tt) : Async unit) ;;
  let maxTokens := or_default (o_maxTokens options) default_maxTokens in
  let temperature := or_default (o_temperature options) default_temperature in
  match o_apiKey options with
  | [] => Error (str "API key is required")
  | _ :: _ =>
      match o_provider options with
      | claude =>
          callClaude (o_apiKey options) (o_model options)
                     (o_systemPrompt options) (o_userMessage options)
                     maxTokens temperature
      | openai =>
          callOpenAI (o_apiKey options) (o_model options)
                     (o_systemPrompt options) (o_userMessage options)
                     maxTokens temperature
      | otherProvider name =>
          Error (str "Unknown AI provider: " ++ name)
      end
  end.

End Gateway.

(** A number that may be infinite. *)
Inductive delay : Type :=
| Millis (ms : Z)
| Infinity.

(** Rate limiter to prevent API abuse. *)
Record RateLimiter : Type := mkLimiter {
  requests : list Z;
  maxRequests : Z;
  windowMs : Z
}.

(** [new RateLimiter(maxRequests, windowMs)] *)
Definition newRateLimiter (maxRequests windowMs : Z) : RateLimiter :=
  mkLimiter [] maxRequests windowMs.

(** [canProceed()] at the time [now = Date.now()]: the verdict and the
    limiter after the call. *)
Definition canProceed (now : Z) (rl : RateLimiter) : bool * RateLimiter :=
  let kept := filter (fun t => (now - t <? windowMs rl)%Z) (requests rl) in
  if (Z.of_nat (List.length kept) >=? maxRequests rl)%Z
  then (false, mkLimiter kept (maxRequests rl) (windowMs rl))
  else (true, mkLimiter (kept ++ [now]) (maxRequests rl) (windowMs rl)).

(** [Math.min(...xs)] *)
Fixpoint minimum (xs : list Z) : delay :=
  match xs with
  | [] => Infinity
  | x :: rest =>
      match minimum rest with
      | Infinity => Millis x
      | Millis y => Millis (Z.min x y)
      end
  end.

(** [getWaitTime()] at the time [now = Date.now()]. *)
Definition getWaitTime (now : Z) (rl : RateLimiter) : delay :=
  if (Z.of_nat (List.length (requests rl)) <? maxRequests rl)%Z
  then Millis 0
  else match minimum (requests rl) with
       | Millis oldestRequest => Millis (oldestRequest + windowMs rl - now)
       | Infinity => Infinity
       end.

(** Global rate limiter instance: 10 requests per minute. *)
Definition rateLimiter : RateLimiter := newRateLimiter 10 60000.

(** *** Sequences of calls *)

(** A sequence of [canProceed()] calls at the given times: the verdict of
    each call and the limiter after the last one. *)
Fixpoint serve (times : list Z) (rl : RateLimiter)
  : list (Z * bool) * RateLimiter :=
  match times with
  | [] => ([], rl)
  | now :: rest =>
      let (v, rl1) := canProceed now rl in
      let (log, rl2) := serve rest rl1 in
      ((now, v) :: log, rl2)
  end.

(** The times of the admitted calls. *)
Definition admitted (log : list (Z * bool)) : list Z :=
  map fst (filter snd log).

(** The clock does not run backwards. *)
Fixpoint clock (last : Z) (times : list Z) : Prop :=
  match times with
  | [] => True
  | t :: rest => (last <= t)%Z /\ clock t rest
  end.

Definition monotone (times : list Z) : Prop :=
  match times with
  | [] => True
  | t :: rest => clock t rest
  end.

(** How many of [xs] lie in the window from [a] to [a + W], [a + W]
    excluded. *)
Definition in_window (a W : Z) (xs : list Z) : Z :=
  Z.of_nat (List.length
              (filter (fun t => (a <=? t) && (t <? a + W))%Z%bool xs)).

(** The timestamps [canProceed()] keeps at the time [now]. *)
Definition recent (W now : Z) (xs : list Z) : list Z :=
  filter (fun t => (now - t <? W)%Z) xs.

Definition kept (now : Z) (rl : RateLimiter) : list Z :=
  recent (windowMs rl) now (requests rl).

Definition last_time (last : Z) (times : list Z) : Z := List.last times last.

(** The state of a limiter that has admitted [adm], seen at [last]. *)
Record tracks (rl : RateLimiter) (adm : list Z) (last : Z) : Prop := {
  tr_requests : requests rl = recent (windowMs rl) last adm;
  tr_bound : forall a, (in_window a (windowMs rl) adm <= maxRequests rl)%Z
}.

End AIClient.

(* ================================================================== *)
(** ** Model stages: intent analysis and action generation *)
(* ================================================================== *)

Module Stages.

(** [/\{[\s\S]*\}/] *)
Definition JSON_BLOCK : pattern :=
  mkPattern (seqs [RChar 123%N; RStar true (RSet false [CSpace; CNotSpace]);
                   RChar 125%N])
            false false.

(** [o] is a non-empty string. *)
Definition present (o : option jsstring) : option jsstring :=
  match o with
  | Some (c :: s) => Some (c :: s)
  | _ => None
  end.

(** [name="value"], when the attribute is set. *)
Definition attr (name : string) (o : option jsstring) (suffix : string)
  : list jsstring :=
  match present o with
  | Some v => [str name ++ str "=" ++ [dquote] ++ v ++ str suffix ++ [dquote]]
  | None => []
  end.

(** [xs.slice(-n)] *)
Definition last_n {A} (n : nat) (xs : list A) : list A :=
  skipn (List.length xs - n) xs.

(** [s || d] *)
Definition nonempty_or (s d : jsstring) : jsstring :=
  match s with
  | [] => d
  | _ :: _ => s
  end.

Definition quoted (s : jsstring) : jsstring := [dquote] ++ s ++ [dquote].

Section WithModel.

Context `{Host}.
Variable net : Net.

(** The two system prompts are fixed texts of the source. *)
Variable INTENT_SYSTEM_PROMPT : jsstring.
Variable CODEGEN_SYSTEM_PROMPT : jsstring.

(** [response.match(JSON_BLOCK)], with what the engine raises when
    [response] is not a string. *)
Definition match_block (response : jsval) : option jsstring + thrown :=
  match response with
  | VStr s => inl (match0 s JSON_BLOCK)
  | VUndefined | VNull => inr (TypeError (ReadOfNullish (str "match")))
  | _ => inr (TypeError (NotAFunction (str "match")))
  end.

Definition intent_line (el : SimplifiedElement) : jsstring :=
  let a := el_attributes el in
  let attrs :=
    attr "aria-label" (at_ariaLabel a) ""
    ++ attr "placeholder" (at_placeholder a) ""
    ++ attr "type" (at_type a) ""
    ++ match present (at_href a) with
       | Some h => [str "href=" ++ [dquote] ++ slice0 50 h ++ str "..." ++ [dquote]]
       | None => []
       end in
  str "[" ++ el_id el ++ str "] <" ++ el_tagName el
    ++ match attrs with
       | [] => []
       | _ :: _ => str " " ++ join (str " ") attrs
       end
    ++ str "> " ++ quoted (slice0 50 (el_text el)).

Definition intent_userMessage (command : jsstring) (domContext : SimplifiedDOM)
  : jsstring :=
  let interactiveElements :=
    join [newline]
         (map intent_line (filter el_isInteractive (dom_elements domContext))) in
  str "Page: " ++ dom_title domContext ++ [newline]
    ++ str "URL: " ++ dom_url domContext ++ [newline; newline]
    ++ str "Interactive elements on page:" ++ [newline]
    ++ nonempty_or interactiveElements (str "No interactive elements found")
    ++ [newline; newline]
    ++ str "User command: " ++ quoted command ++ [newline; newline]
    ++ str "Analyze if this command is clear and unambiguous. If there are multiple possible targets, ask for clarification.".

(** The decision taken when the response cannot be used. *)
Definition fallbackIntent (command : jsstring) : IntentAnalysis :=
  mkIntent (VBool true) VUndefined VUndefined
           (VObj [(str "action", VStr (str "click"));
                  (str "target", VStr command)]).

(** Analyze user intent and check for ambiguity. *)
Definition analyzeIntent (command : jsstring) (domContext : SimplifiedDOM)
           (settings : ExtensionSettings) : Async IntentAnalysis :=
  let userMessage := intent_userMessage command domContext in
  try_catch
    (response <- AIClient.callAI net
                   (mkOptions (provider settings) (apiKey settings)
                              (intentModel settings) INTENT_SYSTEM_PROMPT
                              userMessage (Some (500 # 1)%Q) None) ;;
     jsonMatch <- lift (match_block response) ;;
     match jsonMatch with
     | None => ret (fallbackIntent command)
     | Some block =>
         parsed <- lift (JSON_parse block) ;;
         c <- lift (prop "clear" parsed) ;;
         q <- lift (prop "clarificationQuestion" parsed) ;;
         o <- lift (prop "clarificationOptions" parsed) ;;
         p <- lift (prop "parsedIntent" parsed) ;;
         ret (mkIntent c q o p)
     end)
    (fun _ => ret (fallbackIntent command)).

Definition codegen_line (el : SimplifiedElement) : jsstring :=
  let a := el_attributes el in
  let attrs :=
    attr "id" (at_id a) ""
    ++ match present (at_className a) with
       | Some c => [str "class=" ++ quoted (slice0 50 c)]
       | None => []
       end
    ++ attr "aria-label" (at_ariaLabel a) ""
    ++ attr "placeholder" (at_placeholder a) ""
    ++ attr "type" (at_type a) ""
    ++ attr "name" (at_name a) ""
    ++ match present (at_href a) with
       | Some h => [str "href=" ++ quoted (slice0 80 h)]
       | None => []
       end in
  let b := el_boundingBox el in
  let box :=
    str "(" ++ of_Z (bb_x b) ++ str "," ++ of_Z (bb_y b) ++ str " "
      ++ of_Z (bb_width b) ++ str "x" ++ of_Z (bb_height b) ++ str ")" in
  str "[" ++ el_id el ++ str "] <" ++ el_tagName el ++ str " "
    ++ join (str " ") attrs ++ str "> " ++ quoted (slice0 80 (el_text el))
    ++ str " " ++ (if el_isInteractive el then str "(interactive)" else [])
    ++ str " " ++ box.

Definition codegen_userMessage (command : jsstring) (parsedIntent : jsval)
           (domContext : SimplifiedDOM) (conversationHistory : list ChatMessage)
  : jsstring :=
  let elementsContext :=
    join [newline] (map codegen_line (dom_elements domContext)) in
  let recentMessages :=
    join [newline]
         (map (fun msg => chat_role msg ++ str ": " ++ chat_content msg)
              (last_n 5 conversationHistory)) in
  str "Page: " ++ dom_title domContext ++ [newline]
    ++ str "URL: " ++ dom_url domContext ++ [newline; newline]
    ++ str "Page text summary:" ++ [newline]
    ++ slice0 500 (dom_pageText domContext) ++ str "..." ++ [newline; newline]
    ++ str "DOM Elements:" ++ [newline]
    ++ elementsContext ++ [newline; newline]
    ++ str "Recent conversation:" ++ [newline]
    ++ nonempty_or recentMessages (str "None") ++ [newline; newline]
    ++ str "User command: " ++ quoted command ++ [newline]
    ++ str "Parsed intent: " ++ JSON_stringify parsedIntent ++ [newline; newline]
    ++ str "Generate the JavaScript code to accomplish this task. Use the element IDs (like "
    ++ quoted (str "el-5") ++ str ") to reference elements when possible.".

(** The values [for (const action of v)] goes through.  A string is
    iterated by code points; the pieces are strings either way, and a
    string has no [actionType]. *)
Definition iterate (v : jsval) : list jsval + thrown :=
  match v with
  | VArr items => inl items
  | VStr s => inl (map (fun c => VStr [c]) s)
  | _ => inr (TypeError NotIterable)
  end.

Definition defaultVerification : jsval :=
  VObj [(str "type", VStr (str "none")); (str "expectedResult", VStr [])].

(** [v.k] for a value [v] that is neither [null] nor [undefined]. *)
Definition field (k : string) (action : jsval) : jsval :=
  match action with
  | VObj fields => lookup (str k) fields
  | _ => VUndefined
  end.

(** The validation loop: an entry without [actionType] is skipped. *)
Fixpoint validate (entries : list jsval) : list GeneratedAction + thrown :=
  match entries with
  | [] => inl []
  | action :: rest =>
      match prop "actionType" action with
      | inr e => inr e
      | inl kind =>
          match validate rest with
          | inr e => inr e
          | inl valid =>
              if truthy kind
              then inl (mkAction (field "code" action)
                                 (or_else (field "selector" action) VNull)
                                 kind
                                 (or_else (field "description" action)
                                          (VStr (str "Action")))
                                 (or_else (field "verification" action)
                                          defaultVerification)
                          :: valid)
              else inl valid
          end
      end
  end.

Definition failure (explanation error : jsval) : CodeGenResult :=
  mkCodeGen false [] explanation error.

(** Generate executable code for the user's intent. *)
Definition generateCode (command : jsstring) (parsedIntent : jsval)
           (domContext : SimplifiedDOM) (settings : ExtensionSettings)
           (conversationHistory : list ChatMessage) : Async CodeGenResult :=
  let userMessage :=
    codegen_userMessage command parsedIntent domContext conversationHistory in
  try_catch
    (response <- AIClient.callAI net
                   (mkOptions (provider settings) (apiKey settings)
                              (codeGenModel settings) CODEGEN_SYSTEM_PROMPT
                              userMessage (Some (2000 # 1)%Q) None) ;;
     jsonMatch <- lift (match_block response) ;;
     match jsonMatch with
     | None =>
         ret (failure (VStr (str "Failed to parse code generation response"))
                      (VStr (str "Invalid response format")))
     | Some block =>
         parsed <- lift (JSON_parse block) ;;
         ok <- lift (prop "success" parsed) ;;
         if negb (truthy ok)
         then ret (failure (or_else (field "explanation" parsed)
                                    (VStr (str "Code generation failed")))
                           (or_else (field "error" parsed)
                                    (VStr (str "Unknown error"))))
         else
           entries <- lift (iterate (or_else (field "actions" parsed)
                                             (VArr []))) ;;
           validActions <- lift (validate entries) ;;
           ret (mkCodeGen (Nat.ltb 0 (List.length validActions))
                          validActions
                          (or_else (field "explanation" parsed)
                                   (VStr (str "Generated actions")))
                          VUndefined)
     end)
    (fun error =>
       ret (failure (VStr (str "Code generation failed"))
                    (VStr (message_or error (str "Unknown error"))))).

(** *** Notions used to state the properties of the stages *)

(** The model call of the intent stage. *)
Definition intent_call (command : jsstring) (domContext : SimplifiedDOM)
           (settings : ExtensionSettings) : Async jsval :=
  AIClient.callAI net
    (mkOptions (provider settings) (apiKey settings) (intentModel settings)
               INTENT_SYSTEM_PROMPT (intent_userMessage command domContext)
               (Some (500 # 1)%Q) None).

(** The model call of the action generator. *)
Definition codegen_call (command : jsstring) (parsedIntent : jsval)
           (domContext : SimplifiedDOM) (settings : ExtensionSettings)
           (conversationHistory : list ChatMessage) : Async jsval :=
  AIClient.callAI net
    (mkOptions (provider settings) (apiKey settings) (codeGenModel settings)
               CODEGEN_SYSTEM_PROMPT
               (codegen_userMessage command parsedIntent domContext
                                    conversationHistory)
               (Some (2000 # 1)%Q) None).

(** The response is a text that holds no block between braces. *)
Definition no_block (o : outcome jsval) : Prop :=
  exists s, o = Resolved (VStr s) /\ match0 s JSON_BLOCK = None.

(** The response holds a block that parses to [parsed]. *)
Definition parses_to (o : outcome jsval) (parsed : jsval) : Prop :=
  exists s block, o = Resolved (VStr s) /\
                  match0 s JSON_BLOCK = Some block /\
                  JSON_parse block = inl parsed.

(** Nothing structured can be read from the outcome of the model call:
    the call failed, or its result is not a text, or the text holds no
    block, or the block does not parse. *)
Definition unusable (o : outcome jsval) : Prop :=
  match o with
  | Rejected _ => True
  | Resolved (VStr s) =>
      match match0 s JSON_BLOCK with
      | None => True
      | Some block => exists e, JSON_parse block = inr e
      end
  | Resolved _ => True
  end.

(** An entry of the actions array carries a kind. *)
Definition has_kind (entry : jsval) : bool :=
  truthy (field "actionType" entry).

(** The action stored for an entry. *)
Definition stored (entry : jsval) : GeneratedAction :=
  mkAction (field "code" entry)
           (or_else (field "selector" entry) VNull)
           (field "actionType" entry)
           (or_else (field "description" entry) (VStr (str "Action")))
           (or_else (field "verification" entry) defaultVerification).

Definition nullish (v : jsval) : bool :=
  match v with
  | VUndefined | VNull => true
  | _ => false
  end.

Definition is_empty {A} (xs : list A) : bool :=
  match xs with
  | [] => true
  | _ :: _ => false
  end.

End WithModel.

End Stages.

(* ================================================================== *)
(** ** Pipeline orchestrator *)
(* ================================================================== *)

Module Pipeline.

(** The stages of [PipelineState]. *)
Inductive Stage : Type :=
| idle | fast_path | intent | clarification | codegen | safety
| execution | verification | complete | error.

Definition stage_eqb (a b : Stage) : bool :=
  match a, b with
  | idle, idle | fast_path, fast_path | intent, intent
  | clarification, clarification | codegen, codegen | safety, safety
  | execution, execution | verification, verification
  | complete, complete | error, error => true
  | _, _ => false
  end.

Inductive Verdict : Type :=
| Unsafe        (* a blocked pattern matched *)
| Flagged       (* safe, confirmation required *)
| Clear.

Record Execution : Type := mkExecution {
  ex_success : bool;
  ex_requiresRetry : bool
}.

(** What the stages answer for one command; a stage that takes part in
    retries is asked once per attempt. *)
Record Collaborators : Type := mkCollaborators {
  fastPathMatches : bool;           (* Pattern Matcher *)
  fastPathSucceeds : bool;          (* Executor on the fast-path action *)
  intentClear : bool;               (* Intent Resolver *)
  generates : nat -> bool;          (* Action Generator: at least one action *)
  verdict : nat -> Verdict;         (* Safety Gate *)
  confirmed : nat -> bool;          (* the external decision on a flagged action *)
  executes : nat -> Execution;      (* Executor *)
  verifies : nat -> bool            (* Verifier *)
}.

Record PipelineState : Type := mkPipeline {
  stage : Stage;
  viaFastPath : bool;               (* execution was entered from the fast path *)
  attempt : nat;                    (* RetryContext.attempt *)
  entered : list Stage              (* the stages entered so far, latest first *)
}.

Definition initial : PipelineState := mkPipeline idle false 0 [idle].

Definition goto (st : Stage) (s : PipelineState) : PipelineState :=
  mkPipeline st (viaFastPath s) (attempt s) (st :: entered s).

Section Orchestrator.

Variable maxRetries : Z.          (* from the configuration *)
Variable c : Collaborators.

Definition attemptsRemain (s : PipelineState) : bool :=
  (Z.of_nat (attempt s) <? maxRetries)%Z.

(** Transition 10: regenerate, with the attempt counted. *)
Definition retry (s : PipelineState) : PipelineState :=
  if attemptsRemain s
  then mkPipeline codegen (viaFastPath s) (S (attempt s))
                  (codegen :: entered s)
  else goto error s.

(** Modelled from the spec: the orchestrator ([processPipeline]) is not
    among the sources; this is the state machine of the pipeline section,
    one transition per step.  A new command first tries the fast path; a
    match goes to execution and from there to complete or error; no match
    goes to intent; an unclear intent suspends in clarification; a clear
    one goes to codegen; codegen with at least one action goes to
    safety, with none to error; unsafe is a terminal error; flagged
    proceeds on confirmation; execution failure with the retry hint and
    attempts remaining regenerates (codegen, safety, execution again),
    bounded by [maxRetries]; execution success goes to verification;
    verification failure counts as an execution failure for retries. *)
Definition step (s : PipelineState) : PipelineState :=
  match stage s with
  | idle => goto fast_path s
  | fast_path =>
      if fastPathMatches c
      then mkPipeline execution true (attempt s) (execution :: entered s)
      else goto intent s
  | intent =>
      if intentClear c then goto codegen s else goto clarification s
  | clarification => s
  | codegen =>
      if generates c (attempt s) then goto safety s else goto error s
  | safety =>
      match verdict c (attempt s) with
      | Unsafe => goto error s
      | Flagged =>
          if confirmed c (attempt s) then goto execution s else goto error s
      | Clear => goto execution s
      end
  | execution =>
      if viaFastPath s
      then if fastPathSucceeds c then goto complete s else goto error s
      else
        let r := executes c (attempt s) in
        if ex_success r then goto verification s
        else if ex_requiresRetry r then retry s
        else goto error s
  | verification =>
      if verifies c (attempt s) then goto complete s else retry s
  | complete => s
  | error => s
  end.

Fixpoint run (fuel : nat) (s : PipelineState) : PipelineState :=
  match fuel with
  | O => s
  | S fuel' => run fuel' (step s)
  end.

(** The stages in which the pipeline rests. *)
Definition resting (s : PipelineState) : bool :=
  match stage s with
  | clarification | complete | error => true
  | _ => false
  end.

(** How often a stage was entered. *)
Definition entries (st : Stage) (s : PipelineState) : nat :=
  List.length (filter (stage_eqb st) (entered s)).

End Orchestrator.

(** Modelled from the spec: the orchestrator takes [maxRetries] from the
    configuration it is given for the run. *)
Definition processPipeline (settings : ExtensionSettings) (c : Collaborators)
           (fuel : nat) : PipelineState :=
  run (maxRetries settings) c fuel initial.

(** *** Notions used to state the retry bound *)

(** The safety stage sends the actions of an attempt on to execution:
    they are clear, or flagged and confirmed. *)
Definition admitted (c : Collaborators) (a : nat) : bool :=
  match verdict c a with
  | Unsafe => false
  | Flagged => confirmed c a
  | Clear => true
  end.

(** A command that takes the model path, reaches the executor at every
    attempt, and whose execution always fails with the retry hint. *)
Record always_failing (c : Collaborators) : Prop := {
  af_fast : fastPathMatches c = false;
  af_intent : intentClear c = true;
  af_codegen : forall a, generates c a = true;
  af_safety : forall a, admitted c a = true;
  af_exec : forall a, executes c a = mkExecution false true
}.

(** One regenerate-and-execute cycle, latest stage first. *)
Definition cycle : list Stage := [execution; safety; codegen].

Fixpoint cycles (n : nat) : list Stage :=
  match n with
  | O => []
  | S n' => cycle ++ cycles n'
  end.

Definition rank (st : Stage) : nat :=
  match st with
  | idle => 7 | fast_path => 6 | intent => 5 | codegen => 4 | safety => 3
  | execution => 2 | verification => 1
  | clarification | complete | error => 0
  end.

(** What is left to do: the attempts that remain, then the stages of the
    current attempt. *)
Definition measure (maxRetries : Z) (s : PipelineState) : nat :=
  4 * (Z.to_nat maxRetries - attempt s) + rank (stage s).

End Pipeline.

(* ================================================================== *)
(** ** Concrete hosts, pages and providers for examples *)
(* ================================================================== *)

Module Sample.

Definition lower1 (c : char) : char := if is_upper c then (c + 32)%N else c.

(** A host for concrete runs: ASCII lower-casing and a parser that
    knows the texts listed in [known]. *)
Definition sampleHost (known : list (jsstring * jsval)) : Host :=
  {| toLowerCase := map lower1;
     JSON_parse := fun s =>
       match find (fun kv => JS.eqb (fst kv) s) known with
       | Some kv => inl (snd kv)
       | None => inr (ErrorObject (str "Unexpected token"))
       end;
     JSON_stringify := fun _ => str "{}";
     Number_toString := fun _ => str "0";
     fault_message := fun _ => str "TypeError" |}.

(** A tab whose page holds the given clickable elements and runs the
    click-by-text function; other injections yield no result. *)
Definition pageChrome (H : Host) (els : list PageElement) : Chrome :=
  {| scripting_executeScript := fun _ s =>
       match s with
       | ClickByTextFn (VStr t) =>
           Resolved [Some (snd (click_by_text_in_page els t))]
       | _ => Resolved [None]
       end;
     tabs_update := fun _ _ => Resolved tt;
     tabs_reload := fun _ => Resolved tt |}.

(** A tab whose first frame answers every injection with the given
    result. *)
Definition frameChrome (result : InjectionResult) : Chrome :=
  {| scripting_executeScript := fun _ _ => Resolved [Some result];
     tabs_update := fun _ _ => Resolved tt;
     tabs_reload := fun _ => Resolved tt |}.

(** A tab that cannot be scripted. *)
Definition closedChrome : Chrome :=
  {| scripting_executeScript := fun _ _ =>
       Rejected (ErrorObject (str "No tab with id"));
     tabs_update := fun _ _ => Rejected (ErrorObject (str "No tab with id"));
     tabs_reload := fun _ => Rejected (ErrorObject (str "No tab with id")) |}.

(** A provider that answers every request with the given text. *)
Definition replyNet (txt : jsstring) : Net :=
  fun _ _ =>
    Resolved (mkResponse true 200 (Resolved txt)
                (Resolved
                   (VObj [(str "content",
                           VArr [VObj [(str "type", VStr (str "text"));
                                       (str "text", VStr txt)]])]))).

(** A provider that cannot be reached. *)
Definition downNet : Net :=
  fun _ _ => Rejected (ErrorObject (str "Failed to fetch")).

Definition settings : ExtensionSettings :=
  mkSettings claude (str "sk-test") (intentModel DEFAULT_SETTINGS)
             (codeGenModel DEFAULT_SETTINGS) 3 true false system.

Definition options : AICallOptions :=
  mkOptions claude (str "sk-test") (str "m") (str "system") (str "hello")
            None None.

Definition emptyPage : SimplifiedDOM :=
  mkDOM (str "https://example.com/") (str "Example") 0 [] [].

Definition signIn : jsstring := str "Sign In".

(** A response without any structured block. *)
Definition plainText : jsstring := str "I am not sure what you mean.".

(** A response whose block is not JSON. *)
Definition brokenBlock : jsstring := str "{ success: true, actions: [ }".

(** [click "Sign In"] *)
Definition clickSignIn : jsstring := str "click " ++ [dquote] ++ signIn ++ [dquote].

Definition cancelButton : PageElement :=
  mkPageElement (Some (str " Cancel ")) None None.

(** [{"success":true,"actions":[null,{"actionType":"click"}]}] and the
    value it parses to. *)
Definition key (k : string) : jsstring := [dquote] ++ str k ++ [dquote].

Definition nullEntryText : jsstring :=
  str "{" ++ key "success" ++ str ":true," ++ key "actions" ++ str ":[null,{"
    ++ key "actionType" ++ str ":" ++ key "click" ++ str "}]}".

Definition clickEntry : jsval := VObj [(str "actionType", VStr (str "click"))].

Definition nullEntryValue : jsval :=
  VObj [(str "success", VBool true);
        (str "actions", VArr [VNull; clickEntry])].

(** The same response without the [null] entry. *)
Definition oneEntryText : jsstring :=
  str "{" ++ key "success" ++ str ":true," ++ key "actions" ++ str ":[{"
    ++ key "actionType" ++ str ":" ++ key "click" ++ str "}]}".

Definition oneEntryValue : jsval :=
  VObj [(str "success", VBool true); (str "actions", VArr [clickEntry])].

(** The same response with an entry that has no kind, [{}], in the
    place of the [null] entry. *)
Definition kindlessEntryText : jsstring :=
  str "{" ++ key "success" ++ str ":true," ++ key "actions" ++ str ":[{},{"
    ++ key "actionType" ++ str ":" ++ key "click" ++ str "}]}".

Definition kindlessEntryValue : jsval :=
  VObj [(str "success", VBool true);
        (str "actions", VArr [VObj []; clickEntry])].

Definition jsonHost : Host :=
  sampleHost [(nullEntryText, nullEntryValue); (oneEntryText, oneEntryValue);
              (kindlessEntryText, kindlessEntryValue)].

Definition scrollAction (direction : jsval) : GeneratedAction :=
  mkAction direction VNull (VStr (str "scroll")) (VStr (str "Scroll"))
           VUndefined.

Definition extractAction (sel : jsval) : GeneratedAction :=
  mkAction (VStr []) sel (VStr (str "extract")) (VStr (str "Extract"))
           VUndefined.

(** The shared limiter after ten calls at time 0, all admitted. *)
Definition fullLimiter : AIClient.RateLimiter :=
  snd (AIClient.serve (repeat 0%Z 10) AIClient.rateLimiter).

Definition limiter_times : list Z := [0; 1; 2; 5; 9; 10; 11; 12]%Z.

(** Stages that always let the executor run and fail with the retry
    hint. *)
Definition retrying : Pipeline.Collaborators :=
  Pipeline.mkCollaborators false false true (fun _ => true)
    (fun _ => Pipeline.Clear) (fun _ => true)
    (fun _ => Pipeline.mkExecution false true) (fun _ => true).

(** The same with actions that are flagged at every attempt and
    confirmed each time. *)
Definition retryingConfirmed : Pipeline.Collaborators :=
  Pipeline.mkCollaborators false false true (fun _ => true)
    (fun _ => Pipeline.Flagged) (fun _ => true)
    (fun _ => Pipeline.mkExecution false true) (fun _ => true).

End Sample.

(* ================================================================== *)
(** ** Arrays *)
(* ================================================================== *)

Module Arrays.

(** [xs.slice(start)]: a negative [start] counts from the end. *)
Definition slice_from {A} (start : Z) (xs : list A) : list A :=
  let len := Z.of_nat (List.length xs) in
  let k := if (start <? 0)%Z then Z.max (len + start) 0 else Z.min start len in
  skipn (Z.to_nat k) xs.

(** [xs.slice(-count)].  The argument is the number [-count]; for
    [count = 0] that is zero, and the slice starts at the beginning. *)
Definition slice_last {A} (count : Z) (xs : list A) : list A :=
  slice_from (- count) xs.

(** Insertion of [x] before the first entry whose key is not smaller. *)
Fixpoint insert_by {A} (key : A -> Z) (x : A) (l : list A) : list A :=
  match l with
  | [] => [x]
  | y :: l' => if (key x <=? key y)%Z then x :: l else y :: insert_by key x l'
  end.

(** [xs.sort((a, b) => key(a) - key(b))] on integer keys.  The sort of
    the host is stable, and the stable order by a key is unique: entries
    are ordered by key, entries with equal keys keep their order. *)
Definition sort_by {A} (key : A -> Z) (xs : list A) : list A :=
  fold_right (insert_by key) [] xs.

(** The entry at index [i] replaced by its image; other indices, and a
    list too short, are left alone. *)
Fixpoint update {A} (i : nat) (f : A -> A) (l : list A) : list A :=
  match l, i with
  | [], _ => []
  | x :: r, O => f x :: r
  | x :: r, S j => x :: update j f r
  end.

(** Every entry's key is at most the key of every later entry. *)
Fixpoint ordered {A} (key : A -> Z) (l : list A) : Prop :=
  match l with
  | [] => True
  | x :: r => (forall y, In y r -> (key x <= key y)%Z) /\ ordered key r
  end.

(** The entries of a list are pairwise different. *)
Fixpoint distinct (l : list Z) : bool :=
  match l with
  | [] => true
  | x :: r => negb (existsb (Z.eqb x) r) && distinct r
  end.

End Arrays.

(* ================================================================== *)
(** ** Session manager *)
(* ================================================================== *)

Module Sessions.

Import Arrays.

Inductive VerificationKind : Type :=
| domChange | navigation | styleChange.

(** [ActionPayload] of the message types. *)
Record ActionPayload : Type := mkPayload {
  ap_type : Safety.ActionType;
  ap_target : option jsstring;
  ap_value : option jsval;
  ap_description : option jsstring;
  ap_verification : option (VerificationKind * jsstring)
}.

Inductive Role : Type :=
| RoleUser | RoleAssistant | RoleSystem.

(** [ChatMessage] of the message types, with all its fields. *)
Record ChatMessage : Type := mkMessage {
  msg_id : jsstring;
  msg_role : Role;
  msg_content : jsstring;
  msg_timestamp : Z;
  msg_actions : option (list ActionPayload);
  msg_isError : option bool
}.

Record ActionRecord : Type := mkActionRecord {
  ar_action : ActionPayload;
  ar_success : bool;
  ar_timestamp : Z
}.

Record Session : Type := mkSession {
  id : jsstring;
  tabId : Z;
  messages : list ChatMessage;
  domContext : option SimplifiedDOM;
  actionHistory : list ActionRecord;
  pendingClarification : option jsstring;
  createdAt : Z;
  lastActivityAt : Z
}.

(** A session is an object: the manager's map and every wrapper made
    for it hold the same object.  Objects live in a store and are
    referred to by their address there; the store only grows. *)
Definition address : Type := nat.
Definition Store : Type := list Session.

(** [Map<number, Session>]: the entries in insertion order. *)
Definition SessionMap : Type := list (Z * address).

Definition Map_get (k : Z) (entries : SessionMap) : option address :=
  option_map snd (find (fun e => Z.eqb (fst e) k) entries).

Definition Map_has (k : Z) (entries : SessionMap) : bool :=
  existsb (fun e => Z.eqb (fst e) k) entries.

(** An entry for a key that is present keeps its place. *)
Definition Map_set (k : Z) (v : address) (entries : SessionMap) : SessionMap :=
  if Map_has k entries
  then map (fun e => if Z.eqb (fst e) k then (k, v) else e) entries
  else entries ++ [(k, v)].

Definition Map_delete (k : Z) (entries : SessionMap) : SessionMap :=
  filter (fun e => negb (Z.eqb (fst e) k)) entries.

(** The session manager with the objects it refers to. *)
Record SessionManager : Type := mkManager {
  store : Store;
  sessions : SessionMap
}.

Definition maxSessions : nat := 50.
Definition sessionTimeout : Z := 30 * 60 * 1000.

(** [new SessionManager()] *)
Definition newSessionManager : SessionManager := mkManager [] [].

(** Wrapper class for easier session manipulation. *)
Record SessionWrapper : Type := mkWrapper {
  session : address
}.

Definition deref (a : address) (st : Store) : option Session := nth_error st a.

(** [session.lastActivityAt] of the object at an address. *)
Definition activity (st : Store) (a : address) : Z :=
  match deref a st with
  | Some s => lastActivityAt s
  | None => 0
  end.

Definition touch (now : Z) (s : Session) : Session :=
  mkSession (id s) (tabId s) (messages s) (domContext s) (actionHistory s)
            (pendingClarification s) (createdAt s) now.

Definition expired (now : Z) (st : Store) (e : Z * address) : bool :=
  (now - activity st (snd e) >? sessionTimeout)%Z.

(** Clean up old sessions to prevent memory leaks; [now] is the reading
    of the clock.  Deleting the entry under the cursor of a map iteration
    does not disturb the iteration, so the first loop is a filter. *)
Definition cleanupOldSessions (now : Z) (mgr : SessionManager) : SessionManager :=
  let live := filter (fun e => negb (expired now (store mgr) e)) (sessions mgr) in
  if Nat.ltb maxSessions (List.length live)
  then
    let sortedSessions := sort_by (fun e => activity (store mgr) (snd e)) live in
    let toRemove := firstn (List.length live - maxSessions) sortedSessions in
    mkManager (store mgr)
              (fold_left (fun entries e => Map_delete (fst e) entries) toRemove live)
  else mkManager (store mgr) live.

(** Get or create a session for a tab.  [uuid] is what
    [crypto.randomUUID()] returns and [now k] the k-th reading of the
    clock during the call: creating reads it three times (created, last
    active, clean-up), finding the session reads it once. *)
Definition getOrCreateSession (tabId : Z) (uuid : jsstring) (now : nat -> Z)
           (mgr : SessionManager) : SessionWrapper * SessionManager :=
  match Map_get tabId (sessions mgr) with
  | None =>
      let a := List.length (store mgr) in
      let s := mkSession uuid tabId [] None [] None (now 0) (now 1) in
      (mkWrapper a,
       cleanupOldSessions (now 2)
         (mkManager (store mgr ++ [s]) (Map_set tabId a (sessions mgr))))
  | Some a =>
      (mkWrapper a,
       mkManager (update a (touch (now 0)) (store mgr)) (sessions mgr))
  end.

(** Get an existing session; [None] is [null]. *)
Definition getSession (tabId : Z) (now : Z) (mgr : SessionManager)
  : option SessionWrapper * SessionManager :=
  match Map_get tabId (sessions mgr) with
  | None => (None, mgr)
  | Some a =>
      (Some (mkWrapper a),
       mkManager (update a (touch now) (store mgr)) (sessions mgr))
  end.

(** Remove a session. *)
Definition removeSession (tabId : Z) (mgr : SessionManager) : SessionManager :=
  mkManager (store mgr) (Map_delete tabId (sessions mgr)).

(** *** The wrapper's methods, on the object *)

Definition with_messages (ms : list ChatMessage) (s : Session) : Session :=
  mkSession (id s) (tabId s) ms (domContext s) (actionHistory s)
            (pendingClarification s) (createdAt s) (lastActivityAt s).

Definition with_actions (hs : list ActionRecord) (s : Session) : Session :=
  mkSession (id s) (tabId s) (messages s) (domContext s) hs
            (pendingClarification s) (createdAt s) (lastActivityAt s).

Definition push_message (message : ChatMessage) (s : Session) : Session :=
  let pushed := messages s ++ [message] in
  with_messages (if Nat.ltb 100 (List.length pushed)
                 then slice_last 50 pushed else pushed) s.

Definition set_context (context : SimplifiedDOM) (s : Session) : Session :=
  mkSession (id s) (tabId s) (messages s) (Some context) (actionHistory s)
            (pendingClarification s) (createdAt s) (lastActivityAt s).

Definition push_action (action : ActionPayload) (success : bool) (now : Z)
           (s : Session) : Session :=
  let pushed := actionHistory s ++ [mkActionRecord action success now] in
  with_actions (if Nat.ltb 50 (List.length pushed)
                then slice_last 30 pushed else pushed) s.

Definition set_clarification (answer : option jsstring) (s : Session) : Session :=
  mkSession (id s) (tabId s) (messages s) (domContext s) (actionHistory s)
            answer (createdAt s) (lastActivityAt s).

(** *** The wrapper's methods, through the store *)

Definition on_session (sw : SessionWrapper) (f : Session -> Session)
           (mgr : SessionManager) : SessionManager :=
  mkManager (update (session sw) f (store mgr)) (sessions mgr).

Definition read {A} (sw : SessionWrapper) (f : Session -> A)
           (mgr : SessionManager) : option A :=
  option_map f (deref (session sw) (store mgr)).

(** Add a message to the session. *)
Definition addMessage (sw : SessionWrapper) (message : ChatMessage)
  : SessionManager -> SessionManager :=
  on_session sw (push_message message).

(** Update DOM context. *)
Definition setDOMContext (sw : SessionWrapper) (context : SimplifiedDOM)
  : SessionManager -> SessionManager :=
  on_session sw (set_context context).

(** Record an action execution; [now] is the reading of the clock. *)
Definition recordAction (sw : SessionWrapper) (action : ActionPayload)
           (success : bool) (now : Z) : SessionManager -> SessionManager :=
  on_session sw (push_action action success now).

(** Set pending clarification response. *)
Definition setClarification (sw : SessionWrapper) (answer : jsstring)
  : SessionManager -> SessionManager :=
  on_session sw (set_clarification (Some answer)).

(** Clear pending clarification. *)
Definition clearClarification (sw : SessionWrapper)
  : SessionManager -> SessionManager :=
  on_session sw (set_clarification None).

Definition or_count (count : option Z) (d : Z) : Z :=
  match count with
  | Some c => c
  | None => d
  end.

(** Get recent action history for context; [count] defaults to 5. *)
Definition getRecentActions (sw : SessionWrapper) (count : option Z)
           (mgr : SessionManager) : option (list ActionRecord) :=
  read sw (fun s => slice_last (or_count count 5) (actionHistory s)) mgr.

(** Get conversation history for AI context; [maxMessages] defaults to 10. *)
Definition getConversationContext (sw : SessionWrapper) (maxMessages : option Z)
           (mgr : SessionManager) : option (list ChatMessage) :=
  read sw (fun s => slice_last (or_count maxMessages 10) (messages s)) mgr.

(** *** Notions used to state the properties of the manager *)

(** The map refers to objects of the store, one entry per tab, and each
    entry's object is the session of that tab. *)
Record well_formed (mgr : SessionManager) : Prop := {
  wf_keys : NoDup (map fst (sessions mgr));
  wf_refs : forall t a, In (t, a) (sessions mgr) ->
                        exists s, deref a (store mgr) = Some s /\ tabId s = t
}.

(** No session of the map was active after [now]. *)
Definition not_after (now : Z) (mgr : SessionManager) : Prop :=
  forall e, In e (sessions mgr) -> (activity (store mgr) (snd e) <= now)%Z.

(** The tabs that have a session. *)
Definition tabs (mgr : SessionManager) : list Z := map fst (sessions mgr).

(** The entries whose session was active within the timeout. *)
Definition unexpired (now : Z) (mgr : SessionManager) : SessionMap :=
  filter (fun e => negb (expired now (store mgr) e)) (sessions mgr).

(** The entries left when the tabs of [rem] are deleted one by one. *)
Definition without (rem : SessionMap) (e : Z * address) : bool :=
  negb (existsb (Z.eqb (fst e)) (map fst rem)).

(** A change that leaves [lastActivityAt] and [tabId] alone. *)
Definition quiet (f : Session -> Session) : Prop :=
  forall s, lastActivityAt (f s) = lastActivityAt s /\ tabId (f s) = tabId s.

(** What a client can ask of the manager and of the wrappers it was
    given, with the readings of the clock and the identifiers drawn. *)
Inductive request : Type :=
| GetOrCreateSession (tabId : Z) (uuid : jsstring) (now : nat -> Z)
| GetSession (tabId : Z) (now : Z)
| RemoveSession (tabId : Z)
| AddMessage (sw : SessionWrapper) (message : ChatMessage)
| SetDOMContext (sw : SessionWrapper) (context : SimplifiedDOM)
| RecordAction (sw : SessionWrapper) (action : ActionPayload)
               (success : bool) (now : Z)
| SetClarification (sw : SessionWrapper) (answer : jsstring)
| ClearClarification (sw : SessionWrapper).

Definition perform (r : request) (mgr : SessionManager) : SessionManager :=
  match r with
  | GetOrCreateSession tabId uuid now =>
      snd (getOrCreateSession tabId uuid now mgr)
  | GetSession tabId now => snd (getSession tabId now mgr)
  | RemoveSession tabId => removeSession tabId mgr
  | AddMessage sw message => addMessage sw message mgr
  | SetDOMContext sw context => setDOMContext sw context mgr
  | RecordAction sw action success now =>
      recordAction sw action success now mgr
  | SetClarification sw answer => setClarification sw answer mgr
  | ClearClarification sw => clearClarification sw mgr
  end.

(** The manager after a sequence of requests, starting empty. *)
Definition after (rs : list request) : SessionManager :=
  fold_left (fun mgr r => perform r mgr) rs newSessionManager.

(** The bounds the manager and the wrappers maintain. *)
Record bounded (mgr : SessionManager) : Prop := {
  b_sessions : List.length (sessions mgr) <= maxSessions;
  b_messages : forall s, In s (store mgr) -> List.length (messages s) <= 100;
  b_actions : forall s, In s (store mgr) -> List.length (actionHistory s) <= 50
}.

End Sessions.

(* ================================================================== *)
(** ** What a stage reads of its inputs *)
(* ================================================================== *)

Module Views.

(** The page as the intent stage reads it: the interactive elements
    only, of each its id, tag, four attributes and the first 50 code
    units of its text; no page text. *)
Definition intentView (d : SimplifiedDOM) : SimplifiedDOM :=
  mkDOM (dom_url d) (dom_title d) 0
        (map (fun el =>
                mkElement (el_id el) (el_tagName el) None
                          (slice0 50 (el_text el))
                          (mkAttrs None None (at_href (el_attributes el))
                                   (at_type (el_attributes el))
                                   (at_placeholder (el_attributes el))
                                   (at_ariaLabel (el_attributes el))
                                   None None)
                          true false (mkBox 0 0 0 0))
             (filter el_isInteractive (dom_elements d)))
        [].

(** The page as the action generator reads it: of each element the
    first 80 code units of its text, of the page text the first 500. *)
Definition codegenView (d : SimplifiedDOM) : SimplifiedDOM :=
  mkDOM (dom_url d) (dom_title d) 0
        (map (fun el =>
                mkElement (el_id el) (el_tagName el) None
                          (slice0 80 (el_text el))
                          (mkAttrs (at_id (el_attributes el))
                                   (at_className (el_attributes el))
                                   (at_href (el_attributes el))
                                   (at_type (el_attributes el))
                                   (at_placeholder (el_attributes el))
                                   (at_ariaLabel (el_attributes el))
                                   (at_name (el_attributes el))
                                   None)
                          (el_isInteractive el) false (el_boundingBox el))
             (dom_elements d))
        (slice0 500 (dom_pageText d)).

(** The settings a model stage reads: the provider, the key and its
    own model. *)
Definition intentSettings (s : ExtensionSettings) : ExtensionSettings :=
  mkSettings (provider s) (apiKey s) (intentModel s) [] 0 false false light.

Definition codegenSettings (s : ExtensionSettings) : ExtensionSettings :=
  mkSettings (provider s) (apiKey s) [] (codeGenModel s) 0 false false light.

End Views.

(* ================================================================== *)
(** ** Executor: reading the page and verifying an action *)
(* ================================================================== *)

Module Inspection.

(** *** The page as the parsing function reads it *)

(** [DOMRect], the fields read. *)
Record Rect : Type := mkRect {
  rect_x : Q;
  rect_y : Q;
  rect_width : Q;
  rect_height : Q;
  rect_top : Q
}.

(** An element of the page: what the parsing function reads of it. *)
Record Element : Type := mkDomElement {
  e_tagName : jsstring;                  (* el.tagName *)
  e_textContent : option jsstring;       (* el.textContent *)
  e_id : jsstring;                       (* el.id; empty when there is none *)
  e_href : option jsstring;              (* el.getAttribute('href') *)
  e_type : option jsstring;
  e_placeholder : option jsstring;
  e_ariaLabel : option jsstring;
  e_name : option jsstring;
  e_rect : Rect;                         (* el.getBoundingClientRect() *)
  e_display : jsstring;                  (* getComputedStyle(el).display *)
  e_visibility : jsstring                (* getComputedStyle(el).visibility *)
}.

Record Document : Type := mkDocument {
  interactive : list Element;    (* querySelectorAll(INTERACTIVE_SELECTORS),
                                    in document order *)
  innerHeight : Q;               (* window.innerHeight *)
  location_href : jsstring;
  document_title : jsstring;
  main_innerText : option jsstring   (* innerText of main, article or body *)
}.

(** *** What the parsing function returns *)

Record ParsedAttributes : Type := mkParsedAttrs {
  pa_id : option jsstring;
  pa_href : option jsstring;
  pa_type : option jsstring;
  pa_placeholder : option jsstring;
  pa_ariaLabel : option jsstring;
  pa_name : option jsstring
}.

Record ParsedElement : Type := mkParsed {
  p_id : jsstring;
  p_tagName : jsstring;
  p_text : jsstring;
  p_attributes : ParsedAttributes;
  p_isInteractive : bool;
  p_boundingBox : BoundingBox
}.

Record ParsedDOM : Type := mkParsedDOM {
  pd_url : jsstring;
  pd_title : jsstring;
  pd_timestamp : Z;
  pd_elements : list ParsedElement;
  pd_pageText : jsstring
}.

(** [Math.round]: the nearest integer, a tie going up. *)
Definition Math_round (q : Q) : Z :=
  ((2 * Qnum q + Z.pos (Qden q)) / (2 * Z.pos (Qden q)))%Z.

Definition Q_lt (a b : Q) : bool := negb (Qle_bool b a).

(** [x || undefined] on an attribute. *)
Definition truthy_attr (o : option jsstring) : option jsstring :=
  match o with
  | Some (c :: s) => Some (c :: s)
  | _ => None
  end.

Definition shown (innerH : Q) (el : Element) : bool :=
  (Q_lt 0 (rect_width (e_rect el)) && Q_lt 0 (rect_height (e_rect el))
   && negb (JS.eqb (e_display el) (str "none"))
   && negb (JS.eqb (e_visibility el) (str "hidden"))
   && Q_lt (rect_top (e_rect el)) innerH)%bool.

Section InPage.

Context `{Host}.

Definition describe (id : jsstring) (el : Element) : ParsedElement :=
  mkParsed id
           (toLowerCase (e_tagName el))
           (slice0 100 (trim (or_empty (e_textContent el))))
           (mkParsedAttrs (truthy_attr (Some (e_id el)))
                          (truthy_attr (e_href el))
                          (truthy_attr (e_type el))
                          (truthy_attr (e_placeholder el))
                          (truthy_attr (e_ariaLabel el))
                          (truthy_attr (e_name el)))
           true
           (mkBox (Math_round (rect_x (e_rect el)))
                  (Math_round (rect_y (e_rect el)))
                  (Math_round (rect_width (e_rect el)))
                  (Math_round (rect_height (e_rect el)))).

(** The loop over the candidates: [idCounter] counts the elements kept,
    [i] is the position of the candidate among the candidates.  The
    result holds the elements and the entries of the element map, which
    refer to the candidates by position. *)
Fixpoint collect (innerH : Q) (els : list Element) (idCounter : Z) (i : nat)
  : list ParsedElement * list (jsstring * nat) :=
  match els with
  | [] => ([], [])
  | el :: rest =>
      if shown innerH el
      then
        let id := str "el-" ++ of_Z idCounter in
        let (elements, elementMap) := collect innerH rest (idCounter + 1) (S i) in
        (describe id el :: elements, (id, i) :: elementMap)
      else collect innerH rest idCounter (S i)
  end.

(** DOM parsing function to be executed in the page context; [now] is
    the reading of the clock.  It returns the context and leaves the
    element map in [window.__aiAgentElementMap]. *)
Definition parseDOMInPage (doc : Document) (now : Z)
  : ParsedDOM * list (jsstring * nat) :=
  let (elements, elementMap) :=
    collect (innerHeight doc) (interactive doc) 0 0 in
  (mkParsedDOM (location_href doc) (document_title doc) now elements
               (match main_innerText doc with
                | Some t => slice0 2000 t
                | None => []
                end),
   elementMap).

End InPage.

(** *** The calls that only look *)

(** [chrome.tabs.Tab], the fields read. *)
Record Tab : Type := mkTab {
  tab_url : option jsstring;
  tab_status : option jsstring
}.

Record Browser : Type := mkBrowser {
  tabs_get : Z -> outcome Tab;
  (** [executeScript] with the parsing function: one entry per frame, an
      entry being [None] when the frame has no result. *)
  scripting_parseDOM : Z -> outcome (list (option ParsedDOM))
}.

Inductive look : Type :=
| LookTimeout (ms : Z)       (* a promise settled by [setTimeout] *)
| LookTabsGet (tabId : Z)
| LookParseDOM (tabId : Z).

(** An asynchronous computation over these calls: the calls made, in
    order, and how the promise settled. *)
Definition Looking (A : Type) : Type := (list look * outcome A)%type.

Definition done {A} (a : A) : Looking A := ([], Resolved a).
Definition fail {A} (e : thrown) : Looking A := ([], Rejected e).

Definition andThen {A B} (c : Looking A) (k : A -> Looking B) : Looking B :=
  match c with
  | (tr, Resolved a) => let (tr', o) := k a in (tr ++ tr', o)
  | (tr, Rejected e) => (tr, Rejected e)
  end.

(** [try { await c } catch (e) { h e }] *)
Definition orCatch {A} (c : Looking A) (h : thrown -> Looking A) : Looking A :=
  match c with
  | (tr, Resolved a) => (tr, Resolved a)
  | (tr, Rejected e) => let (tr', o) := h e in (tr ++ tr', o)
  end.

Definition ask {A} (l : look) (o : outcome A) : Looking A := ([l], o).

Definition raise {A} (x : A + thrown) : Looking A :=
  match x with
  | inl a => done a
  | inr e => fail e
  end.

Definition looks {A} (c : Looking A) : list look := fst c.
Definition result {A} (c : Looking A) : outcome A := snd c.

Record VerificationResult : Type := mkVerification {
  v_success : bool;
  v_expectedResult : jsval;
  v_actualResult : jsstring
}.

(** [s.includes(p)] *)
Fixpoint includes (s p : jsstring) : bool :=
  (prefixb p s
   || match s with
      | [] => false
      | _ :: s' => includes s' p
      end)%bool.

Section WithBrowser.

Context `{Host}.
Variable browser : Browser.

(** Get DOM context from the content script.  The [catch] block logs
    and throws the error again. *)
Definition getDOMContext (tabId : Z) : Looking ParsedDOM :=
  orCatch
    (andThen (ask (LookParseDOM tabId) (scripting_parseDOM browser tabId))
       (fun results =>
          match results with
          | Some result :: _ => done result
          | _ => fail (ErrorObject (str "Failed to get DOM context"))
          end))
    (fun error => fail error).

(** [v.toLowerCase()] on a value that is neither [null] nor
    [undefined]: only a string has the method. *)
Definition lowered (v : jsval) : jsstring + thrown :=
  match v with
  | VStr s => inl (toLowerCase s)
  | VUndefined | VNull => inr (TypeError (ReadOfNullish (str "toLowerCase")))
  | _ => inr (TypeError (NotAFunction (str "toLowerCase")))
  end.

Definition is_loading (tab : Tab) : bool :=
  match tab_status tab with
  | Some s => JS.eqb s (str "loading")
  | None => false
  end.

(** [tab.url?.toLowerCase() || ''] *)
Definition currentUrl (tab : Tab) : jsstring :=
  match tab_url tab with
  | Some u => Stages.nonempty_or (toLowerCase u) []
  | None => []
  end.

(** Verify that an action had the expected effect. *)
Definition verifyAction (verification : jsval) (tabId : Z)
  : Looking VerificationResult :=
  let kind := Stages.field "type" verification in
  let expectedResult := Stages.field "expectedResult" verification in
  if (negb (truthy verification) || Executor.is_kind kind "none")%bool
  then done (mkVerification true (VStr (str "No verification needed"))
                            (str "Skipped"))
  else
    andThen (ask (LookTimeout 300) (Resolved tt))
      (fun _ =>
         orCatch
           (if Executor.is_kind kind "navigation"
            then
              if negb (truthy expectedResult)
              then done (mkVerification true (VStr (str "any"))
                                        (str "Navigation initiated"))
              else
                andThen (ask (LookTabsGet tabId) (tabs_get browser tabId))
                  (fun tab =>
                     andThen (raise (lowered expectedResult))
                       (fun expected =>
                          done (mkVerification
                                  (includes (currentUrl tab) expected
                                   || is_loading tab)
                                  expectedResult
                                  (FastPath.str_or (tab_url tab)
                                                   (str "loading")))))
            else done (mkVerification true
                         (or_else expectedResult (VStr (str "Change applied")))
                         (str "Verified")))
           (fun _ =>
              done (mkVerification true
                      (or_else expectedResult (VStr (str "unknown")))
                      (str "Verification skipped due to error")))).

End WithBrowser.

(** *** Notions used to state the properties *)

(** The [n] identifiers [el-c], [el-(c+1)], ... *)
Definition ids_from (c : Z) (n : nat) : list jsstring :=
  map (fun k => str "el-" ++ of_Z (c + Z.of_nat k)) (seq 0 n).

(** The identifiers [el-0], [el-1], ... up to [n]. *)
Definition element_ids (n : nat) : list jsstring := ids_from 0 n.

End Inspection.

(* ================================================================== *)
(** ** Global patterns: successive matches and replacement *)
(* ================================================================== *)

Module Global.

(** The cursor after [n] more code units of [rest] have been passed:
    the code unit before it and the input from it on. *)
Fixpoint pass (n : nat) (prev : option char) (rest : jsstring)
  : option char * jsstring :=
  match n, rest with
  | S n', c :: rest' => pass n' (Some c) rest'
  | _, _ => (prev, rest)
  end.

(** The successive matches of a global pattern, as a loop over
    [p.exec(s)] finds them while [lastIndex] advances: each search starts
    where the match before ended.  After an empty match the loop of
    [replace] steps one code unit further, and stops when that leaves
    the input; the patterns used here cannot match the empty string.
    Every round passes at least one code unit, so [fuel] beyond the
    length of the input is never used. *)
Fixpoint scan (fuel : nat) (ic : bool) (r : regex) (prev : option char)
         (rest : jsstring) (pos : nat) : list match_result :=
  match fuel with
  | O => []
  | S fuel' =>
      match search ic r prev rest pos with
      | None => []
      | Some mr =>
          let len := List.length (m_text mr) in
          let used := m_index mr - pos + Nat.max len 1 in
          if Nat.ltb (List.length rest) used
          then [mr]
          else
            let (prev', rest') := pass used prev rest in
            mr :: scan fuel' ic r prev' rest' (pos + used)
      end
  end.

(** All matches of [p] in [s], from the left. *)
Definition matchAll (p : pattern) (s : jsstring) : list match_result :=
  scan (S (List.length s)) (re_ignoreCase p) (re_body p) None s 0.

(** [s.replace(p, replacement)] for a global pattern and a replacement
    text without [$]: the text between the matches is kept, each match
    gives way to the replacement. *)
Fixpoint splice (matches : list match_result) (replacement : jsstring)
         (rest : jsstring) (pos : nat) : jsstring :=
  match matches with
  | [] => rest
  | mr :: more =>
      let upto := m_index mr - pos in
      let len := List.length (m_text mr) in
      firstn upto rest ++ replacement
        ++ splice more replacement (skipn (upto + len) rest) (pos + upto + len)
  end.

Definition replaceAll (p : pattern) (replacement : jsstring) (s : jsstring)
  : jsstring :=
  splice (matchAll p s) replacement s 0.

End Global.

(* ================================================================== *)
(** ** Safety filter: selectors and sanitizing *)
(* ================================================================== *)

Module Sanitizer.

Import Safety Global.

(** [/['"]el-(\d+)['"]/g] *)
Definition elementIdPattern : pattern :=
  mkPattern
    (seqs [RSet false [CChar squote; CChar dquote];
           lit "el-";
           RGroup 1 (RPlus (RSet false [CDigit]));
           RSet false [CChar squote; CChar dquote]])
    false true.

(** [match[1]] of a match in which the group took part. *)
Definition capture1 (mr : match_result) : jsstring :=
  match group 1 (m_caps mr) with
  | Some v => v
  | None => []
  end.

(** [ids.includes(id)] *)
Definition has (ids : list jsstring) (id : jsstring) : bool :=
  existsb (JS.eqb id) ids.

(** The element identifiers the code refers to, one per reference. *)
Definition referenced (code : jsstring) : list jsstring :=
  map (fun mr => str "el-" ++ capture1 mr) (matchAll elementIdPattern code).

Record SelectorCheck : Type := mkSelectorCheck {
  valid : bool;
  invalidSelectors : list jsstring
}.

(** Validate that selectors in the code actually exist in the DOM. *)
Definition validateSelectors (code : jsstring)
           (availableElementIds : list jsstring) : SelectorCheck :=
  let invalidSelectors :=
    filter (fun elementId => negb (has availableElementIds elementId))
           (referenced code) in
  mkSelectorCheck (Nat.eqb (List.length invalidSelectors) 0) invalidSelectors.

Definition notSemicolons : regex := RStar true (RSet true [CChar 59%N]).
Definition notRparens : regex := RStar true (RSet true [CChar 41%N]).
Definition spaces1 : regex := RPlus (RSet false [CSpace]).

(** The four patterns of [sanitizeCode], in the order they are applied. *)
Definition chromeCall : pattern := gi (seqs [lit "chrome."; words; notSemicolons]).
Definition browserCall : pattern := gi (seqs [lit "browser."; words; notSemicolons]).
Definition fetchCall : pattern :=
  gi (seqs [lit "fetch"; spaces; lparen; notRparens; rparen]).
Definition newXhr : pattern :=
  gi (seqs [lit "new"; spaces1; lit "XMLHttpRequest"; notSemicolons]).

Definition blockedComment : jsstring := str "/* blocked */".

(** Sanitize code by removing potentially dangerous constructs. *)
Definition sanitizeCode (code : jsstring) : jsstring :=
  let sanitized := code in
  let sanitized := replaceAll chromeCall blockedComment sanitized in
  let sanitized := replaceAll browserCall blockedComment sanitized in
  let sanitized := replaceAll fetchCall blockedComment sanitized in
  let sanitized := replaceAll newXhr blockedComment sanitized in
  sanitized.

(** *** Notions used to state the properties *)

(** None of the four patterns of the sanitizer matches. *)
Definition untouched (code : jsstring) : Prop :=
  test chromeCall code = false /\ test browserCall code = false /\
  test fetchCall code = false /\ test newXhr code = false.

Definition is_quote (c : char) : bool := (N.eqb c squote || N.eqb c dquote)%bool.

End Sanitizer.

(* ================================================================== *)
(** ** The matcher on runs of a class *)
(* ================================================================== *)

Module Runs.

(** The state after [j] more code units have been read. *)
Definition shift (j : nat) (s : mstate) : mstate :=
  let (prev, rest) := Global.pass j (ms_prev s) (ms_rest s) in
  mkState prev rest (ms_pos s + j) (ms_caps s).

(** The longest prefix whose code units all satisfy [p]. *)
Fixpoint run_of (p : char -> bool) (s : jsstring) : jsstring :=
  match s with
  | c :: s' => if p c then c :: run_of p s' else []
  | [] => []
  end.

(** [s] begins with the word [w], up to case when [ic] is set: what a
    literal of a pattern asks of the input. *)
Fixpoint opens (ic : bool) (w s : jsstring) : bool :=
  match w, s with
  | [], _ => true
  | x :: w', c :: s' => (char_matches ic x c && opens ic w' s')%bool
  | _ :: _, [] => false
  end.

(** [P] holds of no part of [s] that reaches to its end. *)
Definition nowhere (P : jsstring -> bool) (s : jsstring) : Prop :=
  forall a b, s = a ++ b -> P b = false.

End Runs.

(* ================================================================== *)
(** ** Where the constructs begin that the sanitizer looks for *)
(* ================================================================== *)

Module Constructs.

Import Runs.

Definition wordy (c : char) : bool := set_matches true false [CWord] c.
Definition blank (c : char) : bool := set_matches true false [CSpace] c.
Definition closing (c : char) : bool := char_matches true 41%N c.

(** [chrome.] or [browser.], in any case, and a word character. *)
Definition beginsApi (api : jsstring) (s : jsstring) : bool :=
  (opens true api s
   && match skipn (List.length api) s with
      | c :: _ => wordy c
      | [] => false
      end)%bool.

(** [fetch], in any case, white space if any, an opening parenthesis,
    and a closing one somewhere after it. *)
Definition beginsFetch (s : jsstring) : bool :=
  (opens true (str "fetch") s
   && let t := skipn 5 s in
      match skipn (List.length (run_of blank t)) t with
      | c :: u => char_matches true 40%N c && existsb closing u
      | [] => false
      end)%bool.

(** [new], white space, [XMLHttpRequest], in any case. *)
Definition beginsXhr (s : jsstring) : bool :=
  (opens true (str "new") s
   && match skipn 3 s with
      | c :: t =>
          blank c
          && opens true (str "XMLHttpRequest")
                   (skipn (List.length (run_of blank t)) t)
      | [] => false
      end)%bool.

End Constructs.

(* ================================================================== *)
(** ** Service worker: settings and message handling *)
(* ================================================================== *)

Module Worker.

Import Sessions.

(** What [chrome.storage.local.get] finds under the eight keys asked
    for; a key that was never stored is absent.  The values are those
    the options page stores. *)
Record Stored : Type := mkStored {
  st_provider : option AIProvider;
  st_apiKey : option jsstring;
  st_intentModel : option jsstring;
  st_codeGenModel : option jsstring;
  st_maxRetries : option Z;
  st_confirmDestructive : option bool;
  st_audioFeedback : option bool;
  st_theme : option Theme
}.

Definition or_default {A} (o : option A) (d : A) : A :=
  match o with
  | Some v => v
  | None => d
  end.

(** [{ ...DEFAULT_SETTINGS, ...stored }] *)
Definition merged (stored : Stored) : ExtensionSettings :=
  mkSettings
    (or_default (st_provider stored) (provider DEFAULT_SETTINGS))
    (or_default (st_apiKey stored) (apiKey DEFAULT_SETTINGS))
    (or_default (st_intentModel stored) (intentModel DEFAULT_SETTINGS))
    (or_default (st_codeGenModel stored) (codeGenModel DEFAULT_SETTINGS))
    (or_default (st_maxRetries stored) (maxRetries DEFAULT_SETTINGS))
    (or_default (st_confirmDestructive stored)
                (confirmDestructive DEFAULT_SETTINGS))
    (or_default (st_audioFeedback stored) (audioFeedback DEFAULT_SETTINGS))
    (or_default (st_theme stored) (theme DEFAULT_SETTINGS)).

(** The result of the pipeline, the fields the worker reads. *)
Record PipelineResult : Type := mkResult {
  pr_success : bool;
  pr_message : jsstring;
  pr_actions : option (list ActionPayload);
  pr_requiresClarification : option bool;
  pr_clarificationQuestion : option jsstring
}.

(** The [data] of a response. *)
Inductive ResponseData : Type :=
| Pong                                      (* ['pong'] *)
| SettingsData (current : ExtensionSettings)
| CommandData (message : jsstring) (actions : option (list ActionPayload))
              (requiresClarification : option bool)
              (clarificationQuestion : option jsstring).

(** [MessageResponse] *)
Record MessageResponse : Type := mkReply {
  re_success : bool;
  re_data : option ResponseData;
  re_error : option jsstring
}.




(** The state of the module: [settings] and [sessionManager]. *)
Record Worker : Type := mkWorker {
  settings : ExtensionSettings;
  sessionManager : SessionManager
}.

(** On start-up: the default settings and no session. *)
Definition started : Worker := mkWorker DEFAULT_SETTINGS newSessionManager.

(** What the worker awaits. *)
Inductive awaited : Type :=
| StorageGet
| ProcessPipeline (command : jsstring) (tabId : Z)
                  (current : ExtensionSettings) (session : SessionWrapper).

(** What the awaited calls settle to.  The pipeline is given the
    wrapper: what it changes of the worker's state is the wrapped
    session.  A message is handled from its arrival to its response:
    what other handlers do in the meantime is not part of it. *)
Record World : Type := mkWorld {
  storage_local_get : outcome Stored;
  processPipeline :
    jsstring -> Z -> ExtensionSettings -> SessionWrapper -> SessionManager ->
    outcome PipelineResult * (Session -> Session)
}.

(** What a handler did: the calls it awaited, in order, and its result. *)
Definition Handled (A : Type) : Type := (list awaited * A)%type.

Definition calls {A} (h : Handled A) : list awaited := fst h.
Definition outcome_of {A} (h : Handled A) : A := snd h.

(** The clock and the identifiers drawn while a message is handled:
    [now k] is the k-th reading of the clock by the worker and its
    session manager, [uuid k] the k-th identifier they draw. *)
Record Draws : Type := mkDraws {
  now : nat -> Z;
  uuid : nat -> jsstring
}.

Section Handlers.

Variable world : World.

(** Load settings from storage; a failure is logged and the settings
    stay. *)
Definition loadSettings (w : Worker) : Handled Worker :=
  ([StorageGet],
   match storage_local_get world with
   | Resolved stored => mkWorker (merged stored) (sessionManager w)
   | Rejected _ => w
   end).

(** A number that is truthy: present and not zero. *)
Definition truthy_id (o : option Z) : bool :=
  match o with
  | Some t => negb (Z.eqb t 0)
  | None => false
  end.

(** [a || b] on optional numbers. *)
Definition id_or (a b : option Z) : option Z :=
  if truthy_id a then a else b.

Definition is_empty (s : jsstring) : bool :=
  match s with
  | [] => true
  | _ :: _ => false
  end.

Definition noTab : MessageResponse :=
  mkReply false None (Some (str "No tab ID available")).

Definition noKey : MessageResponse :=
  mkReply false None
    (Some (str "API key not configured. Please set up your API key in the extension settings.")).

(** The part of [handleProcessCommand] inside [try]. *)
Definition converse (command : jsstring) (effectiveTabId : Z) (d : Draws)
           (w : Worker) : Handled (MessageResponse * Worker) :=
  let created :=
    negb (Map_has effectiveTabId (sessions (sessionManager w))) in
  let (session, mgr1) :=
    getOrCreateSession effectiveTabId (uuid d 0) (now d) (sessionManager w) in
  (* the draws of the session manager come first *)
  let u := if created then 1 else 0 in
  let c := if created then 3 else 1 in
  let mgr2 :=
    addMessage session
      (mkMessage (uuid d u) RoleUser command (now d c) None None) mgr1 in
  let (settled, change) :=
    processPipeline world command effectiveTabId (settings w) session mgr2 in
  let mgr3 := on_session session change mgr2 in
  ([ProcessPipeline command effectiveTabId (settings w) session],
   match settled with
   | Resolved result =>
       let mgr4 :=
         addMessage session
           (mkMessage (uuid d (S u)) RoleAssistant (pr_message result)
                      (now d (S c)) (pr_actions result)
                      (Some (negb (pr_success result)))) mgr3 in
       (mkReply (pr_success result)
                (Some (CommandData (pr_message result) (pr_actions result)
                                   (pr_requiresClarification result)
                                   (pr_clarificationQuestion result)))
                None,
        mkWorker (settings w) mgr4)
   | Rejected error =>
       (mkReply false None
                (Some (message_or error (str "Pipeline processing failed"))),
        mkWorker (settings w) mgr3)
   end).

(** Handle a user command through the pipeline. *)
Definition handleProcessCommand (command : jsstring) (payloadTabId : option Z)
           (tabId : option Z) (d : Draws) (w : Worker)
  : Handled (MessageResponse * Worker) :=
  match id_or payloadTabId tabId with
  | Some effectiveTabId =>
      if Z.eqb effectiveTabId 0
      then ([], (noTab, w))
      else
        (* Ensure settings are loaded (service worker may have restarted) *)
        let (loading, w1) :=
          if is_empty (apiKey (settings w)) then loadSettings w else ([], w) in
        if is_empty (apiKey (settings w1))
        then (loading, (noKey, w1))
        else
          let (running, r) := converse command effectiveTabId d w1 in
          (loading ++ running, r)
  | None => ([], (noTab, w))
  end.



End Handlers.

(** *** Notions used to state the properties *)

(** The messages of the session a tab has. *)
Definition conversation (tab : Z) (w : Worker) : option (list ChatMessage) :=
  match Map_get tab (sessions (sessionManager w)) with
  | Some a => read (mkWrapper a) messages (sessionManager w)
  | None => None
  end.

(** A call to the pipeline. *)
Definition is_pipeline (c : awaited) : bool :=
  match c with
  | ProcessPipeline _ _ _ _ => true
  | StorageGet => false
  end.

(** The API key in force when a command is handled: the one in memory,
    or, when there is none, the one the storage gives. *)
Definition key_in_force (world : World) (w : Worker) : jsstring :=
  if is_empty (apiKey (settings w))
  then match storage_local_get world with
       | Resolved stored => or_default (st_apiKey stored) []
       | Rejected _ => []
       end
  else apiKey (settings w).

End Worker.

(* ================================================================== *)
(** ** Concrete sessions for examples *)
(* ================================================================== *)

Module Fixtures.

Import Sessions.

(** A clock that advances by one millisecond per reading. *)
Definition ticking (start : Z) : nat -> Z := fun k => (start + Z.of_nat k)%Z.

(** A first visit of a tab at the given time. *)
Definition visit (tabId start : Z) : request :=
  GetOrCreateSession tabId (str "4b1d") (ticking start).

(** Two tabs, visited one second apart. *)
Definition twoTabs : SessionManager := after [visit 7 1000; visit 8 2000].

Definition said (n : Z) : ChatMessage :=
  mkMessage (of_Z n) RoleUser (str "scroll down") n None None.

Definition clicked : ActionPayload :=
  mkPayload Safety.click (Some (str "el-0")) None None None.

(** A session with [n] messages and [n] recorded actions. *)
Definition busy (n : nat) : Session :=
  mkSession (str "4b1d") 7
            (map (fun i => said (Z.of_nat i)) (seq 0 n)) None
            (map (fun i => mkActionRecord clicked true (Z.of_nat i)) (seq 0 n))
            None 0 0.

Definition busyTab (n : nat) : SessionManager := mkManager [busy n] [(7%Z, 0)].

(** A map with [n] sessions, tab [i] last active at time [i]. *)
Definition crowded (n : nat) : SessionManager :=
  mkManager
    (map (fun i => mkSession (str "4b1d") (Z.of_nat i) [] None [] None 0
                             (Z.of_nat i)) (seq 0 n))
    (map (fun i => (Z.of_nat i, i)) (seq 0 n)).

(** A provider that answers in the shape of OpenAI, the message of the
    first choice holding the given fields. *)
Definition openaiNet (fields : list (jsstring * jsval)) : Net :=
  fun _ _ =>
    Resolved (mkResponse true 200 (Resolved [])
                (Resolved
                   (VObj [(str "id", VStr (str "chatcmpl-1"));
                          (str "object", VStr (str "chat.completion"));
                          (str "choices",
                           VArr [VObj [(str "index", VNum (num_of_Z 0));
                                       (str "message", VObj fields);
                                       (str "finish_reason",
                                        VStr (str "stop"))]]);
                          (str "usage",
                           VObj [(str "total_tokens",
                                  VNum (num_of_Z 12))])]))).

(** A provider that answers in the shape of Claude, the first entry of
    the content holding the given value as its text. *)
Definition claudeNet (txt : jsval) : Net :=
  fun _ _ =>
    Resolved (mkResponse true 200 (Resolved [])
                (Resolved
                   (VObj [(str "id", VStr (str "msg_1"));
                          (str "role", VStr (str "assistant"));
                          (str "content",
                           VArr [VObj [(str "type", VStr (str "text"));
                                       (str "text", txt)]]);
                          (str "stop_reason", VStr (str "end_turn"))]))).

(** A provider that refuses with the given status and body. *)
Definition refusingNet (status : Z) (body : jsstring) : Net :=
  fun _ _ =>
    Resolved (mkResponse false status (Resolved body) (Rejected OtherThrown)).

(** A browser whose tab is at the given URL. *)
Definition tabAt (url : jsstring) (status : option jsstring)
  : Inspection.Browser :=
  Inspection.mkBrowser
    (fun _ => Resolved (Inspection.mkTab (Some url) status))
    (fun _ => Resolved []).

(** [{ type: 'navigation', expectedResult: e }] *)
Definition expectNavigation (e : jsstring) : jsval :=
  VObj [(str "type", VStr (str "navigation"));
        (str "expectedResult", VStr e)].

Definition button (text : string) (width : Q) : Inspection.Element :=
  Inspection.mkDomElement (str "BUTTON") (Some (str text)) [] None None None
    None None (Inspection.mkRect (10 # 1) (205 # 10) width (30 # 1) (205 # 10))
    (str "block") (str "visible").

(** Three buttons, the second one without extent. *)
Definition threeButtons : Inspection.Document :=
  Inspection.mkDocument
    [button " Save " (80 # 1); button "Gone" (0 # 1); button "Cancel" (80 # 1)]
    (600 # 1) (str "https://example.com/") (str "Example") (Some (str "Save Cancel")).

End Fixtures.

(* ================================================================== *)
(** * Properties *)
(* ================================================================== *)

(** ** The matcher reads a fragment of its input *)

Module RegexFacts.

Lemma reads_refl s : reads s s [].
Proof. split; simpl; [reflexivity | lia]. Qed.

Lemma reads_trans s1 s2 s3 p q :
  reads s1 s2 p -> reads s2 s3 q -> reads s1 s3 (p ++ q).
Proof.
  intros [H1 H2] [H3 H4]. split.
  - rewrite H1, H3, app_assoc. reflexivity.
  - rewrite H4, H2, length_app. lia.
Qed.

Lemma step1_reads (p : char -> bool) k s s1 :
  step1 p k s = Some s1 ->
  exists s' c, k s' = Some s1 /\ reads s s' [c].
Proof.
  unfold step1. destruct (ms_rest s) as [|c rest] eqn:E; [discriminate|].
  destruct (p c); [|discriminate]. intros Hk.
  exists (advance c rest s), c. split; [exact Hk|].
  split; simpl; [exact E | lia].
Qed.

Lemma orElse_Some {A} (a b : option A) x :
  orElse a b = Some x -> a = Some x \/ b = Some x.
Proof. destruct a; simpl; intros Hx; [left|right]; assumption. Qed.

Ltac here s Hk :=
  exists s, []; split; [exact Hk|]; split; [apply reads_refl|discriminate].

Ltac one_char Hk :=
  let s' := fresh "s'" in
  let c0 := fresh "c0" in
  let Hr := fresh "Hr" in
  apply step1_reads in Hk; destruct Hk as (s' & c0 & Hk & Hr);
  exists s', [c0]; split; [exact Hk|]; split; [exact Hr|discriminate].

(** A successful match hands to its continuation a state reached by
    reading a piece of the input, a non-empty one for a consuming
    pattern. *)
Lemma m_reads ic r : forall k s s1,
  m ic r k s = Some s1 ->
  exists s' pre, k s' = Some s1 /\ reads s s' pre /\
                 (consuming r = true -> pre <> []).
Proof.
  induction r; intros k s s1 Hm; simpl in Hm.
  - here s Hm.
  - one_char Hm.
  - one_char Hm.
  - one_char Hm.
  - destruct (Nat.eqb (ms_pos s) 0); [|discriminate]. here s Hm.
  - destruct (ms_rest s) eqn:E; [|discriminate]. here s Hm.
  - destruct (xorb _ _); [|discriminate]. here s Hm.
  - apply IHr1 in Hm. destruct Hm as (s2 & p1 & H2 & R1 & C1).
    apply IHr2 in H2. destruct H2 as (s3 & p2 & H3 & R2 & C2).
    exists s3, (p1 ++ p2). split; [exact H3|]. split.
    + eapply reads_trans; eassumption.
    + simpl. intros Hc. apply orb_true_iff in Hc. intros Happ.
      apply app_eq_nil in Happ. destruct Happ as [-> ->].
      destruct Hc as [Hc|Hc]; [apply C1 in Hc | apply C2 in Hc]; congruence.
  - apply orElse_Some in Hm. destruct Hm as [Hm|Hm].
    + apply IHr1 in Hm. destruct Hm as (s2 & p1 & H2 & R1 & C1).
      exists s2, p1. split; [exact H2|]. split; [exact R1|].
      simpl. intros Hc. apply andb_true_iff in Hc. apply C1, Hc.
    + apply IHr2 in Hm. destruct Hm as (s2 & p1 & H2 & R1 & C1).
      exists s2, p1. split; [exact H2|]. split; [exact R1|].
      simpl. intros Hc. apply andb_true_iff in Hc. apply C1, Hc.
  - revert Hm. generalize (List.length (ms_rest s)). intros fuel. revert s.
    induction fuel as [|fuel IHf]; intros s Hm.
    + assert (Hk : k s = Some s1).
      { destruct greedy; simpl in Hm; [exact Hm|].
        apply orElse_Some in Hm. destruct Hm; [assumption|discriminate]. }
      here s Hk.
    + assert (Hcase :
        m ic r (fun s2 => if Nat.ltb (ms_pos s) (ms_pos s2)
                          then (fix loop (fuel0 : nat) (s0 : mstate) {struct fuel0} :=
                                  let again :=
                                    match fuel0 with
                                    | O => None
                                    | S fuel' =>
                                        m ic r (fun s3 => if Nat.ltb (ms_pos s0) (ms_pos s3)
                                                          then loop fuel' s3 else None) s0
                                    end in
                                  if greedy then orElse again (k s0) else orElse (k s0) again)
                                 fuel s2
                          else None) s = Some s1
        \/ k s = Some s1).
      { destruct greedy; apply orElse_Some in Hm; tauto. }
      destruct Hcase as [Hit|Hk].
      * apply IHr in Hit. destruct Hit as (s2 & p1 & H2 & R1 & _).
        destruct (Nat.ltb (ms_pos s) (ms_pos s2)); [|discriminate].
        apply IHf in H2. destruct H2 as (s3 & p2 & H3 & R2 & _).
        exists s3, (p1 ++ p2). split; [exact H3|]. split.
        -- eapply reads_trans; eassumption.
        -- discriminate.
      * here s Hk.
  - apply orElse_Some in Hm. destruct Hm as [Hm|Hm].
    + apply IHr in Hm. destruct Hm as (s2 & p1 & H2 & R1 & _).
      destruct (Nat.ltb (ms_pos s) (ms_pos s2)); [|discriminate].
      exists s2, p1. split; [exact H2|]. split; [exact R1|discriminate].
    + here s Hm.
  - apply IHr in Hm. destruct Hm as (s2 & p1 & H2 & R1 & C1).
    eexists _, p1. split; [exact H2|]. split; [|exact C1].
    destruct R1 as [Ra Rb]. split; simpl; assumption.
Qed.

Lemma search_eq ic r prev rest pos :
  search ic r prev rest pos =
  match m ic r (fun s => Some s) (mkState prev rest pos []) with
  | Some s1 => Some (mkMatch pos (firstn (ms_pos s1 - pos) rest) (ms_caps s1))
  | None =>
      match rest with
      | [] => None
      | c :: rest' => search ic r (Some c) rest' (S pos)
      end
  end.
Proof. destruct rest; reflexivity. Qed.

(** The text of a match is a fragment of the input. *)
Lemma search_fragment ic r : forall rest prev pos mr,
  search ic r prev rest pos = Some mr ->
  exists pre post, rest = pre ++ m_text mr ++ post /\
                   (consuming r = true -> m_text mr <> []).
Proof.
  induction rest as [|c rest IH]; intros prev pos mr Hs;
    rewrite search_eq in Hs;
    destruct (m ic r _ _) as [s1|] eqn:E; try discriminate.
  - inversion Hs; subst; clear Hs. simpl.
    apply m_reads in E. destruct E as (s' & pre & Hk & [Ra Rb] & Hc).
    inversion Hk; subst; clear Hk. simpl in *.
    destruct pre; [|discriminate]. exists [], [].
    rewrite firstn_nil. split; [reflexivity|].
    intros Hn. exfalso. apply (Hc Hn). reflexivity.
  - inversion Hs; subst; clear Hs. simpl.
    apply m_reads in E. destruct E as (s' & pre & Hk & [Ra Rb] & Hc).
    inversion Hk; subst; clear Hk. simpl in *.
    exists [], (ms_rest s1). rewrite Rb.
    replace (pos + List.length pre - pos) with (List.length pre) by lia.
    assert (Hfirst : firstn (List.length pre) (c :: rest) = pre).
    { rewrite Ra, firstn_app, Nat.sub_diag, firstn_all. simpl. apply app_nil_r. }
    rewrite Hfirst. split; [exact Ra | exact Hc].
  - apply IH in Hs. destruct Hs as (pre & post & Hp & Hc).
    exists (c :: pre), post. simpl. rewrite <- Hp. split; [reflexivity|exact Hc].
Qed.

Lemma test_exec p code :
  test p code = true -> exists mr, exec p code = Some mr.
Proof.
  unfold test. destruct (exec p code) as [mr|]; [eauto|discriminate].
Qed.

End RegexFacts.

(** ** Safety filter *)

Module SafetyFacts.
Import Safety RegexFacts.

Lemma scanBlocked_first rules : forall code base i r,
  first_blocked rules code i r ->
  scanBlocked rules base code =
    (map ProbeBlocked (seq base (S i)), Some (blockedResult code r)).
Proof.
  induction rules as [|r0 rules IH]; intros code base i r (Hn & Ht & Hlt).
  - destruct i; discriminate.
  - destruct i as [|i]; simpl in Hn.
    + inversion Hn; subst. simpl. rewrite Ht. reflexivity.
    + simpl. rewrite (Hlt 0 r0) by (simpl; auto; lia).
      rewrite (IH code (S base) i r).
      * reflexivity.
      * split; [exact Hn|]. split; [exact Ht|].
        intros j r' Hj Hnj. apply (Hlt (S j) r'); [lia|exact Hnj].
Qed.

Lemma exists_first_blocked rules code :
  (exists r, In r rules /\ test (b_pattern r) code = true) ->
  exists i r, first_blocked rules code i r.
Proof.
  induction rules as [|r0 rules IH]; intros (r & Hin & Ht).
  - destruct Hin.
  - destruct (test (b_pattern r0) code) eqn:E0.
    + exists 0, r0. split; [reflexivity|]. split; [exact E0|]. intros j r' Hj. lia.
    + destruct Hin as [->|Hin]; [congruence|].
      destruct IH as (i & r1 & Hn & Ht1 & Hlt); [eauto|].
      exists (S i), r1. split; [exact Hn|]. split; [exact Ht1|].
      intros [|j] r' Hj Hnj; simpl in Hnj.
      * inversion Hnj; subst. exact E0.
      * apply (Hlt j r'); [lia|exact Hnj].
Qed.

Lemma fetch_rule_first : nth_error BLOCKED_PATTERNS 0 = Some fetch_rule.
Proof. reflexivity. Qed.

Lemma fetch_matches_here prev post pos :
  m true (re_body (b_pattern fetch_rule)) (fun s => Some s)
    (mkState prev (str "fetch(" ++ post) pos []) <> None.
Proof. cbn. destruct post; cbn; discriminate. Qed.

Lemma fetch_search : forall pre prev post pos,
  search true (re_body (b_pattern fetch_rule)) prev
         (pre ++ str "fetch(" ++ post) pos <> None.
Proof.
  induction pre as [|c pre IH]; intros prev post pos; rewrite search_eq.
  - pose proof (@fetch_matches_here prev post pos) as Hhere. simpl app.
    destruct (m true _ _ _); [discriminate|congruence].
  - destruct (m true _ _ _); [discriminate|]. simpl app. apply IH.
Qed.

Lemma fetch_test pre post :
  test (b_pattern fetch_rule) (pre ++ str "fetch(" ++ post) = true.
Proof.
  unfold test, exec.
  pose proof (@fetch_search pre None post 0) as Hs.
  change (re_ignoreCase (b_pattern fetch_rule)) with true.
  destruct (search _ _ _ _ _); [reflexivity|congruence].
Qed.

Lemma blocked_all_consuming :
  forallb (fun r => consuming (re_body (b_pattern r))) BLOCKED_PATTERNS = true.
Proof. reflexivity. Qed.

(** What [checkSafety] returns when rule [i] is the first to match. *)
Lemma checkSafety_at_first_blocked code ty i r :
  first_blocked BLOCKED_PATTERNS code i r ->
  exists frag pre post,
    code = pre ++ frag ++ post /\ frag <> [] /\
    match0 code (b_pattern r) = Some frag /\
    checkSafety code ty =
      mkSafety false (Some frag) (Some (b_reason r)) None None None /\
    checkSafety_probes code ty = map ProbeBlocked (seq 0 (S i)).
Proof.
  intros Hf. pose proof Hf as (Hn & Ht & _).
  destruct (test_exec _ _ Ht) as (mr & He).
  pose proof He as Hs. unfold exec in Hs.
  apply search_fragment in Hs. destruct Hs as (pre & post & Hcode & Hne).
  assert (Hc : consuming (re_body (b_pattern r)) = true).
  { pose proof blocked_all_consuming as Hall.
    rewrite forallb_forall in Hall. apply Hall.
    eapply nth_error_In; eassumption. }
  specialize (Hne Hc).
  exists (m_text mr), pre, post.
  split; [exact Hcode|]. split; [exact Hne|].
  assert (Hm : match0 code (b_pattern r) = Some (m_text mr)).
  { unfold match0. rewrite He. reflexivity. }
  split; [exact Hm|].
  unfold checkSafety, checkSafety_probes, checkSafety_run.
  rewrite (scanBlocked_first _ Hf). simpl fst. simpl snd.
  split; [|reflexivity].
  unfold blockedResult. rewrite Hm.
  destruct (m_text mr); [congruence|reflexivity].
Qed.

(** C1: when a blocking rule matches the payload, [checkSafety] answers
    with the first such rule: unsafe, with the matched fragment of the
    payload and that rule's reason; the rules tested are the blocking rules
    up to that one, so no later blocking rule and no advisory rule is
    evaluated.  In particular a payload that contains [fetch(] anywhere is
    unsafe with the reason that network requests are not allowed, decided by
    the first rule alone. *)
Theorem checkSafety_first_block_terminal :
  (forall code ty i r,
      first_blocked BLOCKED_PATTERNS code i r ->
      exists frag pre post,
        code = pre ++ frag ++ post /\ frag <> [] /\
        match0 code (b_pattern r) = Some frag /\
        checkSafety code ty =
          mkSafety false (Some frag) (Some (b_reason r)) None None None /\
        checkSafety_probes code ty = map ProbeBlocked (seq 0 (S i)))
  /\
  (forall code ty,
      (exists r, In r BLOCKED_PATTERNS /\ test (b_pattern r) code = true) ->
      safe (checkSafety code ty) = false /\
      forall j, ~ In (ProbeFlagged j) (checkSafety_probes code ty))
  /\
  (forall pre post ty,
      safe (checkSafety (pre ++ str "fetch(" ++ post) ty) = false /\
      blockedReason (checkSafety (pre ++ str "fetch(" ++ post) ty)
        = Some (str "Network requests are not allowed") /\
      checkSafety_probes (pre ++ str "fetch(" ++ post) ty = [ProbeBlocked 0]).
Proof.
  split; [intros code ty i r; apply checkSafety_at_first_blocked|]. split.
  - intros code ty Hex.
    destruct (exists_first_blocked _ _ Hex) as (i & r & Hf).
    destruct (checkSafety_at_first_blocked ty Hf)
      as (frag & pre & post & _ & _ & _ & Hres & Hpr).
    rewrite Hres, Hpr. split; [reflexivity|].
    intros j Hin. apply in_map_iff in Hin. destruct Hin as (x & Hx & _). discriminate.
  - intros pre post ty.
    assert (Hf : first_blocked BLOCKED_PATTERNS (pre ++ str "fetch(" ++ post) 0 fetch_rule).
    { split; [reflexivity|]. split; [apply fetch_test|]. intros j r' Hj. lia. }
    destruct (checkSafety_at_first_blocked ty Hf)
      as (frag & pre' & post' & _ & _ & _ & Hres & Hpr).
    rewrite Hres, Hpr. repeat split; reflexivity.
Qed.

Lemma checkSafety_first_block_terminal_witness :
  checkSafety (str "new XMLHttpRequest()") Safety.click
    = mkSafety false (Some (str "XMLHttpRequest"))
               (Some (str "Network requests are not allowed")) None None None /\
  checkSafety_probes (str "new XMLHttpRequest()") Safety.click
    = [ProbeBlocked 0; ProbeBlocked 1].
Proof.
  assert (Hf : first_blocked BLOCKED_PATTERNS (str "new XMLHttpRequest()") 1
                 (mkBlocked (gi (lit "XMLHttpRequest"))
                            (str "Network requests are not allowed"))).
  { split; [reflexivity|]. split; [vm_compute; reflexivity|].
    intros j r' Hj Hn. destruct j as [|j]; [|lia].
    inversion Hn; subst. vm_compute. reflexivity. }
  destruct (proj1 checkSafety_first_block_terminal _ Safety.click _ _ Hf)
    as (frag & pre & post & _ & _ & Hm & Hres & Hpr).
  vm_compute in Hm. injection Hm as <-.
  split; [exact Hres | exact Hpr].
Defined.

End SafetyFacts.

(** ** Rate limiter *)

Module LimiterFacts.
Import AIClient.
Local Open Scope Z_scope.

Lemma in_window_app a W xs ys :
  in_window a W (xs ++ ys) = in_window a W xs + in_window a W ys.
Proof. unfold in_window. rewrite filter_app, length_app. lia. Qed.

Lemma in_window_nonneg a W xs : 0 <= in_window a W xs.
Proof. unfold in_window. lia. Qed.

Lemma recent_recent W last now xs :
  last <= now -> recent W now (recent W last xs) = recent W now xs.
Proof.
  intros Hle. unfold recent. induction xs as [|x xs IH]; simpl; [reflexivity|].
  destruct (last - x <? W) eqn:E1; simpl; rewrite IH.
  - reflexivity.
  - destruct (now - x <? W) eqn:E2; [|reflexivity].
    apply Z.ltb_lt in E2. apply Z.ltb_ge in E1. lia.
Qed.

Lemma in_window_le_recent a W now xs :
  now < a + W ->
  in_window a W xs <= Z.of_nat (List.length (recent W now xs)).
Proof.
  intros Hnow. unfold in_window, recent.
  induction xs as [|x xs IH]; simpl; [lia|].
  destruct ((a <=? x) && (x <? a + W))%bool eqn:E1.
  - apply andb_true_iff in E1. destruct E1 as [E1 E2].
    apply Z.leb_le in E1. apply Z.ltb_lt in E2.
    assert (E3 : (now - x <? W) = true) by (apply Z.ltb_lt; lia).
    rewrite E3. simpl. lia.
  - destruct (now - x <? W); simpl; lia.
Qed.

Lemma in_window_single_out a W now :
  ~ (a <= now < a + W) -> in_window a W [now] = 0.
Proof.
  intros Hn. unfold in_window. simpl.
  destruct ((a <=? now) && (now <? a + W))%bool eqn:E; [|reflexivity].
  apply andb_true_iff in E. destruct E as [E1 E2].
  apply Z.leb_le in E1. apply Z.ltb_lt in E2. lia.
Qed.

Lemma in_window_single_le a W now : in_window a W [now] <= 1.
Proof.
  unfold in_window. simpl.
  destruct ((a <=? now) && (now <? a + W))%bool; simpl; lia.
Qed.

Lemma in_window_empty a W xs : W <= 0 -> in_window a W xs = 0.
Proof.
  intros HW. unfold in_window. induction xs as [|x xs IH]; simpl; [reflexivity|].
  destruct ((a <=? x) && (x <? a + W))%bool eqn:E; [|exact IH].
  apply andb_true_iff in E. destruct E as [E1 E2].
  apply Z.leb_le in E1. apply Z.ltb_lt in E2. lia.
Qed.

Lemma recent_all_old W now xs :
  (forall t, In t xs -> W <= now - t) -> recent W now xs = [].
Proof.
  intros Hold. unfold recent. induction xs as [|x xs IH]; simpl; [reflexivity|].
  replace (now - x <? W) with false.
  - apply IH. intros t Ht. apply Hold. right. exact Ht.
  - symmetry. apply Z.ltb_ge. apply Hold. left. reflexivity.
Qed.

Lemma canProceed_kept now rl :
  canProceed now rl =
  if Z.of_nat (List.length (kept now rl)) >=? maxRequests rl
  then (false, mkLimiter (kept now rl) (maxRequests rl) (windowMs rl))
  else (true, mkLimiter (kept now rl ++ [now]) (maxRequests rl) (windowMs rl)).
Proof. reflexivity. Qed.

Lemma canProceed_config now rl :
  maxRequests (snd (canProceed now rl)) = maxRequests rl /\
  windowMs (snd (canProceed now rl)) = windowMs rl.
Proof.
  rewrite canProceed_kept. destruct (_ >=? _); simpl; split; reflexivity.
Qed.

(** One call keeps the limiter in step with the calls admitted so far. *)
Lemma canProceed_tracks now rl adm last :
  0 < windowMs rl -> last <= now -> tracks rl adm last ->
  tracks (snd (canProceed now rl))
         (adm ++ if fst (canProceed now rl) then [now] else []) now.
Proof.
  intros HW Hle [Hreq Hb].
  rewrite canProceed_kept. unfold kept. rewrite Hreq.
  rewrite (recent_recent _ _ Hle).
  destruct (Z.of_nat (List.length (recent (windowMs rl) now adm)) >=? maxRequests rl)
    eqn:E; simpl.
  - rewrite app_nil_r. split; simpl; [reflexivity | exact Hb].
  - rewrite Z.geb_leb in E. apply Z.leb_gt in E.
    split; simpl.
    + unfold recent. rewrite filter_app. simpl.
      replace (now - now <? windowMs rl) with true
        by (symmetry; apply Z.ltb_lt; lia).
      reflexivity.
    + intros a. rewrite in_window_app.
      destruct (Z_lt_dec now (a + windowMs rl)) as [Hin|Hout].
      * pose proof (@in_window_le_recent a (windowMs rl) now adm Hin).
        pose proof (in_window_single_le a (windowMs rl) now). lia.
      * rewrite in_window_single_out by lia. specialize (Hb a). lia.
Qed.

Lemma last_cons_default : forall (l : list Z) x d d',
  List.last (x :: l) d = List.last (x :: l) d'.
Proof.
  induction l as [|y l IH]; intros x d d'; [reflexivity|].
  change (List.last (y :: l) d = List.last (y :: l) d'). apply IH.
Qed.

Lemma last_time_cons last now rest :
  last_time last (now :: rest) = last_time now rest.
Proof.
  unfold last_time. destruct rest as [|z rest]; [reflexivity|].
  change (List.last (z :: rest) last = List.last (z :: rest) now).
  apply last_cons_default.
Qed.

Lemma serve_cons now rest rl :
  serve (now :: rest) rl =
  ((now, fst (canProceed now rl)) :: fst (serve rest (snd (canProceed now rl))),
   snd (serve rest (snd (canProceed now rl)))).
Proof.
  simpl. destruct (canProceed now rl) as [v rl1]. simpl.
  destruct (serve rest rl1); reflexivity.
Qed.

Lemma admitted_cons now v log :
  admitted ((now, v) :: log) = (if v then [now] else []) ++ admitted log.
Proof. unfold admitted. simpl. destruct v; reflexivity. Qed.

Lemma serve_config : forall times rl,
  maxRequests (snd (serve times rl)) = maxRequests rl /\
  windowMs (snd (serve times rl)) = windowMs rl.
Proof.
  induction times as [|now rest IH]; intros rl; [split; reflexivity|].
  rewrite serve_cons. cbn [snd].
  destruct (IH (snd (canProceed now rl))) as [H1 H2].
  destruct (canProceed_config now rl) as [H3 H4].
  split; congruence.
Qed.

Lemma serve_tracks : forall times rl adm last,
  0 < windowMs rl -> clock last times -> tracks rl adm last ->
  tracks (snd (serve times rl)) (adm ++ admitted (fst (serve times rl)))
         (last_time last times).
Proof.
  induction times as [|now rest IH]; intros rl adm last HW Hc Ht.
  - simpl. rewrite app_nil_r. exact Ht.
  - destruct Hc as [Hle Hc]. rewrite serve_cons. cbn [fst snd].
    pose proof (canProceed_tracks HW Hle Ht) as Ht1.
    pose proof (canProceed_config now rl) as [HM1 HW1].
    assert (HW' : 0 < windowMs (snd (canProceed now rl))) by lia.
    rewrite admitted_cons, app_assoc, last_time_cons.
    apply IH; assumption.
Qed.

Lemma fresh_tracks M W last : 0 <= M -> tracks (newRateLimiter M W) [] last.
Proof.
  intros HM. split; simpl; [reflexivity | intros a; unfold in_window; simpl; lia].
Qed.

Lemma fresh_serve_tracks M W times :
  0 <= M -> 0 < W -> monotone times ->
  tracks (snd (serve times (newRateLimiter M W)))
         (admitted (fst (serve times (newRateLimiter M W))))
         (last_time 0 times).
Proof.
  intros HM HW Hmono. destruct times as [|t rest].
  - simpl. apply fresh_tracks. exact HM.
  - rewrite (last_time_cons 0 t rest), <- (last_time_cons t t rest).
    apply (@serve_tracks (t :: rest) (newRateLimiter M W) [] t).
    + exact HW.
    + simpl. split; [lia | exact Hmono].
    + apply fresh_tracks. exact HM.
Qed.

Lemma clock_app last times now :
  clock last (times ++ [now]) -> clock last times /\ last_time last times <= now.
Proof.
  revert last. induction times as [|t rest IH]; intros last Hc.
  - simpl in Hc. unfold last_time. simpl. split; [exact I | lia].
  - simpl in Hc. destruct Hc as [Hle Hc]. destruct (IH t Hc) as [H1 H2].
    rewrite last_time_cons. split; [split; assumption | exact H2].
Qed.

Lemma monotone_app times now :
  monotone (times ++ [now]) ->
  monotone times /\ (times <> [] -> last_time 0 times <= now).
Proof.
  destruct times as [|t rest]; intros Hm.
  - split; [exact I | congruence].
  - simpl in Hm. destruct (clock_app _ _ _ Hm) as [H1 H2].
    split; [exact H1|]. intros _.
    rewrite (last_time_cons 0 t rest). exact H2.
Qed.

Lemma rejects_when_full now rl :
  maxRequests rl <= Z.of_nat (List.length (kept now rl)) ->
  fst (canProceed now rl) = false.
Proof.
  intros Hfull. rewrite canProceed_kept.
  destruct (_ >=? _) eqn:E; [reflexivity|].
  rewrite Z.geb_leb in E. apply Z.leb_gt in E. lia.
Qed.

Lemma minimum_spec xs :
  match minimum xs with
  | Infinity => xs = []
  | Millis oldest => In oldest xs /\ forall t, In t xs -> oldest <= t
  end.
Proof.
  induction xs as [|x xs IH]; simpl; [reflexivity|].
  destruct (minimum xs) as [y|].
  - destruct IH as [Hin Hmin]. split.
    + destruct (Z.min_spec x y) as [[_ ->]|[_ ->]]; auto.
    + intros t [<-|Ht]; [lia|]. specialize (Hmin t Ht). lia.
  - subst xs. split; [auto|]. intros t [<-|[]]. lia.
Qed.

(** C4: a limiter configured with maximum [M] and window [W], called at
    times that do not run backwards, admits at most [M] calls with
    timestamps in any window of length [W]; once [M] admitted calls lie in
    such a window every further call in it is rejected; once all recorded
    timestamps are [W] or more old the limiter answers as a fresh one and
    admits a call; [getWaitTime()] is 0 under capacity and otherwise the delay
    until the oldest recorded timestamp leaves the window. *)
Theorem rateLimiter_sliding_window (M W : Z) :
  (forall times a,
      0 <= M -> monotone times ->
      in_window a W (admitted (fst (serve times (newRateLimiter M W)))) <= M)
  /\
  (forall times a now,
      monotone (times ++ [now]) ->
      M <= in_window a W (admitted (fst (serve times (newRateLimiter M W)))) ->
      a <= now < a + W ->
      fst (canProceed now (snd (serve times (newRateLimiter M W)))) = false)
  /\
  (forall rl now,
      maxRequests rl = M -> windowMs rl = W ->
      (forall t, In t (requests rl) -> W <= now - t) ->
      canProceed now rl = canProceed now (newRateLimiter M W) /\
      (0 < M -> canProceed now rl = (true, mkLimiter [now] M W)))
  /\
  (forall rl now,
      maxRequests rl = M -> windowMs rl = W ->
      (Z.of_nat (List.length (requests rl)) < M ->
       getWaitTime now rl = Millis 0) /\
      (M <= Z.of_nat (List.length (requests rl)) -> requests rl <> [] ->
       exists oldest,
         In oldest (requests rl) /\
         (forall t, In t (requests rl) -> oldest <= t) /\
         getWaitTime now rl = Millis (oldest + W - now))).
Proof.
  split; [|split; [|split]].
  - intros times a HM Hmono.
    destruct (Z_lt_dec 0 W) as [HW|HW].
    + destruct (fresh_serve_tracks times HM HW Hmono) as [_ Hb].
      destruct (serve_config times (newRateLimiter M W)) as [HM' HW'].
      specialize (Hb a). rewrite HM', HW' in Hb. exact Hb.
    + rewrite in_window_empty by lia. exact HM.
  - intros times a now Hmono Hfull Hin.
    assert (HW : 0 < W) by lia.
    destruct (serve_config times (newRateLimiter M W)) as [HM' HW'].
    simpl in HM', HW'.
    apply rejects_when_full. unfold kept. rewrite HM', HW'.
    destruct (Z_lt_dec M 0) as [Hneg|HM]; [lia|].
    destruct (monotone_app _ _ Hmono) as [Hm Hlast].
    assert (HM0 : 0 <= M) by lia.
    destruct (fresh_serve_tracks times HM0 HW Hm) as [Hreq _].
    rewrite HW' in Hreq. rewrite Hreq.
    destruct times as [|t rest].
    + simpl in *. unfold in_window in Hfull. simpl in Hfull. lia.
    + rewrite recent_recent by (apply Hlast; discriminate).
      pose proof (@in_window_le_recent a W now
                    (admitted (fst (serve (t :: rest) (newRateLimiter M W)))))
        as Hle.
      lia.
  - intros rl now HM HW Hold.
    assert (Hk : kept now rl = []).
    { unfold kept. rewrite HW. apply recent_all_old. exact Hold. }
    rewrite !canProceed_kept, Hk. simpl. rewrite HM, HW.
    split; [reflexivity|].
    intros Hpos. destruct (0 >=? M) eqn:E; [|reflexivity].
    rewrite Z.geb_leb in E. apply Z.leb_le in E. lia.
  - intros rl now HM HW. unfold getWaitTime. rewrite HM, HW. split.
    + intros Hlt. apply Z.ltb_lt in Hlt. rewrite Hlt. reflexivity.
    + intros Hge Hne. apply Z.ltb_ge in Hge. rewrite Hge.
      pose proof (minimum_spec (requests rl)) as Hmin.
      destruct (minimum (requests rl)) as [oldest|]; [|contradiction].
      destruct Hmin as [Hin Hle]. exists oldest. auto.
Qed.

Lemma rateLimiter_sliding_window_witness :
  monotone Sample.limiter_times /\
  in_window 0 10
    (admitted (fst (serve Sample.limiter_times (newRateLimiter 3 10)))) <= 3 /\
  fst (canProceed 9 (snd (serve [0; 1; 2; 5] (newRateLimiter 3 10)))) = false /\
  canProceed 12 (mkLimiter [0; 1; 2] 3 10) = (true, mkLimiter [12] 3 10) /\
  getWaitTime 5 (mkLimiter [0; 1] 3 10) = Millis 0 /\
  (exists oldest,
      In oldest [0; 1; 2] /\ (forall t, In t [0; 1; 2] -> oldest <= t) /\
      getWaitTime 5 (mkLimiter [0; 1; 2] 3 10) = Millis (oldest + 10 - 5)).
Proof.
  pose proof (rateLimiter_sliding_window 3 10) as (Ha & Hb & Hc & Hd).
  assert (Hm : monotone Sample.limiter_times) by (simpl; lia).
  split; [exact Hm|]. split.
  { apply Ha; [lia | exact Hm]. }
  split.
  { apply (Hb [0; 1; 2; 5] 0 9); [simpl; lia | vm_compute; discriminate | lia]. }
  split.
  { assert (Hold : forall t, In t (requests (mkLimiter [0; 1; 2] 3 10)) -> 10 <= 12 - t).
    { cbn [requests In]. intros t [<-|[<-|[<-|[]]]]; lia. }
    destruct (Hc (mkLimiter [0; 1; 2] 3 10) 12 eq_refl eq_refl Hold) as [_ Hadmit].
    apply Hadmit. lia. }
  split.
  { destruct (Hd (mkLimiter [0; 1] 3 10) 5 eq_refl eq_refl) as [Hzero _].
    apply Hzero. simpl. lia. }
  { destruct (Hd (mkLimiter [0; 1; 2] 3 10) 5 eq_refl eq_refl) as [_ Hwait].
    apply Hwait; [simpl; lia | discriminate]. }
Defined.

End LimiterFacts.

(** ** Model gateway *)

Module GatewayFacts.
Import AIClient Sample.

Lemma silent_ret A (a : A) : silent (ret a).
Proof. reflexivity. Qed.

Lemma silent_throw A e : silent (@throw A e).
Proof. reflexivity. Qed.

Lemma silent_lift A (x : A + thrown) : silent (lift x).
Proof. destruct x; reflexivity. Qed.

Lemma silent_await A (o : outcome A) : silent (await o).
Proof. reflexivity. Qed.

Lemma silent_Error A msg : silent (@Error A msg).
Proof. reflexivity. Qed.

Lemma trace_bind A B (c : Async A) (k : A -> Async B) :
  (forall a, silent (k a)) -> trace (bind c k) = trace c.
Proof.
  intros Hk. destruct c as [tr [a|e]]; simpl; [|reflexivity].
  specialize (Hk a). unfold silent, trace in Hk.
  destruct (k a) as [tr' o]. simpl in *. subst tr'. apply app_nil_r.
Qed.

Lemma silent_bind A B (c : Async A) (k : A -> Async B) :
  silent c -> (forall a, silent (k a)) -> silent (bind c k).
Proof. intros Hc Hk. unfold silent. rewrite trace_bind; assumption. Qed.

Lemma trace_try_catch A (c : Async A) (h : thrown -> Async A) :
  (forall e, silent (h e)) -> trace (try_catch c h) = trace c.
Proof.
  intros Hh. destruct c as [tr [a|e]]; simpl; [reflexivity|].
  specialize (Hh e). unfold silent, trace in Hh.
  destruct (h e) as [tr' o]. simpl in *. subst tr'. apply app_nil_r.
Qed.

Ltac silence :=
  repeat first
    [ apply silent_ret | apply silent_throw | apply silent_lift
    | apply silent_await | apply silent_Error
    | apply silent_bind; [| intros ?]
    | match goal with
      | |- silent (if ?b then _ else _) => destruct b
      | |- silent (match ?x with _ => _ end) => destruct x
      end ].

Lemma callClaude_trace `{Host} net k m sp um mt t :
  exists url request, trace (callClaude net k m sp um mt t) = [EvFetch url request].
Proof.
  unfold callClaude, fetch. eexists _, _.
  rewrite trace_bind; [reflexivity|]. intros response. silence.
Qed.

Lemma callOpenAI_trace `{Host} net k m sp um mt t :
  exists url request, trace (callOpenAI net k m sp um mt t) = [EvFetch url request].
Proof.
  unfold callOpenAI, fetch. eexists _, _.
  rewrite trace_bind; [reflexivity|]. intros response. silence.
Qed.

(** The calls a gateway call makes: the gateway is entered once, and a
    provider is invoked once when the key is set and the provider known. *)
Lemma callAI_trace `{Host} net options :
  match o_apiKey options, o_provider options with
  | _ :: _, claude | _ :: _, openai =>
      exists url request,
        trace (callAI net options) = [EvModelCall options; EvFetch url request]
  | _, _ => trace (callAI net options) = [EvModelCall options]
  end.
Proof.
  unfold callAI.
  destruct (o_apiKey options) as [|c key] eqn:Ek.
  - destruct (o_provider options); reflexivity.
  - destruct (o_provider options) eqn:Ep.
    + destruct (callClaude_trace net (c :: key) (o_model options)
                  (o_systemPrompt options) (o_userMessage options)
                  (or_default (o_maxTokens options) default_maxTokens)
                  (or_default (o_temperature options) default_temperature))
        as (url & request & Ht).
      exists url, request. unfold bind at 1. cbv beta iota.
      destruct (callClaude _ _ _ _ _ _ _) as [tr o]. simpl in *. subst tr.
      reflexivity.
    + destruct (callOpenAI_trace net (c :: key) (o_model options)
                  (o_systemPrompt options) (o_userMessage options)
                  (or_default (o_maxTokens options) default_maxTokens)
                  (or_default (o_temperature options) default_temperature))
        as (url & request & Ht).
      exists url, request. unfold bind at 1. cbv beta iota.
      destruct (callOpenAI _ _ _ _ _ _ _) as [tr o]. simpl in *. subst tr.
      reflexivity.
    + reflexivity.
Qed.

Lemma callAI_counts `{Host} net options :
  model_calls (callAI net options) = 1 /\
  provider_calls (callAI net options) <= 1.
Proof.
  pose proof (callAI_trace net options) as Ht.
  unfold model_calls, provider_calls.
  destruct (o_apiKey options);
    [destruct (o_provider options)|destruct (o_provider options)];
    try (destruct Ht as (url & request & ->)); try rewrite Ht; simpl; lia.
Qed.

(** C3 fails as stated: with the shared limiter at capacity, so that
    [canProceed()] rejects and [getWaitTime()] reports 59 seconds, a gateway
    call still invokes the provider and returns its text. *)
Lemma callAI_ignores_the_limiter :
  let H := sampleHost [] in
  fst (canProceed 1000 fullLimiter) = false /\
  getWaitTime 1000 fullLimiter = Millis 59000 /\
  provider_calls (callAI (replyNet (str "ok")) options) = 1 /\
  settled (callAI (replyNet (str "ok")) options) = Resolved (VStr (str "ok")).
Proof. cbv zeta. repeat split; vm_compute; reflexivity. Qed.

(** C3, amended: a gateway call does not consult the rate limiter.  With
    a key and a known provider it invokes the provider exactly once; with
    an empty key or an unknown provider it fails before any provider is
    invoked.  Admission is the limiter's own operation, for a caller to
    use: [canProceed()] rejects exactly when [maxRequests] timestamps lie in
    the window, it then records nothing, and [getWaitTime()] then reports the
    delay until the oldest timestamp leaves the window. *)
Theorem callAI_is_not_gated `{Host} (net : Net) (options : AICallOptions) :
  (match o_apiKey options, o_provider options with
   | _ :: _, claude | _ :: _, openai =>
       provider_calls (callAI net options) = 1
   | [], _ =>
       provider_calls (callAI net options) = 0 /\
       settled (callAI net options)
         = Rejected (ErrorObject (str "API key is required"))
   | _ :: _, otherProvider name =>
       provider_calls (callAI net options) = 0 /\
       settled (callAI net options)
         = Rejected (ErrorObject (str "Unknown AI provider: " ++ name))
   end)
  /\
  (forall now rl,
      (fst (canProceed now rl) = false <->
       (maxRequests rl <= Z.of_nat (List.length (kept now rl)))%Z) /\
      (fst (canProceed now rl) = false ->
       requests (snd (canProceed now rl)) = kept now rl /\
       (kept now rl <> [] ->
        exists oldest,
          In oldest (kept now rl) /\
          (forall t, In t (kept now rl) -> (oldest <= t)%Z) /\
          getWaitTime now (snd (canProceed now rl))
            = Millis (oldest + windowMs rl - now)))).
Proof.
  split.
  - pose proof (callAI_trace net options) as Ht. unfold provider_calls.
    destruct (o_apiKey options) as [|c key] eqn:Ek.
    + rewrite Ht. split; [reflexivity|]. unfold callAI. rewrite Ek.
      destruct (o_provider options); reflexivity.
    + destruct (o_provider options) eqn:Ep.
      * destruct Ht as (url & request & ->). reflexivity.
      * destruct Ht as (url & request & ->). reflexivity.
      * rewrite Ht. split; [reflexivity|]. unfold callAI. rewrite Ek, Ep.
        reflexivity.
  - intros now rl. rewrite LimiterFacts.canProceed_kept.
    destruct (Z.of_nat (List.length (kept now rl)) >=? maxRequests rl)%Z eqn:E;
      rewrite Z.geb_leb in E.
    + apply Z.leb_le in E. simpl. split; [split; auto|].
      intros _. split; [reflexivity|]. intros Hne.
      unfold getWaitTime. simpl.
      replace (Z.of_nat (List.length (kept now rl)) <? maxRequests rl)%Z with false
        by (symmetry; apply Z.ltb_ge; exact E).
      pose proof (LimiterFacts.minimum_spec (kept now rl)) as Hmin.
      destruct (minimum (kept now rl)) as [oldest|]; [|contradiction].
      destruct Hmin as [Hin Hle]. exists oldest. auto.
    + apply Z.leb_gt in E. simpl. split; [split; [discriminate | lia]|].
      discriminate.
Qed.

Lemma callAI_is_not_gated_witness :
  fst (canProceed 1000 fullLimiter) = false /\
  requests (snd (canProceed 1000 fullLimiter)) = kept 1000 fullLimiter.
Proof.
  destruct (proj2 (@callAI_is_not_gated (sampleHost []) (replyNet (str "ok"))
                     options) 1000%Z fullLimiter) as [Hiff Hrej].
  assert (Hfull : fst (canProceed 1000 fullLimiter) = false).
  { apply Hiff. vm_compute. discriminate. }
  split; [exact Hfull|]. apply Hrej. exact Hfull.
Defined.

End GatewayFacts.

(** ** Fast path *)

Module FastPathFacts.
Import FastPath Sample.

Lemma firstRule_shape `{Host} : forall rules cmd,
  matched (firstRule rules cmd) = true ->
  exists action params,
    firstRule rules cmd = mkFastPath true (Some action) (Some params).
Proof.
  induction rules as [|rule rules IH]; intros cmd Hc; simpl in *.
  - discriminate.
  - destruct (exec (rule_pattern rule) cmd); [eauto | apply IH; exact Hc].
Qed.

(** Whatever the browser answers, a fast-path action calls the browser only. *)
Lemma executeFastPathAction_browser_only `{Host} chrome action params tabId :
  browser_only (executeFastPathAction chrome action params tabId) /\
  model_calls (executeFastPathAction chrome action params tabId) = 0 /\
  provider_calls (executeFastPathAction chrome action params tabId) = 0.
Proof.
  unfold browser_only, model_calls, provider_calls, trace.
  destruct action; simpl;
    unfold executeScroll, executeNavigate, executeReload, executeClickByText,
           executeGoBack, executeGoForward, executeScript, call, bind, ret, throw.
  - destruct (scripting_executeScript chrome tabId _); simpl; repeat constructor.
  - destruct (param "url" params); simpl; [|repeat constructor].
    destruct (tabs_update chrome tabId _); simpl; repeat constructor.
  - destruct (tabs_reload chrome tabId); simpl; repeat constructor.
  - destruct (scripting_executeScript chrome tabId _) as [results|e]; simpl;
      [|repeat constructor].
    destruct (first_result results) as [[s [[|]|] e t]|]; simpl;
      repeat constructor.
  - destruct (scripting_executeScript chrome tabId _); simpl; repeat constructor.
  - destruct (scripting_executeScript chrome tabId _); simpl; repeat constructor.
Qed.

(** C2: [checkFastPath] is a function of the command alone, and for every
    action kind and every parameter set [executeFastPathAction] makes
    browser calls only: it never enters the Model Gateway and never invokes
    a provider.  So a command that matches a fast-path rule is matched and
    executed without a model call. *)
Theorem fast_path_makes_no_model_call `{Host} (chrome : Chrome) :
  (forall action params tabId,
      browser_only (executeFastPathAction chrome action params tabId) /\
      model_calls (executeFastPathAction chrome action params tabId) = 0 /\
      provider_calls (executeFastPathAction chrome action params tabId) = 0)
  /\
  (forall command tabId,
      matched (checkFastPath command) = true ->
      exists action params,
        checkFastPath command = mkFastPath true (Some action) (Some params) /\
        browser_only (executeFastPathAction chrome action params tabId) /\
        model_calls (executeFastPathAction chrome action params tabId) = 0 /\
        provider_calls (executeFastPathAction chrome action params tabId) = 0).
Proof.
  split; [intros; apply executeFastPathAction_browser_only|].
  intros command tabId Hm. unfold checkFastPath in *.
  destruct (firstRule_shape _ _ Hm) as (action & params & Heq).
  exists action, params. split; [exact Heq|].
  apply executeFastPathAction_browser_only.
Qed.

Lemma fast_path_makes_no_model_call_witness :
  matched (@checkFastPath (sampleHost []) (str "scroll down")) = true /\
  exists action params,
    @checkFastPath (sampleHost []) (str "scroll down")
      = mkFastPath true (Some action) (Some params) /\
    browser_only (@executeFastPathAction (sampleHost []) closedChrome
                    action params 7) /\
    model_calls (@executeFastPathAction (sampleHost []) closedChrome
                   action params 7) = 0 /\
    provider_calls (@executeFastPathAction (sampleHost []) closedChrome
                      action params 7) = 0.
Proof.
  split; [reflexivity|].
  apply (proj2 (@fast_path_makes_no_model_call (sampleHost []) closedChrome)).
  reflexivity.
Defined.

Lemma find_by_text_none `{Host} t : forall els i,
  (forall el, In el els -> text_matches el t = false) ->
  find_by_text els i t = None.
Proof.
  induction els as [|el els IH]; intros i Hno; simpl; [reflexivity|].
  rewrite (Hno el) by (left; reflexivity).
  apply IH. intros el' Hin. apply Hno. right. exact Hin.
Qed.

(** C8 fails as stated: on a page whose only clickable element reads
    Cancel, the command is matched as the scenario says, no element equals
    the text Sign In, and the error of the outcome is the text of the page
    function ([notFoundInPage]), not the text of [couldNotFind]. *)
Lemma click_sign_in_reports_the_page_error :
  let H := sampleHost [] in
  let chrome := pageChrome H [cancelButton] in
  checkFastPath clickSignIn
    = mkFastPath true (Some clickByText) (Some [("text", signIn)]) /\
  (forall el, In el [cancelButton] -> text_matches el signIn = false) /\
  settled (executeFastPathAction chrome clickByText [("text", signIn)] 1)
    = Resolved (mkExec false None (Some (notFoundInPage signIn))) /\
  settled (executeFastPathAction chrome clickByText [("text", signIn)] 1)
    <> Resolved (mkExec false None (Some (couldNotFind signIn))).
Proof.
  cbv zeta. split; [vm_compute; reflexivity|]. split.
  - intros el [<-|[]]. vm_compute. reflexivity.
  - split; [vm_compute; reflexivity | vm_compute; discriminate].
Qed.

(** C8, amended: the command [clickSignIn] is matched as [clickByText]
    with the parameter text = Sign In.  When the page function runs and no
    element's trimmed text, aria-label or value equals Sign In up to case,
    the outcome is success = false with the error of the page function,
    No element found with text (and the quoted text).  The error
    Could not find element with text (and the quoted text) is the fallback:
    it is the outcome's whenever the injection resolves and its first
    frame has no result, or a result that neither reports the element
    found nor carries an error text; the page function returns no such
    result, so the fallback is never the error when its result comes
    back. *)
Theorem click_sign_in_not_found `{Host} (chrome : Chrome) (tabId : Z) :
  checkFastPath clickSignIn
    = mkFastPath true (Some clickByText) (Some [("text", signIn)])
  /\
  (forall els rest,
      scripting_executeScript chrome tabId (ClickByTextFn (VStr signIn))
        = Resolved (Some (snd (click_by_text_in_page els signIn)) :: rest) ->
      (forall el, In el els -> text_matches el signIn = false) ->
      executeFastPathAction chrome clickByText [("text", signIn)] tabId
        = ([EvExecuteScript tabId (ClickByTextFn (VStr signIn))],
           Resolved (mkExec false None (Some (notFoundInPage signIn)))))
  /\
  (forall results,
      scripting_executeScript chrome tabId (ClickByTextFn (VStr signIn))
        = Resolved results ->
      says_nothing (first_result results) = true ->
      settled (executeFastPathAction chrome clickByText [("text", signIn)] tabId)
        = Resolved (mkExec false None (Some (couldNotFind signIn))))
  /\
  (forall els rest,
      says_nothing (Some (snd (click_by_text_in_page els signIn))) = false /\
      (scripting_executeScript chrome tabId (ClickByTextFn (VStr signIn))
         = Resolved (Some (snd (click_by_text_in_page els signIn)) :: rest) ->
       settled (executeFastPathAction chrome clickByText [("text", signIn)]
                                      tabId)
         <> Resolved (mkExec false None (Some (couldNotFind signIn))))).
Proof.
  split; [vm_compute; reflexivity|]. split; [|split].
  - intros els rest Hrun Hno.
    unfold executeFastPathAction, executeClickByText, executeScript, call, bind.
    change (param_val "text" [("text", signIn)]) with (VStr signIn).
    cbv zeta. rewrite Hrun.
    unfold click_by_text_in_page.
    rewrite (@find_by_text_none _ signIn els 0 Hno).
    reflexivity.
  - intros results Hrun Hnone.
    unfold executeFastPathAction, executeClickByText, executeScript, call, bind.
    change (param_val "text" [("text", signIn)]) with (VStr signIn).
    cbv zeta. rewrite Hrun.
    destruct (first_result results) as [[s [[|]|] [[|c e]|] t]|];
      try discriminate Hnone; reflexivity.
  - intros els rest.
    unfold executeFastPathAction, executeClickByText, executeScript, call, bind.
    change (param_val "text" [("text", signIn)]) with (VStr signIn).
    cbv zeta. unfold click_by_text_in_page.
    destruct (find_by_text els 0 signIn); (split; [reflexivity|]);
      intros Hrun; rewrite Hrun; vm_compute; discriminate.
Qed.

Lemma click_sign_in_not_found_witness :
  let H := sampleHost [] in
  let chrome := pageChrome H [cancelButton] in
  executeFastPathAction chrome clickByText [("text", signIn)] 1
    = ([EvExecuteScript 1 (ClickByTextFn (VStr signIn))],
       Resolved (mkExec false None (Some (notFoundInPage signIn)))) /\
  settled (executeFastPathAction (frameChrome (mkInjection None None None None))
                                 clickByText [("text", signIn)] 1)
    = Resolved (mkExec false None (Some (couldNotFind signIn))).
Proof.
  cbv zeta. split.
  - apply (proj1 (proj2 (@click_sign_in_not_found (sampleHost [])
                           (pageChrome (sampleHost []) [cancelButton]) 1))
             [cancelButton] []).
    + reflexivity.
    + intros el [<-|[]]. vm_compute. reflexivity.
  - apply (proj1 (proj2 (proj2 (@click_sign_in_not_found (sampleHost [])
                           (frameChrome (mkInjection None None None None)) 1)))
             [Some (mkInjection None None None None)]).
    + reflexivity.
    + reflexivity.
Defined.

End FastPathFacts.

(** ** Executor *)

Module ExecutorFacts.
Import Sample.

(** C10, at a tab that cannot be scripted: the scroll and extract
    primitives and the fast-path scroll return no outcome at all, their
    promise is rejected with the error of the injection; and so is the
    promise of [executeAction] and of [executeFastPathAction], whose
    [try] block returns the primitive's promise without awaiting it, so
    that their [catch] block, which would return an outcome, is not
    entered.  [executeRawCode], which awaits the injection inside its own
    [try] block, returns an outcome on the same tab. *)
Theorem scroll_rejects_on_a_closed_tab :
  let H := sampleHost [] in
  let closed := Rejected (ErrorObject (str "No tab with id")) in
  (forall r, settled (Executor.executeScroll closedChrome (VStr (str "down")) 1)
             <> Resolved r) /\
  (forall r, settled (Executor.executeExtract closedChrome (VStr (str "body")) 1)
             <> Resolved r) /\
  (forall r, settled (FastPath.executeScroll closedChrome
                        [("direction", str "down"); ("amount", str "400")] 1)
             <> Resolved r) /\
  (forall r, settled (Executor.executeAction closedChrome
                        (scrollAction (VStr (str "down"))) 1) <> Resolved r) /\
  settled (Executor.executeScroll closedChrome (VStr (str "down")) 1)
    = closed /\
  settled (Executor.executeExtract closedChrome (VStr (str "body")) 1)
    = closed /\
  settled (FastPath.executeScroll closedChrome
             [("direction", str "down"); ("amount", str "400")] 1)
    = closed /\
  settled (Executor.executeAction closedChrome
             (scrollAction (VStr (str "down"))) 1)
    = closed /\
  settled (Executor.executeAction closedChrome
             (extractAction (VStr (str "body"))) 1)
    = closed /\
  settled (FastPath.executeFastPathAction closedChrome scroll
             [("direction", str "down"); ("amount", str "400")] 1)
    = closed /\
  settled (Executor.executeRawCode closedChrome (VStr (str "scroll()")) 1)
    = Resolved (mkExec false None (Some (str "Code execution blocked"))).
Proof.
  cbv zeta.
  repeat split; try (intros r; vm_compute; discriminate);
    vm_compute; reflexivity.
Qed.

(** Where the injection resolves: for every direction, selector and
    parameter set, the executor's scroll and extract primitives and the
    fast-path scroll, also through [executeAction] and
    [executeFastPathAction], return an outcome with success = true whenever
    the script injection resolves, whatever it yields; when the injection
    is rejected the rejection is theirs and no outcome is returned.  With
    an unrecognized direction the injected function performs no
    scrolling. *)
Theorem scroll_and_extract_never_report_failure `{Host} (chrome : Chrome)
        (tabId : Z) :
  (forall direction,
      succeeds_or_rejects
        (scripting_executeScript chrome tabId (ScrollFn direction))
        (Executor.executeScroll chrome direction tabId) /\
      succeeds_or_rejects
        (scripting_executeScript chrome tabId (ScrollFn direction))
        (Executor.executeAction chrome (scrollAction direction) tabId))
  /\
  (forall sel,
      succeeds_or_rejects
        (scripting_executeScript chrome tabId (ExtractFn sel))
        (Executor.executeExtract chrome sel tabId) /\
      succeeds_or_rejects
        (scripting_executeScript chrome tabId
           (ExtractFn (or_else sel (VStr []))))
        (Executor.executeAction chrome (extractAction sel) tabId))
  /\
  (forall params,
      let script :=
        FastScrollFn (FastPath.param_val "direction" params)
          (parseInt10 (FastPath.str_or (FastPath.param "amount" params)
                                       (str "400"))) in
      succeeds_or_rejects
        (scripting_executeScript chrome tabId script)
        (FastPath.executeScroll chrome params tabId) /\
      succeeds_or_rejects
        (scripting_executeScript chrome tabId script)
        (FastPath.executeFastPathAction chrome scroll params tabId))
  /\
  (forall dir, unrecognized dir -> scroll_in_page dir = [])
  /\
  (forall dir amt,
      (forall d, dir = VStr d ->
                 JS.eqb d (str "down") = false /\ JS.eqb d (str "up") = false /\
                 JS.eqb d (str "top") = false /\ JS.eqb d (str "bottom") = false) ->
      fst (fast_scroll_in_page dir amt) = []).
Proof.
  split; [|split; [|split; [|split]]].
  - intros direction.
    assert (E : Executor.executeAction chrome (scrollAction direction) tabId
                = Executor.executeScroll chrome direction tabId) by reflexivity.
    rewrite E.
    unfold succeeds_or_rejects, Executor.executeScroll, Executor.executeScript,
      call, bind, ret, settled.
    destruct (scripting_executeScript chrome tabId (ScrollFn direction));
      simpl; eauto.
  - intros sel.
    assert (E : Executor.executeAction chrome (extractAction sel) tabId
                = Executor.executeExtract chrome (or_else sel (VStr [])) tabId)
      by reflexivity.
    rewrite E.
    unfold succeeds_or_rejects, Executor.executeExtract, Executor.executeScript,
      call, bind, ret, settled.
    destruct (scripting_executeScript chrome tabId (ExtractFn sel));
      destruct (scripting_executeScript chrome tabId
                  (ExtractFn (or_else sel (VStr []))));
      simpl; eauto.
  - intros params script.
    change (FastPath.executeFastPathAction chrome scroll params tabId)
      with (FastPath.executeScroll chrome params tabId).
    unfold succeeds_or_rejects, FastPath.executeScroll, FastPath.executeScript,
      call, bind, ret, settled. fold script.
    destruct (scripting_executeScript chrome tabId script); simpl; eauto.
  - intros dir (H1 & H2 & H3 & H4). unfold scroll_in_page.
    rewrite H1, H2, H3, H4. reflexivity.
  - intros dir amt Hd. unfold fast_scroll_in_page. simpl.
    destruct dir; try reflexivity.
    destruct (Hd s eq_refl) as (H1 & H2 & H3 & H4).
    rewrite H1, H2, H3, H4. reflexivity.
Qed.

Lemma scroll_and_extract_never_report_failure_witness :
  let H := sampleHost [] in
  @scroll_in_page H (str "sideways") = [] /\
  fst (fast_scroll_in_page (VStr (str "sideways")) (IntOf false 400)) = [].
Proof.
  cbv zeta.
  destruct (@scroll_and_extract_never_report_failure (sampleHost [])
              closedChrome 1) as (_ & _ & _ & Hnone & Hfast).
  split.
  - apply Hnone. vm_compute. repeat split; reflexivity.
  - apply Hfast. intros d Hd. injection Hd as <-. vm_compute.
    repeat split; reflexivity.
Defined.

End ExecutorFacts.

(** ** Model stages *)

Module StageFacts.
Import Stages Sample GatewayFacts.

Section Facts.

Context `{Host}.
Variable net : Net.
Variables INTENT_SYSTEM_PROMPT CODEGEN_SYSTEM_PROMPT : jsstring.

Lemma analyzeIntent_resolves command domContext settings :
  exists decision,
    settled (analyzeIntent net INTENT_SYSTEM_PROMPT command domContext settings)
      = Resolved decision.
Proof.
  unfold analyzeIntent, settled.
  destruct (AIClient.callAI net _) as [tr [response|e]]; simpl; [|eauto].
  destruct response; simpl; eauto.
  destruct (match0 s JSON_BLOCK) as [block|]; simpl; eauto.
  destruct (JSON_parse block) as [parsed|e]; simpl; eauto.
  destruct parsed; simpl; eauto.
Qed.

Lemma analyzeIntent_unusable command domContext settings :
  unusable (settled (intent_call net INTENT_SYSTEM_PROMPT command domContext
                                 settings)) ->
  settled (analyzeIntent net INTENT_SYSTEM_PROMPT command domContext settings)
    = Resolved (fallbackIntent command).
Proof.
  unfold analyzeIntent, intent_call, settled.
  destruct (AIClient.callAI net _) as [tr [response|e]]; simpl; [|reflexivity].
  destruct response; simpl; try reflexivity.
  destruct (match0 s JSON_BLOCK) as [block|]; simpl; try reflexivity.
  intros [e ->]. reflexivity.
Qed.

(** C6: whatever the command, the page and the settings, [analyzeIntent]
    does not throw; and when the model call fails, or its result is not a
    text, or the text holds no block between braces, or the block does not
    parse, it returns the fallback decision: clear = true with the parsed
    intent action = click, target = the command. *)
Theorem analyzeIntent_falls_back (command : jsstring)
        (domContext : SimplifiedDOM) (settings : ExtensionSettings) :
  (exists decision,
      settled (analyzeIntent net INTENT_SYSTEM_PROMPT command domContext
                             settings) = Resolved decision)
  /\
  (unusable (settled (intent_call net INTENT_SYSTEM_PROMPT command domContext
                                  settings)) ->
   settled (analyzeIntent net INTENT_SYSTEM_PROMPT command domContext settings)
     = Resolved (fallbackIntent command))
  /\
  clear (fallbackIntent command) = VBool true
  /\
  parsedIntent (fallbackIntent command)
    = VObj [(str "action", VStr (str "click")); (str "target", VStr command)].
Proof.
  split; [apply analyzeIntent_resolves|].
  split; [apply analyzeIntent_unusable|].
  split; reflexivity.
Qed.

Lemma prop_field k v : nullish v = false -> prop k v = inl (field k v).
Proof. destruct v; simpl; intros Hn; try discriminate; reflexivity. Qed.

Lemma truthy_field_object k v : truthy (field k v) = true -> nullish v = false.
Proof. destruct v; simpl; intros Ht; try discriminate; reflexivity. Qed.

Lemma validate_entries : forall entries,
  forallb (fun e => negb (nullish e)) entries = true ->
  validate entries = inl (map stored (filter has_kind entries)).
Proof.
  induction entries as [|entry entries IH]; intros Hall; [reflexivity|].
  simpl in Hall. apply andb_true_iff in Hall. destruct Hall as [Hn Hall].
  apply negb_true_iff in Hn.
  simpl. rewrite (prop_field "actionType" _ Hn), (IH Hall).
  unfold has_kind. destruct (truthy (field "actionType" entry)); reflexivity.
Qed.

(** [generateCode] always returns a result, and the result reports success
    exactly when it holds an action. *)
Lemma generateCode_total command parsedIntent domContext settings history :
  exists res,
    settled (generateCode net CODEGEN_SYSTEM_PROMPT command parsedIntent
                          domContext settings history) = Resolved res /\
    cg_success res = negb (is_empty (cg_actions res)).
Proof.
  unfold generateCode, settled.
  destruct (AIClient.callAI net _) as [tr [response|e]]; simpl; [|eauto].
  destruct response; simpl; eauto.
  destruct (match0 s JSON_BLOCK) as [block|]; simpl; eauto.
  destruct (JSON_parse block) as [parsed|e]; simpl; eauto.
  destruct (prop "success" parsed) as [okv|e]; simpl; eauto.
  destruct (truthy okv); simpl; eauto.
  destruct (iterate _) as [entries|e]; simpl; eauto.
  destruct (validate entries) as [valid|e]; simpl; eauto.
  eexists. split; [reflexivity|]. simpl. destruct valid; reflexivity.
Qed.

Lemma generateCode_no_block command parsedIntent domContext settings history :
  no_block (settled (codegen_call net CODEGEN_SYSTEM_PROMPT command parsedIntent
                                  domContext settings history)) ->
  settled (generateCode net CODEGEN_SYSTEM_PROMPT command parsedIntent
                        domContext settings history)
    = Resolved (failure (VStr (str "Failed to parse code generation response"))
                        (VStr (str "Invalid response format"))).
Proof.
  unfold generateCode, codegen_call, settled, no_block.
  destruct (AIClient.callAI net _) as [tr o]; simpl.
  intros (s & -> & Hm). simpl. rewrite Hm. reflexivity.
Qed.

Lemma generateCode_filters command parsedIntent domContext settings history
      parsed entries :
  parses_to (settled (codegen_call net CODEGEN_SYSTEM_PROMPT command parsedIntent
                                   domContext settings history)) parsed ->
  truthy (field "success" parsed) = true ->
  field "actions" parsed = VArr entries ->
  forallb (fun e => negb (nullish e)) entries = true ->
  settled (generateCode net CODEGEN_SYSTEM_PROMPT command parsedIntent
                        domContext settings history)
  = Resolved (mkCodeGen
                (negb (is_empty (filter has_kind entries)))
                (map stored (filter has_kind entries))
                (or_else (field "explanation" parsed)
                         (VStr (str "Generated actions")))
                VUndefined).
Proof.
  unfold generateCode, codegen_call, settled, parses_to.
  destruct (AIClient.callAI net _) as [tr o]; simpl.
  intros (s & block & -> & Hm & Hp) Hok Hacts Hall. simpl.
  rewrite Hm. simpl. rewrite Hp. simpl.
  rewrite (prop_field "success" _ (truthy_field_object _ _ Hok)). simpl.
  rewrite Hok. simpl. rewrite Hacts. simpl.
  rewrite (validate_entries _ Hall). simpl.
  destruct (filter has_kind entries); reflexivity.
Qed.

(** What [generateCode] does with the entries: it never throws, and its
    result reports success exactly when it holds at least one action.  When
    the response holds no block between braces the result is success =
    false with the explanation that the response could not be parsed.  When
    the response parses, reports success and no entry of its actions array
    is [null] or [undefined], the entries that lack an action kind are
    dropped and the others are stored, in order. *)
Theorem generateCode_keeps_entries_with_kind (command : jsstring)
        (parsedIntent : jsval) (domContext : SimplifiedDOM)
        (settings : ExtensionSettings) (history : list ChatMessage) :
  (exists res,
      settled (generateCode net CODEGEN_SYSTEM_PROMPT command parsedIntent
                            domContext settings history) = Resolved res /\
      cg_success res = negb (is_empty (cg_actions res)))
  /\
  (no_block (settled (codegen_call net CODEGEN_SYSTEM_PROMPT command parsedIntent
                                   domContext settings history)) ->
   settled (generateCode net CODEGEN_SYSTEM_PROMPT command parsedIntent
                         domContext settings history)
     = Resolved (failure (VStr (str "Failed to parse code generation response"))
                         (VStr (str "Invalid response format"))))
  /\
  (forall parsed entries,
      parses_to (settled (codegen_call net CODEGEN_SYSTEM_PROMPT command
                                       parsedIntent domContext settings history))
                parsed ->
      truthy (field "success" parsed) = true ->
      field "actions" parsed = VArr entries ->
      forallb (fun e => negb (nullish e)) entries = true ->
      settled (generateCode net CODEGEN_SYSTEM_PROMPT command parsedIntent
                            domContext settings history)
      = Resolved (mkCodeGen
                    (negb (is_empty (filter has_kind entries)))
                    (map stored (filter has_kind entries))
                    (or_else (field "explanation" parsed)
                             (VStr (str "Generated actions")))
                    VUndefined)).
Proof.
  split; [apply generateCode_total|].
  split; [apply generateCode_no_block|].
  intros parsed entries. apply generateCode_filters.
Qed.

(** The calls of the two stages are those of their one model call. *)
Lemma analyzeIntent_trace command domContext settings :
  trace (analyzeIntent net INTENT_SYSTEM_PROMPT command domContext settings)
  = trace (intent_call net INTENT_SYSTEM_PROMPT command domContext settings).
Proof.
  unfold analyzeIntent, intent_call.
  rewrite trace_try_catch by (intros e; apply silent_ret).
  apply trace_bind. intros response. silence.
Qed.

Lemma generateCode_trace command parsedIntent domContext settings history :
  trace (generateCode net CODEGEN_SYSTEM_PROMPT command parsedIntent
                      domContext settings history)
  = trace (codegen_call net CODEGEN_SYSTEM_PROMPT command parsedIntent
                        domContext settings history).
Proof.
  unfold generateCode, codegen_call.
  rewrite trace_try_catch by (intros e; apply silent_ret).
  apply trace_bind. intros response. silence.
Qed.

(** On a response whose block does not parse, on a failed call and on a
    result that is not a text, [generateCode] returns the failure of its
    [catch] block. *)
Lemma generateCode_unusable command parsedIntent domContext settings history :
  (forall s block e,
      settled (codegen_call net CODEGEN_SYSTEM_PROMPT command parsedIntent
                            domContext settings history) = Resolved (VStr s) ->
      match0 s JSON_BLOCK = Some block ->
      JSON_parse block = inr e ->
      settled (generateCode net CODEGEN_SYSTEM_PROMPT command parsedIntent
                            domContext settings history)
        = Resolved (failure (VStr (str "Code generation failed"))
                            (VStr (message_or e (str "Unknown error")))))
  /\
  (unusable (settled (codegen_call net CODEGEN_SYSTEM_PROMPT command
                                   parsedIntent domContext settings history)) ->
   ~ no_block (settled (codegen_call net CODEGEN_SYSTEM_PROMPT command
                                     parsedIntent domContext settings history)) ->
   exists msg,
     settled (generateCode net CODEGEN_SYSTEM_PROMPT command parsedIntent
                           domContext settings history)
       = Resolved (failure (VStr (str "Code generation failed")) (VStr msg))).
Proof.
  unfold generateCode, codegen_call, settled, unusable, no_block.
  destruct (AIClient.callAI net _) as [tr [response|e]]; simpl; split.
  - intros s block e [= ->] Hm Hp. simpl. rewrite Hm. simpl. rewrite Hp.
    reflexivity.
  - destruct response; simpl; try (intros _ _; eexists; reflexivity).
    destruct (match0 s JSON_BLOCK) as [block|] eqn:Hm; simpl.
    + intros [e ->] _. simpl. eexists. reflexivity.
    + intros _ Hno. exfalso. apply Hno. exists s. split; [reflexivity|exact Hm].
  - intros s block e' Hr. discriminate Hr.
  - intros _ _. eexists. reflexivity.
Qed.

(** C9, amended: there is no re-prompt.  Each run of [analyzeIntent] and
    of [generateCode] enters the Model Gateway exactly once and invokes a
    provider at most once, whatever the response; on a response that cannot
    be used [analyzeIntent] returns the fallback decision at once, and
    [generateCode] returns a failure result at once: with the explanation
    that the response could not be parsed when the response holds no block,
    and with the explanation that code generation failed when the block
    does not parse, with the parser's message as the error, as also when
    the call failed or gave no text. *)
Theorem malformed_response_is_not_reprompted (command : jsstring)
        (parsedIntent : jsval) (domContext : SimplifiedDOM)
        (settings : ExtensionSettings) (history : list ChatMessage) :
  model_calls (analyzeIntent net INTENT_SYSTEM_PROMPT command domContext
                             settings) = 1 /\
  provider_calls (analyzeIntent net INTENT_SYSTEM_PROMPT command domContext
                                settings) <= 1 /\
  model_calls (generateCode net CODEGEN_SYSTEM_PROMPT command parsedIntent
                            domContext settings history) = 1 /\
  provider_calls (generateCode net CODEGEN_SYSTEM_PROMPT command parsedIntent
                               domContext settings history) <= 1 /\
  (unusable (settled (intent_call net INTENT_SYSTEM_PROMPT command domContext
                                  settings)) ->
   settled (analyzeIntent net INTENT_SYSTEM_PROMPT command domContext settings)
     = Resolved (fallbackIntent command)) /\
  (no_block (settled (codegen_call net CODEGEN_SYSTEM_PROMPT command parsedIntent
                                   domContext settings history)) ->
   settled (generateCode net CODEGEN_SYSTEM_PROMPT command parsedIntent
                         domContext settings history)
     = Resolved (failure (VStr (str "Failed to parse code generation response"))
                         (VStr (str "Invalid response format")))) /\
  (forall s block e,
      settled (codegen_call net CODEGEN_SYSTEM_PROMPT command parsedIntent
                            domContext settings history) = Resolved (VStr s) ->
      match0 s JSON_BLOCK = Some block ->
      JSON_parse block = inr e ->
      settled (generateCode net CODEGEN_SYSTEM_PROMPT command parsedIntent
                            domContext settings history)
        = Resolved (failure (VStr (str "Code generation failed"))
                            (VStr (message_or e (str "Unknown error"))))) /\
  (unusable (settled (codegen_call net CODEGEN_SYSTEM_PROMPT command
                                   parsedIntent domContext settings history)) ->
   ~ no_block (settled (codegen_call net CODEGEN_SYSTEM_PROMPT command
                                     parsedIntent domContext settings history)) ->
   exists msg,
     settled (generateCode net CODEGEN_SYSTEM_PROMPT command parsedIntent
                           domContext settings history)
       = Resolved (failure (VStr (str "Code generation failed")) (VStr msg))).
Proof.
  unfold model_calls, provider_calls.
  rewrite analyzeIntent_trace, generateCode_trace.
  pose proof (callAI_counts net
                (mkOptions (provider settings) (apiKey settings)
                   (intentModel settings) INTENT_SYSTEM_PROMPT
                   (intent_userMessage command domContext)
                   (Some (500 # 1)%Q) None)) as [Hi1 Hi2].
  pose proof (callAI_counts net
                (mkOptions (provider settings) (apiKey settings)
                   (codeGenModel settings) CODEGEN_SYSTEM_PROMPT
                   (codegen_userMessage command parsedIntent domContext history)
                   (Some (2000 # 1)%Q) None)) as [Hc1 Hc2].
  unfold model_calls, provider_calls in *.
  split; [assumption|]. split; [assumption|].
  split; [assumption|]. split; [assumption|].
  split; [apply analyzeIntent_unusable|].
  split; [apply generateCode_no_block|].
  apply generateCode_unusable.
Qed.

End Facts.

Lemma analyzeIntent_falls_back_witness :
  let H := sampleHost [] in
  settled (analyzeIntent (replyNet plainText) [] clickSignIn emptyPage settings)
    = Resolved (fallbackIntent clickSignIn).
Proof.
  cbv zeta.
  apply (proj1 (proj2 (@analyzeIntent_falls_back (sampleHost [])
                         (replyNet plainText) [] clickSignIn emptyPage settings))).
  vm_compute. exact I.
Defined.

(** C7, at the response [{"success":true,"actions":[null,{"actionType":
    "click"}]}]: the entry [null] lacks its kind and the click action is
    valid, yet the click action is not kept.  Reading [actionType] of
    [null] throws inside the validation loop, the [catch] block takes
    over, and the result is success = false with no action.  The same
    response with [{}] in the place of [null], or without that entry,
    yields the click action: an entry without a kind is dropped there and
    the rest is kept. *)
Theorem generateCode_fails_on_a_null_entry :
  let H := jsonHost in
  parses_to (settled (codegen_call (replyNet nullEntryText) [] clickSignIn
                                   VNull emptyPage settings []))
            nullEntryValue /\
  field "actions" nullEntryValue = VArr [VNull; clickEntry] /\
  has_kind VNull = false /\
  has_kind clickEntry = true /\
  validate [VNull; clickEntry] = inr (TypeError (ReadOfNullish (str "actionType"))) /\
  settled (generateCode (replyNet nullEntryText) [] clickSignIn VNull
                        emptyPage settings [])
    = Resolved (failure (VStr (str "Code generation failed"))
                        (VStr (str "TypeError"))) /\
  validate [VObj []; clickEntry] = inl [stored clickEntry] /\
  settled (generateCode (replyNet kindlessEntryText) [] clickSignIn VNull
                        emptyPage settings [])
    = Resolved (mkCodeGen true [stored clickEntry]
                          (VStr (str "Generated actions")) VUndefined) /\
  settled (generateCode (replyNet oneEntryText) [] clickSignIn VNull
                        emptyPage settings [])
    = Resolved (mkCodeGen true [stored clickEntry]
                          (VStr (str "Generated actions")) VUndefined).
Proof.
  cbv zeta. split.
  - exists nullEntryText, nullEntryText. repeat split; vm_compute; reflexivity.
  - repeat split; vm_compute; reflexivity.
Qed.

Lemma generateCode_keeps_entries_with_kind_witness :
  let H := jsonHost in
  settled (generateCode (replyNet kindlessEntryText) [] clickSignIn VNull
                        emptyPage settings [])
    = Resolved (mkCodeGen true [stored clickEntry]
                          (VStr (str "Generated actions")) VUndefined).
Proof.
  cbv zeta.
  apply (proj2 (proj2 (@generateCode_keeps_entries_with_kind jsonHost
                         (replyNet kindlessEntryText) [] clickSignIn VNull
                         emptyPage settings []))
           kindlessEntryValue [VObj []; clickEntry]).
  - exists kindlessEntryText, kindlessEntryText.
    repeat split; vm_compute; reflexivity.
  - reflexivity.
  - reflexivity.
  - reflexivity.
Defined.

(** C9 fails as stated: on a response without any structured block both
    stages have made one model call, not two, when they return. *)
Lemma malformed_response_gets_one_call :
  let H := sampleHost [] in
  no_block (settled (codegen_call (replyNet plainText) [] clickSignIn VNull
                                  emptyPage settings [])) /\
  model_calls (generateCode (replyNet plainText) [] clickSignIn VNull
                            emptyPage settings []) = 1 /\
  provider_calls (generateCode (replyNet plainText) [] clickSignIn VNull
                               emptyPage settings []) = 1 /\
  settled (generateCode (replyNet plainText) [] clickSignIn VNull
                        emptyPage settings [])
    = Resolved (failure (VStr (str "Failed to parse code generation response"))
                        (VStr (str "Invalid response format"))) /\
  model_calls (analyzeIntent (replyNet plainText) [] clickSignIn emptyPage
                             settings) = 1 /\
  provider_calls (analyzeIntent (replyNet plainText) [] clickSignIn emptyPage
                                settings) = 1.
Proof.
  cbv zeta. split.
  - exists plainText. split; vm_compute; reflexivity.
  - repeat split; vm_compute; reflexivity.
Qed.

Lemma malformed_response_is_not_reprompted_witness :
  let H := sampleHost [] in
  settled (generateCode (replyNet plainText) [] clickSignIn VNull
                        emptyPage settings [])
    = Resolved (failure (VStr (str "Failed to parse code generation response"))
                        (VStr (str "Invalid response format"))) /\
  settled (generateCode (replyNet brokenBlock) [] clickSignIn VNull
                        emptyPage settings [])
    = Resolved (failure (VStr (str "Code generation failed"))
                        (VStr (str "Unexpected token"))) /\
  settled (analyzeIntent (replyNet brokenBlock) [] clickSignIn emptyPage
                         settings)
    = Resolved (fallbackIntent clickSignIn).
Proof.
  cbv zeta. split; [|split].
  - destruct (@malformed_response_is_not_reprompted (sampleHost [])
                (replyNet plainText) [] [] clickSignIn VNull emptyPage settings [])
      as (_ & _ & _ & _ & _ & Hfail & _).
    apply Hfail. exists plainText. split; vm_compute; reflexivity.
  - destruct (@malformed_response_is_not_reprompted (sampleHost [])
                (replyNet brokenBlock) [] [] clickSignIn VNull emptyPage
                settings [])
      as (_ & _ & _ & _ & _ & _ & Hbroken & _).
    apply (Hbroken brokenBlock brokenBlock
                   (ErrorObject (str "Unexpected token")));
      vm_compute; reflexivity.
  - destruct (@malformed_response_is_not_reprompted (sampleHost [])
                (replyNet brokenBlock) [] [] clickSignIn VNull emptyPage
                settings [])
      as (_ & _ & _ & _ & Hintent & _).
    apply Hintent. vm_compute. eexists. reflexivity.
Defined.

End StageFacts.

(** ** Pipeline orchestrator *)

Module PipelineFacts.
Import Pipeline.

Section Run.

Variable maxRetries : Z.
Variable c : Collaborators.
Hypothesis failing : always_failing c.

Lemma step_codegen a log :
  step maxRetries c (mkPipeline codegen false a log)
  = mkPipeline safety false a (safety :: log).
Proof. unfold step. simpl. rewrite (af_codegen failing). reflexivity. Qed.

Lemma step_safety a log :
  step maxRetries c (mkPipeline safety false a log)
  = mkPipeline execution false a (execution :: log).
Proof.
  pose proof (af_safety failing a) as Hadm. unfold admitted in Hadm.
  unfold step. simpl.
  destruct (verdict c a); [discriminate Hadm| rewrite Hadm |]; reflexivity.
Qed.

Lemma step_execution a log :
  step maxRetries c (mkPipeline execution false a log)
  = if (Z.of_nat a <? maxRetries)%Z
    then mkPipeline codegen false (S a) (codegen :: log)
    else mkPipeline error false a (error :: log).
Proof. unfold step. simpl. rewrite (af_exec failing). reflexivity. Qed.

Lemma one_cycle (a : nat) (log : list Stage) :
  (Z.of_nat a < maxRetries)%Z ->
  run maxRetries c 3 (mkPipeline codegen false a log)
  = mkPipeline codegen false (S a) (codegen :: execution :: safety :: log).
Proof.
  intros Hlt. cbn [run].
  rewrite step_codegen, step_safety, step_execution.
  replace (Z.of_nat a <? maxRetries)%Z with true
    by (symmetry; apply Z.ltb_lt; exact Hlt).
  reflexivity.
Qed.

Lemma last_cycle (a : nat) (log : list Stage) :
  (maxRetries <= Z.of_nat a)%Z ->
  run maxRetries c 3 (mkPipeline codegen false a log)
  = mkPipeline error false a (error :: execution :: safety :: log).
Proof.
  intros Hge. cbn [run].
  rewrite step_codegen, step_safety, step_execution.
  replace (Z.of_nat a <? maxRetries)%Z with false
    by (symmetry; apply Z.ltb_ge; exact Hge).
  reflexivity.
Qed.

Lemma run_add n k s :
  run maxRetries c (n + k) s = run maxRetries c k (run maxRetries c n s).
Proof. revert s. induction n as [|n IH]; intros s; simpl; [reflexivity|apply IH]. Qed.

Lemma cycles_snoc : forall k log,
  cycle ++ cycles k ++ log = cycles k ++ cycle ++ log.
Proof.
  induction k as [|k IH]; intros log; [reflexivity|].
  change (cycles (S k)) with (cycle ++ cycles k).
  rewrite <- !app_assoc. rewrite (IH log). reflexivity.
Qed.

Lemma retries_run : forall k a log,
  (Z.of_nat (a + k) <= maxRetries)%Z ->
  run maxRetries c (3 * k) (mkPipeline codegen false a (codegen :: log))
  = mkPipeline codegen false (a + k) (codegen :: cycles k ++ log).
Proof.
  induction k as [|k IH]; intros a log Hle.
  - simpl. rewrite Nat.add_0_r. reflexivity.
  - replace (3 * S k) with (3 + 3 * k) by lia.
    rewrite run_add, one_cycle by lia.
    rewrite IH by lia.
    replace (S a + k) with (a + S k) by lia.
    f_equal. f_equal.
    change (cycles (S k)) with (cycle ++ cycles k).
    rewrite <- app_assoc. symmetry. apply cycles_snoc.
Qed.

Lemma reaches_codegen :
  run maxRetries c 3 initial
  = mkPipeline codegen false 0 [codegen; intent; fast_path; idle].
Proof.
  cbn [run]. unfold initial, step at 3. simpl.
  unfold step at 2. simpl. rewrite (af_fast failing). simpl.
  unfold step. simpl. rewrite (af_intent failing). reflexivity.
Qed.

Lemma always_failing_run (n : nat) :
  n = Z.to_nat maxRetries ->
  run maxRetries c (3 * n + 6) initial
  = mkPipeline error false n
      (error :: execution :: safety :: codegen :: cycles n
         ++ [intent; fast_path; idle]).
Proof.
  intros Hn.
  replace (3 * n + 6) with (3 + (3 * n + 3)) by lia.
  rewrite run_add, reaches_codegen, run_add.
  destruct (Z.le_gt_cases 0 maxRetries) as [Hpos | Hneg].
  - rewrite (retries_run n 0 [intent; fast_path; idle]) by (simpl; lia).
    simpl (0 + n). apply last_cycle. lia.
  - assert (n = 0) as -> by lia. apply last_cycle. simpl. lia.
Qed.

End Run.

Lemma resting_fixed maxRetries c s :
  resting s = true -> step maxRetries c s = s.
Proof.
  unfold resting, step. destruct s as [st via a log]. simpl.
  destruct st; intros Hr; try discriminate; reflexivity.
Qed.

Lemma resting_run maxRetries c : forall k s,
  resting s = true -> run maxRetries c k s = s.
Proof.
  induction k as [|k IH]; intros s Hr; [reflexivity|].
  simpl. rewrite (resting_fixed maxRetries c s Hr). apply IH. exact Hr.
Qed.

(** A step outside a resting stage uses up the measure and never counts
    an attempt beyond the bound. *)
Lemma step_decreases maxRetries c s :
  resting s = false ->
  attempt (step maxRetries c s) <= Nat.max (attempt s) (Z.to_nat maxRetries) /\
  measure maxRetries (step maxRetries c s) < measure maxRetries s.
Proof.
  destruct s as [st via a log]. unfold resting, step, measure, retry,
    attemptsRemain, goto. simpl.
  destruct st; simpl; intros Hr; try discriminate.
  - lia.
  - destruct (fastPathMatches c); simpl; lia.
  - destruct (intentClear c); simpl; lia.
  - destruct (generates c a); simpl; lia.
  - destruct (verdict c a); [| destruct (confirmed c a) |]; simpl; lia.
  - destruct via; [destruct (fastPathSucceeds c); simpl; lia|].
    destruct (ex_success (executes c a)); [simpl; lia|].
    destruct (ex_requiresRetry (executes c a)); [|simpl; lia].
    destruct (Z.of_nat a <? maxRetries)%Z eqn:E; simpl; [|lia].
    apply Z.ltb_lt in E. lia.
  - destruct (verifies c a); [simpl; lia|].
    destruct (Z.of_nat a <? maxRetries)%Z eqn:E; simpl; [|lia].
    apply Z.ltb_lt in E. lia.
Qed.

Lemma run_rests maxRetries c : forall k s,
  measure maxRetries s <= k -> resting (run maxRetries c k s) = true.
Proof.
  induction k as [|k IH]; intros s Hm.
  - simpl. destruct s as [st via a log]. unfold measure, resting in *. simpl in *.
    destruct st; simpl in *; try reflexivity; lia.
  - simpl. destruct (resting s) eqn:Hr.
    + rewrite (resting_fixed maxRetries c s Hr).
      rewrite resting_run; assumption.
    + apply IH. pose proof (step_decreases maxRetries c s Hr). lia.
Qed.

Lemma attempt_step maxRetries c s :
  attempt s <= Z.to_nat maxRetries ->
  attempt (step maxRetries c s) <= Z.to_nat maxRetries.
Proof.
  intros Ha. destruct (resting s) eqn:Hr.
  - rewrite resting_fixed; assumption.
  - pose proof (step_decreases maxRetries c s Hr). lia.
Qed.

Lemma attempt_run maxRetries c : forall k s,
  attempt s <= Z.to_nat maxRetries ->
  attempt (run maxRetries c k s) <= Z.to_nat maxRetries.
Proof.
  induction k as [|k IH]; intros s Ha; [exact Ha|].
  simpl. apply IH. apply attempt_step. exact Ha.
Qed.

Lemma entries_cycles st : forall n log,
  List.length (filter (stage_eqb st) (cycles n ++ log))
  = n * List.length (filter (stage_eqb st) cycle)
    + List.length (filter (stage_eqb st) log).
Proof.
  induction n as [|n IH]; intros log; [reflexivity|].
  change (cycles (S n)) with (cycle ++ cycles n).
  rewrite <- app_assoc, filter_app, length_app, IH. lia.
Qed.

Lemma entered_step maxRetries c s :
  List.length (entered (step maxRetries c s)) <= S (List.length (entered s)).
Proof.
  destruct s as [st via a log]. unfold step, retry, attemptsRemain, goto. simpl.
  destruct st; simpl; try lia.
  - destruct (fastPathMatches c); simpl; lia.
  - destruct (intentClear c); simpl; lia.
  - destruct (generates c a); simpl; lia.
  - destruct (verdict c a); [| destruct (confirmed c a) |]; simpl; lia.
  - destruct via; [destruct (fastPathSucceeds c); simpl; lia|].
    destruct (ex_success (executes c a)); [simpl; lia|].
    destruct (ex_requiresRetry (executes c a)); [|simpl; lia].
    destruct (Z.of_nat a <? maxRetries)%Z; simpl; lia.
  - destruct (verifies c a); [simpl; lia|].
    destruct (Z.of_nat a <? maxRetries)%Z; simpl; lia.
Qed.

Lemma entered_run maxRetries c : forall k s,
  List.length (entered (run maxRetries c k s)) <= List.length (entered s) + k.
Proof.
  induction k as [|k IH]; intros s; simpl; [lia|].
  pose proof (IH (step maxRetries c s)).
  pose proof (entered_step maxRetries c s). lia.
Qed.

Lemma cycles_length n : List.length (cycles n) = 3 * n.
Proof. induction n as [|n IH]; simpl; lia. Qed.

(** C5: the default configuration sets [maxRetries] to 3.  For a
    command that takes the model path, whose actions reach the executor at
    every attempt (generated, and clear or flagged and confirmed) and whose
    execution always fails with the retry hint, the pipeline run with
    [n = maxRetries] from the configuration ([n = 0] for a negative
    setting) rests in the error stage after exactly [n] regenerations:
    the stages entered are codegen, safety and execution [n + 1] times in
    this order, the attempt counter ends at [n], and the run does not rest
    earlier nor move afterwards.  Whatever the stages answer, the attempt
    counter never exceeds [maxRetries] and the run rests after a bounded
    number of steps. *)
Theorem retry_bound (settings : ExtensionSettings) (c : Collaborators) :
  maxRetries DEFAULT_SETTINGS = 3%Z
  /\
  (always_failing c ->
   let n := Z.to_nat (maxRetries settings) in
   let final := processPipeline settings c (3 * n + 6) in
   stage final = error /\
   attempt final = n /\
   entered final
     = error :: execution :: safety :: codegen :: cycles n
         ++ [intent; fast_path; idle] /\
   entries codegen final = S n /\
   entries safety final = S n /\
   entries execution final = S n /\
   (forall more, processPipeline settings c (3 * n + 6 + more) = final) /\
   (forall k, k < 3 * n + 6 ->
              resting (processPipeline settings c k) = false))
  /\
  (forall k,
      attempt (processPipeline settings c k) <= Z.to_nat (maxRetries settings))
  /\
  resting (processPipeline settings c (4 * Z.to_nat (maxRetries settings) + 7))
    = true.
Proof.
  split; [reflexivity|]. split; [|split].
  - intros Hfail n final.
    assert (Hn : n = Z.to_nat (maxRetries settings)) by reflexivity.
    assert (Hfinal : final = mkPipeline error false n
              (error :: execution :: safety :: codegen :: cycles n
                 ++ [intent; fast_path; idle])).
    { unfold final, processPipeline. apply always_failing_run; assumption. }
    rewrite Hfinal. simpl stage. simpl attempt. simpl entered.
    split; [reflexivity|]. split; [reflexivity|]. split; [reflexivity|].
    unfold entries. simpl entered.
    split; [|split; [|split; [|split]]].
    + simpl filter. simpl List.length. rewrite entries_cycles. simpl. lia.
    + simpl filter. simpl List.length. rewrite entries_cycles. simpl. lia.
    + simpl filter. simpl List.length. rewrite entries_cycles. simpl. lia.
    + intros more. unfold processPipeline. rewrite run_add.
      fold (processPipeline settings c (3 * n + 6)). fold final.
      rewrite Hfinal. apply resting_run. reflexivity.
    + intros k Hk. unfold processPipeline.
      destruct (resting (run (maxRetries settings) c k initial)) eqn:Hr;
        [|reflexivity].
      exfalso.
      assert (Heq : run (maxRetries settings) c (3 * n + 6) initial
                    = run (maxRetries settings) c k initial).
      { replace (3 * n + 6) with (k + (3 * n + 6 - k)) by lia.
        rewrite run_add. apply resting_run. exact Hr. }
      pose proof (entered_run (maxRetries settings) c k initial) as Hlen.
      rewrite <- Heq in Hlen.
      unfold final, processPipeline in Hfinal. rewrite Hfinal in Hlen.
      simpl in Hlen. rewrite length_app, cycles_length in Hlen. simpl in Hlen.
      lia.
  - intros k. unfold processPipeline. apply attempt_run. simpl. lia.
  - unfold processPipeline. apply run_rests. unfold measure. simpl. lia.
Qed.

Lemma retry_bound_witness :
  (stage (processPipeline DEFAULT_SETTINGS Sample.retrying 15) = error /\
   attempt (processPipeline DEFAULT_SETTINGS Sample.retrying 15) = 3 /\
   entries execution (processPipeline DEFAULT_SETTINGS Sample.retrying 15) = 4)
  /\
  (stage (processPipeline DEFAULT_SETTINGS Sample.retryingConfirmed 15) = error /\
   attempt (processPipeline DEFAULT_SETTINGS Sample.retryingConfirmed 15) = 3 /\
   entries safety (processPipeline DEFAULT_SETTINGS Sample.retryingConfirmed 15) = 4 /\
   entries execution (processPipeline DEFAULT_SETTINGS Sample.retryingConfirmed 15) = 4).
Proof.
  assert (Hfail : always_failing Sample.retrying) by (split; reflexivity).
  assert (Hflag : always_failing Sample.retryingConfirmed) by (split; reflexivity).
  split.
  - destruct (proj1 (proj2 (retry_bound DEFAULT_SETTINGS Sample.retrying)) Hfail)
      as (H1 & H2 & _ & _ & _ & H6 & _).
    repeat split; assumption.
  - destruct (proj1 (proj2 (retry_bound DEFAULT_SETTINGS Sample.retryingConfirmed))
                Hflag)
      as (H1 & H2 & _ & _ & H5 & H6 & _).
    repeat split; assumption.
Defined.

End PipelineFacts.

(* ================================================================== *)
(** ** Arrays: slices, updates and the stable sort *)
(* ================================================================== *)

Module ArrayFacts.

Import Arrays.

Lemma slice_last_zero A (xs : list A) : slice_last 0 xs = xs.
Proof.
  unfold slice_last, slice_from. cbn.
  replace (Z.min 0 (Z.of_nat (List.length xs))) with 0%Z by lia.
  reflexivity.
Qed.

Lemma slice_last_positive A (count : Z) (xs : list A) :
  (0 < count)%Z ->
  slice_last count xs = skipn (List.length xs - Z.to_nat count) xs.
Proof.
  intros Hc. unfold slice_last, slice_from.
  destruct (Z.ltb_spec (- count) 0) as [_|Hge]; [|lia].
  f_equal. lia.
Qed.

Lemma slice_last_negative A (count : Z) (xs : list A) :
  (count < 0)%Z ->
  slice_last count xs = skipn (Z.to_nat (- count)) xs.
Proof.
  intros Hc. unfold slice_last, slice_from.
  destruct (Z.ltb_spec (- count) 0) as [Hlt|_]; [lia|].
  destruct (Z.min_spec (- count) (Z.of_nat (List.length xs))) as [[_ E]|[Hle E]];
    rewrite E; [reflexivity|].
  rewrite Nat2Z.id, skipn_all.
  symmetry. apply skipn_all2. lia.
Qed.

Lemma skipn_snoc A (n : nat) (xs : list A) (x : A) :
  n <= List.length xs -> skipn n (xs ++ [x]) = skipn n xs ++ [x].
Proof.
  intros Hn. rewrite skipn_app.
  replace (n - List.length xs) with 0 by lia. reflexivity.
Qed.

Lemma update_length A (f : A -> A) : forall l i,
  List.length (update i f l) = List.length l.
Proof.
  induction l as [|x l IH]; intros [|i]; cbn; auto.
Qed.

Lemma nth_error_update A (f : A -> A) : forall l i j,
  nth_error (update i f l) j =
  if Nat.eqb i j then option_map f (nth_error l j) else nth_error l j.
Proof.
  induction l as [|x l IH]; intros [|i] [|j]; cbn; auto.
  - destruct (Nat.eqb i j); reflexivity.
Qed.

Lemma update_In A (f : A -> A) : forall l i y,
  In y (update i f l) -> In y l \/ exists x, In x l /\ y = f x.
Proof.
  induction l as [|x l IH]; intros [|i] y; cbn; auto.
  - intros [<-|Hy]; [right; exists x; auto | auto].
  - intros [<-|Hy]; [auto|].
    destruct (IH _ _ Hy) as [Hl|(x' & Hx' & ->)]; [auto|].
    right. exists x'. auto.
Qed.

Lemma update_beyond A (f : A -> A) : forall l i,
  List.length l <= i -> update i f l = l.
Proof.
  induction l as [|x l IH]; intros [|i] Hi; cbn in *; auto; try lia.
  f_equal. apply IH. lia.
Qed.

Lemma In_of_skipn A : forall (l : list A) n y, In y (skipn n l) -> In y l.
Proof.
  induction l as [|x l IH]; intros [|n] y; cbn; auto.
  intros Hy. right. eapply IH; eauto.
Qed.

Lemma In_of_firstn A : forall (l : list A) n y, In y (firstn n l) -> In y l.
Proof.
  induction l as [|x l IH]; intros [|n] y; cbn; try tauto.
  intros [<-|Hy]; eauto.
Qed.

(** *** The stable sort *)

Section Sort.

Variable A : Type.
Variable key : A -> Z.

Lemma insert_by_In x : forall l y, In y (insert_by key x l) <-> y = x \/ In y l.
Proof.
  induction l as [|z l IH]; intros y; cbn.
  - intuition.
  - destruct (key x <=? key z)%Z; cbn; [intuition|].
    rewrite IH. intuition.
Qed.

Lemma sort_by_In : forall l y, In y (sort_by key l) <-> In y l.
Proof.
  induction l as [|x l IH]; intros y; cbn; [tauto|].
  fold (sort_by key l). rewrite insert_by_In, IH. intuition.
Qed.

Lemma insert_by_length x : forall l,
  List.length (insert_by key x l) = S (List.length l).
Proof.
  induction l as [|z l IH]; cbn; [reflexivity|].
  destruct (key x <=? key z)%Z; cbn; congruence.
Qed.

Lemma sort_by_length : forall l, List.length (sort_by key l) = List.length l.
Proof.
  induction l as [|x l IH]; cbn; [reflexivity|].
  fold (sort_by key l). rewrite insert_by_length. congruence.
Qed.

Lemma insert_by_ordered x : forall l, ordered key l -> ordered key (insert_by key x l).
Proof.
  induction l as [|z l IH]; cbn; intros Ho.
  - split; [intros y []|exact I].
  - destruct Ho as [Hz Ho].
    destruct (Z.leb_spec (key x) (key z)) as [Hle|Hgt]; cbn.
    + split; [|split; assumption].
      intros y [<-|Hy]; [assumption|]. specialize (Hz y Hy). lia.
    + split; [|apply IH; assumption].
      intros y Hy. apply insert_by_In in Hy. destruct Hy as [->|Hy]; [lia|auto].
Qed.

Lemma sort_by_ordered : forall l, ordered key (sort_by key l).
Proof.
  induction l as [|x l IH]; cbn; [exact I|].
  fold (sort_by key l). apply insert_by_ordered, IH.
Qed.

Lemma ordered_split : forall l n x y,
  ordered key l -> In x (firstn n l) -> In y (skipn n l) -> (key x <= key y)%Z.
Proof.
  induction l as [|z l IH]; intros [|n] x y Ho Hx Hy; cbn in *; try tauto.
  destruct Ho as [Hz Ho]. destruct Hx as [<-|Hx].
  - apply Hz. eapply In_of_skipn; eauto.
  - eapply IH; eauto.
Qed.

(** An entry whose key is the largest stays last. *)
Lemma insert_by_before_last x y : forall l,
  (key x <= key y)%Z ->
  insert_by key x (l ++ [y]) = insert_by key x l ++ [y].
Proof.
  induction l as [|z l IH]; cbn; intros Hle.
  - destruct (Z.leb_spec (key x) (key y)); [reflexivity|lia].
  - destruct (key x <=? key z)%Z; cbn; [reflexivity|].
    rewrite IH by assumption. reflexivity.
Qed.

Lemma sort_by_last y : forall l,
  (forall x, In x l -> (key x <= key y)%Z) ->
  sort_by key (l ++ [y]) = sort_by key l ++ [y].
Proof.
  induction l as [|x l IH]; cbn; intros Hy; [reflexivity|].
  fold (sort_by key (l ++ [y])). fold (sort_by key l).
  rewrite IH by auto. apply insert_by_before_last. auto.
Qed.

End Sort.

Lemma distinct_NoDup : forall l, distinct l = true -> NoDup l.
Proof.
  induction l as [|x l IH]; cbn; intros Hd; [constructor|].
  apply andb_true_iff in Hd. destruct Hd as [Hx Hd].
  constructor; [|auto].
  intros Hin. apply negb_true_iff, Bool.not_true_iff_false in Hx. apply Hx.
  apply existsb_exists. exists x. split; [assumption|apply Z.eqb_refl].
Qed.

End ArrayFacts.

(* ================================================================== *)
(** ** Session manager *)
(* ================================================================== *)

Module SessionFacts.

Import Arrays Sessions ArrayFacts.

(** *** The map *)

Lemma Map_has_In k mp : Map_has k mp = true <-> In k (map fst mp).
Proof.
  unfold Map_has. rewrite existsb_exists, in_map_iff. split.
  - intros (e & He & Hk). exists e. apply Z.eqb_eq in Hk. auto.
  - intros (e & Hk & He). exists e. split; [assumption|]. apply Z.eqb_eq, Hk.
Qed.

Lemma Map_get_None k : forall mp, Map_get k mp = None <-> ~ In k (map fst mp).
Proof.
  unfold Map_get. induction mp as [|[t a] mp IH]; cbn.
  - tauto.
  - destruct (Z.eqb_spec t k) as [->|Hne]; cbn.
    + split; [discriminate|]. intros Hn. exfalso. apply Hn. auto.
    + rewrite IH. tauto.
Qed.

Lemma Map_get_Some k a : forall mp, Map_get k mp = Some a -> In (k, a) mp.
Proof.
  unfold Map_get. induction mp as [|[t b] mp IH]; cbn; [discriminate|].
  destruct (Z.eqb_spec t k) as [->|Hne]; cbn.
  - intros [= ->]. auto.
  - auto.
Qed.

Lemma Map_get_In k a : forall mp,
  NoDup (map fst mp) -> In (k, a) mp -> Map_get k mp = Some a.
Proof.
  unfold Map_get. induction mp as [|[t b] mp IH]; cbn; [tauto|].
  intros Hnd Hin. inversion Hnd as [|? ? Hnot Hnd']; subst.
  destruct (Z.eqb_spec t k) as [->|Hne]; cbn.
  - destruct Hin as [[= ->]|Hin]; [reflexivity|].
    exfalso. apply Hnot. change k with (fst (k, a)). apply in_map, Hin.
  - destruct Hin as [[= -> _]|Hin]; [congruence|]. auto.
Qed.

Lemma Map_set_absent k v mp :
  Map_get k mp = None -> Map_set k v mp = mp ++ [(k, v)].
Proof.
  intros Hn. unfold Map_set.
  destruct (Map_has k mp) eqn:E; [|reflexivity].
  apply Map_has_In in E. apply Map_get_None in Hn. contradiction.
Qed.

Lemma keys_filter (f : Z * address -> bool) : forall mp,
  NoDup (map fst mp) -> NoDup (map fst (filter f mp)).
Proof.
  induction mp as [|e mp IH]; cbn; intros Hnd; [constructor|].
  inversion Hnd as [|? ? Hnot Hnd']; subst.
  destruct (f e); cbn; [|auto].
  constructor; [|auto].
  intros Hin. apply Hnot. apply in_map_iff in Hin.
  destruct Hin as (e' & He' & Hin). apply filter_In in Hin.
  rewrite <- He'. apply in_map, Hin.
Qed.

Lemma Map_delete_absent k mp : ~ In k (map fst (Map_delete k mp)).
Proof.
  unfold Map_delete. intros Hin. apply in_map_iff in Hin.
  destruct Hin as (e & He & Hin). apply filter_In in Hin.
  destruct Hin as [_ Hne]. rewrite He, Z.eqb_refl in Hne. discriminate.
Qed.

Lemma fold_delete : forall rem mp,
  fold_left (fun acc e => Map_delete (fst e) acc) rem mp = filter (without rem) mp.
Proof.
  induction rem as [|r rem IH]; intros mp; cbn.
  - symmetry. apply forallb_filter_id.
    apply forallb_forall. reflexivity.
  - rewrite IH. unfold Map_delete.
    induction mp as [|e mp IHm]; cbn; [reflexivity|].
    unfold without at 2. cbn.
    destruct (Z.eqb (fst e) (fst r)) eqn:E; cbn.
    + apply IHm.
    + fold (without rem e). destruct (without rem e); cbn; [f_equal|]; apply IHm.
Qed.

Lemma without_spec rem e :
  without rem e = true <-> ~ In (fst e) (map fst rem).
Proof.
  unfold without. rewrite negb_true_iff. split.
  - intros Hn Hin. apply Bool.not_true_iff_false in Hn. apply Hn.
    apply existsb_exists. exists (fst e). split; [assumption|apply Z.eqb_refl].
  - intros Hn. apply Bool.not_true_iff_false. intros Hex. apply Hn.
    apply existsb_exists in Hex. destruct Hex as (k & Hk & Ek).
    apply Z.eqb_eq in Ek. congruence.
Qed.

(** Deleting [n] tabs that are in the map leaves [n] entries fewer. *)
Lemma without_length rem mp :
  NoDup (map fst rem) -> incl rem mp ->
  List.length (filter (without rem) mp) + List.length rem <= List.length mp.
Proof.
  intros Hnd Hincl.
  pose proof (filter_length (without rem) mp) as Hsum.
  assert (Hle : List.length rem
                <= List.length (filter (fun e => negb (without rem e)) mp)).
  { rewrite <- (length_map fst rem).
    rewrite <- (length_map fst (filter _ mp)).
    apply NoDup_incl_length; [assumption|].
    intros k Hk. apply in_map_iff in Hk. destruct Hk as (e & <- & He).
    apply in_map, filter_In. split; [auto|].
    apply negb_true_iff, Bool.not_true_iff_false. intros Hw.
    apply without_spec in Hw. apply Hw, in_map, He. }
  lia.
Qed.

Lemma insert_by_NoDup A B (key : A -> Z) (f : A -> B) x : forall l,
  NoDup (map f (x :: l)) -> NoDup (map f (insert_by key x l)).
Proof.
  induction l as [|z l IH]; cbn; intros Hnd; [assumption|].
  destruct (key x <=? key z)%Z; [assumption|]. cbn.
  inversion Hnd as [|? ? Hx Hnd1]; subst.
  inversion Hnd1 as [|? ? Hz Hnd2]; subst.
  constructor.
  - intros Hin. apply in_map_iff in Hin. destruct Hin as (y & Hy & Hin).
    apply insert_by_In in Hin. destruct Hin as [->|Hin].
    + apply Hx. left. congruence.
    + apply Hz. rewrite <- Hy. apply in_map, Hin.
  - apply IH. cbn. constructor; [|assumption].
    intros Hin. apply Hx. right. assumption.
Qed.

Lemma sort_by_NoDup A B (key : A -> Z) (f : A -> B) : forall l,
  NoDup (map f l) -> NoDup (map f (sort_by key l)).
Proof.
  induction l as [|x l IH]; cbn; intros Hnd; [constructor|].
  fold (sort_by key l). apply insert_by_NoDup. cbn.
  inversion Hnd as [|? ? Hx Hnd1]; subst.
  constructor; [|auto].
  intros Hin. apply Hx. apply in_map_iff in Hin.
  destruct Hin as (y & Hy & Hin). apply sort_by_In in Hin.
  rewrite <- Hy. apply in_map, Hin.
Qed.

Lemma NoDup_firstn A : forall (l : list A) n, NoDup l -> NoDup (firstn n l).
Proof.
  induction l as [|x l IH]; intros [|n] Hnd; cbn; try constructor.
  - inversion Hnd; subst. intros Hin. apply In_of_firstn in Hin. contradiction.
  - inversion Hnd; subst. auto.
Qed.

(** *** Objects of the store *)

Lemma deref_update a f st b :
  deref b (update a f st) =
  if Nat.eqb a b then option_map f (deref b st) else deref b st.
Proof. apply nth_error_update. Qed.

Lemma deref_fresh st s : deref (List.length st) (st ++ [s]) = Some s.
Proof.
  unfold deref. rewrite nth_error_app2 by lia.
  rewrite Nat.sub_diag. reflexivity.
Qed.

Lemma deref_old st s a x : deref a st = Some x -> deref a (st ++ [s]) = Some x.
Proof.
  unfold deref. intros Ha. rewrite nth_error_app1; [assumption|].
  apply nth_error_Some. congruence.
Qed.

Lemma deref_grown st s a :
  a <> List.length st -> deref a (st ++ [s]) = deref a st.
Proof.
  unfold deref. intros Hne.
  destruct (Nat.ltb_spec a (List.length st)) as [Hlt|Hge].
  - apply nth_error_app1, Hlt.
  - rewrite (proj2 (nth_error_None st a)) by lia.
    apply nth_error_None. rewrite length_app. cbn. lia.
Qed.

Lemma activity_old st s a x :
  deref a st = Some x -> activity (st ++ [s]) a = activity st a.
Proof.
  intros Ha. unfold activity. rewrite (@deref_old st s a x Ha), Ha. reflexivity.
Qed.

Lemma activity_quiet f a st b :
  quiet f -> activity (update a f st) b = activity st b.
Proof.
  intros Hq. unfold activity. rewrite deref_update.
  destruct (Nat.eqb a b); [|reflexivity].
  destruct (deref b st); cbn; [apply Hq|reflexivity].
Qed.

(** *** Clean-up *)

Lemma cleanup_store now mgr : store (cleanupOldSessions now mgr) = store mgr.
Proof.
  unfold cleanupOldSessions.
  destruct (Nat.ltb _ _); reflexivity.
Qed.

Lemma cleanup_sessions now mgr :
  sessions (cleanupOldSessions now mgr) =
  if Nat.ltb maxSessions (List.length (unexpired now mgr))
  then filter
         (without
            (firstn (List.length (unexpired now mgr) - maxSessions)
               (sort_by (fun e => activity (store mgr) (snd e))
                        (unexpired now mgr))))
         (unexpired now mgr)
  else unexpired now mgr.
Proof.
  unfold cleanupOldSessions. fold (unexpired now mgr).
  destruct (Nat.ltb _ _); cbn; [apply fold_delete|reflexivity].
Qed.

Lemma unexpired_In now mgr e :
  In e (unexpired now mgr) <->
  In e (sessions mgr) /\ expired now (store mgr) e = false.
Proof.
  unfold unexpired. rewrite filter_In, negb_true_iff. tauto.
Qed.

Lemma cleanup_In now mgr e :
  In e (sessions (cleanupOldSessions now mgr)) ->
  In e (sessions mgr) /\ expired now (store mgr) e = false.
Proof.
  rewrite cleanup_sessions. intros Hin. apply unexpired_In.
  destruct (Nat.ltb _ _); [|assumption].
  apply filter_In in Hin. tauto.
Qed.

Lemma cleanup_keys now mgr :
  NoDup (map fst (sessions mgr)) ->
  NoDup (map fst (sessions (cleanupOldSessions now mgr))).
Proof.
  intros Hnd. rewrite cleanup_sessions.
  assert (Hu : NoDup (map fst (unexpired now mgr))) by (apply keys_filter, Hnd).
  destruct (Nat.ltb _ _); [apply keys_filter|]; assumption.
Qed.

Lemma cleanup_size now mgr :
  NoDup (map fst (sessions mgr)) ->
  List.length (sessions (cleanupOldSessions now mgr)) <= maxSessions.
Proof.
  intros Hnd. rewrite cleanup_sessions.
  assert (Hu : NoDup (map fst (unexpired now mgr))) by (apply keys_filter, Hnd).
  destruct (Nat.ltb_spec maxSessions (List.length (unexpired now mgr)))
    as [Hlt|Hge]; [|assumption].
  set (live := unexpired now mgr) in *.
  set (sorted := sort_by (fun e => activity (store mgr) (snd e)) live).
  set (rem := firstn (List.length live - maxSessions) sorted).
  assert (Hlen : List.length rem = List.length live - maxSessions).
  { unfold rem. rewrite firstn_length_le; [reflexivity|].
    unfold sorted. rewrite sort_by_length. lia. }
  assert (Hrem : NoDup (map fst rem)).
  { unfold rem. rewrite <- firstn_map. apply NoDup_firstn.
    apply sort_by_NoDup, Hu. }
  assert (Hincl : incl rem live).
  { intros e He. unfold rem in He. apply In_of_firstn in He.
    apply sort_by_In in He. exact He. }
  pose proof (without_length Hrem Hincl). lia.
Qed.

(** An entry that clean-up evicts although it has not expired was active
    no later than any entry that stays. *)
Lemma cleanup_evicts_oldest now mgr e e' :
  NoDup (map fst (sessions mgr)) ->
  In e (unexpired now mgr) ->
  ~ In e (sessions (cleanupOldSessions now mgr)) ->
  In e' (sessions (cleanupOldSessions now mgr)) ->
  (activity (store mgr) (snd e) <= activity (store mgr) (snd e'))%Z.
Proof.
  intros Hnd He Hout Hin. rewrite cleanup_sessions in Hout, Hin.
  assert (Hu : NoDup (map fst (unexpired now mgr))) by (apply keys_filter, Hnd).
  destruct (Nat.ltb maxSessions (List.length (unexpired now mgr)));
    [|contradiction].
  set (live := unexpired now mgr) in *.
  set (key := fun e : Z * address => activity (store mgr) (snd e)) in *.
  set (k := List.length live - maxSessions) in *.
  pose proof (sort_by_ordered key live) as Hord.
  pose proof (sort_by_NoDup key fst live Hu) as Hsnd.
  set (sorted := sort_by key live) in *.
  (* [e] is among the first [k] of the sorted entries *)
  assert (He1 : In e (firstn k sorted)).
  { destruct (in_dec (fun x y : Z * address =>
                        ltac:(decide equality; try apply Z.eq_dec;
                              apply Nat.eq_dec) : {x = y} + {x <> y})
                     e (firstn k sorted)) as [Hy|Hn]; [assumption|].
    exfalso. apply Hout. apply filter_In. split; [assumption|].
    apply without_spec. intros Hk. apply in_map_iff in Hk.
    destruct Hk as (r & Hr & Hrin).
    assert (r = e); [|congruence].
    assert (Hrl : In r live).
    { apply In_of_firstn in Hrin. apply sort_by_In in Hrin. exact Hrin. }
    destruct r as [t a], e as [t' a']. cbn in Hr. subst t'.
    f_equal.
    assert (H1 := Map_get_In _ _ _ Hu Hrl).
    assert (H2 := Map_get_In _ _ _ Hu He). congruence. }
  (* [e'] is among the others *)
  assert (He2 : In e' (skipn k sorted)).
  { apply filter_In in Hin. destruct Hin as [Hl Hw].
    apply without_spec in Hw.
    assert (Hs : In e' sorted) by (apply sort_by_In; assumption).
    rewrite <- (firstn_skipn k sorted) in Hs. apply in_app_or in Hs.
    destruct Hs as [Hf|Hs]; [|assumption].
    exfalso. apply Hw, in_map, Hf. }
  exact (ordered_split key sorted k e e' Hord He1 He2).
Qed.

(** *** Histories *)

Lemma slice_last_snoc A (n : nat) (xs : list A) (x : A) :
  slice_last (Z.of_nat (S n)) (xs ++ [x]) = Stages.last_n n xs ++ [x].
Proof.
  rewrite slice_last_positive by lia. unfold Stages.last_n.
  rewrite length_app. cbn [List.length]. rewrite Nat2Z.id.
  assert (E : List.length xs + 1 - S n = List.length xs - n) by lia.
  rewrite E. apply skipn_snoc. lia.
Qed.

Lemma last_n_length A (n : nat) (xs : list A) :
  List.length (Stages.last_n n xs) = Nat.min n (List.length xs).
Proof. unfold Stages.last_n. rewrite length_skipn. lia. Qed.

Lemma push_message_eq message s :
  push_message message s =
  with_messages (if Nat.leb 100 (List.length (messages s))
                 then Stages.last_n 49 (messages s) ++ [message]
                 else messages s ++ [message]) s.
Proof.
  unfold push_message. cbn zeta. f_equal.
  rewrite length_app. cbn [List.length].
  destruct (Nat.leb_spec 100 (List.length (messages s))) as [Hge|Hlt].
  - destruct (Nat.ltb_spec 100 (List.length (messages s) + 1)); [|lia].
    apply (slice_last_snoc 49).
  - destruct (Nat.ltb_spec 100 (List.length (messages s) + 1)); [lia|].
    reflexivity.
Qed.

Lemma push_message_messages message s :
  messages (push_message message s) =
  if Nat.leb 100 (List.length (messages s))
  then Stages.last_n 49 (messages s) ++ [message]
  else messages s ++ [message].
Proof. rewrite push_message_eq. reflexivity. Qed.

Lemma push_message_bound message s :
  List.length (messages (push_message message s)) <= 100.
Proof.
  rewrite push_message_messages.
  destruct (Nat.leb_spec 100 (List.length (messages s)));
    rewrite length_app; [rewrite last_n_length|]; cbn [List.length]; lia.
Qed.

Lemma push_action_eq action success now s :
  push_action action success now s =
  with_actions (if Nat.leb 50 (List.length (actionHistory s))
                then Stages.last_n 29 (actionHistory s)
                       ++ [mkActionRecord action success now]
                else actionHistory s ++ [mkActionRecord action success now]) s.
Proof.
  unfold push_action. cbn zeta. f_equal.
  rewrite length_app. cbn [List.length].
  destruct (Nat.leb_spec 50 (List.length (actionHistory s))) as [Hge|Hlt].
  - destruct (Nat.ltb_spec 50 (List.length (actionHistory s) + 1)); [|lia].
    apply (slice_last_snoc 29).
  - destruct (Nat.ltb_spec 50 (List.length (actionHistory s) + 1)); [lia|].
    reflexivity.
Qed.

Lemma push_action_history action success now s :
  actionHistory (push_action action success now s) =
  if Nat.leb 50 (List.length (actionHistory s))
  then Stages.last_n 29 (actionHistory s)
         ++ [mkActionRecord action success now]
  else actionHistory s ++ [mkActionRecord action success now].
Proof. rewrite push_action_eq. reflexivity. Qed.

Lemma push_action_bound action success now s :
  List.length (actionHistory (push_action action success now s)) <= 50.
Proof.
  rewrite push_action_history.
  destruct (Nat.leb_spec 50 (List.length (actionHistory s)));
    rewrite length_app; [rewrite last_n_length|]; cbn [List.length]; lia.
Qed.

(** *** Well-formedness is kept *)

Lemma wf_new : well_formed newSessionManager.
Proof.
  split; cbn; [constructor|]. intros t a [].
Qed.

Lemma wf_update a f mgr :
  (forall s, tabId (f s) = tabId s) ->
  well_formed mgr ->
  well_formed (mkManager (update a f (store mgr)) (sessions mgr)).
Proof.
  intros Hf [Hk Hr]. split; cbn; [assumption|].
  intros t b Hin. destruct (Hr t b Hin) as (s & Hs & Ht).
  rewrite deref_update. destruct (Nat.eqb a b).
  - exists (f s). rewrite Hs. cbn. split; [reflexivity|]. rewrite Hf. exact Ht.
  - exists s. auto.
Qed.

Lemma wf_cleanup now mgr :
  well_formed mgr -> well_formed (cleanupOldSessions now mgr).
Proof.
  intros [Hk Hr]. split.
  - apply cleanup_keys, Hk.
  - intros t a Hin. rewrite cleanup_store.
    apply cleanup_In in Hin. apply Hr, Hin.
Qed.

Lemma wf_created tabId s mgr :
  Map_get tabId (sessions mgr) = None ->
  Sessions.tabId s = tabId ->
  well_formed mgr ->
  well_formed (mkManager (store mgr ++ [s])
                         (Map_set tabId (List.length (store mgr)) (sessions mgr))).
Proof.
  intros Hn Ht [Hk Hr]. rewrite Map_set_absent by exact Hn. split; cbn.
  - rewrite map_app. cbn.
    apply NoDup_app; [assumption|repeat constructor; intros []|].
    intros k Hin [<-|[]]. apply Map_get_None in Hn. contradiction.
  - intros t a Hin. apply in_app_or in Hin. destruct Hin as [Hin|[[= <- <-]|[]]].
    + destruct (Hr t a Hin) as (s0 & Hs0 & Ht0).
      exists s0. split; [|assumption]. apply deref_old, Hs0.
    + exists s. split; [apply deref_fresh|assumption].
Qed.

Lemma wf_getOrCreateSession tabId uuid now mgr :
  well_formed mgr ->
  well_formed (snd (getOrCreateSession tabId uuid now mgr)).
Proof.
  intros Hwf. unfold getOrCreateSession.
  destruct (Map_get tabId (sessions mgr)) eqn:E; cbn [snd].
  - apply wf_update; [reflexivity|assumption].
  - apply wf_cleanup, wf_created; auto.
Qed.

Lemma wf_getSession tabId now mgr :
  well_formed mgr -> well_formed (snd (getSession tabId now mgr)).
Proof.
  intros Hwf. unfold getSession.
  destruct (Map_get tabId (sessions mgr)); cbn [snd]; [|assumption].
  apply wf_update; [reflexivity|assumption].
Qed.

Lemma wf_removeSession tabId mgr :
  well_formed mgr -> well_formed (removeSession tabId mgr).
Proof.
  intros [Hk Hr]. split; cbn.
  - apply keys_filter, Hk.
  - intros t a Hin. apply filter_In in Hin. apply Hr, Hin.
Qed.

Lemma wf_perform r mgr : well_formed mgr -> well_formed (perform r mgr).
Proof.
  intros Hwf. destruct r; cbn [perform].
  - apply wf_getOrCreateSession, Hwf.
  - apply wf_getSession, Hwf.
  - apply wf_removeSession, Hwf.
  - apply wf_update; [reflexivity|assumption].
  - apply wf_update; [reflexivity|assumption].
  - apply wf_update; [reflexivity|assumption].
  - apply wf_update; [reflexivity|assumption].
  - apply wf_update; [reflexivity|assumption].
Qed.

(** *** The bounds are kept *)

Lemma bounded_update a f mgr :
  (forall s, List.length (messages s) <= 100 ->
             List.length (messages (f s)) <= 100) ->
  (forall s, List.length (actionHistory s) <= 50 ->
             List.length (actionHistory (f s)) <= 50) ->
  bounded mgr ->
  bounded (mkManager (update a f (store mgr)) (sessions mgr)).
Proof.
  intros Hm Ha [Bs Bm Ba]. split; cbn; [assumption| |].
  - intros s Hin. apply update_In in Hin.
    destruct Hin as [Hin|(x & Hx & ->)]; auto.
  - intros s Hin. apply update_In in Hin.
    destruct Hin as [Hin|(x & Hx & ->)]; auto.
Qed.

Lemma bounded_perform r mgr :
  well_formed mgr -> bounded mgr -> bounded (perform r mgr).
Proof.
  intros Hwf Hb.
  destruct r as [t uuid now|t now|t|sw message|sw context
                |sw action success now|sw answer|sw]; cbn [perform].
  - unfold getOrCreateSession.
    destruct (Map_get t (sessions mgr)) eqn:E; cbn [snd].
    + apply bounded_update; auto.
    + pose proof (@wf_created t (mkSession uuid t [] None [] None
                                           (now 0) (now 1)) mgr E eq_refl Hwf)
        as Hwf1.
      destruct Hb as [Bs Bm Ba]. split.
      * apply cleanup_size, Hwf1.
      * intros s. rewrite cleanup_store. cbn. intros Hin.
        apply in_app_or in Hin. destruct Hin as [Hin|[<-|[]]]; [auto|cbn; lia].
      * intros s. rewrite cleanup_store. cbn. intros Hin.
        apply in_app_or in Hin. destruct Hin as [Hin|[<-|[]]]; [auto|cbn; lia].
  - unfold getSession.
    destruct (Map_get t (sessions mgr)); cbn [snd]; [|assumption].
    apply bounded_update; auto.
  - destruct Hb as [Bs Bm Ba]. split; cbn; [|assumption|assumption].
    unfold Map_delete.
    pose proof (filter_length_le (fun e => negb (fst e =? t)%Z)
                                 (sessions mgr)). lia.
  - apply bounded_update; auto. intros s _. apply push_message_bound.
  - apply bounded_update; auto.
  - apply bounded_update; auto. intros s _. apply push_action_bound.
  - apply bounded_update; auto.
  - apply bounded_update; auto.
Qed.

Lemma after_snoc rs r : after (rs ++ [r]) = perform r (after rs).
Proof. unfold after. rewrite fold_left_app. reflexivity. Qed.

Lemma after_invariant (rs : list request) :
  well_formed (after rs) /\ bounded (after rs).
Proof.
  induction rs as [|r rs IH] using rev_ind.
  - split; [apply wf_new|].
    split; cbn; [unfold maxSessions; lia| |]; intros s [].
  - rewrite after_snoc. destruct IH as [Hwf Hb].
    split; [apply wf_perform|apply bounded_perform]; assumption.
Qed.

Lemma after_well_formed (rs : list request) : well_formed (after rs).
Proof. apply after_invariant. Qed.

(** X1: whatever is asked of the manager and of the wrappers, in whatever
    order and with whatever clock readings, the map keeps one entry per
    tab, each referring to that tab's session, at most [maxSessions]
    sessions are kept, no session holds more than 100 messages and none
    more than 50 recorded actions. *)
Theorem manager_stays_bounded (rs : list request) :
  well_formed (after rs) /\ bounded (after rs).
Proof. exact (after_invariant rs). Qed.

(** *** A created session stays *)

Lemma activity_fresh st s : activity (st ++ [s]) (List.length st) = lastActivityAt s.
Proof. unfold activity. rewrite deref_fresh. reflexivity. Qed.

Lemma created_stays t uuid now0 now1 now2 mgr :
  well_formed mgr ->
  Map_get t (sessions mgr) = None ->
  not_after now1 mgr ->
  (now2 - now1 <= sessionTimeout)%Z ->
  In (t, List.length (store mgr))
     (sessions
        (cleanupOldSessions now2
           (mkManager (store mgr ++ [mkSession uuid t [] None [] None now0 now1])
                      (Map_set t (List.length (store mgr)) (sessions mgr))))).
Proof.
  intros [Hk Hr] Hn Hpast Hclock.
  rewrite Map_set_absent by exact Hn.
  set (s := mkSession uuid t [] None [] None now0 now1).
  set (a := List.length (store mgr)).
  set (new := @pair Z address t a).
  set (L := filter (fun e => negb (expired now2 (store mgr ++ [s]) e))
                   (sessions mgr)).
  assert (Hnew : expired now2 (store mgr ++ [s]) new = false).
  { unfold expired, new. cbn [snd]. unfold a. rewrite activity_fresh.
    cbn [lastActivityAt s]. rewrite Z.gtb_ltb. apply Z.ltb_ge. exact Hclock. }
  assert (Hlive : unexpired now2 (mkManager (store mgr ++ [s])
                                            (sessions mgr ++ [new]))
                  = L ++ [new]).
  { unfold unexpired. cbn [store sessions].
    rewrite filter_app. cbn [filter]. rewrite Hnew. reflexivity. }
  rewrite cleanup_sessions, Hlive. cbn [store].
  destruct (Nat.ltb maxSessions (List.length (L ++ [new]))) eqn:Efull;
    [|apply in_or_app; right; left; reflexivity].
  apply filter_In. split; [apply in_or_app; right; left; reflexivity|].
  apply without_spec. unfold new at 1. cbn [fst]. intros Hin.
  assert (HL : forall x, In x L -> In x (sessions mgr)).
  { intros x Hx. unfold L in Hx. apply filter_In in Hx. tauto. }
  rewrite sort_by_last in Hin.
  - rewrite firstn_app, sort_by_length, length_app in Hin.
    cbn [List.length] in Hin.
    replace (List.length L + 1 - maxSessions - List.length L) with 0 in Hin
      by (unfold maxSessions; lia).
    cbn [firstn] in Hin. rewrite app_nil_r in Hin.
    apply in_map_iff in Hin. destruct Hin as (e & He & Hin).
    apply In_of_firstn, sort_by_In in Hin.
    apply Map_get_None in Hn. apply Hn. rewrite <- He.
    apply in_map, HL, Hin.
  - intros [t' a'] Hx. cbn [snd].
    unfold new. cbn [snd]. unfold a. rewrite activity_fresh. cbn [lastActivityAt s].
    destruct (Hr t' a' (HL _ Hx)) as (s0 & Hs0 & _).
    rewrite (@activity_old (store mgr) s a' s0 Hs0).
    apply (Hpast (t', a')), HL, Hx.
Qed.

Lemma created_frame st s a :
  a <> List.length st -> deref a (st ++ [s]) = deref a st.
Proof. apply deref_grown. Qed.

(** X2: [getOrCreateSession] answers with the session of the tab: the
    map holds it under that tab afterwards.  A tab that had a session
    gets the same object, touched; a tab that had none gets a new empty
    session (given readings of the clock that do not precede the
    activity already recorded and lie within the timeout of each other,
    so that clean-up cannot evict what was just created).  No other
    object of the store changes. *)
Theorem getOrCreateSession_returns_the_tab_session
        (tabId : Z) (uuid : jsstring) (now : nat -> Z) (mgr : SessionManager) :
  well_formed mgr ->
  not_after (now 1) mgr ->
  (now 2%nat - now 1%nat <= sessionTimeout)%Z ->
  let sw := fst (getOrCreateSession tabId uuid now mgr) in
  let mgr' := snd (getOrCreateSession tabId uuid now mgr) in
  Map_get tabId (sessions mgr') = Some (session sw) /\
  match Map_get tabId (sessions mgr) with
  | Some a =>
      session sw = a /\ sessions mgr' = sessions mgr /\
      exists s, deref a (store mgr) = Some s /\
                deref a (store mgr') = Some (touch (now 0) s)
  | None =>
      session sw = List.length (store mgr) /\
      deref (session sw) (store mgr')
        = Some (mkSession uuid tabId [] None [] None (now 0) (now 1))
  end /\
  (forall a, a <> session sw -> deref a (store mgr') = deref a (store mgr)).
Proof.
  intros Hwf Hpast Hclock. cbn zeta.
  pose proof (wf_getOrCreateSession tabId uuid now Hwf) as Hwf'.
  unfold getOrCreateSession in *.
  destruct (Map_get tabId (sessions mgr)) as [a|] eqn:E;
    cbn [fst snd session store sessions] in *.
  - split; [exact E|]. split.
    + split; [reflexivity|]. split; [reflexivity|].
      destruct Hwf as [_ Hr].
      destruct (Hr tabId a (@Map_get_Some tabId a (sessions mgr) E)) as (s & Hs & _).
      exists s. split; [assumption|].
      rewrite deref_update, Nat.eqb_refl, Hs. reflexivity.
    + intros b Hb. rewrite deref_update.
      destruct (Nat.eqb_spec a b); [congruence|reflexivity].
  - split.
    + apply Map_get_In; [apply Hwf'|].
      apply created_stays; assumption.
    + split.
      * split; [reflexivity|]. rewrite cleanup_store. apply deref_fresh.
      * intros b Hb. rewrite cleanup_store. apply deref_grown, Hb.
Qed.

(** X3: clean-up leaves at most [maxSessions] sessions, none of them
    expired; when no more than that are unexpired they all stay, and a
    session that is evicted although unexpired was active no later than
    every session that stays. *)
Theorem cleanupOldSessions_evicts_least_recent (now : Z) (mgr : SessionManager) :
  NoDup (tabs mgr) ->
  let mgr' := cleanupOldSessions now mgr in
  store mgr' = store mgr /\
  List.length (sessions mgr') <= maxSessions /\
  (forall e, In e (sessions mgr') ->
             In e (sessions mgr) /\ expired now (store mgr) e = false) /\
  (List.length (unexpired now mgr) <= maxSessions ->
   sessions mgr' = unexpired now mgr) /\
  (forall e e',
      In e (unexpired now mgr) -> ~ In e (sessions mgr') ->
      In e' (sessions mgr') ->
      (activity (store mgr) (snd e) <= activity (store mgr) (snd e'))%Z).
Proof.
  intros Hnd. cbn zeta.
  split; [apply cleanup_store|].
  split; [apply cleanup_size, Hnd|].
  split; [intros e; apply cleanup_In|].
  split.
  - intros Hfew. rewrite cleanup_sessions.
    destruct (Nat.ltb_spec maxSessions (List.length (unexpired now mgr)));
      [lia|reflexivity].
  - intros e e'. apply cleanup_evicts_oldest, Hnd.
Qed.

Lemma cleanupOldSessions_evicts_least_recent_witness :
  NoDup (tabs (Fixtures.crowded 52)) /\
  sessions (cleanupOldSessions 1800010 (Fixtures.crowded 52))
    = map (fun i => (Z.of_nat i, i)) (seq 10 42) /\
  sessions (cleanupOldSessions 60 (Fixtures.crowded 52))
    = map (fun i => (Z.of_nat i, i)) (seq 2 50) /\
  List.length (sessions (cleanupOldSessions 60 (Fixtures.crowded 52)))
    <= maxSessions.
Proof.
  assert (Hnd : NoDup (tabs (Fixtures.crowded 52)))
    by (apply distinct_NoDup; vm_compute; reflexivity).
  split; [exact Hnd|].
  split; [vm_compute; reflexivity|].
  split; [vm_compute; reflexivity|].
  apply (cleanupOldSessions_evicts_least_recent 60 (Fixtures.crowded 52) Hnd).
Defined.

(** *** Reading through a wrapper *)

Lemma read_on_session sw f A (g : Session -> A) mgr s :
  deref (session sw) (store mgr) = Some s ->
  read sw g (on_session sw f mgr) = Some (g (f s)).
Proof.
  intros Hs. unfold read, on_session. cbn [store].
  rewrite deref_update, Nat.eqb_refl, Hs. reflexivity.
Qed.

Lemma on_session_frame sw f mgr a :
  a <> session sw ->
  deref a (store (on_session sw f mgr)) = deref a (store mgr).
Proof.
  intros Hne. unfold on_session. cbn [store]. rewrite deref_update.
  destruct (Nat.eqb_spec (session sw) a); [congruence|reflexivity].
Qed.

(** X4: [addMessage] appends the message to the wrapped session and
    changes nothing else; a session that already holds 100 messages or
    more is first cut to its latest 49, so that 50 remain, and never more
    than 100 are held afterwards. *)
Theorem addMessage_keeps_the_latest_fifty
        (sw : SessionWrapper) (message : ChatMessage)
        (mgr : SessionManager) (s : Session) :
  deref (session sw) (store mgr) = Some s ->
  let mgr' := addMessage sw message mgr in
  let kept :=
    if Nat.leb 100 (List.length (messages s))
    then Stages.last_n 49 (messages s) ++ [message]
    else messages s ++ [message] in
  sessions mgr' = sessions mgr /\
  (forall a, a <> session sw -> deref a (store mgr') = deref a (store mgr)) /\
  deref (session sw) (store mgr') = Some (with_messages kept s) /\
  List.length kept <= 100 /\
  (100 <= List.length (messages s) -> List.length kept = 50).
Proof.
  intros Hs. cbn zeta.
  split; [reflexivity|].
  split; [intros a; apply on_session_frame|].
  split.
  - unfold addMessage, on_session. cbn [store].
    rewrite deref_update, Nat.eqb_refl, Hs. cbn.
    rewrite push_message_eq. reflexivity.
  - rewrite <- push_message_messages.
    split; [apply push_message_bound|].
    intros Hfull. rewrite push_message_messages.
    destruct (Nat.leb_spec 100 (List.length (messages s))); [|lia].
    rewrite length_app, last_n_length. cbn [List.length]. lia.
Qed.

Lemma addMessage_keeps_the_latest_fifty_witness :
  read (mkWrapper 0) messages
       (addMessage (mkWrapper 0) (Fixtures.said 99) (Fixtures.busyTab 99))
    = Some (map (fun i => Fixtures.said (Z.of_nat i)) (seq 0 100)) /\
  read (mkWrapper 0) messages
       (addMessage (mkWrapper 0) (Fixtures.said 100) (Fixtures.busyTab 100))
    = Some (map (fun i => Fixtures.said (Z.of_nat i)) (seq 51 50)).
Proof.
  split.
  - destruct (@addMessage_keeps_the_latest_fifty
                (mkWrapper 0) (Fixtures.said 99) (Fixtures.busyTab 99)
                (Fixtures.busy 99) eq_refl) as (_ & _ & Hs & _).
    unfold read. rewrite Hs. vm_compute. reflexivity.
  - vm_compute. reflexivity.
Defined.

(** X5: [recordAction] appends the record, with the reading of the
    clock, to the wrapped session and changes nothing else; a session
    that already holds 50 records or more is first cut to its latest 29,
    so that 30 remain, and never more than 50 are held afterwards. *)
Theorem recordAction_keeps_the_latest_thirty
        (sw : SessionWrapper) (action : ActionPayload) (success : bool)
        (now : Z) (mgr : SessionManager) (s : Session) :
  deref (session sw) (store mgr) = Some s ->
  let mgr' := recordAction sw action success now mgr in
  let kept :=
    if Nat.leb 50 (List.length (actionHistory s))
    then Stages.last_n 29 (actionHistory s)
           ++ [mkActionRecord action success now]
    else actionHistory s ++ [mkActionRecord action success now] in
  sessions mgr' = sessions mgr /\
  (forall a, a <> session sw -> deref a (store mgr') = deref a (store mgr)) /\
  deref (session sw) (store mgr') = Some (with_actions kept s) /\
  List.length kept <= 50 /\
  (50 <= List.length (actionHistory s) -> List.length kept = 30).
Proof.
  intros Hs. cbn zeta.
  split; [reflexivity|].
  split; [intros a; apply on_session_frame|].
  split.
  - unfold recordAction, on_session. cbn [store].
    rewrite deref_update, Nat.eqb_refl, Hs. cbn.
    rewrite push_action_eq. reflexivity.
  - rewrite <- (push_action_history action success now s).
    split; [apply push_action_bound|].
    intros Hfull. rewrite push_action_history.
    destruct (Nat.leb_spec 50 (List.length (actionHistory s))); [|lia].
    rewrite length_app, last_n_length. cbn [List.length]. lia.
Qed.

Lemma recordAction_keeps_the_latest_thirty_witness :
  option_map (@List.length ActionRecord)
    (read (mkWrapper 0) actionHistory
          (recordAction (mkWrapper 0) Fixtures.clicked true 77
                        (Fixtures.busyTab 50)))
    = Some 30 /\
  option_map (map ar_timestamp)
    (getRecentActions (mkWrapper 0) (Some 2%Z)
       (recordAction (mkWrapper 0) Fixtures.clicked true 77
                     (Fixtures.busyTab 50)))
    = Some [49; 77]%Z.
Proof.
  split.
  - destruct (@recordAction_keeps_the_latest_thirty
                (mkWrapper 0) Fixtures.clicked true 77 (Fixtures.busyTab 50)
                (Fixtures.busy 50) eq_refl) as (_ & _ & Hs & _).
    unfold read. rewrite Hs. vm_compute. reflexivity.
  - vm_compute. reflexivity.
Defined.

(** X6: the history readers return the latest [count] entries for a
    positive [count] (5 actions, 10 messages when none is given); for a
    count of zero they return the whole history, not an empty one, and a
    negative count drops that many entries from the front. *)
Theorem history_readers_count_from_the_end
        (sw : SessionWrapper) (mgr : SessionManager) (s : Session) :
  deref (session sw) (store mgr) = Some s ->
  getRecentActions sw None mgr = Some (Stages.last_n 5 (actionHistory s)) /\
  getConversationContext sw None mgr = Some (Stages.last_n 10 (messages s)) /\
  (forall count, (0 < count)%Z ->
      getRecentActions sw (Some count) mgr
        = Some (Stages.last_n (Z.to_nat count) (actionHistory s)) /\
      getConversationContext sw (Some count) mgr
        = Some (Stages.last_n (Z.to_nat count) (messages s))) /\
  getRecentActions sw (Some 0%Z) mgr = Some (actionHistory s) /\
  getConversationContext sw (Some 0%Z) mgr = Some (messages s) /\
  (forall count, (count < 0)%Z ->
      getRecentActions sw (Some count) mgr
        = Some (skipn (Z.to_nat (- count)) (actionHistory s)) /\
      getConversationContext sw (Some count) mgr
        = Some (skipn (Z.to_nat (- count)) (messages s))).
Proof.
  intros Hs. unfold getRecentActions, getConversationContext, read.
  rewrite Hs. cbn [option_map or_count].
  split; [rewrite slice_last_positive by lia; reflexivity|].
  split; [rewrite slice_last_positive by lia; reflexivity|].
  split.
  { intros count Hc. rewrite !slice_last_positive by assumption. auto. }
  split; [rewrite slice_last_zero; reflexivity|].
  split; [rewrite slice_last_zero; reflexivity|].
  intros count Hc. rewrite !slice_last_negative by assumption. auto.
Qed.

Lemma history_readers_count_from_the_end_witness :
  option_map (map msg_timestamp)
    (getConversationContext (mkWrapper 0) (Some 2%Z) (Fixtures.busyTab 4))
    = Some [2; 3]%Z /\
  option_map (map msg_timestamp)
    (getConversationContext (mkWrapper 0) (Some 0%Z) (Fixtures.busyTab 4))
    = Some [0; 1; 2; 3]%Z.
Proof.
  destruct (@history_readers_count_from_the_end
              (mkWrapper 0) (Fixtures.busyTab 4) (Fixtures.busy 4) eq_refl)
    as (_ & _ & Hpos & _ & Hzero & _).
  split.
  - rewrite (proj2 (Hpos 2%Z eq_refl)). vm_compute. reflexivity.
  - rewrite Hzero. vm_compute. reflexivity.
Defined.

Lemma getOrCreateSession_returns_the_tab_session_witness :
  getOrCreateSession 9 (str "77aa") (Fixtures.ticking 3000) Fixtures.twoTabs
    = (mkWrapper 2,
       mkManager (store Fixtures.twoTabs
                    ++ [mkSession (str "77aa") 9 [] None [] None 3000 3001])
                 [(7%Z, 0); (8%Z, 1); (9%Z, 2)]) /\
  Map_get 9 (sessions (snd (getOrCreateSession 9 (str "77aa")
                              (Fixtures.ticking 3000) Fixtures.twoTabs)))
    = Some 2.
Proof.
  split; [vm_compute; reflexivity|].
  assert (Hwf : well_formed Fixtures.twoTabs) by apply after_well_formed.
  assert (Hpast : not_after (Fixtures.ticking 3000 1) Fixtures.twoTabs).
  { intros e He. vm_compute in He.
    destruct He as [<-|[<-|[]]]; vm_compute; discriminate. }
  assert (Hclock : (Fixtures.ticking 3000 2 - Fixtures.ticking 3000 1
                    <= sessionTimeout)%Z) by (vm_compute; discriminate).
  destruct (@getOrCreateSession_returns_the_tab_session
              9 (str "77aa") (Fixtures.ticking 3000) Fixtures.twoTabs
              Hwf Hpast Hclock) as (Hget & _).
  rewrite Hget. vm_compute. reflexivity.
Defined.

Lemma last_n_one A (xs : list A) (x : A) : Stages.last_n 1 (xs ++ [x]) = [x].
Proof.
  unfold Stages.last_n. rewrite length_app. cbn [List.length].
  replace (List.length xs + 1 - 1) with (List.length xs) by lia.
  rewrite skipn_app, Nat.sub_diag, skipn_all. reflexivity.
Qed.

Lemma push_message_last message s :
  Stages.last_n 1 (messages (push_message message s)) = [message].
Proof.
  rewrite push_message_messages.
  destruct (Nat.leb _ _); apply last_n_one.
Qed.

(** X7: a message added through a wrapper is seen through the tab: a
    later [getSession] or [getOrCreateSession] for the tab answers with
    the same object, and its conversation ends with the message. *)
Theorem message_is_seen_through_the_tab
        (tabId : Z) (a : address) (message : ChatMessage) (now : Z)
        (uuid : jsstring) (clock : nat -> Z) (mgr : SessionManager) :
  well_formed mgr ->
  Map_get tabId (sessions mgr) = Some a ->
  let mgr1 := addMessage (mkWrapper a) message mgr in
  fst (getSession tabId now mgr1) = Some (mkWrapper a) /\
  fst (getOrCreateSession tabId uuid clock mgr1) = mkWrapper a /\
  getConversationContext (mkWrapper a) (Some 1%Z)
                         (snd (getSession tabId now mgr1))
    = Some [message] /\
  getConversationContext (mkWrapper a) (Some 1%Z)
                         (snd (getOrCreateSession tabId uuid clock mgr1))
    = Some [message] /\
  exists s,
    deref a (store mgr) = Some s /\
    read (mkWrapper a) messages (snd (getSession tabId now mgr1))
      = Some (messages (push_message message s)).
Proof.
  intros [_ Hr] Hget. cbn zeta.
  destruct (Hr tabId a (@Map_get_Some tabId a (sessions mgr) Hget))
    as (s & Hs & _).
  unfold getSession, getOrCreateSession, addMessage, on_session.
  cbn [sessions store session]. rewrite Hget. cbn [fst snd].
  split; [reflexivity|]. split; [reflexivity|].
  unfold getConversationContext, read. cbn [store session or_count].
  rewrite !deref_update, !Nat.eqb_refl, Hs. cbn [option_map touch messages].
  rewrite !slice_last_positive by lia.
  change (Z.to_nat 1) with 1.
  fold (Stages.last_n 1 (messages (push_message message s))).
  rewrite push_message_last.
  split; [reflexivity|]. split; [reflexivity|].
  exists s. split; reflexivity.
Qed.

Lemma message_is_seen_through_the_tab_witness :
  Map_get 8 (sessions Fixtures.twoTabs) = Some 1 /\
  getConversationContext (mkWrapper 1) (Some 1%Z)
    (snd (getSession 8 5000
            (addMessage (mkWrapper 1) (Fixtures.said 4000) Fixtures.twoTabs)))
    = Some [Fixtures.said 4000].
Proof.
  assert (Hget : Map_get 8 (sessions Fixtures.twoTabs) = Some 1)
    by (vm_compute; reflexivity).
  split; [exact Hget|].
  apply (@message_is_seen_through_the_tab
           8 1 (Fixtures.said 4000) 5000 [] (Fixtures.ticking 5000)
           Fixtures.twoTabs (after_well_formed _) Hget).
Defined.

Lemma Map_get_deleted k mp : Map_get k (Map_delete k mp) = None.
Proof. apply Map_get_None, Map_delete_absent. Qed.

(** X8: after [removeSession] the tab has no session: [getSession]
    answers [null] and changes nothing.  A wrapper handed out before
    still accepts messages, but they stay with the detached object: the
    session that [getOrCreateSession] then makes for the tab is a new,
    empty one. *)
Theorem removed_session_is_detached
        (tabId : Z) (a : address) (message : ChatMessage)
        (uuid : jsstring) (now : nat -> Z) (mgr : SessionManager) :
  well_formed mgr ->
  Map_get tabId (sessions mgr) = Some a ->
  let mgr1 := removeSession tabId mgr in
  let mgr2 := addMessage (mkWrapper a) message mgr1 in
  let made := getOrCreateSession tabId uuid now mgr2 in
  getSession tabId (now 0) mgr1 = (None, mgr1) /\
  session (fst made) = List.length (store mgr) /\
  session (fst made) <> a /\
  read (fst made) messages (snd made) = Some [] /\
  exists s,
    deref a (store mgr) = Some s /\
    read (mkWrapper a) messages (snd made)
      = Some (messages (push_message message s)).
Proof.
  intros [_ Hr] Hget. cbn zeta.
  destruct (Hr tabId a (@Map_get_Some tabId a (sessions mgr) Hget))
    as (s & Hs & _).
  assert (Ha : a < List.length (store mgr)).
  { apply nth_error_Some. unfold deref in Hs. congruence. }
  unfold getSession, getOrCreateSession, removeSession, addMessage, on_session.
  cbn [sessions store session]. rewrite !Map_get_deleted. cbn [fst snd session].
  split; [reflexivity|].
  rewrite update_length.
  split; [reflexivity|]. split; [lia|].
  unfold read. cbn [session]. rewrite !cleanup_store. cbn [store].
  split.
  - rewrite <- (update_length (push_message message) (store mgr) a) at 1.
    rewrite deref_fresh. reflexivity.
  - exists s. split; [assumption|].
    erewrite deref_old; [reflexivity|].
    rewrite deref_update, Nat.eqb_refl, Hs. reflexivity.
Qed.

Lemma removed_session_is_detached_witness :
  getSession 8 9000 (removeSession 8 Fixtures.twoTabs)
    = (None, removeSession 8 Fixtures.twoTabs) /\
  read (fst (getOrCreateSession 8 (str "77aa") (Fixtures.ticking 9000)
               (addMessage (mkWrapper 1) (Fixtures.said 4000)
                           (removeSession 8 Fixtures.twoTabs))))
       messages
       (snd (getOrCreateSession 8 (str "77aa") (Fixtures.ticking 9000)
               (addMessage (mkWrapper 1) (Fixtures.said 4000)
                           (removeSession 8 Fixtures.twoTabs))))
    = Some [].
Proof.
  destruct (@removed_session_is_detached
              8 1 (Fixtures.said 4000) (str "77aa") (Fixtures.ticking 9000)
              Fixtures.twoTabs (after_well_formed _) eq_refl)
    as (Hnone & _ & _ & Hempty & _).
  split; [exact Hnone|exact Hempty].
Defined.

End SessionFacts.

(* ================================================================== *)
(** ** Rate limiter: waiting *)
(* ================================================================== *)

Module WaitFacts.

Import AIClient.
Local Open Scope Z_scope.

(** The limiter never holds more timestamps than it admits per window. *)
Lemma canProceed_holds now rl :
  0 <= maxRequests rl ->
  Z.of_nat (List.length (requests rl)) <= maxRequests rl ->
  Z.of_nat (List.length (requests (snd (canProceed now rl)))) <= maxRequests rl.
Proof.
  intros HM Hlen. unfold canProceed.
  pose proof (filter_length_le (fun t => now - t <? windowMs rl) (requests rl))
    as Hle.
  destruct (Z.geb_spec
              (Z.of_nat (List.length
                           (filter (fun t => now - t <? windowMs rl)
                                   (requests rl))))
              (maxRequests rl)) as [Hge|Hlt]; cbn [snd requests].
  - lia.
  - rewrite length_app. cbn [List.length]. lia.
Qed.

Lemma serve_holds : forall times rl,
  0 <= maxRequests rl ->
  Z.of_nat (List.length (requests rl)) <= maxRequests rl ->
  maxRequests (snd (serve times rl)) = maxRequests rl /\
  windowMs (snd (serve times rl)) = windowMs rl /\
  Z.of_nat (List.length (requests (snd (serve times rl)))) <= maxRequests rl.
Proof.
  induction times as [|now rest IH]; intros rl HM Hlen; cbn [serve].
  - auto.
  - destruct (canProceed now rl) as [v rl1] eqn:E.
    assert (E1 : rl1 = snd (canProceed now rl)) by (rewrite E; reflexivity).
    destruct (LimiterFacts.canProceed_config now rl) as [EM EW]. rewrite <- E1 in EM, EW.
    pose proof (@canProceed_holds now rl HM Hlen) as Hlen1. rewrite <- E1 in Hlen1.
    destruct (serve rest rl1) as [log rl2] eqn:E2.
    assert (E3 : rl2 = snd (serve rest rl1)) by (rewrite E2; reflexivity).
    cbn [snd]. rewrite E3.
    destruct (IH rl1) as (IM & IW & IL); [lia|lia|].
    repeat split; lia.
Qed.

Lemma admits_below now rl :
  Z.of_nat (List.length (kept now rl)) < maxRequests rl ->
  fst (canProceed now rl) = true.
Proof.
  intros Hlt. unfold canProceed. fold (recent (windowMs rl) now (requests rl)).
  fold (kept now rl).
  destruct (Z.geb_spec (Z.of_nat (List.length (kept now rl))) (maxRequests rl));
    [lia|reflexivity].
Qed.

(** Dropping one of the timestamps leaves fewer. *)
Lemma kept_drops now rl oldest :
  In oldest (requests rl) -> windowMs rl <= now - oldest ->
  (List.length (kept now rl) < List.length (requests rl))%nat.
Proof.
  intros Hin Hold. unfold kept, recent.
  induction (requests rl) as [|x xs IH]; [destruct Hin|].
  cbn [filter]. destruct Hin as [->|Hin].
  - destruct (Z.ltb_spec (now - oldest) (windowMs rl)); [lia|].
    pose proof (filter_length_le (fun t => now - t <? windowMs rl) xs).
    cbn [List.length]. lia.
  - specialize (IH Hin). destruct (now - x <? windowMs rl); cbn [List.length]; lia.
Qed.

Lemma wait_suffices rl now :
  0 < maxRequests rl ->
  Z.of_nat (List.length (requests rl)) <= maxRequests rl ->
  exists wait,
    getWaitTime now rl = Millis wait /\
    forall later, now + wait <= later -> fst (canProceed later rl) = true.
Proof.
  intros HM Hlen. unfold getWaitTime.
  destruct (Z.ltb_spec (Z.of_nat (List.length (requests rl))) (maxRequests rl))
    as [Hlt|Hfull].
  - exists 0. split; [reflexivity|]. intros later _. apply admits_below.
    pose proof (filter_length_le (fun t => later - t <? windowMs rl)
                                 (requests rl)).
    unfold kept, recent. lia.
  - pose proof (LimiterFacts.minimum_spec (requests rl)) as Hmin.
    destruct (minimum (requests rl)) as [oldest|].
    + destruct Hmin as [Hin _].
      exists (oldest + windowMs rl - now). split; [reflexivity|].
      intros later Hlater. apply admits_below.
      assert (Hold : windowMs rl <= later - oldest) by lia.
      pose proof (@kept_drops later rl oldest Hin Hold). lia.
    + rewrite Hmin in Hfull. cbn in Hfull. lia.
Qed.

(** X9: a limiter that admits at least one request per window and holds
    no more timestamps than that, as every limiter does that started
    empty, always names a finite wait, and a request made once that wait
    has passed, or any time later, is admitted.  A limiter that admits
    none refuses every request and names an infinite wait. *)
Theorem waiting_getWaitTime_admits (M W : Z) :
  (forall rl now,
      maxRequests rl = M -> 0 < M ->
      Z.of_nat (List.length (requests rl)) <= M ->
      exists wait,
        getWaitTime now rl = Millis wait /\
        forall later, now + wait <= later -> fst (canProceed later rl) = true)
  /\
  (forall times now,
      0 < M ->
      exists wait,
        getWaitTime now (snd (serve times (newRateLimiter M W))) = Millis wait /\
        forall later,
          now + wait <= later ->
          fst (canProceed later (snd (serve times (newRateLimiter M W)))) = true)
  /\
  (forall times now,
      M <= 0 ->
      fst (canProceed now (snd (serve times (newRateLimiter M W)))) = false /\
      getWaitTime now (snd (serve times (newRateLimiter M W))) = Infinity).
Proof.
  split; [|split].
  - intros rl now <- HM Hlen. apply wait_suffices; assumption.
  - intros times now HM.
    destruct (serve_holds times (newRateLimiter M W)) as (EM & _ & Hlen);
      cbn; try lia.
    apply wait_suffices; rewrite EM; cbn; assumption.
  - intros times now HM.
    assert (Hempty : requests (snd (serve times (newRateLimiter M W))) = []
                     /\ maxRequests (snd (serve times (newRateLimiter M W))) = M).
    { generalize (eq_refl : requests (newRateLimiter M W) = []).
      generalize (eq_refl : maxRequests (newRateLimiter M W) = M).
      generalize (newRateLimiter M W) as rl.
      induction times as [|t rest IH]; intros rl EM Er; cbn [serve].
      - auto.
      - destruct (canProceed t rl) as [v rl1] eqn:E.
        destruct (serve rest rl1) as [log rl2] eqn:E2. cbn [snd].
        replace rl2 with (snd (serve rest rl1)) by (rewrite E2; reflexivity).
        unfold canProceed in E. rewrite Er in E. cbn in E.
        destruct (Z.geb_spec 0 (maxRequests rl)); [|lia].
        injection E as <- <-. apply IH; reflexivity || assumption. }
    destruct Hempty as [Er EM]. split.
    + unfold canProceed. rewrite Er, EM. cbn.
      destruct (Z.geb_spec 0 M); [reflexivity|lia].
    + unfold getWaitTime. rewrite Er, EM. cbn.
      destruct (Z.ltb_spec 0 M); [lia|reflexivity].
Qed.

Lemma waiting_getWaitTime_admits_witness :
  getWaitTime 1000 Sample.fullLimiter = Millis 59000 /\
  fst (canProceed (1000 + 58999) Sample.fullLimiter) = false /\
  fst (canProceed (1000 + 59000) Sample.fullLimiter) = true.
Proof.
  split; [vm_compute; reflexivity|].
  split; [vm_compute; reflexivity|].
  destruct (proj1 (proj2 (waiting_getWaitTime_admits 10 60000))
              (repeat 0 10) 1000 eq_refl) as (wait & Hw & Hadm).
  change (snd (serve (repeat 0 10) (newRateLimiter 10 60000)))
    with Sample.fullLimiter in Hw, Hadm.
  assert (E : wait = 59000).
  { assert (Hc : getWaitTime 1000 Sample.fullLimiter = Millis 59000)
      by (vm_compute; reflexivity).
    rewrite Hc in Hw. injection Hw as <-. reflexivity. }
  subst wait. apply Hadm. lia.
Defined.

End WaitFacts.

(* ================================================================== *)
(** ** Executor: navigation targets, dispatch, page results *)
(* ================================================================== *)

Module DispatchFacts.

Import Sample.

Lemma prefixb_app p : forall s, prefixb p (p ++ s) = true.
Proof.
  induction p as [|c p IH]; intros s; cbn; [reflexivity|].
  rewrite N.eqb_refl. apply IH.
Qed.

Lemma startsWith_app p s : startsWith (p ++ s) p = true.
Proof. apply prefixb_app. Qed.

(** The target the navigation code computes has a scheme. *)
Lemma scheme_added url :
  let target :=
    if (negb (startsWith url (str "http://"))
        && negb (startsWith url (str "https://")))%bool
    then str "https://" ++ url else url in
  (startsWith target (str "http://") = true \/
   startsWith target (str "https://") = true) /\
  (startsWith url (str "http://") = true \/
   startsWith url (str "https://") = true -> target = url) /\
  (startsWith url (str "http://") = false ->
   startsWith url (str "https://") = false -> target = str "https://" ++ url).
Proof.
  cbn zeta.
  destruct (startsWith url (str "http://")) eqn:E1;
    destruct (startsWith url (str "https://")) eqn:E2; cbn [negb andb].
  - split; [auto|]. split; [reflexivity|discriminate].
  - split; [auto|]. split; [reflexivity|discriminate].
  - split; [auto|]. split; [reflexivity|discriminate].
  - split; [right; apply startsWith_app|].
    split; [intros [?|?]; discriminate|reflexivity].
Qed.

(** X10: navigation always hands the browser a target that starts with
    [http://] or [https://]: a URL that has one of the two schemes, in
    lower case, is passed as it is, any other text is prefixed with
    [https://].  The executor trims the URL first, the fast path does
    not.  Without a URL to work on the call is rejected before the
    browser is asked. *)
Theorem navigate_targets_carry_a_scheme `{Host} (chrome : Chrome) (tabId : Z) :
  (forall url, exists target,
      Executor.executeNavigate chrome (VStr url) tabId
        = ([EvTabsUpdate tabId target],
           match tabs_update chrome tabId target with
           | Resolved _ =>
               Resolved (mkExec true (Some (str "Navigating to " ++ target)) None)
           | Rejected e => Rejected e
           end) /\
      (startsWith target (str "http://") = true \/
       startsWith target (str "https://") = true) /\
      (startsWith (trim url) (str "http://") = true \/
       startsWith (trim url) (str "https://") = true -> target = trim url) /\
      (startsWith (trim url) (str "http://") = false ->
       startsWith (trim url) (str "https://") = false ->
       target = str "https://" ++ trim url))
  /\
  (forall url other, exists target,
      FastPath.executeNavigate chrome (("url", url) :: other) tabId
        = ([EvTabsUpdate tabId target],
           match tabs_update chrome tabId target with
           | Resolved _ =>
               Resolved (mkExec true (Some (str "Navigating to " ++ target)) None)
           | Rejected e => Rejected e
           end) /\
      (startsWith target (str "http://") = true \/
       startsWith target (str "https://") = true) /\
      (startsWith url (str "http://") = true \/
       startsWith url (str "https://") = true -> target = url) /\
      (startsWith url (str "http://") = false ->
       startsWith url (str "https://") = false ->
       target = str "https://" ++ url))
  /\
  (forall code,
      match code with VStr _ => False | _ => True end ->
      exists e, Executor.executeNavigate chrome code tabId = ([], Rejected e))
  /\
  (forall params,
      FastPath.param "url" params = None ->
      exists e, FastPath.executeNavigate chrome params tabId = ([], Rejected e)).
Proof.
  split; [|split; [|split]].
  - intros url.
    pose proof (scheme_added (trim url)) as Hs. cbn zeta in Hs.
    eexists. split; [|exact Hs].
    unfold Executor.executeNavigate, call, bind, ret.
    destruct (tabs_update chrome tabId _); reflexivity.
  - intros url other.
    pose proof (scheme_added url) as Hs. cbn zeta in Hs.
    eexists. split; [|exact Hs].
    unfold FastPath.executeNavigate, call, bind, ret. cbn [FastPath.param].
    rewrite String.eqb_refl.
    destruct (tabs_update chrome tabId _); reflexivity.
  - intros code Hc. destruct code; try destruct Hc; cbn; eexists; reflexivity.
  - intros params Hn. unfold FastPath.executeNavigate. rewrite Hn.
    eexists. reflexivity.
Qed.

Lemma navigate_targets_carry_a_scheme_witness :
  let H := sampleHost [] in
  trace (Executor.executeNavigate closedChrome (VStr (str " youtube.com ")) 1)
    = [EvTabsUpdate 1 (str "https://youtube.com")] /\
  trace (Executor.executeNavigate closedChrome (VStr (str "HTTP://a.b")) 1)
    = [EvTabsUpdate 1 (str "https://HTTP://a.b")] /\
  exists e, Executor.executeNavigate closedChrome VUndefined 1
            = ([], Rejected e).
Proof.
  cbn zeta. split; [vm_compute; reflexivity|].
  split; [vm_compute; reflexivity|].
  apply (proj1 (proj2 (proj2 (@navigate_targets_carry_a_scheme
                                (sampleHost []) closedChrome 1)))).
  exact I.
Defined.

(** *** Dispatch *)

(** Raw code is injected once, and the call resolves whatever becomes
    of the injection. *)
Lemma raw_code_resolves `{Host} chrome code tabId :
  trace (Executor.executeRawCode chrome code tabId)
    = [EvExecuteScript tabId (RawCodeFn code)] /\
  exists r, settled (Executor.executeRawCode chrome code tabId) = Resolved r.
Proof.
  unfold Executor.executeRawCode, Executor.executeScript, try_catch, call,
         bind, ret, trace, settled.
  destruct (scripting_executeScript chrome tabId (RawCodeFn code))
    as [results|e]; cbn.
  - destruct (Executor.succeeded _); cbn; split; eauto.
  - split; eauto.
Qed.

Lemma one_script `{Host} chrome tabId s (k : list (option InjectionResult)
                                            -> ExecutionResult) :
  (results <- Executor.executeScript chrome tabId s ;; ret (k results))
  = ([EvExecuteScript tabId s],
     match scripting_executeScript chrome tabId s with
     | Resolved results => Resolved (k results)
     | Rejected e => Rejected e
     end).
Proof.
  unfold Executor.executeScript, call, bind, ret.
  destruct (scripting_executeScript chrome tabId s); reflexivity.
Qed.

Lemma executeClick_eq `{Host} chrome selector tabId :
  Executor.executeClick chrome selector tabId
  = ([EvExecuteScript tabId (ClickFn selector)],
     match scripting_executeScript chrome tabId (ClickFn selector) with
     | Resolved results =>
         Resolved
           (if Executor.succeeded (Executor.first_result results)
            then mkExec true (Some (str "Clicked " ++ toString selector)) None
            else mkExec false None
                   (Some (Executor.str_or
                            (Executor.error_of (Executor.first_result results))
                            (str "Click failed"))))
     | Rejected e => Rejected e
     end).
Proof.
  unfold Executor.executeClick, Executor.executeScript, call, bind, ret.
  destruct (scripting_executeScript chrome tabId _) as [results|e];
    [|reflexivity].
  destruct (Executor.succeeded _); reflexivity.
Qed.

Lemma executeFill_eq `{Host} chrome selector value tabId :
  Executor.executeFill chrome selector value tabId
  = ([EvExecuteScript tabId (FillFn selector value)],
     match scripting_executeScript chrome tabId (FillFn selector value) with
     | Resolved results =>
         Resolved
           (if Executor.succeeded (Executor.first_result results)
            then mkExec true (Some (str "Filled " ++ toString selector)) None
            else mkExec false None
                   (Some (Executor.str_or
                            (Executor.error_of (Executor.first_result results))
                            (str "Fill failed"))))
     | Rejected e => Rejected e
     end).
Proof.
  unfold Executor.executeFill, Executor.executeScript, call, bind, ret.
  destruct (scripting_executeScript chrome tabId _) as [results|e];
    [|reflexivity].
  destruct (Executor.succeeded _); reflexivity.
Qed.

Lemma primitive_traces `{Host} chrome tabId :
  (forall sel, trace (Executor.executeClick chrome sel tabId)
               = [EvExecuteScript tabId (ClickFn sel)]) /\
  (forall sel v, trace (Executor.executeFill chrome sel v tabId)
                 = [EvExecuteScript tabId (FillFn sel v)]) /\
  (forall d, trace (Executor.executeScroll chrome d tabId)
             = [EvExecuteScript tabId (ScrollFn d)]) /\
  (forall sel, trace (Executor.executeExtract chrome sel tabId)
               = [EvExecuteScript tabId (ExtractFn sel)]) /\
  (forall c, trace (Executor.executeModify chrome c tabId)
             = [EvExecuteScript tabId (ModifyFn c)]) /\
  (forall c, trace (Executor.executeRawCode chrome c tabId)
             = [EvExecuteScript tabId (RawCodeFn c)]).
Proof.
  repeat split; intros.
  - rewrite executeClick_eq. reflexivity.
  - rewrite executeFill_eq. reflexivity.
  - unfold Executor.executeScroll. rewrite one_script. reflexivity.
  - unfold Executor.executeExtract. rewrite one_script. reflexivity.
  - unfold Executor.executeModify. rewrite one_script. reflexivity.
  - apply raw_code_resolves.
Qed.

Lemma navigate_trace `{Host} chrome code tabId :
  (exists target, trace (Executor.executeNavigate chrome code tabId)
                  = [EvTabsUpdate tabId target]) \/
  (exists e, Executor.executeNavigate chrome code tabId = ([], Rejected e)).
Proof.
  destruct code; try (right; cbn; eexists; reflexivity).
  left. unfold Executor.executeNavigate, call, bind, ret, trace.
  eexists. destruct (tabs_update chrome tabId _); reflexivity.
Qed.

(** X11: [executeAction] never reaches a model and asks the browser at
    most once: one script injection for click, fill, scroll, extract and
    modify, one tab update for navigate, and for any other action type
    one injection of the raw code.  It asks nothing only when a navigate
    action carries no string to go to, and then it is rejected.  With an
    action type it does not know it always returns an outcome, also when
    the injection is rejected. *)
Theorem executeAction_asks_the_browser_once `{Host} (chrome : Chrome)
        (action : GeneratedAction) (tabId : Z) :
  let run := Executor.executeAction chrome action tabId in
  model_calls run = 0 /\ provider_calls run = 0 /\
  ((exists e, trace run = [e] /\ reaches_model e = false) \/
   (trace run = [] /\
    Executor.is_kind (actionType action) "navigate" = true /\
    exists e, settled run = Rejected e)) /\
  (Executor.is_kind (actionType action) "click" = false ->
   Executor.is_kind (actionType action) "fill" = false ->
   Executor.is_kind (actionType action) "scroll" = false ->
   Executor.is_kind (actionType action) "navigate" = false ->
   Executor.is_kind (actionType action) "extract" = false ->
   Executor.is_kind (actionType action) "modify" = false ->
   trace run = [EvExecuteScript tabId (RawCodeFn (code action))] /\
   exists r, settled run = Resolved r).
Proof.
  cbn zeta.
  destruct (primitive_traces chrome tabId) as (Tc & Tf & Ts & Te & Tm & Tr).
  assert (Hshape :
    (exists e, trace (Executor.executeAction chrome action tabId) = [e]
               /\ reaches_model e = false) \/
    (trace (Executor.executeAction chrome action tabId) = [] /\
     Executor.is_kind (actionType action) "navigate" = true /\
     exists e, settled (Executor.executeAction chrome action tabId)
               = Rejected e)).
  { unfold Executor.executeAction.
    destruct (Executor.is_kind (actionType action) "click");
      [left; eexists; split; [apply Tc|reflexivity]|].
    destruct (Executor.is_kind (actionType action) "fill");
      [left; eexists; split; [apply Tf|reflexivity]|].
    destruct (Executor.is_kind (actionType action) "scroll");
      [left; eexists; split; [apply Ts|reflexivity]|].
    destruct (Executor.is_kind (actionType action) "navigate") eqn:En.
    { destruct (navigate_trace chrome (code action) tabId)
        as [(target & Ht)|(e & He)].
      - left. eexists. split; [exact Ht|reflexivity].
      - right. rewrite He. split; [reflexivity|]. split; [reflexivity|].
        exists e. reflexivity. }
    destruct (Executor.is_kind (actionType action) "extract");
      [left; eexists; split; [apply Te|reflexivity]|].
    destruct (Executor.is_kind (actionType action) "modify");
      [left; eexists; split; [apply Tm|reflexivity]|].
    left. eexists. split; [apply Tr|reflexivity]. }
  assert (Hcount :
    model_calls (Executor.executeAction chrome action tabId) = 0 /\
    provider_calls (Executor.executeAction chrome action tabId) = 0).
  { unfold model_calls, provider_calls.
    destruct Hshape as [(e & -> & He)|(-> & _)]; [|split; reflexivity].
    unfold reaches_model in He. apply orb_false_iff in He.
    destruct He as [H1 H2]. cbn. rewrite H1, H2. split; reflexivity. }
  destruct Hcount as [Hm Hp].
  split; [exact Hm|]. split; [exact Hp|]. split; [exact Hshape|].
  intros K1 K2 K3 K4 K5 K6. unfold Executor.executeAction.
  rewrite K1, K2, K3, K4, K5, K6.
  destruct (raw_code_resolves chrome (code action) tabId) as [Ht Hr].
  split; assumption.
Qed.

Lemma executeAction_asks_the_browser_once_witness :
  let H := sampleHost [] in
  let odd := mkAction (VStr (str "alert(1)")) VNull (VStr (str "hover"))
                      (VStr (str "Hover")) VUndefined in
  Executor.executeAction closedChrome odd 1
    = ([EvExecuteScript 1 (RawCodeFn (VStr (str "alert(1)")))],
       Resolved (mkExec false None (Some (str "Code execution blocked")))) /\
  exists r, settled (Executor.executeAction closedChrome odd 1) = Resolved r.
Proof.
  cbn zeta. split; [vm_compute; reflexivity|].
  apply (proj2 (proj2 (proj2
           (@executeAction_asks_the_browser_once
              (sampleHost []) closedChrome
              (mkAction (VStr (str "alert(1)")) VNull (VStr (str "hover"))
                        (VStr (str "Hover")) VUndefined) 1))));
    reflexivity.
Defined.

(** *** What click and fill report *)

Lemma str_or_nonempty o d : d <> [] -> Executor.str_or o d <> [].
Proof.
  intros Hd. unfold Executor.str_or, FastPath.str_or.
  destruct o as [[|c s]|]; auto. discriminate.
Qed.

(** X12: click and fill report what the page function reported: success
    exactly when the result of the first frame carries [success: true],
    and then a message and no error; otherwise a failure with an error
    text that is never empty: the page's own, or [Click failed] / [Fill
    failed] when the page gave none.  A rejected injection is passed on. *)
Theorem click_and_fill_report_the_page_result `{Host} (chrome : Chrome)
        (tabId : Z) :
  (forall selector results,
      scripting_executeScript chrome tabId (ClickFn selector) = Resolved results ->
      exists r,
        settled (Executor.executeClick chrome selector tabId) = Resolved r /\
        success r = Executor.succeeded (Executor.first_result results) /\
        (success r = true ->
         message r = Some (str "Clicked " ++ toString selector) /\ error r = None) /\
        (success r = false ->
         message r = None /\
         exists text, error r = Some text /\ text <> [] /\
           (forall page c s, Executor.first_result results = Some page ->
                             r_error page = Some (c :: s) -> text = c :: s) /\
           (Executor.error_of (Executor.first_result results) = None ->
            text = str "Click failed")))
  /\
  (forall selector value results,
      scripting_executeScript chrome tabId (FillFn selector value)
        = Resolved results ->
      exists r,
        settled (Executor.executeFill chrome selector value tabId) = Resolved r /\
        success r = Executor.succeeded (Executor.first_result results) /\
        (success r = true ->
         message r = Some (str "Filled " ++ toString selector) /\ error r = None) /\
        (success r = false ->
         message r = None /\
         exists text, error r = Some text /\ text <> [] /\
           (forall page c s, Executor.first_result results = Some page ->
                             r_error page = Some (c :: s) -> text = c :: s) /\
           (Executor.error_of (Executor.first_result results) = None ->
            text = str "Fill failed")))
  /\
  (forall selector value e,
      (scripting_executeScript chrome tabId (ClickFn selector) = Rejected e ->
       settled (Executor.executeClick chrome selector tabId) = Rejected e) /\
      (scripting_executeScript chrome tabId (FillFn selector value) = Rejected e ->
       settled (Executor.executeFill chrome selector value tabId) = Rejected e)).
Proof.
  split; [|split].
  - intros selector results Hr. rewrite executeClick_eq, Hr. cbn [settled snd].
    destruct (Executor.succeeded (Executor.first_result results)) eqn:Es;
      eexists; (split; [reflexivity|]); cbn [success message error];
      (split; [reflexivity|]); (split; [intros Hs|intros Hf]);
      try discriminate.
    + split; reflexivity.
    + split; [reflexivity|]. eexists. split; [reflexivity|].
      split; [apply str_or_nonempty; discriminate|]. split.
      * intros page c s Hp He. rewrite Hp. cbn. rewrite He. reflexivity.
      * intros ->. reflexivity.
  - intros selector value results Hr. rewrite executeFill_eq, Hr.
    cbn [settled snd].
    destruct (Executor.succeeded (Executor.first_result results)) eqn:Es;
      eexists; (split; [reflexivity|]); cbn [success message error];
      (split; [reflexivity|]); (split; [intros Hs|intros Hf]);
      try discriminate.
    + split; reflexivity.
    + split; [reflexivity|]. eexists. split; [reflexivity|].
      split; [apply str_or_nonempty; discriminate|]. split.
      * intros page c s Hp He. rewrite Hp. cbn. rewrite He. reflexivity.
      * intros ->. reflexivity.
  - intros selector value e. split; intros Hr.
    + rewrite executeClick_eq, Hr. reflexivity.
    + rewrite executeFill_eq, Hr. reflexivity.
Qed.

Lemma click_and_fill_report_the_page_result_witness :
  let H := sampleHost [] in
  exists r,
    settled (Executor.executeClick (pageChrome H []) (VStr (str "el-3")) 1)
      = Resolved r /\
    success r = false /\ error r = Some (str "Click failed").
Proof.
  cbn zeta.
  destruct (proj1 (@click_and_fill_report_the_page_result
                     (sampleHost []) (pageChrome (sampleHost []) []) 1)
              (VStr (str "el-3")) [None] eq_refl)
    as (r & Hr & Hs & _ & Hf).
  exists r. split; [exact Hr|]. split; [exact Hs|].
  destruct (proj2 (Hf Hs)) as (text & He & _ & _ & Hd).
  rewrite He, (Hd eq_refl). reflexivity.
Defined.

End DispatchFacts.

(* ================================================================== *)
(** ** Providers: what a call can answer *)
(* ================================================================== *)

Module ProviderFacts.

Import AIClient Sample.

Ltac settle :=
  repeat match goal with
         | H : context [let (_, _) := ?x in _] |- _ => destruct x eqn:?
         | H : context [match ?x with _ => _ end] |- _ => destruct x eqn:?
         | H : context [if ?x then _ else _] |- _ => destruct x eqn:?
         | _ => progress cbn in *
         | _ => progress subst
         | H : (_, _) = (_, _) |- _ => injection H as ? ?
         | H : Resolved _ = Resolved _ |- _ => injection H as ?
         | H : Some _ = Some _ |- _ => injection H as ?
         | H : inl _ = inl _ |- _ => injection H as ?
         | _ => discriminate
         end.

Lemma callClaude_truthy `{Host} net k mdl sp um mt t v :
  settled (callClaude net k mdl sp um mt t) = Resolved v -> truthy v = true.
Proof.
  unfold callClaude, fetch, call, bind, await, Error, throw, ret, lift, settled.
  intros Hv. settle.
  match goal with H : negb (truthy v) = false |- _ =>
    apply negb_false_iff in H; exact H end.
Qed.

Lemma callClaude_sent `{Host} net k mdl sp um mt t url request :
  trace (callClaude net k mdl sp um mt t) = [EvFetch url request] ->
  callClaude net k mdl sp um mt t
  = (response <- fetch net url request ;;
     if negb (ok response)
     then
       error <- await (text response) ;;
       Error (str "Claude API error: " ++ of_Z (status response)
              ++ str " - " ++ error)
     else
       data <- await (json response) ;;
       content <- lift (prop "content" data) ;;
       if negb (truthy content) then Error (str "Invalid response from Claude API")
       else
         first <- lift (index0 content) ;;
         if negb (truthy first) then Error (str "Invalid response from Claude API")
         else
           txt <- lift (prop "text" first) ;;
           if negb (truthy txt) then Error (str "Invalid response from Claude API")
           else ret txt).
Proof.
  intros Ht. unfold callClaude in *.
  rewrite GatewayFacts.trace_bind in Ht by (intros; GatewayFacts.silence).
  unfold fetch, call, trace in Ht. cbn [fst] in Ht.
  injection Ht as <- <-. reflexivity.
Qed.

Lemma callOpenAI_sent `{Host} net k mdl sp um mt t url request :
  trace (callOpenAI net k mdl sp um mt t) = [EvFetch url request] ->
  callOpenAI net k mdl sp um mt t
  = (response <- fetch net url request ;;
     if negb (ok response)
     then
       error <- await (text response) ;;
       Error (str "OpenAI API error: " ++ of_Z (status response)
              ++ str " - " ++ error)
     else
       data <- await (json response) ;;
       choices <- lift (prop "choices" data) ;;
       if negb (truthy choices) then Error (str "Invalid response from OpenAI API")
       else
         first <- lift (index0 choices) ;;
         if negb (truthy first) then Error (str "Invalid response from OpenAI API")
         else
           msg <- lift (prop "message" first) ;;
           if negb (truthy msg) then Error (str "Invalid response from OpenAI API")
           else lift (prop "content" msg)).
Proof.
  intros Ht. unfold callOpenAI in *.
  rewrite GatewayFacts.trace_bind in Ht by (intros; GatewayFacts.silence).
  unfold fetch, call, trace in Ht. cbn [fst] in Ht.
  injection Ht as <- <-. reflexivity.
Qed.

(** X13: the two providers differ in what they let through.  A call to
    Claude resolves only with a truthy value: on an answer whose content
    starts with an object it resolves with the [text] of that object when
    that is truthy (a text that is not empty, but also a number or an
    array), and is rejected as invalid when it is missing, empty or
    otherwise falsy.  A call to OpenAI, on an answer whose first choice
    holds a message object, resolves with whatever the [content] of that
    message holds, [undefined] included.  Both turn a response that is not
    [ok] into a rejection that carries the status and the body. *)
Theorem providers_answer_or_reject `{Host} (net : Net)
        (k mdl sp um : jsstring) (mt t : Q) :
  (forall v, settled (callClaude net k mdl sp um mt t) = Resolved v ->
             truthy v = true)
  /\
  (forall url request response data first rest,
      trace (callClaude net k mdl sp um mt t) = [EvFetch url request] ->
      net url request = Resolved response ->
      ok response = true ->
      json response = Resolved (VObj data) ->
      lookup (str "content") data = VArr (VObj first :: rest) ->
      settled (callClaude net k mdl sp um mt t)
        = if truthy (lookup (str "text") first)
          then Resolved (lookup (str "text") first)
          else Rejected (ErrorObject (str "Invalid response from Claude API")))
  /\
  (forall url request response data first rest message,
      trace (callOpenAI net k mdl sp um mt t) = [EvFetch url request] ->
      net url request = Resolved response ->
      ok response = true ->
      json response = Resolved (VObj data) ->
      lookup (str "choices") data = VArr (VObj first :: rest) ->
      lookup (str "message") first = VObj message ->
      settled (callOpenAI net k mdl sp um mt t)
        = Resolved (lookup (str "content") message))
  /\
  (forall url request response body,
      net url request = Resolved response ->
      ok response = false ->
      text response = Resolved body ->
      (trace (callClaude net k mdl sp um mt t) = [EvFetch url request] ->
       settled (callClaude net k mdl sp um mt t)
         = Rejected (ErrorObject (str "Claude API error: "
                                  ++ of_Z (status response)
                                  ++ str " - " ++ body))) /\
      (trace (callOpenAI net k mdl sp um mt t) = [EvFetch url request] ->
       settled (callOpenAI net k mdl sp um mt t)
         = Rejected (ErrorObject (str "OpenAI API error: "
                                  ++ of_Z (status response)
                                  ++ str " - " ++ body)))).
Proof.
  split; [intros v; apply callClaude_truthy|]. split; [|split].
  - intros url request response data first rest Ht Hnet Hok Hjson Hcontent.
    rewrite (callClaude_sent _ _ _ _ _ _ _ Ht).
    unfold fetch, call, bind. rewrite Hnet, Hok. cbn [negb].
    unfold await. rewrite Hjson.
    cbn -[str lookup]. rewrite Hcontent. cbn -[str lookup].
    destruct (truthy (lookup (str "text") first)); reflexivity.
  - intros url request response data first rest message
      Ht Hnet Hok Hjson Hchoices Hmessage.
    rewrite (callOpenAI_sent _ _ _ _ _ _ _ Ht).
    unfold fetch, call, bind. rewrite Hnet, Hok. cbn [negb].
    unfold await. rewrite Hjson.
    cbn -[str lookup]. rewrite Hchoices. cbn -[str lookup].
    rewrite Hmessage. reflexivity.
  - intros url request response body Hnet Hok Htext. split; intros Ht.
    + rewrite (callClaude_sent _ _ _ _ _ _ _ Ht).
      unfold fetch, call, bind. rewrite Hnet, Hok. cbn [negb].
      unfold await. rewrite Htext. reflexivity.
    + rewrite (callOpenAI_sent _ _ _ _ _ _ _ Ht).
      unfold fetch, call, bind. rewrite Hnet, Hok. cbn [negb].
      unfold await. rewrite Htext. reflexivity.
Qed.

Lemma providers_answer_or_reject_witness :
  let H := sampleHost [] in
  settled (callOpenAI (Fixtures.openaiNet [(str "role", VStr (str "assistant"))])
                      (str "sk-test") (str "gpt-4o") (str "system")
                      (str "hello") (1000 # 1)%Q (7 # 10)%Q)
    = Resolved VUndefined /\
  settled (callOpenAI (Fixtures.openaiNet
                         [(str "role", VStr (str "assistant"));
                          (str "content", VStr (str "hi"))])
                      (str "sk-test") (str "gpt-4o") (str "system")
                      (str "hello") (1000 # 1)%Q (7 # 10)%Q)
    = Resolved (VStr (str "hi")) /\
  settled (callClaude (Fixtures.claudeNet (VNum (num_of_Z 7)))
                      (str "sk-test") (str "m") (str "system")
                      (str "hello") (1000 # 1)%Q (7 # 10)%Q)
    = Resolved (VNum (num_of_Z 7)) /\
  settled (callClaude (Fixtures.claudeNet (VStr []))
                      (str "sk-test") (str "m") (str "system")
                      (str "hello") (1000 # 1)%Q (7 # 10)%Q)
    = Rejected (ErrorObject (str "Invalid response from Claude API")) /\
  settled (callClaude (Fixtures.refusingNet 429 (str "slow down"))
                      (str "sk-test") (str "m") (str "system")
                      (str "hello") (1000 # 1)%Q (7 # 10)%Q)
    = Rejected (ErrorObject (str "Claude API error: 429 - slow down")).
Proof.
  cbn zeta. split; [|split; [|split; [|split]]].
  - eapply eq_trans.
    + eapply (proj1 (proj2 (proj2 (@providers_answer_or_reject
                                     (sampleHost []) _ _ _ _ _ _ _))));
        reflexivity.
    + reflexivity.
  - eapply eq_trans.
    + eapply (proj1 (proj2 (proj2 (@providers_answer_or_reject
                                     (sampleHost []) _ _ _ _ _ _ _))));
        reflexivity.
    + reflexivity.
  - eapply eq_trans.
    + eapply (proj1 (proj2 (@providers_answer_or_reject
                              (sampleHost []) _ _ _ _ _ _ _)));
        reflexivity.
    + reflexivity.
  - eapply eq_trans.
    + eapply (proj1 (proj2 (@providers_answer_or_reject
                              (sampleHost []) _ _ _ _ _ _ _)));
        reflexivity.
    + reflexivity.
  - edestruct (proj2 (proj2 (proj2 (@providers_answer_or_reject
                               (sampleHost [])
                               (Fixtures.refusingNet 429 (str "slow down"))
                               (str "sk-test") (str "m") (str "system")
                               (str "hello") (1000 # 1)%Q (7 # 10)%Q))))
      as [Hc _]; [reflexivity|reflexivity|reflexivity|].
    eapply eq_trans; [apply Hc; reflexivity|reflexivity].
Defined.

End ProviderFacts.

(* ================================================================== *)
(** ** Safety filter: the verdicts *)
(* ================================================================== *)

Module VerdictFacts.

Import Safety.

Lemma scanBlocked_none rules code : forall base,
  snd (scanBlocked rules base code) = None <->
  forall r, In r rules -> test (b_pattern r) code = false.
Proof.
  induction rules as [|r0 rules IH]; intros base; cbn [scanBlocked].
  - split; [intros _ r []|reflexivity].
  - destruct (test (b_pattern r0) code) eqn:E0.
    + cbn. split; [discriminate|].
      intros Hall. specialize (Hall r0 (or_introl eq_refl)). congruence.
    + destruct (scanBlocked rules (S base) code) as [tr res] eqn:E.
      cbn [snd]. specialize (IH (S base)). rewrite E in IH. cbn [snd] in IH.
      rewrite IH. split.
      * intros Hall r [<-|Hin]; auto.
      * intros Hall r Hin. apply Hall. right. exact Hin.
Qed.

Lemma scanBlocked_some rules code : forall base res,
  snd (scanBlocked rules base code) = Some res -> safe res = false.
Proof.
  induction rules as [|r0 rules IH]; intros base res; cbn [scanBlocked].
  - discriminate.
  - destruct (test (b_pattern r0) code).
    + cbn. intros [= <-]. reflexivity.
    + destruct (scanBlocked rules (S base) code) as [tr res'] eqn:E.
      cbn [snd]. intros ->. apply (IH (S base)). rewrite E. reflexivity.
Qed.

Lemma scanFlagged_messages rules code : forall base,
  snd (scanFlagged rules base code)
  = map f_message (filter (fun r => test (f_pattern r) code) rules).
Proof.
  induction rules as [|r0 rules IH]; intros base; cbn [scanFlagged filter map].
  - reflexivity.
  - destruct (scanFlagged rules (S base) code) as [tr msgs] eqn:E.
    cbn [snd]. specialize (IH (S base)). rewrite E in IH. cbn [snd] in IH.
    rewrite IH. destruct (test (f_pattern r0) code); reflexivity.
Qed.

Lemma checkSafety_cases code ty :
  match snd (scanBlocked BLOCKED_PATTERNS 0 code) with
  | Some res => checkSafety code ty = res
  | None =>
      checkSafety code ty =
      match snd (scanFlagged FLAGGED_PATTERNS 0 code) with
      | (_ :: _) as flagged =>
          mkSafety true None None (Some true)
                   (Some (confirmation flagged)) (Some flagged)
      | [] => mkSafety true None None None None None
      end
  end.
Proof.
  unfold checkSafety, checkSafety_run.
  destruct (scanBlocked BLOCKED_PATTERNS 0 code) as [tr1 [res|]]; cbn [snd].
  - reflexivity.
  - destruct (scanFlagged FLAGGED_PATTERNS 0 code) as [tr2 flagged].
    destruct flagged; reflexivity.
Qed.

(** X14: the verdict is safe exactly when no blocked pattern matches
    the code.  A safe verdict names no blocked fragment; it asks for
    confirmation exactly when an advisory pattern matches, and then
    lists the messages of all the advisory patterns that match, in table
    order, also in the confirmation text.  The action type has no
    influence on the verdict. *)
Theorem checkSafety_is_safe_iff_nothing_blocked
        (code : jsstring) (actionType : ActionType) :
  let flagged :=
    map f_message
        (filter (fun r => test (f_pattern r) code) FLAGGED_PATTERNS) in
  (safe (checkSafety code actionType) = true <->
   forall r, In r BLOCKED_PATTERNS -> test (b_pattern r) code = false) /\
  (safe (checkSafety code actionType) = true ->
   checkSafety code actionType =
   match flagged with
   | [] => mkSafety true None None None None None
   | _ :: _ =>
       mkSafety true None None (Some true)
                (Some (confirmation flagged)) (Some flagged)
   end) /\
  (forall other, checkSafety code other = checkSafety code actionType).
Proof.
  cbn zeta. pose proof (checkSafety_cases code actionType) as Hc.
  pose proof (scanBlocked_none BLOCKED_PATTERNS code 0) as Hn.
  assert (Hind : forall other,
             checkSafety code other = checkSafety code actionType)
    by reflexivity.
  destruct (snd (scanBlocked BLOCKED_PATTERNS 0 code)) as [res|] eqn:E.
  - pose proof (scanBlocked_some BLOCKED_PATTERNS code 0 E) as Hu.
    split; [|split; [|exact Hind]]; rewrite Hc, Hu.
    + split; [discriminate|]. intros Hall. apply Hn in Hall. discriminate.
    + discriminate.
  - rewrite scanFlagged_messages in Hc.
    split; [|split; [|exact Hind]]; rewrite Hc.
    + split; [intros _; apply Hn; reflexivity|].
      intros _. destruct (map f_message _); reflexivity.
    + intros _. destruct (map f_message _); reflexivity.
Qed.

Lemma checkSafety_is_safe_iff_nothing_blocked_witness :
  checkSafety (str "form.submit(); // pay") click
    = mkSafety true None None (Some true)
        (Some (confirmation [str "This action involves a payment or purchase";
                             str "This action will submit a form"]))
        (Some [str "This action involves a payment or purchase";
               str "This action will submit a form"]).
Proof.
  assert (Hs : safe (checkSafety (str "form.submit(); // pay") click) = true)
    by (vm_compute; reflexivity).
  rewrite (proj1 (proj2 (checkSafety_is_safe_iff_nothing_blocked
                           (str "form.submit(); // pay") click)) Hs).
  vm_compute. reflexivity.
Defined.

End VerdictFacts.

(* ================================================================== *)
(** ** Model stages: what reaches the model *)
(* ================================================================== *)

Module PromptFacts.

Import Stages Views Sample.

Lemma firstn_twice A n : forall l : list A, firstn n (firstn n l) = firstn n l.
Proof.
  intros l. rewrite firstn_firstn. f_equal. lia.
Qed.

Lemma last_n_twice A n (l : list A) : last_n n (last_n n l) = last_n n l.
Proof.
  unfold last_n. rewrite length_skipn.
  replace (List.length l - (List.length l - n) - n) with 0 by lia.
  reflexivity.
Qed.

Lemma last_n_app A n (old recent : list A) :
  n <= List.length recent -> last_n n (old ++ recent) = last_n n recent.
Proof.
  intros Hn. unfold last_n. rewrite length_app, skipn_app.
  replace (List.length old + List.length recent - n - List.length old)
    with (List.length recent - n) by lia.
  rewrite skipn_all2 by lia. reflexivity.
Qed.

Section Prompts.

Context `{Host}.

Lemma intent_lines_view : forall els,
  map intent_line
      (filter el_isInteractive
         (dom_elements (intentView (mkDOM [] [] 0 els []))))
  = map intent_line (filter el_isInteractive els).
Proof.
  cbn [intentView dom_elements].
  induction els as [|el els IH]; cbn [filter map]; [reflexivity|].
  destruct (el_isInteractive el); cbn [filter map el_isInteractive];
    [|exact IH].
  f_equal; [|exact IH].
  unfold intent_line. cbn [el_attributes el_id el_tagName el_text
                           at_ariaLabel at_placeholder at_type at_href].
  unfold slice0. rewrite firstn_twice. reflexivity.
Qed.

Lemma intent_userMessage_view command d :
  intent_userMessage command (intentView d) = intent_userMessage command d.
Proof.
  unfold intent_userMessage.
  pose proof (intent_lines_view (dom_elements d)) as Hl.
  cbn [intentView dom_elements] in Hl.
  cbn [intentView dom_elements dom_title dom_url].
  rewrite Hl. reflexivity.
Qed.

Lemma codegen_lines_view : forall els,
  map codegen_line (dom_elements (codegenView (mkDOM [] [] 0 els [])))
  = map codegen_line els.
Proof.
  cbn [codegenView dom_elements].
  induction els as [|el els IH]; cbn [map]; [reflexivity|].
  f_equal; [|exact IH].
  unfold codegen_line.
  cbn [el_attributes el_id el_tagName el_text el_isInteractive el_boundingBox
       at_id at_className at_ariaLabel at_placeholder at_type at_name at_href].
  unfold slice0. rewrite firstn_twice. reflexivity.
Qed.

Lemma codegen_userMessage_view command parsedIntent d history :
  codegen_userMessage command parsedIntent (codegenView d) (last_n 5 history)
  = codegen_userMessage command parsedIntent d history.
Proof.
  unfold codegen_userMessage.
  pose proof (codegen_lines_view (dom_elements d)) as Hl.
  cbn [codegenView dom_elements] in Hl.
  cbn [codegenView dom_elements dom_title dom_url dom_pageText].
  rewrite Hl, last_n_twice. unfold slice0. rewrite firstn_twice. reflexivity.
Qed.

Variable net : Net.
Variables INTENT_SYSTEM_PROMPT CODEGEN_SYSTEM_PROMPT : jsstring.

(** X15: the model stages read a bounded part of their inputs.  The
    intent stage reads of the page its title, its URL and the interactive
    elements, of each the first 50 code units of its text; the action
    generator reads the first 500 code units of the page text, the first
    80 of each element text and the five latest messages of the
    conversation.  Whatever else the page, the conversation and the
    settings hold does not change the call to the model or its result. *)
Theorem stages_read_a_bounded_context
        (command : jsstring) (parsedIntent : jsval) (domContext : SimplifiedDOM)
        (settings : ExtensionSettings) (history : list ChatMessage) :
  analyzeIntent net INTENT_SYSTEM_PROMPT command domContext settings
    = analyzeIntent net INTENT_SYSTEM_PROMPT command (intentView domContext)
                    (intentSettings settings)
  /\
  generateCode net CODEGEN_SYSTEM_PROMPT command parsedIntent domContext
               settings history
    = generateCode net CODEGEN_SYSTEM_PROMPT command parsedIntent
                   (codegenView domContext) (codegenSettings settings)
                   (last_n 5 history)
  /\
  (forall older recent,
      5 <= List.length recent ->
      generateCode net CODEGEN_SYSTEM_PROMPT command parsedIntent domContext
                   settings (older ++ recent)
        = generateCode net CODEGEN_SYSTEM_PROMPT command parsedIntent
                       domContext settings recent).
Proof.
  split; [|split].
  - unfold analyzeIntent. rewrite intent_userMessage_view. reflexivity.
  - unfold generateCode. rewrite codegen_userMessage_view. reflexivity.
  - intros older recent Hlen. unfold generateCode, codegen_userMessage.
    rewrite last_n_app by assumption. reflexivity.
Qed.

End Prompts.

Lemma stages_read_a_bounded_context_witness :
  let H := sampleHost [] in
  generateCode (replyNet plainText) [] (str "scroll") VNull emptyPage settings
               ([mkChat (str "user") (str "one")]
                  ++ repeat (mkChat (str "user") (str "later")) 5)
    = generateCode (replyNet plainText) [] (str "scroll") VNull emptyPage
                   settings (repeat (mkChat (str "user") (str "later")) 5).
Proof.
  cbn zeta.
  apply (proj2 (proj2 (@stages_read_a_bounded_context
                         (sampleHost []) (replyNet plainText) [] []
                         (str "scroll") VNull emptyPage settings []))).
  cbn. lia.
Defined.

End PromptFacts.

(* ================================================================== *)
(** ** Reading the page and verifying an action *)
(* ================================================================== *)

Module InspectionFacts.

Import Inspection Sample.

(** *** Decimal numerals *)

Lemma str_inj : forall a b, str a = str b -> a = b.
Proof.
  unfold str.
  induction a as [|c a IH]; intros [|d b]; cbn; try discriminate; auto.
  intros E. injection E as Ec Es.
  f_equal; [|apply IH, Es].
  rewrite <- (ascii_N_embedding c), <- (ascii_N_embedding d). congruence.
Qed.

Lemma of_Z_inj (a b : Z) : of_Z a = of_Z b -> a = b.
Proof.
  unfold of_Z. intros E. apply str_inj in E.
  assert (Hn : forall z, Z.to_int z <> Decimal.Pos Decimal.Nil /\
                         Z.to_int z <> Decimal.Neg Decimal.Nil).
  { intros [|p|p]; cbn; split; try discriminate;
      intros [= Hp]; exact (DecimalPos.Unsigned.to_uint_nonnil p Hp). }
  apply DecimalZ.to_int_inj.
  assert (Ea := NilZero.isi (Z.to_int a) (proj1 (Hn a)) (proj2 (Hn a))).
  assert (Eb := NilZero.isi (Z.to_int b) (proj1 (Hn b)) (proj2 (Hn b))).
  rewrite E in Ea. congruence.
Qed.

Lemma element_ids_distinct : forall n, NoDup (element_ids n).
Proof.
  unfold element_ids, ids_from. intros n. generalize 0 as a.
  induction n as [|n IH]; intros a; cbn [seq map]; constructor; [|apply IH].
  intros Hin. apply in_map_iff in Hin. destruct Hin as (k & Ek & Hk).
  apply app_inv_head, of_Z_inj in Ek. apply in_seq in Hk. lia.
Qed.

(** *** The parsing function *)

Section Parsing.

Context `{Host}.

Lemma ids_from_succ c n :
  ids_from c (S n) = (str "el-" ++ of_Z c) :: ids_from (c + 1) n.
Proof.
  unfold ids_from. cbn [seq map]. rewrite Z.add_0_r. f_equal.
  rewrite <- seq_shift, map_map. apply map_ext. intros k.
  do 2 f_equal. lia.
Qed.

Lemma collect_ids innerH : forall els c i,
  map p_id (fst (collect innerH els c i))
    = ids_from c (List.length (filter (shown innerH) els)) /\
  map fst (snd (collect innerH els c i))
    = ids_from c (List.length (filter (shown innerH) els)).
Proof.
  induction els as [|el els IH]; intros c i; cbn [collect filter].
  - split; reflexivity.
  - destruct (shown innerH el).
    + destruct (collect innerH els (c + 1) (S i)) as [elements elementMap] eqn:E.
      destruct (IH (c + 1)%Z (S i)) as [I1 I2]. rewrite E in I1, I2.
      cbn [fst snd map List.length p_id describe] in *.
      rewrite ids_from_succ, I1, I2. split; reflexivity.
    + apply IH.
Qed.

Lemma collect_sound innerH : forall els c i id j,
  In (id, j) (snd (collect innerH els c i)) ->
  i <= j /\
  exists el, nth_error els (j - i) = Some el /\
             shown innerH el = true /\
             In (describe id el) (fst (collect innerH els c i)).
Proof.
  induction els as [|el els IH]; intros c i id j; cbn [collect].
  - intros [].
  - destruct (shown innerH el) eqn:Es.
    + destruct (collect innerH els (c + 1) (S i)) as [elements elementMap] eqn:E.
      cbn [fst snd]. intros [[= <- <-]|Hin].
      * split; [lia|]. exists el. rewrite Nat.sub_diag.
        split; [reflexivity|]. split; [assumption|left; reflexivity].
      * specialize (IH (c + 1)%Z (S i) id j). rewrite E in IH.
        destruct (IH Hin) as (Hle & el' & Hn & Hs & Hd).
        split; [lia|]. exists el'.
        replace (j - i) with (S (j - S i)) by lia.
        split; [exact Hn|]. split; [assumption|right; exact Hd].
    + intros Hin. destruct (IH c (S i) id j Hin) as (Hle & el' & Hn & Hs & Hd).
      split; [lia|]. exists el'.
      replace (j - i) with (S (j - S i)) by lia. auto.
Qed.

Lemma collect_bounded innerH : forall els c i p,
  In p (fst (collect innerH els c i)) ->
  List.length (p_text p) <= 100 /\ p_isInteractive p = true /\
  exists el, In el els /\ shown innerH el = true /\ p = describe (p_id p) el.
Proof.
  induction els as [|el els IH]; intros c i p; cbn [collect].
  - intros [].
  - destruct (shown innerH el) eqn:Es.
    + destruct (collect innerH els (c + 1) (S i)) as [elements elementMap] eqn:E.
      cbn [fst]. intros [<-|Hin].
      * cbn [describe p_text p_isInteractive p_id].
        split; [unfold slice0; rewrite length_firstn; lia|].
        split; [reflexivity|]. exists el. auto using in_eq.
      * specialize (IH (c + 1)%Z (S i) p). rewrite E in IH.
        destruct (IH Hin) as (Hl & Hi & el' & He & Hs & Hp).
        split; [assumption|]. split; [assumption|].
        exists el'. auto using in_cons.
    + intros Hin. destruct (IH c (S i) p Hin) as (Hl & Hi & el' & He & Hs & Hp).
      split; [assumption|]. split; [assumption|].
      exists el'. auto using in_cons.
Qed.

End Parsing.

(** X16: the parsing function numbers the elements it keeps: their
    identifiers are [el-0], [el-1], ... in document order, one for each
    candidate that is shown, so they are pairwise different; the element
    map holds the same identifiers, each for a shown candidate that the
    context describes under that identifier.  Every element is marked
    interactive, no element text is longer than 100 code units, and the
    page text is no longer than 2000.  [getDOMContext] hands on the
    context of the first frame. *)
Theorem parseDOMInPage_numbers_the_shown_elements `{Host}
        (doc : Document) (now : Z) :
  let dom := fst (parseDOMInPage doc now) in
  let elementMap := snd (parseDOMInPage doc now) in
  let n := List.length (filter (shown (innerHeight doc)) (interactive doc)) in
  map p_id (pd_elements dom) = element_ids n /\
  NoDup (map p_id (pd_elements dom)) /\
  map fst elementMap = element_ids n /\
  (forall id i,
      In (id, i) elementMap ->
      exists el, nth_error (interactive doc) i = Some el /\
                 shown (innerHeight doc) el = true /\
                 In (describe id el) (pd_elements dom)) /\
  (forall p, In p (pd_elements dom) ->
             List.length (p_text p) <= 100 /\ p_isInteractive p = true) /\
  List.length (pd_pageText dom) <= 2000 /\
  (forall browser tabId frames,
      scripting_parseDOM browser tabId = Resolved (Some dom :: frames) ->
      getDOMContext browser tabId = ([LookParseDOM tabId], Resolved dom)).
Proof.
  cbn zeta. unfold parseDOMInPage.
  pose proof (collect_ids (innerHeight doc) (interactive doc) 0 0) as [Hi Hm].
  pose proof (collect_sound (innerHeight doc) (interactive doc) 0 0) as Hs.
  pose proof (collect_bounded (innerHeight doc) (interactive doc) 0 0) as Hb.
  destruct (collect (innerHeight doc) (interactive doc) 0 0)
    as [elements elementMap].
  cbn [fst snd pd_elements pd_pageText] in *.
  fold (element_ids (List.length (filter (shown (innerHeight doc))
                                          (interactive doc)))) in Hi, Hm.
  split; [exact Hi|].
  split; [rewrite Hi; apply element_ids_distinct|].
  split; [exact Hm|].
  split.
  { intros id i Hin. destruct (Hs id i Hin) as (_ & el & Hn & Hsh & Hd).
    rewrite Nat.sub_0_r in Hn. exists el. auto. }
  split.
  { intros p Hp. destruct (Hb p Hp) as (Hl & Hint & _). auto. }
  split.
  { destruct (main_innerText doc); [|cbn; lia].
    unfold slice0. rewrite length_firstn. lia. }
  intros browser tabId frames Hr.
  unfold getDOMContext, orCatch, andThen, ask, done. rewrite Hr. reflexivity.
Qed.

(** X17: verification is lenient.  [verifyAction] always returns a
    result, whatever the browser does.  It waits 300 ms unless there is
    nothing to verify, and it looks at the tab only for a navigation
    check that names an expected result.  The result is a failure in one
    case only: the tab could be read, it is not loading, and its URL does
    not contain the expected text, case ignored. *)
Theorem verifyAction_fails_only_on_a_url_mismatch `{Host}
        (browser : Browser) (verification : jsval) (tabId : Z) :
  let kind := Stages.field "type" verification in
  let expectedResult := Stages.field "expectedResult" verification in
  let needed :=
    (truthy verification && negb (Executor.is_kind kind "none"))%bool in
  let checked :=
    (needed && Executor.is_kind kind "navigation" && truthy expectedResult)%bool in
  exists r,
    result (verifyAction browser verification tabId) = Resolved r /\
    looks (verifyAction browser verification tabId)
      = (if needed
         then LookTimeout 300 :: (if checked then [LookTabsGet tabId] else [])
         else []) /\
    (v_success r = false <->
     checked = true /\
     exists tab expected,
       tabs_get browser tabId = Resolved tab /\
       expectedResult = VStr expected /\
       includes (currentUrl tab) (toLowerCase expected) = false /\
       is_loading tab = false).
Proof.
  cbn zeta. unfold verifyAction, result, looks.
  destruct (truthy verification) eqn:Et; cbn [negb orb andb].
  2:{ eexists. split; [reflexivity|]. split; [reflexivity|].
      cbn [v_success]. split; [discriminate|]. intros [? _]. discriminate. }
  destruct (Executor.is_kind (Stages.field "type" verification) "none") eqn:En;
    cbn [negb orb andb].
  { eexists. split; [reflexivity|]. split; [reflexivity|].
    cbn [v_success]. split; [discriminate|]. intros [? _]. discriminate. }
  destruct (Executor.is_kind (Stages.field "type" verification) "navigation")
    eqn:Ek; cbn [negb orb andb].
  2:{ eexists. split; [reflexivity|]. split; [reflexivity|].
      cbn [v_success]. split; [discriminate|]. intros [? _]. discriminate. }
  destruct (truthy (Stages.field "expectedResult" verification)) eqn:Ee;
    cbn [negb orb andb].
  2:{ eexists. split; [reflexivity|]. split; [reflexivity|].
      cbn [v_success]. split; [discriminate|]. intros [? _]. discriminate. }
  unfold andThen, orCatch, ask, done, raise, fail.
  destruct (tabs_get browser tabId) as [tab|e] eqn:Eg.
  2:{ eexists. split; [reflexivity|]. split; [reflexivity|].
      cbn [v_success]. split; [discriminate|].
      intros (_ & tab & expected & Ht & _). discriminate. }
  destruct (Stages.field "expectedResult" verification) as [| |b|n|s|items|fields]
    eqn:Ef; cbn [lowered]; try discriminate;
    try (eexists; split; [reflexivity|]; split; [reflexivity|];
         cbn [v_success]; split; [discriminate|];
         intros (_ & tab' & expected & _ & Hx & _); discriminate).
  eexists. split; [reflexivity|]. split; [reflexivity|].
  cbn [v_success]. rewrite orb_false_iff. split.
  - intros [Hi Hl]. split; [reflexivity|]. exists tab, s. auto.
  - intros (_ & tab' & expected & Ht & Hx & Hi & Hl).
    injection Ht as <-. injection Hx as <-. auto.
Qed.

Lemma verifyAction_fails_only_on_a_url_mismatch_witness :
  let H := sampleHost [] in
  verifyAction (Fixtures.tabAt (str "https://www.Example.com/Login") None)
               (Fixtures.expectNavigation (str "example.com/login")) 1
    = ([LookTimeout 300; LookTabsGet 1],
       Resolved (mkVerification true (VStr (str "example.com/login"))
                                (str "https://www.Example.com/Login"))) /\
  exists r,
    result (verifyAction (Fixtures.tabAt (str "https://other.org/") None)
                         (Fixtures.expectNavigation (str "example.com")) 1)
      = Resolved r /\ v_success r = false.
Proof.
  cbn zeta. split; [vm_compute; reflexivity|].
  destruct (@verifyAction_fails_only_on_a_url_mismatch
              (sampleHost []) (Fixtures.tabAt (str "https://other.org/") None)
              (Fixtures.expectNavigation (str "example.com")) 1)
    as (r & Hr & _ & Hf).
  exists r. split; [exact Hr|]. apply Hf. split; [reflexivity|].
  eexists _, _. repeat split; reflexivity.
Defined.

Lemma parseDOMInPage_numbers_the_shown_elements_witness :
  let H := sampleHost [] in
  map p_id (pd_elements (fst (parseDOMInPage Fixtures.threeButtons 5)))
    = [str "el-0"; str "el-1"] /\
  snd (parseDOMInPage Fixtures.threeButtons 5)
    = [(str "el-0", 0); (str "el-1", 2)] /\
  NoDup (map p_id (pd_elements (fst (parseDOMInPage Fixtures.threeButtons 5)))).
Proof.
  cbn zeta. split; [vm_compute; reflexivity|].
  split; [vm_compute; reflexivity|].
  apply (@parseDOMInPage_numbers_the_shown_elements
           (sampleHost []) Fixtures.threeButtons 5).
Defined.

End InspectionFacts.

(* ================================================================== *)
(** ** The matcher, step by step *)
(* ================================================================== *)

Module RunFacts.

Import Runs.

Lemma m_seq ic a b k s : m ic (RSeq a b) k s = m ic a (m ic b k) s.
Proof. reflexivity. Qed.

Lemma m_char ic x k p c rest pos caps :
  m ic (RChar x) k (mkState p (c :: rest) pos caps)
  = if char_matches ic x c then k (mkState (Some c) rest (S pos) caps) else None.
Proof. reflexivity. Qed.

Lemma m_set ic neg items k p c rest pos caps :
  m ic (RSet neg items) k (mkState p (c :: rest) pos caps)
  = if set_matches ic neg items c
    then k (mkState (Some c) rest (S pos) caps) else None.
Proof. reflexivity. Qed.

Lemma m_set_nil ic neg items k p pos caps :
  m ic (RSet neg items) k (mkState p [] pos caps) = None.
Proof. reflexivity. Qed.

Lemma m_group ic i r k s :
  m ic (RGroup i r) k s
  = m ic r (fun s1 => k (mkState (ms_prev s1) (ms_rest s1) (ms_pos s1)
                           ((i, firstn (ms_pos s1 - ms_pos s) (ms_rest s))
                              :: ms_caps s1))) s.
Proof. reflexivity. Qed.

Lemma m_opt ic r k s :
  m ic (ROpt r) k s
  = orElse (m ic r (fun s1 => if Nat.ltb (ms_pos s) (ms_pos s1)
                              then k s1 else None) s)
           (k s).
Proof. reflexivity. Qed.

Lemma orElse_None_r A (a : option A) : orElse a None = a.
Proof. destruct a; reflexivity. Qed.

(** A greedy star over a class reads one more code unit when it can;
    what it cannot continue from, it continues from where it stands. *)
Lemma star_unfold ic neg items k p rest pos caps :
  m ic (RStar true (RSet neg items)) k (mkState p rest pos caps)
  = match rest with
    | c :: rest' =>
        if set_matches ic neg items c
        then orElse (m ic (RStar true (RSet neg items)) k
                       (mkState (Some c) rest' (S pos) caps))
                    (k (mkState p rest pos caps))
        else k (mkState p rest pos caps)
    | [] => k (mkState p rest pos caps)
    end.
Proof.
  destruct rest as [|c rest']; [reflexivity|].
  cbn [m ms_rest List.length]. unfold step1. cbn [ms_rest].
  destruct (set_matches ic neg items c); [|reflexivity].
  unfold advance. cbn [ms_pos ms_caps].
  rewrite (proj2 (Nat.ltb_lt pos (S pos)) (Nat.lt_succ_diag_r pos)).
  reflexivity.
Qed.

Lemma shift_zero s : shift 0 s = s.
Proof.
  unfold shift. destruct s as [p rest pos caps]. cbn.
  destruct rest; rewrite Nat.add_0_r; reflexivity.
Qed.

Lemma shift_succ j p c rest pos caps :
  shift (S j) (mkState p (c :: rest) pos caps)
  = shift j (mkState (Some c) rest (S pos) caps).
Proof.
  unfold shift. cbn [Global.pass ms_prev ms_rest ms_pos ms_caps].
  destruct (Global.pass j (Some c) rest). f_equal. lia.
Qed.

(** A greedy star over a class, on a run of the class that ends where
    the input ends or the class does: when the continuation fails after
    every proper prefix of the run, the star continues after the run. *)
Lemma star_run ic neg items k : forall run tail p pos caps,
  forallb (set_matches ic neg items) run = true ->
  match tail with
  | [] => True
  | c :: _ => set_matches ic neg items c = false
  end ->
  (forall j, j < List.length run ->
             k (shift j (mkState p (run ++ tail) pos caps)) = None) ->
  m ic (RStar true (RSet neg items)) k (mkState p (run ++ tail) pos caps)
  = k (shift (List.length run) (mkState p (run ++ tail) pos caps)).
Proof.
  induction run as [|c run IH]; intros tail p pos caps Hrun Htail Hfail.
  - rewrite star_unfold, shift_zero. cbn [app].
    destruct tail as [|c tail]; [reflexivity|]. rewrite Htail. reflexivity.
  - cbn [forallb] in Hrun. apply andb_true_iff in Hrun. destruct Hrun as [Hc Hrun].
    rewrite star_unfold. cbn [app List.length]. rewrite Hc.
    rewrite shift_succ.
    rewrite IH; [| assumption | assumption |].
    + pose proof (Hfail 0 (Nat.lt_0_succ _)) as H0.
      rewrite shift_zero in H0. cbn [app] in H0. rewrite H0.
      apply orElse_None_r.
    + intros j Hj. rewrite <- (shift_succ j p c (run ++ tail) pos caps).
      apply (Hfail (S j)). cbn. lia.
Qed.

Lemma pass_app run : forall p tail,
  run <> [] ->
  Global.pass (List.length run) p (run ++ tail) = (Some (List.last run 0%N), tail).
Proof.
  induction run as [|c run IH]; intros p tail Hne; [congruence|].
  cbn [List.length app Global.pass].
  destruct run as [|d run]; [reflexivity|].
  rewrite IH by discriminate. reflexivity.
Qed.

Lemma pass_within j : forall run p tail,
  j < List.length run ->
  exists p' c rest, Global.pass j p (run ++ tail) = (p', c :: rest ++ tail) /\
                    In c run.
Proof.
  induction j as [|j IH]; intros [|c run] p tail Hj; cbn in Hj; try lia.
  - exists p, c, run. split; [reflexivity|left; reflexivity].
  - cbn [app Global.pass]. destruct (IH run (Some c) tail) as (p' & d & rest & E & Hin);
      [lia|].
    exists p', d, rest. split; [exact E|right; exact Hin].
Qed.

Lemma set_digit ic c : set_matches ic false [CDigit] c = is_digit c.
Proof.
  unfold set_matches, item_matches, item_has.
  cbn [existsb xorb]. rewrite orb_false_r.
  destruct ic; cbn [andb]; [|apply orb_false_r].
  destruct (is_digit c) eqn:Hc; [reflexivity|]. cbn [orb].
  unfold swapcase, is_upper, is_lower, is_digit, between in *.
  destruct (N.leb 65 c && N.leb c 90)%bool eqn:Hu.
  - apply andb_true_iff in Hu. destruct Hu as [H1 H2].
    apply N.leb_le in H1, H2. apply andb_false_iff. right.
    apply N.leb_gt. lia.
  - destruct (N.leb 97 c && N.leb c 122)%bool eqn:Hl; [|exact Hc].
    apply andb_true_iff in Hl. destruct Hl as [H1 H2].
    apply N.leb_le in H1, H2. apply andb_false_iff. right.
    apply N.leb_gt. lia.
Qed.

Lemma run_of_firstn p : forall s,
  firstn (List.length (run_of p s)) s = run_of p s.
Proof.
  induction s as [|c s IH]; [reflexivity|].
  cbn [run_of]. destruct (p c); [|reflexivity].
  cbn [List.length firstn]. rewrite IH. reflexivity.
Qed.

Lemma run_of_all p : forall s, forallb p (run_of p s) = true.
Proof.
  induction s as [|c s IH]; [reflexivity|].
  cbn [run_of]. destruct (p c) eqn:E; [|reflexivity].
  cbn [forallb]. rewrite E, IH. reflexivity.
Qed.

Lemma run_of_app p : forall run tail,
  forallb p run = true ->
  match tail with [] => True | c :: _ => p c = false end ->
  run_of p (run ++ tail) = run.
Proof.
  induction run as [|c run IH]; intros tail Hall Htail.
  - destruct tail as [|c tail]; [reflexivity|]. cbn. rewrite Htail. reflexivity.
  - cbn [forallb] in Hall. apply andb_true_iff in Hall. destruct Hall as [Hc Hall].
    cbn [app run_of]. rewrite Hc, IH by assumption. reflexivity.
Qed.

(** A star over the digits, before something that cannot start with a
    digit, reads all the digits there are. *)
Lemma star_digits ic k :
  (forall p c rest pos caps, is_digit c = true ->
                             k (mkState p (c :: rest) pos caps) = None) ->
  forall rest p pos caps,
    m ic (RStar true (RSet false [CDigit])) k (mkState p rest pos caps)
    = k (shift (List.length (run_of is_digit rest)) (mkState p rest pos caps)).
Proof.
  intros Hk. induction rest as [|c rest IH]; intros p pos caps.
  - rewrite star_unfold. cbn [run_of List.length]. rewrite shift_zero. reflexivity.
  - rewrite star_unfold, set_digit. cbn [run_of].
    destruct (is_digit c) eqn:Hc.
    + rewrite IH, (Hk _ _ _ _ _ Hc), orElse_None_r.
      cbn [List.length]. rewrite shift_succ. reflexivity.
    + cbn [List.length]. rewrite shift_zero. reflexivity.
Qed.

Lemma pass_skipn n : forall p rest, snd (Global.pass n p rest) = skipn n rest.
Proof.
  induction n as [|n IH]; intros p [|c rest]; cbn; try reflexivity. apply IH.
Qed.

Lemma shift_eq j p rest pos caps :
  shift j (mkState p rest pos caps)
  = mkState (fst (Global.pass j p rest)) (skipn j rest) (pos + j) caps.
Proof.
  unfold shift. cbn [ms_prev ms_rest ms_pos ms_caps].
  rewrite <- pass_skipn with (p := p).
  destruct (Global.pass j p rest); reflexivity.
Qed.

End RunFacts.

(* ================================================================== *)
(** ** Selectors and sanitizing *)
(* ================================================================== *)

Module SanitizerFacts.

Import Safety Global Sanitizer RegexFacts.

Lemma matchAll_none p s : test p s = false -> matchAll p s = [].
Proof.
  unfold test, exec, matchAll. cbn [scan].
  destruct (search _ _ _ _ _); [discriminate|reflexivity].
Qed.

Lemma replaceAll_none p replacement s :
  test p s = false -> replaceAll p replacement s = s.
Proof.
  intros Ht. unfold replaceAll. rewrite matchAll_none by assumption.
  reflexivity.
Qed.

(** X18: the sanitizer changes nothing but the four constructs it looks
    for.  Code in which none of its four patterns matches is returned as
    it is, so whatever else the safety check blocks in it is still there
    and still blocked afterwards: [eval(], a [fetch(] without a closing
    parenthesis, [XMLHttpRequest] without [new]. *)
Theorem sanitizeCode_leaves_other_code_alone
        (code : jsstring) (actionType : ActionType) :
  untouched code ->
  sanitizeCode code = code /\
  checkSafety (sanitizeCode code) actionType = checkSafety code actionType.
Proof.
  intros (H1 & H2 & H3 & H4).
  assert (E : sanitizeCode code = code).
  { unfold sanitizeCode. cbn zeta.
    rewrite (replaceAll_none chromeCall blockedComment code H1).
    rewrite (replaceAll_none browserCall blockedComment code H2).
    rewrite (replaceAll_none fetchCall blockedComment code H3).
    apply replaceAll_none, H4. }
  rewrite E. split; reflexivity.
Qed.

Lemma sanitizeCode_leaves_other_code_alone_witness :
  sanitizeCode (str "fetch(url, {body: XMLHttpRequest")
    = str "fetch(url, {body: XMLHttpRequest" /\
  safe (checkSafety (sanitizeCode (str "fetch(url, {body: XMLHttpRequest"))
                    click) = false /\
  sanitizeCode (str "a(); chrome.tabs.query({}); fetch (u); b()")
    = str "a(); /* blocked */; /* blocked */; b()".
Proof.
  assert (Hu : untouched (str "fetch(url, {body: XMLHttpRequest"))
    by (repeat split; vm_compute; reflexivity).
  destruct (sanitizeCode_leaves_other_code_alone click Hu) as [E Es].
  split; [exact E|].
  split; [rewrite Es; vm_compute; reflexivity|].
  vm_compute. reflexivity.
Defined.

End SanitizerFacts.

(* ================================================================== *)
(** ** Selectors *)
(* ================================================================== *)

Module SelectorFacts.

Import Safety Global Sanitizer RegexFacts Runs RunFacts.

Lemma set_quote c :
  set_matches false false [CChar squote; CChar dquote] c = is_quote c.
Proof.
  unfold set_matches, is_quote, item_matches, item_has.
  cbn [existsb xorb andb].
  rewrite ?andb_false_l, ?orb_false_r.
  rewrite (N.eqb_sym squote c), (N.eqb_sym dquote c). reflexivity.
Qed.

Lemma char_exact x c : char_matches false x c = N.eqb c x.
Proof.
  unfold char_matches, item_matches, item_has.
  rewrite andb_false_l, orb_false_r. apply N.eqb_sym.
Qed.

Lemma elementId_body :
  re_body elementIdPattern
  = RSeq (RSet false [CChar squote; CChar dquote])
         (RSeq (RSeq (RChar 101%N) (RSeq (RChar 108%N) (RChar 45%N)))
               (RSeq (RGroup 1 (RSeq (RSet false [CDigit])
                                     (RStar true (RSet false [CDigit]))))
                     (RSet false [CChar squote; CChar dquote]))).
Proof. reflexivity. Qed.

Lemma digit_not_quote c : is_digit c = true -> is_quote c = false.
Proof.
  unfold is_digit, is_quote, between, squote, dquote. intros Hd.
  apply andb_true_iff in Hd. destruct Hd as [H1 H2].
  apply N.leb_le in H1, H2.
  destruct (N.eqb_spec c 39); [lia|]. destruct (N.eqb_spec c 34); [lia|].
  reflexivity.
Qed.

(** What the pattern of the element identifiers matches at a position:
    a quote, [el-], all the digits that follow, at least one, and a
    quote. *)
Lemma selector_eq K p rest pos caps :
  m false (re_body elementIdPattern) K (mkState p rest pos caps)
  = match rest with
    | q1 :: e :: l :: h :: d :: rest' =>
        if (is_quote q1 && N.eqb e 101 && N.eqb l 108 && N.eqb h 45
            && is_digit d)%bool
        then
          let run := run_of is_digit rest' in
          match skipn (List.length run) rest' with
          | q2 :: post =>
              if is_quote q2
              then K (mkState (Some q2) post (pos + 6 + List.length run)
                              ((1, d :: run) :: caps))
              else None
          | [] => None
          end
        else None
    | _ => None
    end.
Proof.
  rewrite elementId_body.
  destruct rest as [|q1 rest]; [reflexivity|].
  rewrite m_seq, m_set, set_quote.
  destruct (is_quote q1); [|destruct rest as [|? [|? [|? [|? ?]]]]; reflexivity].
  destruct rest as [|e rest]; [reflexivity|].
  rewrite !m_seq, m_char, char_exact.
  destruct (N.eqb e 101); [|destruct rest as [|? [|? [|? ?]]]; reflexivity].
  destruct rest as [|l rest]; [reflexivity|].
  rewrite ?m_seq, m_char, char_exact.
  destruct (N.eqb l 108); [|destruct rest as [|? [|? ?]]; reflexivity].
  destruct rest as [|h rest]; [reflexivity|].
  rewrite ?m_seq, m_char, char_exact.
  destruct (N.eqb h 45); [|destruct rest as [|? ?]; reflexivity].
  destruct rest as [|d rest]; [reflexivity|].
  rewrite ?m_seq, m_group, m_seq, m_set, set_digit.
  destruct (is_digit d) eqn:Hd; [|reflexivity].
  cbn [andb].
  rewrite star_digits.
  - rewrite shift_eq. cbn [ms_prev ms_rest ms_pos ms_caps].
    replace (S (S (S (S (S pos)))) + List.length (run_of is_digit rest)
             - S (S (S (S pos))))
      with (S (List.length (run_of is_digit rest))) by lia.
    cbn [firstn]. rewrite run_of_firstn.
    destruct (skipn (List.length (run_of is_digit rest)) rest) as [|q2 post];
      [reflexivity|].
    rewrite m_set, set_quote. destruct (is_quote q2); [|reflexivity].
    do 3 f_equal. lia.
  - intros p' c rest' pos' caps' Hc. cbn [ms_prev ms_rest ms_pos ms_caps].
    rewrite m_set, set_quote, (digit_not_quote _ Hc). reflexivity.
Qed.

(** Where the search for the pattern stops. *)
Lemma search_sound ic r : forall rest p pos mr,
  search ic r p rest pos = Some mr ->
  exists pre suffix p' s1,
    rest = pre ++ suffix /\
    m ic r (fun s => Some s) (mkState p' suffix (pos + List.length pre) [])
      = Some s1 /\
    mr = mkMatch (pos + List.length pre)
                 (firstn (ms_pos s1 - (pos + List.length pre)) suffix)
                 (ms_caps s1).
Proof.
  induction rest as [|c rest IH]; intros p pos mr Hs; cbn [search] in Hs.
  - destruct (m ic r (fun s => Some s) (mkState p [] pos [])) as [s1|] eqn:E;
      [|discriminate].
    exists [], [], p, s1. cbn [List.length app]. rewrite Nat.add_0_r.
    split; [reflexivity|]. split; [exact E|]. congruence.
  - destruct (m ic r (fun s => Some s) (mkState p (c :: rest) pos [])) as [s1|] eqn:E.
    + exists [], (c :: rest), p, s1. cbn [List.length app]. rewrite Nat.add_0_r.
      split; [reflexivity|]. split; [exact E|]. congruence.
    + apply IH in Hs. destruct Hs as (pre & suffix & p' & s1 & Hr & Hm & Hmr).
      exists (c :: pre), suffix, p', s1. cbn [List.length app].
      replace (pos + S (List.length pre)) with (S pos + List.length pre) by lia.
      split; [congruence|]. split; assumption.
Qed.

Lemma scan_sound ic r : forall fuel rest p pos mr,
  In mr (scan fuel ic r p rest pos) ->
  exists pre suffix p' pos' s1,
    rest = pre ++ suffix /\
    m ic r (fun s => Some s) (mkState p' suffix pos' []) = Some s1 /\
    m_caps mr = ms_caps s1.
Proof.
  induction fuel as [|fuel IH]; intros rest p pos mr Hin; [destruct Hin|].
  cbn [scan] in Hin.
  destruct (search ic r p rest pos) as [found|] eqn:Es; [|destruct Hin].
  assert (Hfound : exists pre suffix p' pos' s1,
             rest = pre ++ suffix /\
             m ic r (fun s => Some s) (mkState p' suffix pos' []) = Some s1 /\
             m_caps found = ms_caps s1).
  { apply search_sound in Es. destruct Es as (pre & suffix & p' & s1 & Hr & Hm & Hmr).
    exists pre, suffix, p', (pos + List.length pre), s1.
    split; [exact Hr|]. split; [exact Hm|]. rewrite Hmr. reflexivity. }
  set (used := m_index found - pos + Nat.max (List.length (m_text found)) 1) in Hin.
  destruct (Nat.ltb (List.length rest) used).
  - destruct Hin as [<-|[]]. exact Hfound.
  - destruct (Global.pass used p rest) as [p1 rest1] eqn:Ep.
    destruct Hin as [<-|Hin]; [exact Hfound|].
    apply IH in Hin. destruct Hin as (pre & suffix & p' & pos' & s1 & Hr & Hm & Hc).
    exists (firstn used rest ++ pre), suffix, p', pos', s1.
    split; [|split; assumption].
    rewrite <- app_assoc, <- Hr.
    assert (rest1 = skipn used rest) as ->.
    { rewrite <- (pass_skipn used p rest), Ep. reflexivity. }
    symmetry. apply firstn_skipn.
Qed.

Lemma scan_head ic r fuel rest p pos mr :
  search ic r p rest pos = Some mr ->
  In mr (scan (S fuel) ic r p rest pos).
Proof.
  intros Hs. cbn [scan]. rewrite Hs.
  destruct (Nat.ltb _ _); [left; reflexivity|].
  destruct (Global.pass _ _ _). left; reflexivity.
Qed.

(** The search passes what cannot start a match. *)
Lemma search_skips ic r pre : forall suffix p pos,
  (forall a c b p' pos', pre = a ++ c :: b ->
     m ic r (fun s => Some s) (mkState p' (c :: b ++ suffix) pos' []) = None) ->
  search ic r p (pre ++ suffix) pos
  = search ic r (match rev pre with c :: _ => Some c | [] => p end) suffix
           (pos + List.length pre).
Proof.
  induction pre as [|c pre IH]; intros suffix p pos Hnone.
  - cbn [app List.length rev]. rewrite Nat.add_0_r. reflexivity.
  - cbn [app search]. rewrite (Hnone [] c pre p pos eq_refl).
    rewrite IH.
    + cbn [List.length rev].
      replace (pos + S (List.length pre)) with (S pos + List.length pre)
        by lia.
      f_equal. destruct (rev pre) as [|x xs] eqn:E; [reflexivity|reflexivity].
    + intros a x b p' pos' ->. apply (Hnone (c :: a) x b p' pos'). reflexivity.
Qed.


Lemma quote_not_digit c : is_quote c = true -> is_digit c = false.
Proof.
  intros Hq. destruct (is_digit c) eqn:Hd; [|reflexivity].
  rewrite (digit_not_quote _ Hd) in Hq. discriminate.
Qed.

Lemma quote_not_e c : is_quote c = true -> N.eqb c 101 = false.
Proof.
  unfold is_quote, squote, dquote. intros Hq.
  apply orb_true_iff in Hq. destruct Hq as [Hq|Hq]; apply N.eqb_eq in Hq;
    subst c; reflexivity.
Qed.

(** The match at a quoted identifier. *)
Lemma selector_found p q1 d ds q2 post pos :
  is_quote q1 = true -> is_quote q2 = true ->
  forallb is_digit (d :: ds) = true ->
  exists mr,
    search false (re_body elementIdPattern) p
           (q1 :: str "el-" ++ (d :: ds) ++ q2 :: post) pos = Some mr /\
    m_caps mr = [(1, d :: ds)].
Proof.
  intros Hq1 Hq2 Hds. cbn [forallb] in Hds. apply andb_true_iff in Hds.
  destruct Hds as [Hd Hds].
  assert (Hrun : run_of is_digit (ds ++ q2 :: post) = ds).
  { apply run_of_app; [exact Hds|]. apply quote_not_digit, Hq2. }
  change (q1 :: str "el-" ++ (d :: ds) ++ q2 :: post)
    with (q1 :: 101%N :: 108%N :: 45%N :: d :: ds ++ q2 :: post).
  cbn [search]. rewrite selector_eq, Hq1, Hd. cbn [andb N.eqb Pos.eqb].
  cbv zeta. rewrite Hrun, skipn_app, skipn_all, Nat.sub_diag. cbn [skipn app].
  rewrite Hq2. eexists. split; reflexivity.
Qed.

(** No match starts in a text in which no quote is followed by the
    letter [e], when a quote follows the text. *)
Lemma selector_not_before pre q1 tail :
  (forall a q b, pre = a ++ q :: 101%N :: b -> is_quote q = false) ->
  is_quote q1 = true ->
  forall a c b p pos, pre = a ++ c :: b ->
    m false (re_body elementIdPattern) (fun s => Some s)
      (mkState p (c :: b ++ q1 :: tail) pos []) = None.
Proof.
  intros Hpre Hq1 a c b p pos E. rewrite selector_eq.
  destruct b as [|x b]; cbn [app].
  - rewrite (quote_not_e _ Hq1), andb_false_r.
    destruct tail as [|? [|? [|? ?]]]; reflexivity.
  - assert (Hc : (is_quote c && N.eqb x 101)%bool = false).
    { destruct (N.eqb_spec x 101) as [->|]; [|apply andb_false_r].
      rewrite (Hpre a c b E). reflexivity. }
    destruct (b ++ q1 :: tail) as [|? [|? [|? ?]]]; try reflexivity.
    rewrite Hc. reflexivity.
Qed.

(** X19: every identifier that [validateSelectors] reports stands in the
    code between two quotes, is [el-] followed by digits, and is not
    among the available ones. *)
Theorem validateSelectors_reports_only_quoted_ids code availableElementIds id :
  In id (invalidSelectors (validateSelectors code availableElementIds)) ->
  has availableElementIds id = false /\
  exists pre q1 ds q2 post,
    code = pre ++ q1 :: str "el-" ++ ds ++ q2 :: post /\
    is_quote q1 = true /\ is_quote q2 = true /\
    ds <> [] /\ forallb is_digit ds = true /\
    id = str "el-" ++ ds.
Proof.
  unfold validateSelectors. cbn [invalidSelectors]. intros Hin.
  apply filter_In in Hin. destruct Hin as [Hin Hhas].
  split; [apply negb_true_iff, Hhas|].
  unfold referenced in Hin. apply in_map_iff in Hin.
  destruct Hin as (mr & Hid & Hin). unfold matchAll in Hin.
  apply scan_sound in Hin.
  destruct Hin as (pre & suffix & p' & pos' & s1 & Hcode & Hm & Hcaps).
  rewrite selector_eq in Hm.
  destruct suffix as [|q1 [|e [|l [|h [|d rest]]]]]; try discriminate.
  destruct (is_quote q1) eqn:Hq1; [|discriminate].
  destruct (N.eqb_spec e 101) as [->|]; [|discriminate].
  destruct (N.eqb_spec l 108) as [->|]; [|discriminate].
  destruct (N.eqb_spec h 45) as [->|]; [|discriminate].
  destruct (is_digit d) eqn:Hd; [|discriminate].
  cbn [andb] in Hm. cbv zeta in Hm.
  destruct (skipn (List.length (run_of is_digit rest)) rest) as [|q2 post] eqn:Hskip;
    [discriminate|].
  destruct (is_quote q2) eqn:Hq2; [|discriminate].
  injection Hm as <-. cbn [ms_caps] in Hcaps.
  exists pre, q1, (d :: run_of is_digit rest), q2, post.
  split.
  { rewrite Hcode. do 2 f_equal. cbn [str list_ascii_of_string map app].
    do 4 f_equal. rewrite <- Hskip, <- (run_of_firstn is_digit rest) at 1.
    symmetry. apply firstn_skipn. }
  split; [exact Hq1|]. split; [exact Hq2|]. split; [discriminate|].
  split.
  { cbn [forallb]. rewrite Hd, run_of_all. reflexivity. }
  rewrite <- Hid. unfold capture1. rewrite Hcaps. reflexivity.
Qed.

(** X20: code that names, between quotes, an identifier [el-N] that is
    not available is not valid, and the identifier is reported, when no
    quote before it is followed by the letter [e]. *)
Theorem validateSelectors_rejects_an_unknown_id
        pre q1 ds q2 post availableElementIds :
  (forall a q b, pre = a ++ q :: 101%N :: b -> is_quote q = false) ->
  is_quote q1 = true -> is_quote q2 = true ->
  ds <> [] -> forallb is_digit ds = true ->
  has availableElementIds (str "el-" ++ ds) = false ->
  let check := validateSelectors (pre ++ q1 :: str "el-" ++ ds ++ q2 :: post)
                                 availableElementIds in
  valid check = false /\ In (str "el-" ++ ds) (invalidSelectors check).
Proof.
  intros Hpre Hq1 Hq2 Hne Hds Hhas check.
  assert (Hin : In (str "el-" ++ ds) (invalidSelectors check)).
  { subst check. unfold validateSelectors. cbn [invalidSelectors].
    apply filter_In. split; [|rewrite Hhas; reflexivity].
    destruct ds as [|d ds]; [congruence|].
    destruct (@selector_found
                (match rev pre with c :: _ => Some c | [] => None end)
                q1 d ds q2 post (0 + List.length pre) Hq1 Hq2 Hds)
      as (mr & Hs & Hcaps).
    unfold referenced. apply in_map_iff. exists mr. split.
    - unfold capture1. rewrite Hcaps. reflexivity.
    - unfold matchAll. apply scan_head.
      change (re_ignoreCase elementIdPattern) with false.
      rewrite search_skips; [exact Hs|].
      intros a c b p' pos' E.
      exact (@selector_not_before pre q1 _ Hpre Hq1 a c b p' pos' E). }
  split; [|exact Hin].
  subst check. unfold validateSelectors in *. cbn [valid invalidSelectors] in *.
  destruct (filter _ _); [destruct Hin|reflexivity].
Qed.

Lemma validateSelectors_reports_only_quoted_ids_witness :
  has [str "el-0"] (str "el-7") = false /\
  exists pre q1 ds q2 post,
    str "f('el-7')" = pre ++ q1 :: str "el-" ++ ds ++ q2 :: post /\
    is_quote q1 = true /\ is_quote q2 = true /\
    ds <> [] /\ forallb is_digit ds = true /\
    str "el-7" = str "el-" ++ ds.
Proof.
  apply (@validateSelectors_reports_only_quoted_ids
           (str "f('el-7')") [str "el-0"] (str "el-7")).
  vm_compute. left. reflexivity.
Defined.

Lemma validateSelectors_rejects_an_unknown_id_witness :
  valid (validateSelectors (str "x = 'a'; f('el-7')") [str "el-0"]) = false /\
  In (str "el-7") (invalidSelectors
                     (validateSelectors (str "x = 'a'; f('el-7')") [str "el-0"])).
Proof.
  apply (@validateSelectors_rejects_an_unknown_id
           (str "x = 'a'; f(") squote (str "7") squote (str ")") [str "el-0"]);
    try reflexivity; try discriminate.
  intros a q b E. vm_compute in E.
  repeat (destruct a as [|? a]; [discriminate E|];
          cbn [app] in E; injection E as _ E).
  destruct a; discriminate E.
Defined.

End SelectorFacts.

(* ================================================================== *)
(** ** Fast path: scrolling by an amount *)
(* ================================================================== *)

Module ScrollFacts.

Import FastPath Runs RunFacts RegexFacts.

(** *** Decimal numerals read back *)

Lemma uint_digits : forall u,
  forallb is_digit (str (NilEmpty.string_of_uint u)) = true.
Proof. induction u; cbn; auto. Qed.

Lemma digits_step acc (k : N) rest :
  (k < 10)%N ->
  digits (Some acc) ((48 + k)%N :: rest)
  = digits (Some (10 * acc + Z.of_N k)%Z) rest.
Proof.
  intros Hk. cbn [digits].
  replace (is_digit (48 + k)%N) with true.
  - do 3 f_equal. lia.
  - symmetry. unfold is_digit, between. apply andb_true_iff.
    split; apply N.leb_le; lia.
Qed.

Ltac digit_case IH :=
  cbn [NilEmpty.string_of_uint Pos.of_uint_acc Pos.of_uint];
  change (str (String ?a ?s)) with (N_of_ascii a :: str s);
  match goal with
  | |- context [N_of_ascii ?a :: _] =>
      let k := eval vm_compute in (N_of_ascii a - 48)%N in
      change (N_of_ascii a) with (48 + k)%N
  end;
  rewrite digits_step by reflexivity.

Lemma digits_acc : forall u acc,
  digits (Some (Z.pos acc)) (str (NilEmpty.string_of_uint u))
  = Some (Z.pos (Pos.of_uint_acc u acc)).
Proof.
  induction u as [|u IH|u IH|u IH|u IH|u IH|u IH|u IH|u IH|u IH|u IH];
    intros acc; [reflexivity| ..];
    digit_case IH; rewrite <- IH; f_equal; f_equal; lia.
Qed.

Lemma digits_zero : forall u,
  digits (Some 0%Z) (str (NilEmpty.string_of_uint u))
  = Some (Z.of_N (Pos.of_uint u)).
Proof.
  induction u as [|u IH|u IH|u IH|u IH|u IH|u IH|u IH|u IH|u IH|u IH];
    [reflexivity| ..]; digit_case IH; [exact IH| ..];
    cbn [Z.of_N Z.mul Z.add]; apply digits_acc.
Qed.

Lemma of_Z_numeral (n : Z) :
  (0 <= n)%Z ->
  exists u, u <> Decimal.Nil /\ of_Z n = str (NilEmpty.string_of_uint u) /\
            Z.of_N (Pos.of_uint u) = n.
Proof.
  intros Hn. destruct n as [|p|p]; [| |lia].
  - exists (Decimal.D0 Decimal.Nil). repeat split. discriminate.
  - exists (Pos.to_uint p). split; [apply DecimalPos.Unsigned.to_uint_nonnil|].
    split.
    + unfold of_Z. cbn [Z.to_int NilZero.string_of_int NilZero.string_of_uint].
      destruct (Pos.to_uint p) eqn:E; try reflexivity.
      exfalso. exact (DecimalPos.Unsigned.to_uint_nonnil p E).
    + rewrite DecimalPos.Unsigned.of_to. reflexivity.
Qed.

Lemma digit_not_space c : is_digit c = true -> is_space c = false.
Proof.
  unfold is_digit, is_space, between. intros Hd.
  apply andb_true_iff in Hd. destruct Hd as [H1 H2].
  apply N.leb_le in H1, H2.
  repeat match goal with
         | |- context [N.eqb c ?k] =>
             destruct (N.eqb_spec c k); [lia|]
         | |- context [N.leb ?a ?b] =>
             destruct (N.leb_spec a b); try lia
         end; reflexivity.
Qed.

(** The text of a number that is not negative is a string of digits, at
    least one. *)
Lemma of_Z_digits (n : Z) :
  (0 <= n)%Z ->
  exists d ds, of_Z n = d :: ds /\ forallb is_digit (d :: ds) = true.
Proof.
  intros Hn. destruct (of_Z_numeral Hn) as (u & Hu & E & _).
  assert (Hall := uint_digits u). rewrite <- E in Hall.
  destruct (of_Z n) as [|d ds] eqn:En.
  - destruct u; try discriminate E. congruence.
  - exists d, ds. split; [reflexivity|exact Hall].
Qed.

Lemma size_le_pow2 (d k : N) : (d < 2 ^ k)%N -> (N.size d <= k)%N.
Proof.
  intros Hd. destruct (N.eq_dec d 0) as [-> | Hpos]; [cbn; lia|].
  rewrite N.size_log2 by exact Hpos.
  assert (N.log2 d < k)%N; [|lia].
  apply N.log2_lt_pow2; lia.
Qed.

(** Up to [2^53] an integer is a double. *)
Lemma nearest_double_exact (m : N) :
  (m <= 2 ^ 53)%N -> nearest_double m = Some m.
Proof.
  intros Hm. destruct (N.eq_dec m (2 ^ 53)) as [-> | Hne]; [reflexivity|].
  unfold nearest_double.
  replace (N.size m <=? 53)%N with true; [reflexivity|].
  symmetry. apply N.leb_le, size_le_pow2. lia.
Qed.

(** From [2^53] on, the double kept for an integer is a multiple of the
    unit in its 53rd place and lies within half that unit of it. *)
Lemma nearest_double_rounds (m d : N) :
  (2 ^ 53 <= m)%N ->
  nearest_double m = Some d ->
  let unit := (2 ^ (N.size m - 53))%N in
  (unit | d)%N /\ (2 * m <= 2 * d + unit)%N /\ (2 * d <= 2 * m + unit)%N.
Proof.
  intros Hm. unfold nearest_double.
  assert (Hsize : (54 <= N.size m)%N).
  { rewrite N.size_log2 by lia.
    assert (53 <= N.log2 m)%N; [|lia].
    apply N.log2_le_pow2; lia. }
  replace (N.size m <=? 53)%N with false
    by (symmetry; apply N.leb_gt; lia).
  set (e := (N.size m - 53)%N).
  assert (He : (1 <= e)%N) by (unfold e; lia).
  rewrite N.shiftr_div_pow2, N.land_ones, !N.shiftl_mul_pow2, N.mul_1_l.
  assert (Hpow : (2 ^ e = 2 * 2 ^ (e - 1))%N).
  { rewrite <- N.pow_succ_r'. f_equal. lia. }
  assert (Hpos : (0 < 2 ^ (e - 1))%N) by (apply N.neq_0_lt_0, N.pow_nonzero; lia).
  pose proof (N.div_mod m (2 ^ e)) as Hdm.
  pose proof (N.mod_lt m (2 ^ e)) as Hlt.
  set (q := (m / 2 ^ e)%N) in *. set (r := (m mod 2 ^ e)%N) in *.
  assert (Hm' : (m = 2 ^ e * q + r)%N) by (apply Hdm; lia).
  assert (Hr : (r < 2 ^ e)%N) by (apply Hlt; lia).
  cbv zeta.
  destruct ((2 ^ (e - 1) <? r)%N || (r =? 2 ^ (e - 1))%N && N.odd q)%bool eqn:Eup;
    destruct (N.size _ <=? 1024)%N; intros Hd; try discriminate Hd;
    injection Hd as <-.
  - split; [exists (q + 1)%N; reflexivity|].
    apply orb_true_iff in Eup.
    assert (2 ^ (e - 1) <= r)%N.
    { destruct Eup as [Hup | Hup].
      - apply N.ltb_lt in Hup. lia.
      - apply andb_true_iff in Hup. destruct Hup as [Hup _].
        apply N.eqb_eq in Hup. lia. }
    nia.
  - split; [exists q; reflexivity|].
    apply orb_false_iff in Eup. destruct Eup as [Hup _].
    apply N.ltb_ge in Hup. nia.
Qed.

(** Below [2^1023] the double kept is finite. *)
Lemma nearest_double_finite (m : N) :
  (m < 2 ^ 1023)%N -> exists d, nearest_double m = Some d.
Proof.
  intros Hm. unfold nearest_double.
  destruct (N.size m <=? 53)%N eqn:Es; [eauto|].
  apply N.leb_gt in Es.
  assert (Hpos : m <> 0%N) by (intros ->; cbn in Es; lia).
  set (e := (N.size m - 53)%N).
  rewrite N.shiftr_div_pow2, !N.shiftl_mul_pow2.
  cbv zeta.
  assert (He : (2 ^ e <= m)%N).
  { transitivity (2 ^ N.log2 m)%N.
    - apply N.pow_le_mono_r; [lia|]. unfold e.
      rewrite N.size_log2 by exact Hpos. lia.
    - apply N.log2_spec. lia. }
  assert (Hq : (2 ^ e * (m / 2 ^ e) <= m)%N) by apply N.Div0.mul_div_le.
  set (q := (m / 2 ^ e)%N) in *.
  match goal with
  | |- context [(N.size ?d <=? 1024)%N] =>
      assert (Hd : (d < 2 ^ 1024)%N)
  end.
  { change (2 ^ 1024)%N with (2 * 2 ^ 1023)%N.
    destruct (_ || _)%bool; nia. }
  apply size_le_pow2 in Hd. apply N.leb_le in Hd. rewrite Hd. eauto.
Qed.

(** [parseInt] reads back the text of a number that is not negative, as
    the double nearest to it. *)
Lemma parseInt10_of_Z (n : Z) :
  (0 <= n)%Z -> parseInt10 (of_Z n) = number_for false (Z.to_N n).
Proof.
  intros Hn. destruct (of_Z_numeral Hn) as (u & Hu & E & Hv).
  destruct (of_Z_digits Hn) as (d & ds & Ed & Hall).
  assert (Hdig : digits None (of_Z n) = Some n).
  { rewrite E, <- Hv, <- digits_zero.
    destruct u; try reflexivity. congruence. }
  unfold parseInt10. rewrite Ed in *. cbn [forallb] in Hall.
  apply andb_true_iff in Hall. destruct Hall as [Hd _].
  cbn [trimStart]. rewrite (digit_not_space _ Hd).
  unfold is_digit, between in Hd. apply andb_true_iff in Hd.
  destruct Hd as [H1 H2]. apply N.leb_le in H1, H2.
  destruct d as [|p]; [lia|].
  do 6 (destruct p as [p|p|]; try (rewrite Hdig; reflexivity); try lia).
Qed.

(** *** The scroll rule on a command with an amount *)

Local Notation "'amountPart'" :=
  (RSeq (ROpt (RSeq sp1 (RGroup 2 (RPlus (RSet false [CDigit]))))) REol).

Lemma scroll_rule_body :
  seqs [RBol; lit "scroll"; sp1;
        RGroup 1 (alts [lit "down"; lit "up"]);
        ROpt (seqs [sp1; RGroup 2 (RPlus (RSet false [CDigit]))]);
        REol]
  = RSeq RBol (RSeq (lit "scroll") (RSeq sp1
      (RSeq (RGroup 1 (RAlt (lit "down") (lit "up"))) amountPart))).
Proof. reflexivity. Qed.

Lemma scroll_down_head k rest :
  m true (RSeq RBol (RSeq (lit "scroll") (RSeq sp1
            (RSeq (RGroup 1 (RAlt (lit "down") (lit "up"))) amountPart))))
    k (mkState None (str "scroll down" ++ rest) 0 [])
  = m true amountPart k (mkState (Some 110%N) rest 11 [(1, str "down")]).
Proof.
  etransitivity; [|apply orElse_None_r]. reflexivity.
Qed.

Lemma scroll_up_head k rest :
  m true (RSeq RBol (RSeq (lit "scroll") (RSeq sp1
            (RSeq (RGroup 1 (RAlt (lit "down") (lit "up"))) amountPart))))
    k (mkState None (str "scroll up" ++ rest) 0 [])
  = m true amountPart k (mkState (Some 112%N) rest 9 [(1, str "up")]).
Proof. reflexivity. Qed.

Lemma space_set_digit c :
  is_digit c = true -> set_matches true false [CSpace] c = false.
Proof.
  intros Hd. unfold set_matches, item_matches, item_has.
  cbn [existsb xorb andb]. rewrite (digit_not_space _ Hd), orb_false_r.
  cbn [orb]. unfold swapcase.
  assert (Hb := Hd). unfold is_digit, between in Hb.
  apply andb_true_iff in Hb. destruct Hb as [H3 H4]. apply N.leb_le in H3, H4.
  destruct (is_upper c) eqn:Hu.
  - unfold is_upper, between in Hu. apply andb_true_iff in Hu.
    destruct Hu as [H1 H2]. apply N.leb_le in H1, H2. lia.
  - destruct (is_lower c) eqn:Hl; [|apply digit_not_space, Hd].
    unfold is_lower, between in Hl. apply andb_true_iff in Hl.
    destruct Hl as [H1 H2]. apply N.leb_le in H1, H2. lia.
Qed.

(** After the direction: a space and digits up to the end are the
    amount. *)
Lemma amount_tail p d ds pos caps :
  forallb is_digit (d :: ds) = true ->
  exists s1,
    m true amountPart (fun s => Some s) (mkState p (32%N :: d :: ds) pos caps)
    = Some s1 /\
    ms_caps s1 = (2, d :: ds) :: caps.
Proof.
  intros Hall. cbn [forallb] in Hall. apply andb_true_iff in Hall.
  destruct Hall as [Hd Hds].
  assert (Hrun : run_of is_digit ds = ds).
  { rewrite <- (app_nil_r ds) at 1. apply run_of_app; [exact Hds|exact I]. }
  unfold sp1, RPlus.
  rewrite m_seq, m_opt, !m_seq, m_set.
  change (set_matches true false [CSpace] 32%N) with true. cbv iota.
  rewrite star_unfold.
  rewrite (space_set_digit _ Hd).
  rewrite m_group, m_seq, m_set, set_digit, Hd.
  rewrite star_digits.
  - rewrite Hrun, shift_eq. cbn [ms_prev ms_rest ms_pos ms_caps].
    rewrite skipn_all.
    replace (Nat.ltb pos (S (S pos) + List.length ds)) with true
      by (symmetry; apply Nat.ltb_lt; lia).
    cbn [m ms_rest orElse].
    eexists. split; [reflexivity|]. cbn [ms_caps].
    replace (S (S pos) + List.length ds - S pos) with (S (List.length ds)) by lia.
    cbn [firstn]. rewrite firstn_all. reflexivity.
  - intros p' c rest' pos' caps' Hc. cbn [ms_prev ms_rest ms_pos ms_caps].
    destruct (Nat.ltb _ _); reflexivity.
Qed.

Lemma trim_keeps first body last :
  is_space first = false -> is_space last = false ->
  trim (first :: body ++ [last]) = first :: body ++ [last].
Proof.
  intros Hf Hl. unfold trim, trimEnd.
  assert (E1 : trimStart (first :: body ++ [last]) = first :: body ++ [last]).
  { cbn [trimStart]. rewrite Hf. reflexivity. }
  assert (E2 : rev (first :: body ++ [last]) = last :: rev (first :: body)).
  { change (first :: body ++ [last]) with ((first :: body) ++ [last]).
    rewrite rev_app_distr. reflexivity. }
  rewrite E1, E2. cbn [trimStart]. rewrite Hl, <- E2. apply rev_involutive.
Qed.

Lemma trim_command word d ds :
  forallb is_digit (d :: ds) = true ->
  trim (115%N :: word ++ d :: ds) = 115%N :: word ++ d :: ds.
Proof.
  intros Hall.
  destruct (@exists_last _ (d :: ds)) as (body & c & E); [discriminate|].
  rewrite E in *. rewrite forallb_app in Hall. cbn [forallb] in Hall.
  apply andb_true_iff in Hall. destruct Hall as [_ Hc].
  rewrite andb_true_r in Hc. rewrite app_assoc.
  apply trim_keeps; [reflexivity|apply digit_not_space, Hc].
Qed.

Section Scrolling.

Context `{Host}.
Variable chrome : Chrome.

(** What the first rule makes of a command [scroll down N] or
    [scroll up N]. *)
Lemma scroll_rule_matches dir d ds :
  dir = str "down" \/ dir = str "up" ->
  forallb is_digit (d :: ds) = true ->
  checkFastPath (str "scroll " ++ dir ++ 32%N :: d :: ds)
  = mkFastPath true (Some scroll)
      (Some [("direction", toLowerCase dir); ("amount", d :: ds)]).
Proof.
  intros Hdir Hall. unfold checkFastPath.
  assert (Htrim : trim (str "scroll " ++ dir ++ 32%N :: d :: ds)
                  = str "scroll " ++ dir ++ 32%N :: d :: ds).
  { destruct Hdir as [-> | ->].
    - exact (@trim_command (str "croll down ") d ds Hall).
    - exact (@trim_command (str "croll up ") d ds Hall). }
  rewrite Htrim. unfold FAST_PATH_RULES. cbn [firstRule rule_pattern].
  unfold exec. cbn [re_body re_ignoreCase ci].
  rewrite search_eq, scroll_rule_body.
  destruct Hdir as [-> | ->].
  - change (str "scroll " ++ str "down" ++ 32%N :: d :: ds)
      with (str "scroll down" ++ 32%N :: d :: ds).
    rewrite scroll_down_head.
    destruct (@amount_tail (Some 110%N) d ds 11 [(1, str "down")] Hall)
      as (s1 & -> & Hcaps).
    cbn [rule_action extractParams m_caps]. rewrite Hcaps. reflexivity.
  - change (str "scroll " ++ str "up" ++ 32%N :: d :: ds)
      with (str "scroll up" ++ 32%N :: d :: ds).
    rewrite scroll_up_head.
    destruct (@amount_tail (Some 112%N) d ds 9 [(1, str "up")] Hall)
      as (s1 & -> & Hcaps).
    cbn [rule_action extractParams m_caps]. rewrite Hcaps. reflexivity.
Qed.

(** X21: the command [scroll down N] or [scroll up N], for a number N that
    is not negative, is answered by the fast path, and carrying it out
    asks the browser once, for a function that scrolls the page down or up
    by the number [parseInt] makes of the digits: the double nearest to N.
    Up to [2^53] that is N pixels; beyond, it is a multiple of the unit in
    the 53rd place of N within half that unit of N, or Infinity, which it
    is not below [2^1023]. *)
Theorem scroll_command_scrolls_by_its_amount (tabId n : Z) (dir : jsstring) :
  (0 <= n)%Z ->
  dir = str "down" \/ dir = str "up" ->
  toLowerCase dir = dir ->
  let command := str "scroll " ++ dir ++ str " " ++ of_Z n in
  let parameters := [("direction", dir); ("amount", of_Z n)] in
  let amount := number_for false (Z.to_N n) in
  checkFastPath command = mkFastPath true (Some scroll) (Some parameters) /\
  trace (executeFastPathAction chrome scroll parameters tabId)
    = [EvExecuteScript tabId (FastScrollFn (VStr dir) amount)] /\
  fst (fast_scroll_in_page (VStr dir) amount)
    = [ScrollBy (if JS.eqb dir (str "down") then amount else negated amount)] /\
  ((n <= 2 ^ 53)%Z -> amount = IntOf false (Z.to_N n)) /\
  ((2 ^ 53 <= n)%Z ->
   amount = IntInf false \/
   exists d, amount = IntOf false d /\
             let unit := (2 ^ (N.size (Z.to_N n) - 53))%N in
             (unit | d)%N /\
             (2 * Z.to_N n <= 2 * d + unit)%N /\
             (2 * d <= 2 * Z.to_N n + unit)%N) /\
  ((n < 2 ^ 1023)%Z -> amount <> IntInf false).
Proof.
  intros Hn Hdir Hlow command parameters amount.
  subst command parameters amount.
  destruct (of_Z_digits Hn) as (d & ds & Ed & Hall).
  split; [|split; [|split; [|split; [|split]]]].
  - rewrite Ed. change (str " " ++ d :: ds) with (32%N :: d :: ds).
    rewrite (@scroll_rule_matches dir d ds Hdir Hall), Hlow. reflexivity.
  - cbn [executeFastPathAction]. unfold executeScroll.
    cbn [param_val param String.eqb Ascii.eqb Bool.eqb str_or].
    rewrite Ed at 1. cbn [str_or]. rewrite <- Ed, (parseInt10_of_Z Hn).
    unfold executeScript, call, bind, trace.
    destruct (scripting_executeScript _ _ _); reflexivity.
  - destruct Hdir as [-> | ->]; reflexivity.
  - intros Hsmall. unfold number_for.
    rewrite nearest_double_exact; [reflexivity|].
    change (2 ^ 53)%N with (Z.to_N (2 ^ 53)). lia.
  - intros Hbig. unfold number_for.
    destruct (nearest_double (Z.to_N n)) as [d'|] eqn:Ed';
      [right | left; reflexivity].
    exists d'. split; [reflexivity|].
    apply nearest_double_rounds; [|exact Ed'].
    change (2 ^ 53)%N with (Z.to_N (2 ^ 53)). lia.
  - intros Hfin. unfold number_for.
    destruct (@nearest_double_finite (Z.to_N n)) as (d' & ->); [|discriminate].
    change (2 ^ 1023)%N with (Z.to_N (2 ^ 1023)). lia.
Qed.

End Scrolling.

Lemma scroll_command_scrolls_by_its_amount_witness :
  (checkFastPath (H := Sample.sampleHost []) (str "scroll down 250")
   = mkFastPath true (Some scroll)
       (Some [("direction", str "down"); ("amount", str "250")]) /\
   trace (executeFastPathAction (H := Sample.sampleHost []) Sample.closedChrome
            scroll [("direction", str "down"); ("amount", str "250")] 7)
     = [EvExecuteScript 7 (FastScrollFn (VStr (str "down")) (IntOf false 250))] /\
   fst (fast_scroll_in_page (VStr (str "down")) (IntOf false 250))
     = [ScrollBy (IntOf false 250)])
  /\
  (checkFastPath (H := Sample.sampleHost []) (str "scroll up 9007199254740993")
   = mkFastPath true (Some scroll)
       (Some [("direction", str "up"); ("amount", str "9007199254740993")]) /\
   trace (executeFastPathAction (H := Sample.sampleHost []) Sample.closedChrome
            scroll [("direction", str "up");
                    ("amount", str "9007199254740993")] 7)
     = [EvExecuteScript 7 (FastScrollFn (VStr (str "up"))
                             (IntOf false 9007199254740992))] /\
   fst (fast_scroll_in_page (VStr (str "up")) (IntOf false 9007199254740992))
     = [ScrollBy (IntOf true 9007199254740992)]).
Proof.
  split.
  - destruct (@scroll_command_scrolls_by_its_amount (Sample.sampleHost [])
                Sample.closedChrome 7 250 (str "down"))
      as (H1 & H2 & H3 & _); [lia | left; reflexivity | reflexivity |].
    repeat split; assumption.
  - destruct (@scroll_command_scrolls_by_its_amount (Sample.sampleHost [])
                Sample.closedChrome 7 9007199254740993 (str "up"))
      as (H1 & H2 & H3 & _); [lia | right; reflexivity | reflexivity |].
    repeat split; assumption.
Defined.

End ScrollFacts.

(* ================================================================== *)
(** ** Service worker: handling a command *)
(* ================================================================== *)

Module WorkerFacts.

Import Arrays Sessions ArrayFacts SessionFacts Worker.

Lemma is_empty_spec (s : jsstring) : is_empty s = true <-> s = [].
Proof. destruct s; cbn; split; congruence. Qed.

(** The key of the settings in force after the key was looked for. *)
Lemma key_after_loading world w :
  apiKey (settings (if is_empty (apiKey (settings w))
                    then snd (loadSettings world w) else w))
  = key_in_force world w.
Proof.
  unfold key_in_force, loadSettings.
  destruct (is_empty (apiKey (settings w))) eqn:E; [|reflexivity].
  cbn [snd]. destruct (storage_local_get world) as [stored|e].
  - reflexivity.
  - apply is_empty_spec, E.
Qed.

Lemma loading_keeps_sessions world w :
  sessionManager (snd (loadSettings world w)) = sessionManager w.
Proof.
  unfold loadSettings. cbn [snd].
  destruct (storage_local_get world); reflexivity.
Qed.

Lemma converse_calls world command t d w :
  calls (converse world command t d w)
  = [ProcessPipeline command t (settings w)
       (fst (getOrCreateSession t (uuid d 0) (now d) (sessionManager w)))].
Proof.
  unfold converse, calls.
  destruct (getOrCreateSession t (uuid d 0) (now d) (sessionManager w))
    as [session mgr1].
  destruct (processPipeline world _ _ _ _ _) as [settled change].
  reflexivity.
Qed.

(** How a command is handled, by the tab and the key there are. *)
Lemma handleProcessCommand_cases world command payloadTabId tabId d w :
  handleProcessCommand world command payloadTabId tabId d w
  = match id_or payloadTabId tabId with
    | Some t =>
        if Z.eqb t 0 then ([], (noTab, w))
        else
          let loading :=
            if is_empty (apiKey (settings w)) then [StorageGet] else [] in
          let w1 :=
            if is_empty (apiKey (settings w))
            then snd (loadSettings world w) else w in
          if is_empty (key_in_force world w)
          then (loading, (noKey, w1))
          else (loading ++ calls (converse world command t d w1),
                outcome_of (converse world command t d w1))
    | None => ([], (noTab, w))
    end.
Proof.
  unfold handleProcessCommand.
  destruct (id_or payloadTabId tabId) as [t|]; [|reflexivity].
  destruct (Z.eqb t 0); [reflexivity|].
  cbv zeta. rewrite <- key_after_loading.
  destruct (is_empty (apiKey (settings w))); cbn [fst snd loadSettings].
  - destruct (is_empty _); [reflexivity|].
    destruct (converse world command t d _); reflexivity.
  - destruct (is_empty _); [reflexivity|].
    destruct (converse world command t d w); reflexivity.
Qed.

(** X22: a command reaches the pipeline exactly when a tab is named,
    by the message or else by its sender, and an API key is found, in
    memory or else in the storage.  Then the pipeline is called once,
    for that tab and with the settings that hold that key.  Otherwise
    the response is a failure that says which of the two is missing, and
    no session is created or touched.  The storage is read at most once,
    and only when a tab is named and the key in memory is empty. *)
Theorem command_reaches_the_pipeline_with_a_tab_and_a_key
        (world : World) (command : jsstring) (payloadTabId tabId : option Z)
        (d : Draws) (w : Worker) :
  let handled := handleProcessCommand world command payloadTabId tabId d w in
  let reply := fst (outcome_of handled) in
  let w' := snd (outcome_of handled) in
  let tab := truthy_id (id_or payloadTabId tabId) in
  (tab = false ->
   handled = ([], (noTab, w))) /\
  (tab = true -> key_in_force world w = [] ->
   reply = noKey /\ filter is_pipeline (calls handled) = [] /\
   sessionManager w' = sessionManager w) /\
  (tab = true -> key_in_force world w <> [] ->
   exists t session,
     id_or payloadTabId tabId = Some t /\
     filter is_pipeline (calls handled)
       = [ProcessPipeline command t (settings w') session] /\
     apiKey (settings w') = key_in_force world w) /\
  filter (fun c => negb (is_pipeline c)) (calls handled)
    = (if (tab && is_empty (apiKey (settings w)))%bool
       then [StorageGet] else []).
Proof.
  cbv zeta. rewrite handleProcessCommand_cases.
  destruct (id_or payloadTabId tabId) as [t|]; cbn [truthy_id];
    [|repeat split; try discriminate; reflexivity].
  destruct (Z.eqb t 0) eqn:Et; cbn [negb];
    [repeat split; try discriminate; reflexivity|].
  cbv zeta. split; [discriminate|].
  assert (Hkeep : settings (snd (outcome_of
                    (converse world command t d
                       (if is_empty (apiKey (settings w))
                        then snd (loadSettings world w) else w))))
                  = settings (if is_empty (apiKey (settings w))
                              then snd (loadSettings world w) else w)).
  { unfold converse, outcome_of.
    destruct (getOrCreateSession _ _ _ _) as [session mgr1].
    destruct (processPipeline world _ _ _ _ _) as [[result|e] change];
      reflexivity. }
  split; [|split].
  - intros _ Hkey. rewrite Hkey. cbn [is_empty outcome_of calls fst snd].
    split; [reflexivity|]. split.
    + destruct (is_empty (apiKey (settings w))); reflexivity.
    + destruct (is_empty (apiKey (settings w)));
        [apply loading_keeps_sessions|reflexivity].
  - intros _ Hkey.
    destruct (is_empty (key_in_force world w)) eqn:Ek;
      [apply is_empty_spec in Ek; congruence|].
    exists t, (fst (getOrCreateSession t (uuid d 0) (now d) (sessionManager w))).
    split; [reflexivity|].
    cbn [outcome_of calls fst snd]. rewrite Hkeep, key_after_loading.
    split; [|reflexivity].
    unfold calls at 1. cbn [fst]. rewrite filter_app, converse_calls.
    destruct (is_empty (apiKey (settings w)));
      rewrite ?loading_keeps_sessions; reflexivity.
  - rewrite andb_true_l.
    destruct (is_empty (key_in_force world w)).
    + cbn [calls fst]. destruct (is_empty (apiKey (settings w))); reflexivity.
    + unfold calls at 1. cbn [fst]. rewrite filter_app, converse_calls.
      destruct (is_empty (apiKey (settings w))); reflexivity.
Qed.

(** *** The conversation of the tab *)

(** The session [getOrCreateSession] answers with is the one the map
    holds for the tab, given, for a new session, readings of the clock
    with which clean-up does not evict it. *)
Lemma tab_session t uuid0 clock mgr :
  well_formed mgr ->
  (Map_get t (sessions mgr) = None ->
   not_after (clock 1) mgr /\ (clock 2%nat - clock 1%nat <= sessionTimeout)%Z) ->
  Map_get t (sessions (snd (getOrCreateSession t uuid0 clock mgr)))
    = Some (session (fst (getOrCreateSession t uuid0 clock mgr))) /\
  exists s0,
    deref (session (fst (getOrCreateSession t uuid0 clock mgr)))
          (store (snd (getOrCreateSession t uuid0 clock mgr))) = Some s0.
Proof.
  intros Hwf Hnew.
  pose proof (wf_getOrCreateSession t uuid0 clock Hwf) as Hwf'.
  unfold getOrCreateSession in *.
  destruct (Map_get t (sessions mgr)) as [a|] eqn:E;
    cbn [fst snd session store sessions] in *.
  - split; [exact E|].
    destruct Hwf as [_ Hr].
    destruct (Hr t a (@Map_get_Some t a (sessions mgr) E)) as (s & Hs & _).
    exists (touch (clock 0) s).
    rewrite deref_update, Nat.eqb_refl, Hs. reflexivity.
  - destruct (Hnew eq_refl) as [Hpast Hclock]. split.
    + apply Map_get_In; [apply Hwf'|].
      apply created_stays; assumption.
    + eexists. rewrite cleanup_store. apply deref_fresh.
Qed.

Lemma latest_after_addMessage sw message mgr s :
  deref (session sw) (store mgr) = Some s ->
  getConversationContext sw (Some 1%Z) (addMessage sw message mgr)
  = Some [message].
Proof.
  intros Hs. unfold getConversationContext, addMessage.
  rewrite (@read_on_session sw (push_message message) _ _ mgr s Hs).
  cbn [or_count]. rewrite slice_last_positive by lia.
  change (Z.to_nat 1) with 1.
  fold (Stages.last_n 1 (messages (push_message message s))).
  rewrite push_message_last. reflexivity.
Qed.

Lemma deref_on_session sw f mgr s :
  deref (session sw) (store mgr) = Some s ->
  deref (session sw) (store (on_session sw f mgr)) = Some (f s).
Proof.
  intros Hs. unfold on_session. cbn [store].
  rewrite deref_update, Nat.eqb_refl, Hs. reflexivity.
Qed.


(** With a tab and a key, a command is handled by [converse], on the
    settings in force: those in memory, or those read from the storage
    when the key in memory is empty. *)
Lemma reaches_converse world command payloadTabId tabId t d w :
  id_or payloadTabId tabId = Some t -> t <> 0%Z ->
  key_in_force world w <> [] ->
  let loaded := is_empty (apiKey (settings w)) in
  let w0 :=
    mkWorker (settings (if loaded then snd (loadSettings world w) else w))
             (sessionManager w) in
  handleProcessCommand world command payloadTabId tabId d w
  = ((if loaded then [StorageGet] else [])
       ++ calls (converse world command t d w0),
     outcome_of (converse world command t d w0)).
Proof.
  intros Hid Ht Hkey. cbv zeta.
  rewrite handleProcessCommand_cases, Hid.
  destruct (Z.eqb_spec t 0) as [|_]; [congruence|].
  cbv zeta.
  destruct (is_empty (key_in_force world w)) eqn:Ek;
    [apply is_empty_spec in Ek; congruence|].
  destruct (is_empty (apiKey (settings w))) eqn:Hmem.
  - assert (E : snd (loadSettings world w)
                = mkWorker (settings (snd (loadSettings world w)))
                           (sessionManager w)).
    { rewrite <- (loading_keeps_sessions world w).
      destruct (snd (loadSettings world w)); reflexivity. }
    rewrite <- E. reflexivity.
  - destruct w; reflexivity.
Qed.

(** What [converse] records. *)
Lemma converse_records world command t d w :
  well_formed (sessionManager w) ->
  (Map_get t (sessions (sessionManager w)) = None ->
   not_after (now d 1) (sessionManager w) /\
   (now d 2%nat - now d 1%nat <= sessionTimeout)%Z) ->
  let handled := converse world command t d w in
  let reply := fst (outcome_of handled) in
  let w' := snd (outcome_of handled) in
  let created := negb (Map_has t (sessions (sessionManager w))) in
  let sw := fst (getOrCreateSession t (uuid d 0) (now d) (sessionManager w)) in
  let user :=
    mkMessage (uuid d (if created then 1 else 0)) RoleUser command
              (now d (if created then 3 else 1)) None None in
  let seen :=
    addMessage sw user
      (snd (getOrCreateSession t (uuid d 0) (now d) (sessionManager w))) in
  let settled := fst (processPipeline world command t (settings w) sw seen) in
  let change := snd (processPipeline world command t (settings w) sw seen) in
  calls handled = [ProcessPipeline command t (settings w) sw] /\
  Map_get t (sessions seen) = Some (session sw) /\
  getConversationContext sw (Some 1%Z) seen = Some [user] /\
  Map_get t (sessions (sessionManager w')) = Some (session sw) /\
  match settled with
  | Resolved result =>
      reply = mkReply (pr_success result)
                      (Some (CommandData (pr_message result) (pr_actions result)
                                         (pr_requiresClarification result)
                                         (pr_clarificationQuestion result)))
                      None /\
      getConversationContext sw (Some 1%Z) (sessionManager w')
        = Some [mkMessage (uuid d (if created then 2 else 1)) RoleAssistant
                          (pr_message result)
                          (now d (if created then 4 else 2))
                          (pr_actions result)
                          (Some (negb (pr_success result)))]
  | Rejected e =>
      reply = mkReply false None
                (Some (message_or e (str "Pipeline processing failed"))) /\
      read sw messages (sessionManager w')
        = option_map (fun s => messages (change s))
                     (deref (session sw) (store seen))
  end.
Proof.
  intros Hwf Hnew. cbv zeta.
  destruct (@tab_session t (uuid d 0) (now d) (sessionManager w) Hwf Hnew)
    as (Hget & s0 & Hs0).
  unfold converse, calls, outcome_of.
  destruct (getOrCreateSession t (uuid d 0) (now d) (sessionManager w))
    as [sw mgr1] eqn:Eg.
  cbn [fst snd] in *.
  set (created := negb (Map_has t (sessions (sessionManager w)))).
  set (user := mkMessage (uuid d (if created then 1 else 0)) RoleUser command
                         (now d (if created then 3 else 1)) None None).
  destruct (processPipeline world command t (settings w) sw
                            (addMessage sw user mgr1))
    as [settled change] eqn:Ep.
  cbn [fst snd].
  split; [reflexivity|]. split; [exact Hget|].
  split; [exact (@latest_after_addMessage sw user mgr1 s0 Hs0)|].
  assert (Hseen : deref (session sw) (store (addMessage sw user mgr1))
                  = Some (push_message user s0))
    by (apply deref_on_session, Hs0).
  destruct settled as [result|e]; cbn [fst snd sessionManager sessions].
  - split; [exact Hget|]. split; [reflexivity|].
    replace (if created then 2 else 1) with (S (if created then 1 else 0))
      by (destruct created; reflexivity).
    replace (if created then 4 else 2) with (S (if created then 3 else 1))
      by (destruct created; reflexivity).
    eapply latest_after_addMessage.
    apply deref_on_session, Hseen.
  - split; [exact Hget|]. split; [reflexivity|].
    rewrite Hseen. cbn [option_map].
    exact (@read_on_session sw change _ messages _ _ Hseen).
Qed.

(** X23: a command that reaches the pipeline, with a tab and with a key
    in memory or read from the storage, is recorded in the session of its
    tab before the pipeline runs, so the pipeline finds it as the latest
    message.  The pipeline is the one call awaited, after the read of the
    storage when the key in memory is empty, and it is given the settings
    then in force.  When the pipeline resolves, its message is recorded
    as the assistant's reply, marked as an error exactly when the result
    is a failure, it is the latest message of the tab afterwards, and
    the response carries the result.  When the pipeline throws, the
    response is a failure with the error's message and no reply is
    recorded: the conversation is left as the pipeline left it. *)
Theorem command_and_reply_are_recorded
        (world : World) (command : jsstring) (payloadTabId tabId : option Z)
        (t : Z) (d : Draws) (w : Worker) :
  well_formed (sessionManager w) ->
  id_or payloadTabId tabId = Some t -> t <> 0%Z ->
  key_in_force world w <> [] ->
  (Map_get t (sessions (sessionManager w)) = None ->
   not_after (now d 1) (sessionManager w) /\
   (now d 2%nat - now d 1%nat <= sessionTimeout)%Z) ->
  let handled := handleProcessCommand world command payloadTabId tabId d w in
  let reply := fst (outcome_of handled) in
  let w' := snd (outcome_of handled) in
  let loaded := is_empty (apiKey (settings w)) in
  let current :=
    settings (if loaded then snd (loadSettings world w) else w) in
  let created := negb (Map_has t (sessions (sessionManager w))) in
  let sw := fst (getOrCreateSession t (uuid d 0) (now d) (sessionManager w)) in
  let user :=
    mkMessage (uuid d (if created then 1 else 0)) RoleUser command
              (now d (if created then 3 else 1)) None None in
  let seen :=
    addMessage sw user
      (snd (getOrCreateSession t (uuid d 0) (now d) (sessionManager w))) in
  let settled := fst (processPipeline world command t current sw seen) in
  let change := snd (processPipeline world command t current sw seen) in
  calls handled
    = (if loaded then [StorageGet] else [])
        ++ [ProcessPipeline command t current sw] /\
  apiKey current = key_in_force world w /\
  Map_get t (sessions seen) = Some (session sw) /\
  getConversationContext sw (Some 1%Z) seen = Some [user] /\
  Map_get t (sessions (sessionManager w')) = Some (session sw) /\
  match settled with
  | Resolved result =>
      reply = mkReply (pr_success result)
                      (Some (CommandData (pr_message result) (pr_actions result)
                                         (pr_requiresClarification result)
                                         (pr_clarificationQuestion result)))
                      None /\
      getConversationContext sw (Some 1%Z) (sessionManager w')
        = Some [mkMessage (uuid d (if created then 2 else 1)) RoleAssistant
                          (pr_message result)
                          (now d (if created then 4 else 2))
                          (pr_actions result)
                          (Some (negb (pr_success result)))]
  | Rejected e =>
      reply = mkReply false None
                (Some (message_or e (str "Pipeline processing failed"))) /\
      read sw messages (sessionManager w')
        = option_map (fun s => messages (change s))
                     (deref (session sw) (store seen))
  end.
Proof.
  intros Hwf Hid Ht Hkey Hnew. cbv zeta.
  rewrite (@reaches_converse world command payloadTabId tabId t d w Hid Ht Hkey).
  cbv zeta.
  set (w0 := mkWorker
               (settings (if is_empty (apiKey (settings w))
                          then snd (loadSettings world w) else w))
               (sessionManager w)).
  destruct (@converse_records world command t d w0 Hwf Hnew)
    as (Hcalls & Hseen & Hlatest & Hget & Hsettled).
  cbn [outcome_of calls fst snd] in *.
  split; [f_equal; exact Hcalls|].
  split; [apply key_after_loading|].
  split; [exact Hseen|]. split; [exact Hlatest|]. split; [exact Hget|].
  exact Hsettled.
Qed.

Lemma command_and_reply_are_recorded_witness :
  let world :=
    mkWorld (Resolved (mkStored None (Some (str "sk-2")) None None None None
                                None None))
            (fun _ _ _ _ _ =>
               (Resolved (mkResult true (str "Scrolled down") None None None),
                fun s => s)) in
  let d := mkDraws (Fixtures.ticking 3000) (fun _ => str "77aa") in
  let w := mkWorker (mkSettings claude (str "sk-1") [] [] 3 true false system)
                    Fixtures.twoTabs in
  let restarted := mkWorker DEFAULT_SETTINGS Fixtures.twoTabs in
  let handled :=
    handleProcessCommand world (str "scroll down") (Some 7%Z) None d w in
  let again :=
    handleProcessCommand world (str "scroll down") (Some 7%Z) None d
                         restarted in
  (calls handled
     = [ProcessPipeline (str "scroll down") 7 (settings w) (mkWrapper 0)] /\
   fst (outcome_of handled)
     = mkReply true (Some (CommandData (str "Scrolled down") None None None))
               None /\
   conversation 7 (snd (outcome_of handled))
     = Some [mkMessage (str "77aa") RoleUser (str "scroll down") 3001 None None;
             mkMessage (str "77aa") RoleAssistant (str "Scrolled down") 3002
                       None (Some false)])
  /\
  (calls again
     = [StorageGet;
        ProcessPipeline (str "scroll down") 7
          (mkSettings claude (str "sk-2") (intentModel DEFAULT_SETTINGS)
                      (codeGenModel DEFAULT_SETTINGS) 3 true false system)
          (mkWrapper 0)] /\
   fst (outcome_of again)
     = mkReply true (Some (CommandData (str "Scrolled down") None None None))
               None /\
   conversation 7 (snd (outcome_of again))
     = Some [mkMessage (str "77aa") RoleUser (str "scroll down") 3001 None None;
             mkMessage (str "77aa") RoleAssistant (str "Scrolled down") 3002
                       None (Some false)]).
Proof.
  cbv zeta.
  assert (Hwf : well_formed Fixtures.twoTabs) by apply after_well_formed.
  split.
  - match goal with
    | |- context [handleProcessCommand ?wo ?c ?p ?tb ?dd ?ww] =>
        destruct (@command_and_reply_are_recorded wo c p tb 7 dd ww Hwf
                    eq_refl) as (Hcalls & _ & _ & _ & _ & Hreply & _);
          [discriminate|discriminate|discriminate|]
    end.
    split; [exact Hcalls|]. split; [exact Hreply|].
    vm_compute. reflexivity.
  - match goal with
    | |- context [handleProcessCommand ?wo ?c ?p ?tb ?dd ?ww] =>
        destruct (@command_and_reply_are_recorded wo c p tb 7 dd ww Hwf
                    eq_refl) as (Hcalls & _ & _ & _ & _ & Hreply & _);
          [discriminate|discriminate|discriminate|]
    end.
    split; [exact Hcalls|]. split; [exact Hreply|].
    vm_compute. reflexivity.
Defined.



End WorkerFacts.

(* ================================================================== *)
(** ** Sanitizing leaves nothing to sanitize *)
(* ================================================================== *)

Module CleanFacts.

Import Safety Global Sanitizer RegexFacts Runs Constructs RunFacts SanitizerFacts.

(** *** Literals and stars *)

Lemma m_lit ic : forall w k p rest pos caps,
  w <> [] ->
  m ic (seqs (map RChar w)) k (mkState p rest pos caps)
  = if opens ic w rest
    then k (shift (List.length w) (mkState p rest pos caps))
    else None.
Proof.
  induction w as [|x w IH]; intros k p rest pos caps Hne; [congruence|].
  destruct w as [|y w].
  - cbn [map seqs]. destruct rest as [|c rest]; [reflexivity|].
    rewrite m_char. cbn [opens List.length].
    rewrite andb_true_r, shift_succ, shift_zero. reflexivity.
  - change (seqs (map RChar (x :: y :: w)))
      with (RSeq (RChar x) (seqs (map RChar (y :: w)))).
    rewrite m_seq. destruct rest as [|c rest]; [reflexivity|].
    rewrite m_char.
    change (opens ic (x :: y :: w) (c :: rest))
      with (char_matches ic x c && opens ic (y :: w) rest)%bool.
    destruct (char_matches ic x c); cbn [andb]; [|reflexivity].
    rewrite IH by discriminate.
    destruct (opens ic (y :: w) rest); [|reflexivity].
    change (List.length (x :: y :: w)) with (S (List.length (y :: w))).
    rewrite shift_succ. reflexivity.
Qed.

(** A greedy star before a continuation that never fails never fails. *)
Lemma star_total ic neg items k :
  (forall s, k s <> None) ->
  forall s, m ic (RStar true (RSet neg items)) k s <> None.
Proof.
  intros Hk [p rest pos caps]. rewrite star_unfold.
  destruct rest as [|c rest]; [apply Hk|].
  destruct (set_matches ic neg items c); [|apply Hk].
  destruct (m ic _ k _); [discriminate|]. apply Hk.
Qed.

(** A greedy star over a class, before something that cannot start in
    the class, reads the whole run. *)
Lemma star_strict ic neg items k :
  (forall p c rest pos caps, set_matches ic neg items c = true ->
                             k (mkState p (c :: rest) pos caps) = None) ->
  forall rest p pos caps,
    m ic (RStar true (RSet neg items)) k (mkState p rest pos caps)
    = k (shift (List.length (run_of (set_matches ic neg items) rest))
               (mkState p rest pos caps)).
Proof.
  intros Hk. induction rest as [|c rest IH]; intros p pos caps.
  - rewrite star_unfold. cbn [run_of List.length]. rewrite shift_zero. reflexivity.
  - rewrite star_unfold. cbn [run_of].
    destruct (set_matches ic neg items c) eqn:Hc.
    + rewrite IH, (Hk _ _ _ _ _ Hc), orElse_None_r.
      cbn [List.length]. rewrite shift_succ. reflexivity.
    + cbn [List.length]. rewrite shift_zero. reflexivity.
Qed.

Lemma some_total : forall s : mstate, Some s <> None.
Proof. discriminate. Qed.

(** *** Replacing the matches of a pattern *)

Section Replace.

Variable r : regex.
Variable starts : jsstring -> bool.
Variable replacement : jsstring.

Hypothesis r_consumes : consuming r = true.
Hypothesis m_starts : forall p rest pos,
  m true r (fun s => Some s) (mkState p rest pos []) = None
  <-> starts rest = false.

Lemma search_none : forall rest p pos,
  search true r p rest pos = None ->
  forall a b, rest = a ++ b -> starts b = false.
Proof.
  induction rest as [|c rest IH]; intros p pos Hs a b E;
    rewrite search_eq in Hs;
    destruct (m true r _ _) as [s1|] eqn:Em; try discriminate.
  - destruct a; [|discriminate]. cbn in E. subst b.
    apply (m_starts p [] pos), Em.
  - destruct a as [|x a].
    + cbn in E. subst b. apply (m_starts p (c :: rest) pos), Em.
    + injection E as _ E. exact (IH _ _ Hs a b E).
Qed.

Lemma search_none_of : forall rest p pos,
  (forall a b, rest = a ++ b -> starts b = false) ->
  search true r p rest pos = None.
Proof.
  induction rest as [|c rest IH]; intros p pos Hn; rewrite search_eq.
  - assert (E := proj2 (m_starts p [] pos) (Hn [] [] eq_refl)).
    rewrite E. reflexivity.
  - assert (E := proj2 (m_starts p (c :: rest) pos) (Hn [] _ eq_refl)).
    rewrite E. apply IH. intros a b Eab. apply (Hn (c :: a) b).
    rewrite Eab. reflexivity.
Qed.

(** The leftmost match: nothing starts before it, and it is not empty. *)
Lemma search_some : forall rest p pos mr,
  search true r p rest pos = Some mr ->
  exists pre suffix n,
    rest = pre ++ suffix /\
    (forall a c b, pre = a ++ c :: b -> starts (c :: b ++ suffix) = false) /\
    m_index mr = pos + List.length pre /\
    List.length (m_text mr) = n /\ 1 <= n <= List.length suffix.
Proof.
  induction rest as [|c rest IH]; intros p pos mr Hs;
    rewrite search_eq in Hs;
    destruct (m true r _ _) as [s1|] eqn:Em; try discriminate.
  - apply m_reads in Em. destruct Em as (s' & pre & Hk & [Ra Rb] & Hc).
    cbn in Ra. destruct pre; [|discriminate].
    exfalso. apply (Hc r_consumes). reflexivity.
  - injection Hs as <-.
    apply m_reads in Em. destruct Em as (s' & pre & Hk & [Ra Rb] & Hc).
    injection Hk as ->. cbn [ms_rest ms_pos] in Ra, Rb.
    exists [], (c :: rest), (List.length pre).
    split; [reflexivity|].
    split; [intros [|? ?] ? ? E; discriminate E|].
    cbn [m_index m_text List.length]. split; [lia|].
    assert (Hpre : pre <> []) by (apply Hc, r_consumes).
    assert (Hlen : List.length pre <= List.length (c :: rest)).
    { rewrite Ra, length_app. lia. }
    rewrite Rb.
    replace (pos + List.length pre - pos) with (List.length pre) by lia.
    rewrite length_firstn. split; [lia|].
    destruct pre; [congruence|]. cbn [List.length] in *. lia.
  - destruct (IH _ _ _ Hs) as (pre & suffix & n & E & Hleft & Hi & Hn & Hb).
    exists (c :: pre), suffix, n. split; [cbn; congruence|].
    split; [|cbn [List.length]; split; [lia|split; assumption]].
    intros [|x a] y b Eab.
    + injection Eab as Ec Eb. subst y b.
      apply (m_starts p (c :: pre ++ suffix) pos). rewrite <- E. exact Em.
    + injection Eab as _ Eab. exact (Hleft a y b Eab).
Qed.

(** The text with the matches replaced, one match at a time. *)
Lemma replace_step fuel rest p pos :
  splice (scan (S fuel) true r p rest pos) replacement rest pos = rest /\
  (forall a b, rest = a ++ b -> starts b = false)
  \/
  exists pre suffix n p' pos',
    rest = pre ++ suffix /\
    (forall a c b, pre = a ++ c :: b -> starts (c :: b ++ suffix) = false) /\
    1 <= n <= List.length suffix /\
    splice (scan (S fuel) true r p rest pos) replacement rest pos
    = pre ++ replacement
        ++ splice (scan fuel true r p' (skipn n suffix) pos') replacement
                  (skipn n suffix) pos'.
Proof.
  cbn [scan]. destruct (search true r p rest pos) as [mr|] eqn:Es.
  - right.
    destruct (search_some _ _ _ Es) as (pre & suffix & n & E & Hleft & Hi & Hn & Hb).
    rewrite Hn, Hi.
    replace (pos + List.length pre - pos) with (List.length pre) by lia.
    replace (Nat.max n 1) with n by lia.
    assert (Hfit : Nat.ltb (List.length rest) (List.length pre + n) = false).
    { apply Nat.ltb_ge. rewrite E, length_app. lia. }
    rewrite Hfit.
    destruct (Global.pass (List.length pre + n) p rest) as [p' rest'] eqn:Ep.
    assert (Hrest' : rest' = skipn n suffix).
    { transitivity (skipn (List.length pre + n) rest).
      { rewrite <- (pass_skipn (List.length pre + n) p rest), Ep. reflexivity. }
      rewrite E, skipn_app, skipn_all2 by lia.
      replace (List.length pre + n - List.length pre) with n by lia.
      reflexivity. }
    exists pre, suffix, n, p', (pos + (List.length pre + n)).
    split; [exact E|]. split; [exact Hleft|]. split; [exact Hb|].
    cbn [splice]. rewrite Hn, Hi.
    replace (pos + List.length pre - pos) with (List.length pre) by lia.
    rewrite Hrest'.
    assert (Hfirst : firstn (List.length pre) rest = pre).
    { rewrite E, firstn_app, Nat.sub_diag, firstn_all. cbn. apply app_nil_r. }
    assert (Hskip : skipn (List.length pre + n) rest = skipn n suffix).
    { rewrite E, skipn_app, skipn_all2 by lia.
      replace (List.length pre + n - List.length pre) with n by lia.
      reflexivity. }
    rewrite Hfirst, Hskip. do 3 f_equal. lia.
  - left. split; [reflexivity|]. exact (@search_none rest p pos Es).
Qed.

End Replace.

(** *** Joining what is kept and the replacement *)

Lemma no_paren_in_comment : ~ In 41%N blockedComment.
Proof.
  intros Hin. vm_compute in Hin.
  repeat (destruct Hin as [Hin|Hin]; [discriminate Hin|]). exact Hin.
Qed.

Section Join.

Variable clean : jsstring -> bool.

(** Nothing begins inside the comment. *)
Hypothesis clean_comment : forall a c b y,
  blockedComment = a ++ c :: b -> clean (c :: b ++ y) = false.

(** What begins before the comment begins there whatever stands in the
    place of the comment, given the closing parentheses that follow. *)
Hypothesis clean_local : forall x y z,
  (In 41%N y -> In 41%N z) ->
  clean (x ++ blockedComment ++ y) = true -> clean (x ++ z) = true.

Lemma join pre suffix out :
  (forall a c b, pre = a ++ c :: b -> clean (c :: b ++ suffix) = false) ->
  nowhere clean out ->
  (In 41%N out -> In 41%N suffix) ->
  nowhere clean (pre ++ blockedComment ++ out).
Proof.
  intros Hleft Hout Hparen a b E.
  apply app_eq_app in E. destruct E as (l & [[E1 E2]|[E1 E2]]).
  - (* the part begins in what was kept *)
    subst b. destruct l as [|c l].
    + cbn [app].
      destruct blockedComment as [|c0 cs] eqn:Ec; [discriminate Ec|].
      cbn [app]. apply (clean_comment [] c0 cs out). reflexivity.
    + destruct (clean ((c :: l) ++ blockedComment ++ out)) eqn:Ecl;
        [|reflexivity].
      apply (clean_local (c :: l) out suffix Hparen) in Ecl.
      cbn [app] in Ecl. rewrite (Hleft a c l E1) in Ecl. discriminate.
  - symmetry in E2. apply app_eq_app in E2.
    destruct E2 as (l2 & [[E3 E4]|[E3 E4]]).
    + (* the part begins in what follows the comment *)
      apply (Hout l2 b). exact E4.
    + (* the part begins inside the comment *)
      subst b. destruct l2 as [|c l2].
      * apply (Hout [] out). reflexivity.
      * apply (clean_comment l c l2 out). exact E3.
Qed.

End Join.

(** *** One replacement *)

Section Pass.

Variable r : regex.
Variable starts : jsstring -> bool.

Hypothesis r_consumes : consuming r = true.
Hypothesis m_starts : forall p rest pos,
  m true r (fun s => Some s) (mkState p rest pos []) = None
  <-> starts rest = false.

Lemma In_skipn_back A (x : A) n : forall l, In x (skipn n l) -> In x l.
Proof.
  induction n as [|n IH]; intros [|y l] Hin; cbn in *; auto.
Qed.

(** Replacing adds no closing parenthesis. *)
Lemma replaced_paren : forall fuel rest p pos,
  In 41%N (splice (scan fuel true r p rest pos) blockedComment rest pos) ->
  In 41%N rest.
Proof.
  induction fuel as [|fuel IH]; intros rest p pos Hin; [exact Hin|].
  destruct (@replace_step r starts blockedComment r_consumes m_starts
                          fuel rest p pos)
    as [[E _]|(pre & suffix & n & p' & pos' & E & _ & _ & Eout)].
  - rewrite E in Hin. exact Hin.
  - rewrite Eout in Hin. rewrite E.
    apply in_app_or in Hin. destruct Hin as [Hin|Hin];
      [apply in_or_app; left; exact Hin|].
    apply in_app_or in Hin. destruct Hin as [Hin|Hin];
      [destruct (no_paren_in_comment Hin)|].
    apply in_or_app. right. eapply In_skipn_back, IH, Hin.
Qed.

Lemma nowhere_suffix P a b : nowhere P (a ++ b) -> nowhere P b.
Proof.
  intros Hn x y E. apply (Hn (a ++ x) y). rewrite E, app_assoc. reflexivity.
Qed.

Section Other.

Variable clean : jsstring -> bool.

Hypothesis clean_comment : forall a c b y,
  blockedComment = a ++ c :: b -> clean (c :: b ++ y) = false.
Hypothesis clean_local : forall x y z,
  (In 41%N y -> In 41%N z) ->
  clean (x ++ blockedComment ++ y) = true -> clean (x ++ z) = true.

(** What begins nowhere begins nowhere after the replacement. *)
Lemma replaced_keeps : forall fuel rest p pos,
  nowhere clean rest ->
  nowhere clean
    (splice (scan fuel true r p rest pos) blockedComment rest pos).
Proof.
  induction fuel as [|fuel IH]; intros rest p pos Hn; [exact Hn|].
  destruct (@replace_step r starts blockedComment r_consumes m_starts
                          fuel rest p pos)
    as [[E _]|(pre & suffix & n & p' & pos' & E & _ & Hb & Eout)].
  - rewrite E. exact Hn.
  - rewrite Eout. apply (@join clean clean_comment clean_local pre suffix).
    + intros a c b Ep. apply (Hn a (c :: b ++ suffix)).
      rewrite E, Ep, <- app_assoc. reflexivity.
    + apply IH. apply (@nowhere_suffix clean (pre ++ firstn n suffix)).
      rewrite <- app_assoc, firstn_skipn, <- E. exact Hn.
    + intros Hin. eapply In_skipn_back, replaced_paren, Hin.
Qed.

End Other.

Hypothesis starts_comment : forall a c b y,
  blockedComment = a ++ c :: b -> starts (c :: b ++ y) = false.
Hypothesis starts_local : forall x y z,
  (In 41%N y -> In 41%N z) ->
  starts (x ++ blockedComment ++ y) = true -> starts (x ++ z) = true.

(** After the replacement the pattern begins nowhere. *)
Lemma replaced_clean : forall fuel rest p pos,
  List.length rest < fuel ->
  nowhere starts
    (splice (scan fuel true r p rest pos) blockedComment rest pos).
Proof.
  induction fuel as [|fuel IH]; intros rest p pos Hlen; [lia|].
  destruct (@replace_step r starts blockedComment r_consumes m_starts
                          fuel rest p pos)
    as [[E Hn]|(pre & suffix & n & p' & pos' & E & Hleft & Hb & Eout)].
  - rewrite E. exact Hn.
  - rewrite Eout. apply (@join starts starts_comment starts_local pre suffix).
    + exact Hleft.
    + apply IH. rewrite length_skipn.
      rewrite E, length_app in Hlen. lia.
    + intros Hin. eapply In_skipn_back, replaced_paren, Hin.
Qed.

End Pass.

(** *** Code units and classes *)

Lemma char_matches_inv x c :
  char_matches true x c = true ->
  c = x \/ (is_upper c = true /\ x = (c + 32)%N)
  \/ (is_lower c = true /\ x = (c - 32)%N).
Proof.
  unfold char_matches, item_matches, item_has. cbn [andb].
  intros Hm. apply orb_true_iff in Hm. destruct Hm as [Hm|Hm];
    apply N.eqb_eq in Hm; [left; congruence|].
  unfold swapcase in Hm.
  destruct (is_upper c); [right; left; split; congruence|].
  destruct (is_lower c); [right; right; split; congruence|].
  left. congruence.
Qed.

Ltac letter_cases H :=
  apply char_matches_inv in H;
  destruct H as [H|[[Hcase H]|[Hcase H]]];
  [subst
  |unfold is_upper, between in Hcase; apply andb_true_iff in Hcase;
   destruct Hcase as [Hlo Hhi]; apply N.leb_le in Hlo, Hhi
  |unfold is_lower, between in Hcase; apply andb_true_iff in Hcase;
   destruct Hcase as [Hlo Hhi]; apply N.leb_le in Hlo, Hhi].

Lemma closing_spec c : closing c = true <-> c = 41%N.
Proof.
  unfold closing. split; [|intros ->; reflexivity].
  intros H. letter_cases H; [reflexivity|lia|lia].
Qed.

Lemma blank_not_lparen c : blank c = true -> char_matches true 40%N c = false.
Proof.
  intros Hb. destruct (char_matches true 40%N c) eqn:H; [|reflexivity].
  letter_cases H; [discriminate Hb|lia|lia].
Qed.

Lemma blank_not_X c : blank c = true -> char_matches true 88%N c = false.
Proof.
  intros Hb. destruct (char_matches true 88%N c) eqn:H; [|reflexivity].
  letter_cases H; [discriminate Hb|lia|].
  assert (c = 120%N) by lia. subst c. discriminate Hb.
Qed.

Lemma existsb_closing u : existsb closing u = true <-> In 41%N u.
Proof.
  rewrite existsb_exists. split.
  - intros (c & Hin & Hc). apply closing_spec in Hc. subst c. exact Hin.
  - intros Hin. exists 41%N. split; [exact Hin|reflexivity].
Qed.

(** *** Runs *)

Lemma run_of_length_le P : forall l, List.length (run_of P l) <= List.length l.
Proof.
  induction l as [|c l IH]; [apply le_n|].
  cbn [run_of]. destruct (P c); cbn [List.length]; lia.
Qed.

(** A run ends before a code unit outside the class. *)
Lemma run_of_stop P h : forall l t,
  P h = false -> run_of P (l ++ h :: t) = run_of P l.
Proof.
  induction l as [|c l IH]; intros t Hh; cbn [app run_of].
  - rewrite Hh. reflexivity.
  - destruct (P c); [rewrite IH by exact Hh|]; reflexivity.
Qed.

(** A run that ends inside a text is the same whatever follows. *)
Lemma run_of_inside P : forall l v,
  skipn (List.length (run_of P l)) l <> [] ->
  run_of P (l ++ v) = run_of P l.
Proof.
  induction l as [|c l IH]; intros v Hne; [cbn in Hne; congruence|].
  cbn [app run_of] in *. destruct (P c); [|reflexivity].
  cbn [List.length skipn] in Hne. rewrite IH by exact Hne. reflexivity.
Qed.

Lemma after_run P : forall l c u,
  skipn (List.length (run_of P l)) l = c :: u -> P c = false.
Proof.
  induction l as [|x l IH]; intros c u E; [discriminate E|].
  cbn [run_of] in E. destruct (P x) eqn:Ex.
  - cbn [List.length skipn] in E. exact (IH _ _ E).
  - cbn [List.length skipn] in E. injection E as <- _. exact Ex.
Qed.

Lemma run_to_the_end P : forall l,
  skipn (List.length (run_of P l)) l = [] <-> forallb P l = true.
Proof.
  induction l as [|x l IH]; [split; reflexivity|].
  cbn [run_of forallb]. destruct (P x); cbn [List.length skipn andb].
  - exact IH.
  - split; discriminate.
Qed.

(** *** Literals *)

(** A literal that begins before a code unit it does not hold lies
    before that code unit. *)
Lemma opens_before ic h : forall w x t,
  forallb (fun a => negb (char_matches ic a h)) w = true ->
  opens ic w (x ++ h :: t) = true ->
  List.length w <= List.length x /\ forall u, opens ic w (x ++ u) = true.
Proof.
  induction w as [|a w IH]; intros x t Hw Ho.
  - split; [apply Nat.le_0_l|reflexivity].
  - cbn [forallb] in Hw. apply andb_true_iff in Hw. destruct Hw as [Ha Hw].
    destruct x as [|c x]; cbn [app opens] in Ho.
    + apply negb_true_iff in Ha. rewrite Ha in Ho. discriminate.
    + apply andb_true_iff in Ho. destruct Ho as [Hc Ho].
      destruct (IH x t Hw Ho) as [Hlen Hall].
      split; [cbn [List.length]; lia|].
      intros u. cbn [app opens]. rewrite Hc, Hall. reflexivity.
Qed.

Lemma skipn_app_le A n : forall (x u : list A),
  n <= List.length x -> skipn n (x ++ u) = skipn n x ++ u.
Proof.
  intros x u Hn. rewrite skipn_app.
  replace (n - List.length x) with 0 by lia. reflexivity.
Qed.

Lemma comment_head : blockedComment = 47%N :: str "* blocked */".
Proof. reflexivity. Qed.

Ltac inside_comment :=
  let a := fresh "a" in
  let E := fresh "E" in
  intros a ? ? ? E; vm_compute in E;
  repeat (destruct a as [|? a];
          [injection E as <- <-; reflexivity|];
          cbn [app] in E; injection E as _ E);
  destruct a; discriminate E.

(** *** The calls of an extension API *)

Section Api.

Variable api : jsstring.
Hypothesis api_word : api <> [].
Hypothesis api_no_slash :
  forallb (fun a => negb (char_matches true a 47%N)) api = true.

Lemma api_consumes :
  consuming (RSeq (seqs (map RChar api)) (RSeq words notSemicolons)) = true.
Proof. cbn. apply orb_true_r. Qed.

Lemma api_starts p rest pos :
  m true (RSeq (seqs (map RChar api)) (RSeq words notSemicolons))
    (fun s => Some s) (mkState p rest pos []) = None
  <-> beginsApi api rest = false.
Proof.
  unfold beginsApi. rewrite m_seq, m_lit by exact api_word.
  destruct (opens true api rest); cbn [andb]; [|split; reflexivity].
  rewrite shift_eq. unfold words, RPlus.
  rewrite !m_seq.
  destruct (skipn (List.length api) rest) as [|c t];
    [rewrite m_set_nil; split; reflexivity|].
  rewrite m_set. unfold wordy.
  destruct (set_matches true false [CWord] c); [|split; reflexivity].
  split; [|discriminate].
  intros Hn. exfalso. revert Hn.
  apply star_total, star_total, some_total.
Qed.

Lemma api_local x y z :
  beginsApi api (x ++ blockedComment ++ y) = true ->
  beginsApi api (x ++ z) = true.
Proof.
  unfold beginsApi. rewrite comment_head. cbn [app].
  intros Hb. apply andb_true_iff in Hb. destruct Hb as [Ho Hw].
  destruct (opens_before true 47%N api x _ api_no_slash Ho) as [Hlen Hall].
  rewrite Hall. cbn [andb].
  rewrite skipn_app_le in Hw |- * by exact Hlen.
  destruct (skipn (List.length api) x) as [|c t]; [discriminate Hw|exact Hw].
Qed.

End Api.

Lemma chrome_body :
  re_body chromeCall
  = RSeq (seqs (map RChar (str "chrome."))) (RSeq words notSemicolons).
Proof. reflexivity. Qed.

Lemma browser_body :
  re_body browserCall
  = RSeq (seqs (map RChar (str "browser."))) (RSeq words notSemicolons).
Proof. reflexivity. Qed.

Lemma chrome_comment : forall a c b y,
  blockedComment = a ++ c :: b ->
  beginsApi (str "chrome.") (c :: b ++ y) = false.
Proof. inside_comment. Qed.

Lemma browser_comment : forall a c b y,
  blockedComment = a ++ c :: b ->
  beginsApi (str "browser.") (c :: b ++ y) = false.
Proof. inside_comment. Qed.

(** *** Network requests *)

Lemma fetch_body :
  re_body fetchCall
  = RSeq (seqs (map RChar (str "fetch")))
         (RSeq spaces (RSeq lparen (RSeq notRparens rparen))).
Proof. reflexivity. Qed.

Lemma not_closing c :
  set_matches true true [CChar 41%N] c = negb (closing c).
Proof.
  unfold set_matches, closing, char_matches. cbn [existsb xorb].
  rewrite orb_false_r. reflexivity.
Qed.

Lemma paren_follows u :
  skipn (List.length (run_of (set_matches true true [CChar 41%N]) u)) u <> []
  <-> existsb closing u = true.
Proof.
  split.
  - intros Hne.
    destruct (existsb closing u) eqn:E; [reflexivity|]. exfalso. apply Hne.
    apply run_to_the_end. apply forallb_forall. intros c Hc.
    rewrite not_closing. apply negb_true_iff.
    destruct (closing c) eqn:Ec; [|reflexivity].
    assert (existsb closing u = true)
      by (apply existsb_exists; exists c; auto).
    congruence.
  - intros He Hnil. apply run_to_the_end in Hnil.
    apply existsb_exists in He. destruct He as (c & Hc & Hcl).
    rewrite forallb_forall in Hnil. specialize (Hnil c Hc).
    rewrite not_closing, Hcl in Hnil. discriminate.
Qed.

Lemma fetch_starts p rest pos :
  m true (re_body fetchCall) (fun s => Some s) (mkState p rest pos []) = None
  <-> beginsFetch rest = false.
Proof.
  rewrite fetch_body. unfold beginsFetch.
  rewrite m_seq, m_lit by discriminate.
  destruct (opens true (str "fetch") rest); cbn [andb]; [|split; reflexivity].
  rewrite shift_eq. change (List.length (str "fetch")) with 5.
  cbv zeta. unfold spaces. rewrite m_seq.
  rewrite star_strict.
  2:{ intros p' c rest' pos' caps' Hc. unfold lparen. rewrite m_seq, m_char.
      rewrite (blank_not_lparen c Hc). reflexivity. }
  rewrite shift_eq. change (set_matches true false [CSpace]) with blank.
  destruct (skipn (List.length (run_of blank (skipn 5 rest))) (skipn 5 rest))
    as [|c u]; [split; reflexivity|].
  unfold lparen. rewrite m_seq, m_char.
  destruct (char_matches true 40%N c); cbn [andb]; [|split; reflexivity].
  unfold notRparens. rewrite m_seq, star_strict.
  2:{ intros p' c' rest' pos' caps' Hc. unfold rparen. rewrite m_char.
      rewrite not_closing in Hc. apply negb_true_iff in Hc.
      unfold closing in Hc. rewrite Hc. reflexivity. }
  rewrite shift_eq.
  destruct (skipn (List.length (run_of (set_matches true true [CChar 41%N]) u)) u)
    as [|c2 u2] eqn:Eu.
  - split; [intros _|reflexivity].
    destruct (existsb closing u) eqn:E; [|reflexivity].
    apply paren_follows in E. congruence.
  - assert (Hc2 : char_matches true 41%N c2 = true).
    { apply after_run in Eu. rewrite not_closing in Eu.
      apply negb_false_iff in Eu. exact Eu. }
    unfold rparen. rewrite m_char, Hc2.
    split; [discriminate|]. intros He.
    assert (existsb closing u = true) as Ht
      by (apply paren_follows; rewrite Eu; discriminate).
    congruence.
Qed.

Lemma fetch_comment : forall a c b y,
  blockedComment = a ++ c :: b -> beginsFetch (c :: b ++ y) = false.
Proof. inside_comment. Qed.

Lemma fetch_local x y z :
  (In 41%N y -> In 41%N z) ->
  beginsFetch (x ++ blockedComment ++ y) = true ->
  beginsFetch (x ++ z) = true.
Proof.
  unfold beginsFetch. rewrite comment_head. cbn [app]. cbv zeta.
  intros Hparen Hb. apply andb_true_iff in Hb. destruct Hb as [Ho Hw].
  destruct (opens_before true 47%N (str "fetch") x _ eq_refl Ho) as [Hlen Hall].
  rewrite Hall. cbn [andb].
  change (List.length (str "fetch")) with 5 in Hlen.
  rewrite skipn_app_le in Hw |- * by exact Hlen.
  set (x2 := skipn 5 x) in *.
  rewrite (run_of_stop blank 47%N x2 _ eq_refl) in Hw.
  rewrite skipn_app_le in Hw by apply run_of_length_le.
  destruct (skipn (List.length (run_of blank x2)) x2) as [|c u] eqn:Ex;
    [cbn in Hw; discriminate Hw|].
  cbn [app] in Hw.
  rewrite run_of_inside by (rewrite Ex; discriminate).
  rewrite skipn_app_le by apply run_of_length_le.
  rewrite Ex. cbn [app].
  apply andb_true_iff in Hw. destruct Hw as [Hc Hu].
  rewrite Hc. cbn [andb].
  apply existsb_closing. apply existsb_closing in Hu.
  apply in_app_or in Hu. apply in_or_app.
  destruct Hu as [Hu|Hu]; [left; exact Hu|right].
  destruct Hu as [Hu|Hu]; [discriminate Hu|].
  apply in_app_or in Hu. destruct Hu as [Hu|Hu]; [|exact (Hparen Hu)].
  exfalso. apply no_paren_in_comment. rewrite comment_head. right. exact Hu.
Qed.

Lemma xhr_body :
  re_body newXhr
  = RSeq (seqs (map RChar (str "new")))
         (RSeq spaces1
               (RSeq (seqs (map RChar (str "XMLHttpRequest"))) notSemicolons)).
Proof. reflexivity. Qed.

Lemma xhr_starts p rest pos :
  m true (re_body newXhr) (fun s => Some s) (mkState p rest pos []) = None
  <-> beginsXhr rest = false.
Proof.
  rewrite xhr_body. unfold beginsXhr.
  rewrite m_seq, m_lit by discriminate.
  destruct (opens true (str "new") rest); cbn [andb]; [|split; reflexivity].
  rewrite shift_eq. change (List.length (str "new")) with 3.
  unfold spaces1, RPlus. rewrite !m_seq.
  destruct (skipn 3 rest) as [|c t]; [rewrite m_set_nil; split; reflexivity|].
  rewrite m_set. fold (blank c).
  destruct (blank c); cbn [andb]; [|split; reflexivity].
  rewrite star_strict.
  2:{ intros p' c' rest' pos' caps' Hc. rewrite m_seq, m_lit by discriminate.
      change (opens true (str "XMLHttpRequest") (c' :: rest'))
        with (char_matches true 88%N c'
              && opens true (str "MLHttpRequest") rest')%bool.
      rewrite (blank_not_X c' Hc). reflexivity. }
  rewrite shift_eq. change (set_matches true false [CSpace]) with blank.
  rewrite m_seq, m_lit by discriminate.
  destruct (opens true (str "XMLHttpRequest")
                  (skipn (List.length (run_of blank t)) t));
    [|split; reflexivity].
  split; [|discriminate].
  intros Hn. exfalso. revert Hn. apply star_total, some_total.
Qed.

Lemma xhr_comment : forall a c b y,
  blockedComment = a ++ c :: b -> beginsXhr (c :: b ++ y) = false.
Proof. inside_comment. Qed.

Lemma xhr_local x y z :
  beginsXhr (x ++ blockedComment ++ y) = true -> beginsXhr (x ++ z) = true.
Proof.
  unfold beginsXhr. rewrite comment_head. cbn [app].
  intros Hb. apply andb_true_iff in Hb. destruct Hb as [Ho Hw].
  destruct (opens_before true 47%N (str "new") x _ eq_refl Ho) as [Hlen Hall].
  rewrite Hall. cbn [andb].
  change (List.length (str "new")) with 3 in Hlen.
  rewrite skipn_app_le in Hw |- * by exact Hlen.
  destruct (skipn 3 x) as [|c t]; [cbn in Hw; discriminate Hw|].
  cbn [app] in Hw |- *.
  apply andb_true_iff in Hw. destruct Hw as [Hc Hx].
  rewrite Hc. cbn [andb].
  rewrite (run_of_stop blank 47%N t _ eq_refl) in Hx.
  rewrite skipn_app_le in Hx by apply run_of_length_le.
  destruct (opens_before true 47%N (str "XMLHttpRequest") _ _ eq_refl Hx)
    as [Hlen2 Hall2].
  rewrite run_of_inside.
  - rewrite skipn_app_le by apply run_of_length_le. apply Hall2.
  - intros Hnil. rewrite Hnil in Hlen2. cbn in Hlen2. lia.
Qed.

(** *** The four replacements *)

Lemma test_nowhere (p : pattern) (starts : jsstring -> bool) :
  re_ignoreCase p = true ->
  (forall q rest pos,
      m true (re_body p) (fun s => Some s) (mkState q rest pos []) = None
      <-> starts rest = false) ->
  forall s, test p s = false <-> nowhere starts s.
Proof.
  intros Hic Hm s. unfold test, exec. rewrite Hic. split.
  - destruct (search true (re_body p) None s 0) eqn:Es; [discriminate|].
    intros _. exact (@search_none (re_body p) starts Hm s None 0 Es).
  - intros Hn.
    rewrite (@search_none_of (re_body p) starts Hm s None 0 Hn). reflexivity.
Qed.

Lemma chrome_starts : forall q rest pos,
  m true (re_body chromeCall) (fun s => Some s) (mkState q rest pos []) = None
  <-> beginsApi (str "chrome.") rest = false.
Proof.
  intros q rest pos. rewrite chrome_body. apply api_starts. discriminate.
Qed.

Lemma browser_starts : forall q rest pos,
  m true (re_body browserCall) (fun s => Some s) (mkState q rest pos []) = None
  <-> beginsApi (str "browser.") rest = false.
Proof.
  intros q rest pos. rewrite browser_body. apply api_starts. discriminate.
Qed.

Lemma chrome_local : forall x y z,
  (In 41%N y -> In 41%N z) ->
  beginsApi (str "chrome.") (x ++ blockedComment ++ y) = true ->
  beginsApi (str "chrome.") (x ++ z) = true.
Proof. intros x y z _. apply api_local. reflexivity. Qed.

Lemma browser_local : forall x y z,
  (In 41%N y -> In 41%N z) ->
  beginsApi (str "browser.") (x ++ blockedComment ++ y) = true ->
  beginsApi (str "browser.") (x ++ z) = true.
Proof. intros x y z _. apply api_local. reflexivity. Qed.

Lemma xhr_local' : forall x y z,
  (In 41%N y -> In 41%N z) ->
  beginsXhr (x ++ blockedComment ++ y) = true -> beginsXhr (x ++ z) = true.
Proof. intros x y z _. apply xhr_local. Qed.

(** A replacement leaves no match of its own pattern. *)
Lemma replaceAll_clean (p : pattern) (starts : jsstring -> bool) :
  re_ignoreCase p = true ->
  consuming (re_body p) = true ->
  (forall q rest pos,
      m true (re_body p) (fun s => Some s) (mkState q rest pos []) = None
      <-> starts rest = false) ->
  (forall a c b y, blockedComment = a ++ c :: b -> starts (c :: b ++ y) = false) ->
  (forall x y z, (In 41%N y -> In 41%N z) ->
                 starts (x ++ blockedComment ++ y) = true ->
                 starts (x ++ z) = true) ->
  forall s, nowhere starts (replaceAll p blockedComment s).
Proof.
  intros Hic Hc Hm Hcomment Hlocal s. unfold replaceAll, matchAll.
  rewrite Hic.
  apply (@replaced_clean (re_body p) starts Hc Hm Hcomment Hlocal).
  apply Nat.lt_succ_diag_r.
Qed.

(** A replacement brings no match of a pattern that had none. *)
Lemma replaceAll_keeps (p : pattern) (starts clean : jsstring -> bool) :
  re_ignoreCase p = true ->
  consuming (re_body p) = true ->
  (forall q rest pos,
      m true (re_body p) (fun s => Some s) (mkState q rest pos []) = None
      <-> starts rest = false) ->
  (forall a c b y, blockedComment = a ++ c :: b -> clean (c :: b ++ y) = false) ->
  (forall x y z, (In 41%N y -> In 41%N z) ->
                 clean (x ++ blockedComment ++ y) = true ->
                 clean (x ++ z) = true) ->
  forall s, nowhere clean s -> nowhere clean (replaceAll p blockedComment s).
Proof.
  intros Hic Hc Hm Hcomment Hlocal s Hn. unfold replaceAll, matchAll.
  rewrite Hic.
  apply (@replaced_keeps (re_body p) starts Hc Hm clean Hcomment Hlocal).
  exact Hn.
Qed.

Lemma sanitized_untouched code : untouched (sanitizeCode code).
Proof.
  unfold sanitizeCode. cbv zeta.
  set (s1 := replaceAll chromeCall blockedComment code).
  set (s2 := replaceAll browserCall blockedComment s1).
  set (s3 := replaceAll fetchCall blockedComment s2).
  set (s4 := replaceAll newXhr blockedComment s3).
  assert (C1 : nowhere (beginsApi (str "chrome.")) s1).
  { apply replaceAll_clean;
      [reflexivity|reflexivity|exact chrome_starts|exact chrome_comment
      |exact chrome_local]. }
  assert (C2 : nowhere (beginsApi (str "chrome.")) s2).
  { apply (@replaceAll_keeps browserCall (beginsApi (str "browser.")));
      [reflexivity|reflexivity|exact browser_starts|exact chrome_comment
      |exact chrome_local|exact C1]. }
  assert (C3 : nowhere (beginsApi (str "chrome.")) s3).
  { apply (@replaceAll_keeps fetchCall beginsFetch);
      [reflexivity|reflexivity|exact fetch_starts|exact chrome_comment
      |exact chrome_local|exact C2]. }
  assert (C4 : nowhere (beginsApi (str "chrome.")) s4).
  { apply (@replaceAll_keeps newXhr beginsXhr);
      [reflexivity|reflexivity|exact xhr_starts|exact chrome_comment
      |exact chrome_local|exact C3]. }
  assert (B2 : nowhere (beginsApi (str "browser.")) s2).
  { apply replaceAll_clean;
      [reflexivity|reflexivity|exact browser_starts|exact browser_comment
      |exact browser_local]. }
  assert (B3 : nowhere (beginsApi (str "browser.")) s3).
  { apply (@replaceAll_keeps fetchCall beginsFetch);
      [reflexivity|reflexivity|exact fetch_starts|exact browser_comment
      |exact browser_local|exact B2]. }
  assert (B4 : nowhere (beginsApi (str "browser.")) s4).
  { apply (@replaceAll_keeps newXhr beginsXhr);
      [reflexivity|reflexivity|exact xhr_starts|exact browser_comment
      |exact browser_local|exact B3]. }
  assert (F3 : nowhere beginsFetch s3).
  { apply replaceAll_clean;
      [reflexivity|reflexivity|exact fetch_starts|exact fetch_comment
      |exact fetch_local]. }
  assert (F4 : nowhere beginsFetch s4).
  { apply (@replaceAll_keeps newXhr beginsXhr);
      [reflexivity|reflexivity|exact xhr_starts|exact fetch_comment
      |exact fetch_local|exact F3]. }
  assert (X4 : nowhere beginsXhr s4).
  { apply replaceAll_clean;
      [reflexivity|reflexivity|exact xhr_starts|exact xhr_comment
      |exact xhr_local']. }
  repeat split.
  - apply (@test_nowhere chromeCall _ eq_refl chrome_starts), C4.
  - apply (@test_nowhere browserCall _ eq_refl browser_starts), B4.
  - apply (@test_nowhere fetchCall _ eq_refl fetch_starts), F4.
  - apply (@test_nowhere newXhr _ eq_refl xhr_starts), X4.
Qed.

(** X25: what the sanitizer returns holds none of the four constructs
    it looks for, whatever the code was: no call into [chrome.] or
    [browser.], no [fetch(...)], no [new XMLHttpRequest].  Sanitizing
    what was sanitized changes nothing. *)
Theorem sanitizeCode_leaves_nothing_to_sanitize (code : jsstring) :
  test chromeCall (sanitizeCode code) = false /\
  test browserCall (sanitizeCode code) = false /\
  test fetchCall (sanitizeCode code) = false /\
  test newXhr (sanitizeCode code) = false /\
  sanitizeCode (sanitizeCode code) = sanitizeCode code.
Proof.
  destruct (sanitized_untouched code) as (H1 & H2 & H3 & H4).
  repeat (split; [assumption|]).
  unfold sanitizeCode at 1. cbv zeta.
  rewrite (replaceAll_none chromeCall blockedComment _ H1).
  rewrite (replaceAll_none browserCall blockedComment _ H2).
  rewrite (replaceAll_none fetchCall blockedComment _ H3).
  apply replaceAll_none, H4.
Qed.

End CleanFacts.
